(** * Local auto-correction tool: a shallow embedding of
    [src/local_auto_correct.py] and the properties of its specification.

    The tool reads QA reports and record files (JSON documents), rewrites
    record metadata as the reports recommend and moves flagged records into
    quarantine folders.

    Modelling conventions.
    - A JSON document is a value of [json]; a Python [dict] is an association
      list in insertion order, read by first match ([dget]) and written in
      place or appended ([dset]), as Python dictionaries behave.  Numbers are
      integers: floating-point values are outside the model.
    - A Python [str] is a [string] whose characters are the code points below
      256; [py_lower], [py_strip] and [py_repr] follow Python on that range.
    - A Python exception is the [Raise] branch of [result]; a function that
      mutates its argument returns the new value next to its result.
    - Records are loaded with [json.load]: they are trees, so no two places
      of a record share one object and in-place mutation is modelled by
      rebuilding the enclosing values. *)

From Stdlib Require Import ZArith String Ascii List DecimalString DecimalNat Lia.
From stdpp Require Import base option list strings gmap.

Local Open Scope string_scope.
Local Open Scope list_scope.

(** ** Python values *)

#[local] Unset Elimination Schemes.
Inductive json : Type :=
| JNull
| JBool (b : bool)
| JInt (n : Z)
| JStr (s : string)
| JList (l : list json)
| JDict (d : list (string * json)).

#[local] Set Elimination Schemes.

Abbreviation dict := (list (string * json)).

(** ** Exceptions *)

Inductive exn : Type :=
| AttributeError
| TypeError
| IsADirectoryError
| FileExistsError.

Inductive result (A : Type) : Type :=
| Ok (a : A)
| Raise (e : exn).
Arguments Ok {A} a.
Arguments Raise {A} e.

#[global] Instance result_ret : MRet result := λ A a, Ok a.
#[global] Instance result_bind : MBind result :=
  λ A B f m, match m with Ok a => f a | Raise e => Raise e end.

(** ** Dictionaries *)

Fixpoint dget {A} (k : string) (d : list (string * A)) : option A :=
  match d with
  | [] => None
  | (k', v) :: d' => if String.eqb k k' then Some v else dget k d'
  end.

(** [d[k] = v]: an existing key keeps its position, a new key goes last. *)
Fixpoint dset {A} (k : string) (v : A) (d : list (string * A)) : list (string * A) :=
  match d with
  | [] => [(k, v)]
  | (k', v') :: d' =>
      if String.eqb k k' then (k', v) :: d' else (k', v') :: dset k v d'
  end.

(** Mutation of a value reached through [d.get(k, default)]: the change is
    visible in [d] only when [k] is a key of [d]; the default is a fresh
    object that nobody else holds. *)
Definition dreplace {A} (k : string) (v : A) (d : list (string * A)) : list (string * A) :=
  match dget k d with
  | Some _ => dset k v d
  | None => d
  end.

Definition dget_default (k : string) (default : json) (d : dict) : json :=
  match dget k d with
  | Some v => v
  | None => default
  end.

(** [d.setdefault(k, default)]: the value now stored under [k], and [d]. *)
Definition setdefault (k : string) (default : json) (d : dict) : json * dict :=
  match dget k d with
  | Some v => (v, d)
  | None => (default, d ++ [(k, default)])
  end.

(** ** Python primitives on values *)

Definition py_truthy (v : json) : bool :=
  match v with
  | JNull => false
  | JBool b => b
  | JInt n => negb (Z.eqb n 0)
  | JStr s => negb (String.eqb s "")
  | JList l => match l with [] => false | _ => true end
  | JDict d => match d with [] => false | _ => true end
  end.

(** [a or b] *)
Definition py_or (a b : json) : json := if py_truthy a then a else b.

(** A test on the items of two lists, position by position. *)
Definition all2 {A} (f : A → A → bool) : list A → list A → bool :=
  fix go l m :=
    match l, m with
    | [], [] => true
    | x :: l', y :: m' => f x y && go l' m'
    | _, _ => false
    end.

(** [a == b].  [True == 1] and [False == 0] hold in Python; dictionaries are
    compared key by key, whatever the insertion order. *)
Fixpoint py_eq (a b : json) {struct a} : bool :=
  match a, b with
  | JNull, JNull => true
  | JBool x, JBool y => Bool.eqb x y
  | JBool x, JInt n => Z.eqb (Z.b2z x) n
  | JInt n, JBool y => Z.eqb n (Z.b2z y)
  | JInt n, JInt m => Z.eqb n m
  | JStr s, JStr t => String.eqb s t
  | JList l, JList m => all2 py_eq l m
  | JDict d, JDict e =>
      Nat.eqb (length d) (length e) &&
      forallb (λ '(k, v),
                 match dget k e with
                 | Some w => py_eq v w
                 | None => false
                 end) d
  | _, _ => false
  end.

(** [o.get(k, default)]; only a dictionary has the method. *)
Definition py_get (o : json) (k : string) (default : json) : result json :=
  match o with
  | JDict d => Ok (dget_default k default d)
  | _ => Raise AttributeError
  end.

Fixpoint chars (s : string) : list string :=
  match s with
  | EmptyString => []
  | String c s' => String c EmptyString :: chars s'
  end.

(** The items a [for] loop (or a comprehension) draws from a value. *)
Definition py_iter (v : json) : result (list json) :=
  match v with
  | JList l => Ok l
  | JDict d => Ok (map (λ kv, JStr kv.1) d)
  | JStr s => Ok (map JStr (chars s))
  | _ => Raise TypeError
  end.

(** Values that can be members of a [set]. *)
Definition py_hashable (v : json) : bool :=
  match v with
  | JList _ | JDict _ => false
  | _ => true
  end.

Fixpoint substring_of (s t : string) : bool :=
  String.prefix s t ||
  match t with
  | EmptyString => false
  | String _ t' => substring_of s t'
  end.

(** [k in v] for a string [k]. *)
Definition py_contains (k : string) (v : json) : result bool :=
  match v with
  | JDict d => Ok (bool_decide (is_Some (dget k d)))
  | JList l => Ok (existsb (py_eq (JStr k)) l)
  | JStr s => Ok (substring_of k s)
  | _ => Raise TypeError
  end.

(** ** Strings *)

Definition char_in_range (lo hi : N) (c : ascii) : bool :=
  (N.leb lo (N_of_ascii c) && N.leb (N_of_ascii c) hi)%bool.

(** [str.isspace] on one character: tab to carriage return, the four
    information separators, space, next line and no-break space. *)
Definition isspace (c : ascii) : bool :=
  char_in_range 9 13 c || char_in_range 28 32 c ||
  N.eqb (N_of_ascii c) 133 || N.eqb (N_of_ascii c) 160.

(** [str.lower] on one character: the letters A-Z and the capital letters
    of the range 192-222, the multiplication sign 215 excepted. *)
Definition lower_char (c : ascii) : ascii :=
  if char_in_range 65 90 c ||
     (char_in_range 192 222 c && negb (N.eqb (N_of_ascii c) 215))
  then ascii_of_N (N_of_ascii c + 32)
  else c.

Fixpoint lower (s : string) : string :=
  match s with
  | EmptyString => EmptyString
  | String c s' => String (lower_char c) (lower s')
  end.

Fixpoint lstrip (s : string) : string :=
  match s with
  | EmptyString => EmptyString
  | String c s' => if isspace c then lstrip s' else s
  end.

Fixpoint rstrip (s : string) : string :=
  match s with
  | EmptyString => EmptyString
  | String c s' =>
      match rstrip s' with
      | EmptyString => if isspace c then EmptyString else String c EmptyString
      | r => String c r
      end
  end.

(** [s.strip()] *)
Definition strip (s : string) : string := rstrip (lstrip s).

(** [s.replace(a, b)] for single characters. *)
Fixpoint replace_char (a b : ascii) (s : string) : string :=
  match s with
  | EmptyString => EmptyString
  | String c s' =>
      String (if Ascii.eqb c a then b else c) (replace_char a b s')
  end.

(** [s.split(sep)] for a single character [sep]. *)
Fixpoint split (sep : ascii) (s : string) : list string :=
  match s with
  | EmptyString => [EmptyString]
  | String c s' =>
      if Ascii.eqb c sep then EmptyString :: split sep s'
      else match split sep s' with
           | [] => [String c EmptyString]
           | piece :: rest => String c piece :: rest
           end
  end.

(** [sep.join(l)] *)
Fixpoint join (sep : string) (l : list string) : string :=
  match l with
  | [] => EmptyString
  | [s] => s
  | s :: l' => s +:+ sep +:+ join sep l'
  end.

(** [s.endswith(t)] *)
Definition endswith (s t : string) : bool :=
  Nat.leb (String.length t) (String.length s) &&
  String.eqb (String.substring (String.length s - String.length t)
                (String.length t) s) t.

(** [s[:-n]] for [n > 0]. *)
Definition drop_last (n : nat) (s : string) : string :=
  String.substring 0 (String.length s - n) s.

Definition nat_to_string (n : nat) : string :=
  NilZero.string_of_uint (Nat.to_uint n).

Definition int_to_string (n : Z) : string :=
  NilZero.string_of_int (Z.to_int n).

Definition hex_digit (n : N) : ascii :=
  match String.get (N.to_nat n) "0123456789abcdef" with
  | Some c => c
  | None => "0"%char
  end.

Definition hex_escape (c : ascii) : string :=
  String "\" (String "x" (String (hex_digit (N.div (N_of_ascii c) 16))
    (String (hex_digit (N.modulo (N_of_ascii c) 16)) EmptyString))).

Fixpoint has_char (c : ascii) (s : string) : bool :=
  match s with
  | EmptyString => false
  | String c' s' => Ascii.eqb c c' || has_char c s'
  end.

Definition apostrophe : ascii := ascii_of_N 39.
Definition double_quote : ascii := ascii_of_N 34.

(** One character of [repr(s)] between the quotes [q]. *)
Definition repr_char (q c : ascii) : string :=
  if Ascii.eqb c q || Ascii.eqb c "\" then String "\" (String c EmptyString)
  else if N.eqb (N_of_ascii c) 9 then "\t"
  else if N.eqb (N_of_ascii c) 10 then "\n"
  else if N.eqb (N_of_ascii c) 13 then "\r"
  else if N.ltb (N_of_ascii c) 32 || char_in_range 127 160 c ||
          N.eqb (N_of_ascii c) 173
  then hex_escape c
  else String c EmptyString.

Definition repr_string (s : string) : string :=
  let q := if has_char apostrophe s && negb (has_char double_quote s)
           then double_quote else apostrophe in
  String q ((fix body (s : string) : string :=
               match s with
               | EmptyString => EmptyString
               | String c s' => repr_char q c +:+ body s'
               end) s +:+ String q EmptyString).

(** [repr(v)] *)
Fixpoint py_repr (v : json) : string :=
  match v with
  | JNull => "None"
  | JBool true => "True"
  | JBool false => "False"
  | JInt n => int_to_string n
  | JStr s => repr_string s
  | JList l =>
      "[" +:+ join ", " ((fix items (l : list json) : list string :=
                            match l with
                            | [] => []
                            | x :: l' => py_repr x :: items l'
                            end) l) +:+ "]"
  | JDict d =>
      "{" +:+ join ", " ((fix items (d : dict) : list string :=
                            match d with
                            | [] => []
                            | (k, x) :: d' =>
                                (repr_string k +:+ ": " +:+ py_repr x) :: items d'
                            end) d) +:+ "}"
  end.

(** [str(v)] *)
Definition py_str (v : json) : string :=
  match v with
  | JStr s => s
  | _ => py_repr v
  end.

(** [d.lower()]; only a string has the method. *)
Definition py_lower (v : json) : result string :=
  match v with
  | JStr s => Ok (lower s)
  | _ => Raise AttributeError
  end.

(** ** Paths

    A path inside a directory is the string of its relative name.  [name],
    [stem] and [suffix] follow [pathlib.PurePath]: the suffix starts at the
    last dot of the name unless that dot is the first or the last
    character. *)

Fixpoint path_name (p : string) : string :=
  match p with
  | EmptyString => EmptyString
  | String c p' =>
      if Ascii.eqb c "/" || has_char "/" p' then path_name p' else p
  end.

Fixpoint rfind (c : ascii) (s : string) : option nat :=
  match s with
  | EmptyString => None
  | String c' s' =>
      match rfind c s' with
      | Some i => Some (S i)
      | None => if Ascii.eqb c' c then Some 0 else None
      end
  end.

Definition suffix_start (name : string) : option nat :=
  match rfind "." name with
  | Some i =>
      if Nat.ltb 0 i && Nat.ltb i (String.length name - 1) then Some i else None
  | None => None
  end.

Definition path_stem (p : string) : string :=
  let name := path_name p in
  match suffix_start name with
  | Some i => String.substring 0 i name
  | None => name
  end.

Definition path_suffix (p : string) : string :=
  let name := path_name p in
  match suffix_start name with
  | Some i => String.substring i (String.length name - i) name
  | None => EmptyString
  end.

(** ** Report keying *)

Definition report_key (report_path : string) (report_data : dict) : string :=
  let record_id := dget_default "record_id" JNull report_data in
  if py_truthy record_id then py_str record_id
  else
    let stem := path_stem report_path in
    if endswith stem "-report" then drop_last 7 stem else stem.

(** ** Views of a record *)

(** The metadata mapping of a record; a record without one reads as the
    empty mapping, as [record.get("metadata", {})] does. *)
Definition metadata_of (record : dict) : dict :=
  match dget "metadata" record with
  | Some (JDict md) => md
  | _ => []
  end.

(** The shape of the data model: [metadata], when present, is a mapping. *)
Definition metadata_ok (record : dict) : Prop :=
  match dget "metadata" record with
  | None | Some (JDict _) => True
  | Some _ => False
  end.

Definition metadata_field (key : string) (record : dict) : option json :=
  dget key (metadata_of record).

(** [metadata[key] = v] on the metadata of a record. *)
Definition set_metadata_field (key : string) (v : json) (record : dict) : dict :=
  dset "metadata" (JDict (dset key v (metadata_of record))) record.

(** ** Loops *)

(** A loop that threads a state through the items of a list and stops at
    the first exception. *)
Fixpoint foldM {A S} (f : A → S → result S) (l : list A) (s : S) : result S :=
  match l with
  | [] => Ok s
  | x :: l' => s' ← f x s; foldM f l' s'
  end.

(** A loop whose body may mutate the item it visits and counts its hits. *)
Fixpoint for_each {A} (f : A → result (A * nat)) (l : list A) : result (list A * nat) :=
  match l with
  | [] => Ok ([], 0)
  | x :: l' =>
      '(x', n) ← f x;
      '(l'', m) ← for_each f l';
      Ok (x' :: l'', n + m)
  end.

(** [for item in xs: body]: the items of a list are the objects stored in
    it; the items of another iterable are strings, which the body cannot
    mutate. *)
Definition for_in (f : json → result (json * nat)) (xs : json) : result (json * nat) :=
  match xs with
  | JList l => '(l', n) ← for_each f l; Ok (JList l', n)
  | _ => items ← py_iter xs; '(_, n) ← for_each f items; Ok (xs, n)
  end.

(** ** Correction appliers *)

(** The body shared by [apply_title], [apply_abstract] and
    [apply_publication_date], which differ in the metadata key only. *)
Definition apply_metadata_field (key : string) (record : dict) (correction : json)
  : result (bool * dict) :=
  if negb (py_truthy correction) then Ok (false, record)
  else
    let '(metadata, record1) := setdefault "metadata" (JDict []) record in
    match metadata with
    | JDict md =>
        let old := dget_default key (JStr "") md in
        if py_eq old correction then Ok (false, record1)
        else Ok (true, dset "metadata" (JDict (dset key correction md)) record1)
    | _ => Raise AttributeError
    end.

Definition apply_title := apply_metadata_field "title".
Definition apply_abstract := apply_metadata_field "description".
Definition apply_publication_date := apply_metadata_field "publication_date".

(** The creators reached through [record.get("metadata", {})] are written
    back where they came from. *)
Definition with_creators (creators : json) (record : dict) : dict :=
  match dget "metadata" record with
  | Some (JDict md) => dset "metadata" (JDict (dreplace "creators" creators md)) record
  | _ => record
  end.

Definition rewrite_affiliation (old_aff new_aff affiliation : json) : result (json * nat) :=
  match affiliation with
  | JDict a =>
      if py_eq (dget_default "name" (JStr "") a) old_aff
      then Ok (JDict (dset "name" new_aff a), 1)
      else Ok (affiliation, 0)
  | _ => Raise AttributeError
  end.

Definition creator_affiliations (old_aff new_aff creator : json) : result (json * nat) :=
  match creator with
  | JDict c =>
      '(affiliations, n) ←
        for_in (rewrite_affiliation old_aff new_aff)
               (dget_default "affiliations" (JList []) c);
      Ok (JDict (dreplace "affiliations" affiliations c), n)
  | _ => Raise AttributeError
  end.

(** One turn of the loop over the corrections, for the rewriting [body] of
    one creator and the names [old_key], [new_key] of the pair. *)
Definition correction_pass (old_key new_key : string)
    (body : json → json → json → result (json * nat))
    (correction : json) (st : json * nat) : result (json * nat) :=
  old_value ← py_get correction old_key (JStr "");
  new_value ← py_get correction new_key (JStr "");
  if negb (py_truthy old_value) || negb (py_truthy new_value) then Ok st
  else
    '(creators, n) ← for_in (body old_value new_value) st.1;
    Ok (creators, st.2 + n).

Definition apply_affiliations (record : dict) (corrections : json) : result (nat * dict) :=
  if negb (py_truthy corrections) then Ok (0, record)
  else
    creators ← py_get (dget_default "metadata" (JDict []) record) "creators" (JList []);
    items ← py_iter corrections;
    '(creators', applied) ←
      foldM (correction_pass "old_affiliation" "recommended_affiliation"
                             creator_affiliations) items (creators, 0);
    Ok (applied, with_creators creators' record).

Definition creator_org_author (old_org new_org creator : json) : result (json * nat) :=
  match creator with
  | JDict c =>
      match dget_default "person_or_org" (JDict []) c with
      | JDict p =>
          if py_eq (dget_default "type" JNull p) (JStr "organizational") &&
             py_eq (dget_default "name" JNull p) old_org
          then Ok (JDict (dreplace "person_or_org" (JDict (dset "name" new_org p)) c), 1)
          else Ok (creator, 0)
      | _ => Raise AttributeError
      end
  | _ => Raise AttributeError
  end.

Definition apply_org_authors (record : dict) (corrections : json) : result (nat * dict) :=
  if negb (py_truthy corrections) then Ok (0, record)
  else
    creators ← py_get (dget_default "metadata" (JDict []) record) "creators" (JList []);
    items ← py_iter corrections;
    '(creators', applied) ←
      foldM (correction_pass "old_organizational_author"
                             "recommended_organizational_author"
                             creator_org_author) items (creators, 0);
    Ok (applied, with_creators creators' record).

Definition descriptor_key : string := "iaea:descriptors_cai_text".

(** The descriptor list read from the stored field, and whether the field
    was a string; [None] for a field that is neither a string nor a list. *)
Definition descriptor_entries (descriptors : json) : option (list json * bool) :=
  match descriptors with
  | JStr s =>
      Some (map JStr (filter (λ d, d ≠ EmptyString)
                        (map strip (split "," (replace_char ";" "," s)))), true)
  | JList l => Some (l, false)
  | _ => None
  end.

(** [{d.lower() for d in deletions if d}] *)
Definition add_lowered (d : json) (acc : gset string) : result (gset string) :=
  if py_truthy d then lo ← py_lower d; Ok ({[lo]} ∪ acc) else Ok acc.

Definition lowered_set (deletions : json) : result (gset string) :=
  items ← py_iter deletions;
  foldM add_lowered items ∅.

(** [[d for d in descriptor_list if d.lower() not in deletions_lower]] *)
Fixpoint keep_descriptors (deletions_lower : gset string) (l : list json)
  : result (list json) :=
  match l with
  | [] => Ok []
  | d :: l' =>
      lo ← py_lower d;
      rest ← keep_descriptors deletions_lower l';
      Ok (if bool_decide (lo ∈ deletions_lower) then rest else d :: rest)
  end.

Fixpoint strings_of (l : list json) : result (list string) :=
  match l with
  | [] => Ok []
  | JStr s :: l' => rest ← strings_of l'; Ok (s :: rest)
  | _ :: _ => Raise TypeError
  end.

(** [sep.join(l)] on values. *)
Definition py_join (sep : string) (l : list json) : result string :=
  strs ← strings_of l; Ok (join sep strs).

Definition apply_descriptor_deletions (record : dict) (deletions : json)
  : result (bool * dict) :=
  if negb (py_truthy deletions) then Ok (false, record)
  else
    match dget_default "custom_fields" (JDict []) record with
    | JDict custom_fields =>
        let descriptors := dget_default descriptor_key JNull custom_fields in
        if negb (py_truthy descriptors) then Ok (false, record)
        else
          match descriptor_entries descriptors with
          | None => Ok (false, record)
          | Some (descriptor_list, original_is_str) =>
              deletions_lower ← lowered_set deletions;
              filtered ← keep_descriptors deletions_lower descriptor_list;
              if Nat.eqb (length filtered) (length descriptor_list)
              then Ok (false, record)
              else
                value ← (if original_is_str : bool
                         then s ← py_join "; " filtered; Ok (JStr s)
                         else Ok (JList filtered));
                (* the log line joins the deletions once the field is written *)
                logged ← py_iter deletions;
                _ ← py_join ", " logged;
                Ok (true, dset "custom_fields"
                            (JDict (dset descriptor_key value custom_fields)) record)
          end
    | _ => Raise AttributeError
    end.

(** [{ri.get("identifier", "") for ri in existing}]; the set is kept as the
    list of its members. *)
Definition collect_identifier (ri : json) (acc : list json) : result (list json) :=
  ident ← py_get ri "identifier" (JStr "");
  if py_hashable ident then Ok (acc ++ [ident]) else Raise TypeError.

Definition identifier_set (existing : json) : result (list json) :=
  items ← py_iter existing;
  foldM collect_identifier items [].

(** [existing.append(x)]; only a list has the method. *)
Definition py_append (existing x : json) : result json :=
  match existing with
  | JList l => Ok (JList (l ++ [x]))
  | _ => Raise AttributeError
  end.

(** One turn of the loop of [add_related_identifiers] on the state
    [(existing, existing_ids, added)]. *)
Definition add_identifier (identifier : json) (st : json * list json * nat)
  : result (json * list json * nat) :=
  let '(existing, existing_ids, added) := st in
  ident ← py_get identifier "identifier" (JStr "");
  if py_truthy ident then
    if py_hashable ident then
      if existsb (py_eq ident) existing_ids then Ok st
      else
        existing' ← py_append existing identifier;
        Ok (existing', existing_ids ++ [ident], added + 1)
    else Raise TypeError
  else Ok st.

Definition add_related_identifiers (record : dict) (identifiers : json)
  : result (nat * dict) :=
  if negb (py_truthy identifiers) then Ok (0, record)
  else
    let '(metadata, record1) := setdefault "metadata" (JDict []) record in
    match metadata with
    | JDict md =>
        let '(existing, md1) := setdefault "related_identifiers" (JList []) md in
        existing_ids ← identifier_set existing;
        items ← py_iter identifiers;
        '(existing', _, added) ← foldM add_identifier items (existing, existing_ids, 0);
        Ok (added, dset "metadata"
                     (JDict (dset "related_identifiers" existing' md1)) record1)
    | _ => Raise AttributeError
    end.

(** ** Disposition *)

(** [report.get("scope_ok") is False] *)
Definition should_move_out_of_scope (report : dict) : bool :=
  match dget "scope_ok" report with
  | Some (JBool false) => true
  | _ => false
  end.

Definition duplicate_reason (report : dict) : option string :=
  let by_title := py_truthy (dget_default "duplicate_by_title" JNull report) in
  let by_doi := py_truthy (dget_default "duplicate_by_doi" JNull report) in
  if by_title && by_doi then Some "title and doi"
  else if by_title then Some "title"
  else if by_doi then Some "doi"
  else None.

Definition should_move_duplicate (report : dict) : bool :=
  match duplicate_reason report with
  | Some reason => negb (String.eqb reason "")
  | None => false
  end.

(** ** Correction orchestrator *)

(** The record under correction and the three results of
    [apply_corrections]. *)
Record run_state : Type := RunState {
  record : dict;
  changed : bool;
  actions : list string;
  unapplied : list string
}.

Definition with_record (r : dict) (st : run_state) : run_state :=
  RunState r (changed st) (actions st) (unapplied st).

(** [actions.append(a); changed = True] *)
Definition applied_action (a : string) (st : run_state) : run_state :=
  RunState (record st) true (actions st ++ [a]) (unapplied st).

(** [unapplied.append(u)] *)
Definition withheld (u : string) (st : run_state) : run_state :=
  RunState (record st) (changed st) (actions st) (unapplied st ++ [u]).

(** [report.get(flag, True)] as a condition. *)
Definition gate (report : dict) (flag : string) : bool :=
  py_truthy (dget_default flag (JBool true) report).

(** The shape of the title, abstract, publication-date and descriptor
    branches: a correction under [key], guarded by [flag]. *)
Definition gated_stage (key flag action note : string)
    (applier : dict → json → result (bool * dict))
    (report : dict) (corrections : json) (st : run_state) : result run_state :=
  present ← py_contains key corrections;
  if present : bool then
    if gate report flag then
      payload ← py_get corrections key JNull;
      '(ok, r) ← applier (record st) payload;
      Ok (if ok : bool then applied_action action (with_record r st)
          else with_record r st)
    else Ok (withheld note st)
  else Ok st.

Definition title_stage :=
  gated_stage "title" "title_corrected" "Title corrected"
    "Title correction present but title_corrected=false" apply_title.

Definition abstract_stage :=
  gated_stage "abstract" "abstract_corrected" "Abstract corrected"
    "Abstract correction present but abstract_corrected=false" apply_abstract.

Definition date_stage :=
  gated_stage "publication_date" "date_corrected" "Publication date corrected"
    "Publication date correction present but date_corrected=false"
    apply_publication_date.

(** [if isinstance(deletions, str): deletions = [deletions]], then
    [deletions or []]. *)
Definition deletion_payload (deletions : json) : json :=
  py_or (match deletions with JStr _ => JList [deletions] | _ => deletions end)
        (JList []).

Definition descriptor_stage :=
  gated_stage "delete_descriptor" "descriptor_corrected" "Descriptors deleted"
    "Descriptor deletions present but descriptor_corrected=false"
    (λ r deletions, apply_descriptor_deletions r (deletion_payload deletions)).

Definition counted (what : string) (n : nat) : string :=
  what +:+ " (" +:+ nat_to_string n +:+ ")".

Definition affiliation_stage (report : dict) (st : run_state) : result run_state :=
  let aff_corrections :=
    py_or (dget_default "affiliation_corrections" (JList []) report) (JList []) in
  if gate report "affiliation_correction_recommended" then
    '(applied, r) ← apply_affiliations (record st) aff_corrections;
    if Nat.ltb 0 applied
    then Ok (applied_action (counted "Affiliations corrected" applied) (with_record r st))
    else if py_truthy aff_corrections
    then Ok (withheld "Affiliation corrections present but no matches found"
               (with_record r st))
    else Ok (with_record r st)
  else if py_truthy aff_corrections
  then Ok (withheld
             "Affiliation corrections present but affiliation_correction_recommended=false"
             st)
  else Ok st.

Definition org_author_stage (report : dict) (st : run_state) : result run_state :=
  let org_corrections :=
    py_or (dget_default "organizational_author_corrections" (JList []) report)
          (JList []) in
  if py_truthy org_corrections then
    '(applied, r) ← apply_org_authors (record st) org_corrections;
    if Nat.ltb 0 applied
    then Ok (applied_action (counted "Organizational authors corrected" applied)
               (with_record r st))
    else Ok (withheld "Organizational author corrections present but no matches found"
               (with_record r st))
  else Ok st.

(** [corrections.get("related_identifiers") if isinstance(corrections, dict)
    else None] *)
Definition related_payload (corrections : json) : json :=
  match corrections with
  | JDict c => dget_default "related_identifiers" JNull c
  | _ => JNull
  end.

(** [if not isinstance(related, list): related = [related]] *)
Definition related_list (related : json) : json :=
  match related with
  | JList _ => related
  | _ => JList [related]
  end.

Definition related_stage (corrections : json) (st : run_state) : result run_state :=
  let related := related_payload corrections in
  if py_truthy related then
    '(added, r) ← add_related_identifiers (record st) (related_list related);
    if Nat.ltb 0 added
    then Ok (applied_action (counted "Related identifiers added" added)
               (with_record r st))
    else Ok (with_record r st)
  else Ok st.

(** [report.get("corrections", {}) or {}] *)
Definition corrections_of (report : dict) : json :=
  py_or (dget_default "corrections" (JDict []) report) (JDict []).

(** The stages that precede the related identifiers, in source order. *)
Definition stages_before_related (report : dict) (st : run_state) : result run_state :=
  let corrections := corrections_of report in
  st ← title_stage report corrections st;
  st ← abstract_stage report corrections st;
  st ← date_stage report corrections st;
  st ← descriptor_stage report corrections st;
  st ← affiliation_stage report st;
  org_author_stage report st.

Definition run_corrections (report : dict) (st : run_state) : result run_state :=
  st ← stages_before_related report st;
  related_stage (corrections_of report) st.

Definition apply_corrections (record : dict) (report : dict) : result run_state :=
  run_corrections report (RunState record false [] []).

(** ** File system

    The batch driver works on five places: the records directory, the QA
    directory, the two quarantine directories, and the audit report file.
    A directory is the list of its entries by relative name, in the order
    in which it is scanned; a quarantine directory may not exist yet.  Here
    the five places are kept apart, as they are when [process] is given
    quarantine directories that lie outside the records directory:
    [records_files] and [qa_files] list the files and folders that are not
    one of the other places.  The module [Wired] below lists the records
    directory with the quarantine folders inside it, as [main] places
    them.

    A file holds a JSON object or text that [json.load] rejects.  A file
    with other JSON (an array, a number), or with bytes that are not
    UTF-8, is not described: [load_json] returns the first as it is and
    lets [UnicodeDecodeError] through for the second. *)

Inductive content : Type :=
| Document (d : dict)      (* a JSON object *)
| NotJson.                 (* text that [json.load] rejects *)

Inductive node : Type :=
| File (c : content)
| Folder.

Abbreviation listing := (list (string * node)).

Record stats : Type := Stats {
  processed : nat;
  corrected : nat;
  moved_out : nat;
  moved_dup : nat;
  missing : nat
}.

(** One entry of the audit trail. *)
Record entry : Type := Entry {
  entry_key : string;
  entry_record_path : option string;
  entry_report_path : string;
  entry_actions : list string;
  entry_recommendations : json;
  entry_unapplied : list string
}.

(** What [render_markdown] writes: the Markdown text is laid out from the
    dry-run marker, the counts and the entries (and from the directory names
    and the clock, which no decision depends on). *)
Record audit : Type := Audit {
  audit_dry_run : bool;
  audit_stats : stats;
  audit_entries : list entry
}.

Record filesystem : Type := FileSystem {
  records_files : listing;
  qa_files : listing;
  out_of_scope_files : option listing;
  duplicates_files : option listing;
  audit_file : option audit
}.

Definition exists_in (name : string) (dir : listing) : bool :=
  bool_decide (is_Some (dget name dir)).

Definition remove_entry (name : string) (dir : listing) : listing :=
  filter (λ e, e.1 ≠ name) dir.

Definition load_json (n : node) : result (option dict) :=
  match n with
  | File (Document d) => Ok (Some d)
  | File NotJson => Ok None
  | Folder => Raise IsADirectoryError
  end.

Definition save_json (path : string) (data : dict) (dry_run : bool) (dir : listing)
  : listing :=
  if dry_run then dir else dset path (File (Document data)) dir.

Definition candidate (stem suffix : string) (i : nat) : string :=
  stem +:+ "_" +:+ nat_to_string i +:+ suffix.

(** The probing loop of [safe_move], from candidate [i] on.  A directory of
    [n] entries cannot hold [n + 1] distinct candidates, so [n] tests
    suffice and the loop is total ([destination_free]). *)
Fixpoint probe (dest : listing) (stem suffix : string) (tests i : nat) : string :=
  match tests with
  | 0 => candidate stem suffix i
  | S tests' =>
      if exists_in (candidate stem suffix i) dest
      then probe dest stem suffix tests' (S i)
      else candidate stem suffix i
  end.

Definition destination (dest : listing) (src : string) : string :=
  if exists_in (path_name src) dest
  then probe dest (path_stem src) (path_suffix src) (length dest) 1
  else path_name src.

(** [safe_move] on the pair of the source directory and the destination
    directory. *)
Definition safe_move (src : string * node) (dry_run : bool)
    (dirs : listing * option listing) : listing * option listing :=
  let dest_files := default [] dirs.2 in
  let dest := destination dest_files src.1 in
  if dry_run then (dirs.1, Some dest_files)
  else (remove_entry src.1 dirs.1, Some (dest_files ++ [(dest, src.2)])).

(** The body of the relocation loop, over the entries that the glob has
    found: directories are passed over. *)
Definition move_files (dry_run : bool) (srcs : listing)
    (dirs : listing * option listing) : listing * option listing :=
  fold_left (λ dirs src,
               match src.2 with
               | Folder => dirs
               | File _ => safe_move src dry_run dirs
               end)
            srcs dirs.

Definition find_record_file (records : listing) (key : string) : option string :=
  let candidate := key +:+ ".json" in
  if exists_in candidate records then Some candidate else None.

(** ** The Markdown report

    [render_markdown] lays the audit trail out as lines of Markdown and
    writes them, joined by line feeds, to the report file, in a dry run as
    in a live one.  The time stamp and the four directories are printed as
    they are formatted; they are given here as the strings printed. *)

Record report_heading : Type := ReportHeading {
  generated : string;
  records_dir : string;
  qa_dir : string;
  out_of_scope_dir : string;
  duplicates_dir : string
}.

Definition line_feed : string := String (ascii_of_N 10) EmptyString.

(** The lines of one entry; iterating over recommendations that are not
    iterable raises. *)
Definition entry_lines (e : entry) : result (list string) :=
  let record_line :=
    match entry_record_path e with
    | Some p => if String.eqb p "" then [] else ["- Record file: `" +:+ p +:+ "`"]
    | None => []
    end in
  let report_line :=
    if String.eqb (entry_report_path e) "" then []
    else ["- QA report: `" +:+ entry_report_path e +:+ "`"] in
  let action_lines :=
    match entry_actions e with
    | [] => ["- Actions: none"]
    | acts => "- Actions:" :: map (λ action, "  - " +:+ action) acts
    end in
  advice ←
    (if py_truthy (entry_recommendations e) ||
        match entry_unapplied e with [] => false | _ => true end
     then
       recs ← py_iter (entry_recommendations e);
       Ok ("- Recommendations not applied:" ::
           map (λ rec, "  - " +:+ py_str rec) recs ++
           map (λ note, "  - " +:+ note) (entry_unapplied e))
     else Ok ["- Recommendations not applied: none"]);
  Ok (["### " +:+ entry_key e; ""] ++ record_line ++ report_line ++ action_lines ++
      advice ++ [""]).

(** The loop over the entries. *)
Fixpoint details (logged : list entry) : result (list string) :=
  match logged with
  | [] => Ok []
  | e :: logged' =>
      lines ← entry_lines e;
      rest ← details logged';
      Ok (lines ++ rest)
  end.

Definition render_markdown_lines (h : report_heading) (dry_run : bool)
    (logged : list entry) (s : stats) : result (list string) :=
  let top :=
    ["# Local Auto-Correction Report"; "";
     "- Generated: " +:+ generated h;
     "- Dry run: " +:+ (if dry_run then "yes" else "no");
     "- Records dir: " +:+ records_dir h;
     "- QA dir: " +:+ qa_dir h;
     "- Out-of-scope dir: " +:+ out_of_scope_dir h;
     "- Duplicates dir: " +:+ duplicates_dir h;
     "";
     "## Summary"; "";
     "- Reports processed: " +:+ nat_to_string (processed s);
     "- Records corrected: " +:+ nat_to_string (corrected s);
     "- Records moved (out-of-scope): " +:+ nat_to_string (moved_out s);
     "- Records moved (duplicates): " +:+ nat_to_string (moved_dup s);
     "- Records missing: " +:+ nat_to_string (missing s);
     "";
     "## Details"; ""] in
  match logged with
  | [] => Ok (top ++ ["_No records processed._"])
  | _ => lines ← details logged; Ok (top ++ lines)
  end.

(** The text written to the report file. *)
Definition render_markdown_text (h : report_heading) (dry_run : bool)
    (logged : list entry) (s : stats) : result string :=
  lines ← render_markdown_lines h dry_run logged s;
  Ok (join line_feed lines +:+ line_feed).

(** [render_markdown] on the file system: the lines are laid out, which
    raises where the text cannot be, and the report file is written, in a
    dry run as in a live one.  The [audit] is what the text is laid out
    from. *)
Definition render_markdown (dry_run : bool) (entries : list entry) (s : stats)
  : result (option audit) :=
  _ ← details entries;
  Ok (Some (Audit dry_run s entries)).

(** ** Batch driver *)

Record batch : Type := Batch {
  files : filesystem;
  counts : stats;
  entries : list entry
}.

Definition recommendations_of (report : dict) : json :=
  py_or (dget_default "recommendations" (JList []) report) (JList []).

Section Process.
(** [pathlib]'s matching of a glob pattern against an entry name. *)
Variable glob_match : string → string → bool.

Definition glob (pattern : string) (dir : listing) : listing :=
  filter (λ e, glob_match pattern e.1 = true) dir.

(** The relocation loop over [records_dir.glob(f"{key}.*")]. *)
Definition relocate (key : string) (dry_run : bool)
    (dirs : listing * option listing) : listing * option listing :=
  move_files dry_run (glob (key +:+ ".*") dirs.1) dirs.

Definition process_key (out_of_scope_name duplicates_name : string) (dry_run : bool)
    (item : string * (dict * string)) (b : batch) : result batch :=
  let '(key, (report, report_file_path)) := item in
  let fs := files b in
  let c := counts b in
  match find_record_file (records_files fs) key with
  | None =>
      Ok (Batch fs
            (Stats (processed c) (corrected c) (moved_out c) (moved_dup c)
                   (missing c + 1))
            (entries b ++
               [Entry key None report_file_path ["Record JSON missing"]
                      (recommendations_of report) []]))
  | Some record_path =>
      loaded ← load_json (default Folder (dget record_path (records_files fs)));
      match loaded with
      | None => Ok b
      | Some rec =>
          st ← apply_corrections rec report;
          let records1 :=
            if changed st
            then save_json record_path (record st) dry_run (records_files fs)
            else records_files fs in
          let move_out := should_move_out_of_scope report in
          let move_dup := should_move_duplicate report in
          let '(records2, out2, dup2) :=
            if move_out then
              let '(r, o) := relocate key dry_run (records1, out_of_scope_files fs) in
              (r, o, duplicates_files fs)
            else if move_dup then
              let '(r, d) := relocate key dry_run (records1, duplicates_files fs) in
              (r, out_of_scope_files fs, d)
            else (records1, out_of_scope_files fs, duplicates_files fs) in
          let acts :=
            if move_out then actions st ++ ["Moved to " +:+ out_of_scope_name]
            else if move_dup then
              actions st ++
                ["Moved to " +:+ duplicates_name +:+ " (duplicate by " +:+
                 default "unknown" (duplicate_reason report) +:+ ")"]
            else actions st in
          let acts := match acts with [] => ["No changes applied"] | _ => acts end in
          Ok (Batch
                (FileSystem records2 (qa_files fs) out2 dup2 (audit_file fs))
                (Stats (processed c + 1)
                       (if changed st then corrected c + 1 else corrected c)
                       (if move_out then moved_out c + 1 else moved_out c)
                       (if move_out then moved_dup c
                        else if move_dup then moved_dup c + 1 else moved_dup c)
                       (missing c))
                (entries b ++
                   [Entry key (Some record_path) report_file_path acts
                          (recommendations_of report) (unapplied st)]))
      end
  end.

(** One turn of the loop that fills [report_map]. *)
Definition add_report (file : string * node)
    (report_map : list (string * (dict * string)))
  : result (list (string * (dict * string))) :=
  data ← load_json file.2;
  match data with
  | None => Ok report_map
  | Some report =>
      let key := report_key file.1 report in
      if String.eqb key "" then Ok report_map
      else Ok (dset key (report, file.1) report_map)
  end.

Definition process (out_of_scope_name duplicates_name : string) (dry_run : bool)
    (fs : filesystem) : result filesystem :=
  let report_files := glob "*.json" (qa_files fs) in
  match report_files with
  | [] => Ok fs
  | _ =>
      report_map ← foldM add_report report_files [];
      b ← foldM (process_key out_of_scope_name duplicates_name dry_run) report_map
            (Batch fs (Stats 0 0 0 0 0) []);
      let fs' := files b in
      report ← render_markdown dry_run (entries b) (counts b);
      Ok (FileSystem (records_files fs') (qa_files fs') (out_of_scope_files fs')
            (duplicates_files fs') report)
  end.
End Process.

(** A matcher for the patterns made of literal characters, [?] and [*];
    it stands for [pathlib]'s in the examples, whose patterns hold no
    bracket. *)
Fixpoint wildcard_match (pattern name : string) {struct pattern} : bool :=
  match pattern with
  | EmptyString => String.eqb name EmptyString
  | String "*" pattern' =>
      (fix any_tail (name : string) : bool :=
         wildcard_match pattern' name ||
         match name with
         | EmptyString => false
         | String _ name' => any_tail name'
         end) name
  | String "?" pattern' =>
      match name with
      | EmptyString => false
      | String _ name' => wildcard_match pattern' name'
      end
  | String c pattern' =>
      match name with
      | EmptyString => false
      | String c' name' => Ascii.eqb c c' && wildcard_match pattern' name'
      end
  end.

(** ** Views used by the statements *)

(** The items of a stored array; a value that is not a list has none. *)
Definition list_items (v : json) : list json :=
  match v with
  | JList l => l
  | _ => []
  end.

(** The related identifiers of a record, in order. *)
Definition related_of (record : dict) : list json :=
  list_items (default (JList []) (metadata_field "related_identifiers" record)).

(** [x.get("identifier", "")] *)
Definition identifier_of (x : json) : json :=
  match x with
  | JDict d => dget_default "identifier" (JStr "") d
  | _ => JStr ""
  end.

(** A related-identifier object: a mapping whose identifier, if any, is a
    string or another scalar. *)
Definition identifier_entry (x : json) : Prop :=
  (∃ d, x = JDict d) ∧ py_hashable (identifier_of x) = true.

(** The shape [add_related_identifiers] expects: the metadata is a mapping
    and the related identifiers, stored or given, are lists of
    related-identifier objects. *)
Definition related_shape (record : dict) (identifiers : list json) : Prop :=
  metadata_ok record ∧
  match metadata_field "related_identifiers" record with
  | None => True
  | Some (JList l) => Forall identifier_entry l
  | Some _ => False
  end ∧
  Forall identifier_entry identifiers.

(** The identifiers of [new] are new to [ids] and to one another, in the
    sense of the membership test of the source. *)
Fixpoint fresh (ids : list json) (new : list json) : Prop :=
  match new with
  | [] => True
  | x :: new' =>
      existsb (py_eq (identifier_of x)) ids = false ∧
      fresh (ids ++ [identifier_of x]) new'
  end.

(** ** Sample data *)

Definition related_entry (ident : string) : json :=
  JDict [("identifier", JStr ident); ("relation_type", JStr "references")].

(** A record with two related identifiers. *)
Definition sample_related_record : dict :=
  [("metadata",
    JDict [("title", JStr "Old");
           ("related_identifiers",
            JList [related_entry "10.1/a"; related_entry "10.1/b"])])].

(** A record whose stored related identifiers already repeat one. *)
Definition repeated_related_record : dict :=
  [("metadata",
    JDict [("related_identifiers",
            JList [related_entry "10.1/a"; related_entry "10.1/a"])])].

(** ** Descriptors, as the statements read them *)

Definition custom_fields_of (record : dict) : dict :=
  match dget "custom_fields" record with
  | Some (JDict cf) => cf
  | _ => []
  end.

(** The shape of the data model: [custom_fields], when present, is a
    mapping. *)
Definition custom_fields_ok (record : dict) : Prop :=
  match dget "custom_fields" record with
  | None | Some (JDict _) => True
  | Some _ => False
  end.

Definition descriptors_of (record : dict) : option json :=
  dget descriptor_key (custom_fields_of record).

Definition set_descriptors (v : json) (record : dict) : dict :=
  dset "custom_fields" (JDict (dset descriptor_key v (custom_fields_of record))) record.

(** Splitting at every character that satisfies [delimiter]. *)
Fixpoint split_by (delimiter : ascii → bool) (s : string) : list string :=
  match s with
  | EmptyString => [EmptyString]
  | String c s' =>
      if delimiter c then EmptyString :: split_by delimiter s'
      else match split_by delimiter s' with
           | [] => [String c EmptyString]
           | piece :: rest => String c piece :: rest
           end
  end.

Definition is_delimiter (c : ascii) : bool := Ascii.eqb c "," || Ascii.eqb c ";".

(** The descriptors of a delimited string: the pieces between commas and
    semicolons, trimmed, the empty ones dropped. *)
Definition read_descriptors (s : string) : list string :=
  filter (λ d, d ≠ EmptyString) (map strip (split_by is_delimiter s)).

(** [d] equals one of the non-empty [deletions], letter case apart. *)
Definition deleted_by (deletions : list string) (d : string) : bool :=
  existsb (λ x, negb (String.eqb x "") && String.eqb (lower d) (lower x)) deletions.

Definition remaining (deletions : list string) (l : list string) : list string :=
  filter (λ d, deleted_by deletions d = false) l.

(** The outcome [res] of a deletion on stored descriptors [l] kept in the
    representation [wrap]: the field keeps its representation, the result
    is true exactly when some entry matches a deletion, and then the field
    holds the entries that match none, in their order. *)
Definition deletion_outcome (record : dict) (ds l : list string)
    (wrap : list string → json) (same_kind : json → Prop)
    (res : result (bool * dict)) : Prop :=
  ∃ (b : bool) (record' : dict),
    res = Ok (b, record') ∧
    (∃ v, descriptors_of record' = Some v ∧ same_kind v) ∧
    (b = true ↔ ∃ d, d ∈ l ∧ deleted_by ds d = true) ∧
    (b = false → record' = record) ∧
    (b = true →
       record' = set_descriptors (wrap (remaining ds l)) record ∧
       descriptors_of record' = Some (wrap (remaining ds l))).

Definition is_string (v : json) : Prop := ∃ s, v = JStr s.
Definition is_list (v : json) : Prop := ∃ l, v = JList l.

(** A record with descriptors kept in one delimited string. *)
Definition sample_descriptor_record : dict :=
  [("custom_fields", JDict [(descriptor_key, JStr "alpha, Beta;gamma ; ")])].

Definition creator (type name : string) (affiliations : list string) : json :=
  JDict [("person_or_org", JDict [("type", JStr type); ("name", JStr name)]);
         ("affiliations", JList (map (λ a, JDict [("name", JStr a)]) affiliations))].

(** A record with one creator affiliated to ["A"]. *)
Definition sample_creator_record : dict :=
  [("metadata", JDict [("title", JStr "Old");
                       ("creators", JList [creator "personal" "Doe, J." ["A"]])])].

Definition affiliation_pair (old new : string) : json :=
  JDict [("old_affiliation", JStr old); ("recommended_affiliation", JStr new)].

(** A report that recommends an affiliation and withholds it by its flag. *)
Definition gated_affiliation_report : dict :=
  [("affiliation_corrections", JList [affiliation_pair "A" "B"]);
   ("affiliation_correction_recommended", JBool false)].

(** A report whose related identifier is already in
    [sample_related_record]. *)
Definition known_identifier_report : dict :=
  [("corrections", JDict [("related_identifiers", related_entry "10.1/a")])].

Definition no_matches_note : string :=
  "Affiliation corrections present but no matches found".

Definition gate_note : string :=
  "Affiliation corrections present but affiliation_correction_recommended=false".

(** ** Pairs of a rewriting correction *)

(** The pair of an affiliation or organisational-author correction, when
    the correction is a mapping with both sides non-empty. *)
Definition pair_of (old_key new_key : string) (correction : json) : option (json * json) :=
  match correction with
  | JDict d =>
      let old_value := dget_default old_key (JStr "") d in
      let new_value := dget_default new_key (JStr "") d in
      if py_truthy old_value && py_truthy new_value
      then Some (old_value, new_value)
      else None
  | _ => None
  end.

(** No pair recommends the value that [old_value] looks for. *)
Definition none_recommends (old_key new_key : string) (old_value : json)
    (items : list json) : bool :=
  forallb (λ c, match pair_of old_key new_key c with
                | Some (_, new_value) => negb (py_eq new_value old_value)
                | None => true
                end) items.

(** No pair recommends the old value of itself or of an earlier pair. *)
Fixpoint chain_free_items (old_key new_key : string) (items : list json) : bool :=
  match items with
  | [] => true
  | c :: rest =>
      match pair_of old_key new_key c with
      | Some (old_value, _) => none_recommends old_key new_key old_value (c :: rest)
      | None => true
      end && chain_free_items old_key new_key rest
  end.

Definition chain_free (old_key new_key : string) (corrections : json) : bool :=
  match py_iter corrections with
  | Ok items => chain_free_items old_key new_key items
  | Raise _ => true
  end.

(** Every correction of [items] is a mapping whose pair, if it has one,
    finds nothing to rewrite in [creators]. *)
Definition settled_pairs (old_key new_key : string)
    (body : json → json → json → result (json * nat))
    (items : list json) (creators : json) : Prop :=
  Forall (λ c, (∃ d, c = JDict d) ∧
               ∀ old_value new_value,
                 pair_of old_key new_key c = Some (old_value, new_value) →
                 for_in (body old_value new_value) creators = Ok (creators, 0))
         items.

Definition fails_on_strings (f : json → result (json * nat)) : Prop :=
  ∀ s, f (JStr s) = Raise AttributeError.

(** A rewriting [g] of the value stored under [key] of a mapping, written
    back in place; the creators' loops have this form. *)
Definition lift_field (key : string) (default : json)
    (g : json → result (json * nat)) (c : json) : result (json * nat) :=
  match c with
  | JDict d =>
      '(v, n) ← g (dget_default key default d);
      Ok (JDict (dreplace key v d), n)
  | _ => Raise AttributeError
  end.

(** The test and the rewriting of [creator_org_author] on the
    [person_or_org] mapping. *)
Definition rewrite_org_author (old_org new_org person_org : json) : result (json * nat) :=
  match person_org with
  | JDict p =>
      if py_eq (dget_default "type" JNull p) (JStr "organizational") &&
         py_eq (dget_default "name" JNull p) old_org
      then Ok (JDict (dset "name" new_org p), 1)
      else Ok (person_org, 0)
  | _ => Raise AttributeError
  end.

(** What a rewriting body must satisfy for the loop over the corrections
    to settle: strings are not creators; after the pair [(old, new)] has run
    nothing matches [old] any more, unless [new] does; a pair leaves alone
    what another pair has settled, unless it recommends that pair's old
    value; and a run that counts nothing has changed nothing. *)
Record settling (body : json → json → json → result (json * nat)) : Prop := Settling {
  settling_strings : ∀ old_value new_value, fails_on_strings (body old_value new_value);
  settling_after : ∀ old_value new_value n x x' k,
    py_eq new_value old_value = false →
    body old_value new_value x = Ok (x', k) →
    body old_value n x' = Ok (x', 0);
  settling_cross : ∀ o n old_value new_value x x' k,
    py_eq new_value o = false →
    body o n x = Ok (x, 0) →
    body old_value new_value x = Ok (x', k) →
    body o n x' = Ok (x', 0);
  settling_zero : ∀ old_value new_value x x',
    body old_value new_value x = Ok (x', 0) → x' = x
}.

(** The creators of a record, as [record.get("metadata", {}).get("creators",
    [])] reads them. *)
Definition creators_value (record : dict) : json :=
  default (JList []) (metadata_field "creators" record).

(** The body shared by [apply_affiliations] and [apply_org_authors]. *)
Definition apply_pairs (old_key new_key : string)
    (body : json → json → json → result (json * nat))
    (record : dict) (corrections : json) : result (nat * dict) :=
  if negb (py_truthy corrections) then Ok (0, record)
  else
    creators ← py_get (dget_default "metadata" (JDict []) record) "creators" (JList []);
    items ← py_iter corrections;
    '(creators', applied) ←
      foldM (correction_pass old_key new_key body) items (creators, 0);
    Ok (applied, with_creators creators' record).

(** ** Places of a record *)

(** The places that a correction writes: one field of the metadata, or the
    descriptors among the custom fields. *)
Inductive place : Type :=
| InMetadata (key : string)
| InCustomFields.

(** [r'] is [r], or [r] with the place [p] overwritten. *)
Definition touches (p : place) (r r' : dict) : Prop :=
  r' = r ∨
  match p with
  | InMetadata key => ∃ v, r' = set_metadata_field key v r
  | InCustomFields => ∃ v, r' = set_descriptors v r
  end.

(** [r'] reads like [r] at the metadata field [key]. *)
Definition same_field (key : string) (r r' : dict) : Prop :=
  (metadata_ok r → metadata_ok r') ∧ metadata_field key r' = metadata_field key r.

(** [r'] has the custom fields of [r]. *)
Definition same_custom (r r' : dict) : Prop :=
  dget "custom_fields" r' = dget "custom_fields" r.

(** A stage that changes nothing of the record [r], of the flag and of the
    actions; it may add notes. *)
Definition quiet_on (stage : run_state → result run_state) (r : dict) : Prop :=
  ∀ st, record st = r →
        ∃ notes, stage st = Ok (RunState r (changed st) (actions st)
                                  (unapplied st ++ notes)).

(** A JSON value as [json.load] builds it: no mapping has a key twice. *)
Definition every {A} (P : A → Prop) : list A → Prop :=
  fix go l :=
    match l with
    | [] => True
    | x :: l' => P x ∧ go l'
    end.

Fixpoint json_wf (v : json) : Prop :=
  match v with
  | JList l => every json_wf l
  | JDict d => NoDup (map fst d) ∧ every (λ '(_, x), json_wf x) d
  | _ => True
  end.

(** ** Descriptor entries as they are written back *)

Fixpoint any_char (p : ascii → bool) (s : string) : bool :=
  match s with
  | EmptyString => false
  | String c s' => p c || any_char p s'
  end.

(** An entry of [read_descriptors]: not empty, trimmed, and free of
    delimiters. *)
Definition clean (s : string) : Prop :=
  s ≠ EmptyString ∧ strip s = s ∧ any_char is_delimiter s = false.

(** The first character, if any, is not a space. *)
Definition starts_clean (s : string) : Prop :=
  match s with
  | EmptyString => True
  | String c _ => isspace c = false
  end.

(** ** The common shape of the stages *)

(** What a stage decides from the report before it looks at the record:
    to leave notes and go on, to call its applier with a payload, or to
    fail. *)
Inductive plan : Type :=
| Skip (notes : list string)
| Call (payload : json)
| Fail (e : exn).

(** [unapplied.extend(notes)] *)
Definition add_notes (notes : list string) (st : run_state) : run_state :=
  RunState (record st) (changed st) (actions st) (unapplied st ++ notes).

(** A stage run from its plan: the applier's result [x] either counts as a
    change, which is recorded as the action [label x], or leaves
    [quiet_notes]. *)
Definition staged {X} (p : plan) (applier : dict → json → result (X * dict))
    (is_change : X → bool) (label : X → string) (quiet_notes : list string)
    (st : run_state) : result run_state :=
  match p with
  | Skip notes => Ok (add_notes notes st)
  | Fail e => Raise e
  | Call payload =>
      '(x, r) ← applier (record st) payload;
      Ok (if is_change x then applied_action (label x) (with_record r st)
          else add_notes quiet_notes (with_record r st))
  end.

Definition gated_plan (key flag note : string) (report : dict) (corrections : json)
  : plan :=
  match py_contains key corrections with
  | Raise e => Fail e
  | Ok false => Skip []
  | Ok true =>
      if gate report flag then
        match py_get corrections key JNull with
        | Ok payload => Call payload
        | Raise e => Fail e
        end
      else Skip [note]
  end.

Definition affiliation_payload (report : dict) : json :=
  py_or (dget_default "affiliation_corrections" (JList []) report) (JList []).

Definition org_author_payload (report : dict) : json :=
  py_or (dget_default "organizational_author_corrections" (JList []) report)
        (JList []).

Definition affiliation_plan (report : dict) : plan :=
  if gate report "affiliation_correction_recommended"
  then Call (affiliation_payload report)
  else if py_truthy (affiliation_payload report) then Skip [gate_note] else Skip [].

Definition org_author_plan (report : dict) : plan :=
  if py_truthy (org_author_payload report) then Call (org_author_payload report)
  else Skip [].

Definition related_plan (corrections : json) : plan :=
  if py_truthy (related_payload corrections)
  then Call (related_list (related_payload corrections))
  else Skip [].

(** The stages of [apply_corrections], in source order. *)
Definition stages (report : dict) : list (run_state → result run_state) :=
  let corrections := corrections_of report in
  [title_stage report corrections; abstract_stage report corrections;
   date_stage report corrections; descriptor_stage report corrections;
   affiliation_stage report; org_author_stage report; related_stage corrections].

Definition run_stages (l : list (run_state → result run_state)) (st : run_state)
  : result run_state :=
  foldM (λ stage st, stage st) l st.

(** A stage that is quiet on every record it returns. *)
Definition settles_itself (stage : run_state → result run_state) : Prop :=
  ∀ st st', stage st = Ok st' → quiet_on stage (record st').

(** [later] leaves [stage] quiet where it was. *)
Definition respects (stage later : run_state → result run_state) : Prop :=
  ∀ st st', quiet_on stage (record st) → later st = Ok st' →
            quiet_on stage (record st').

(** Every stage is respected by the stages after it. *)
Fixpoint respected_in_order (l : list (run_state → result run_state)) : Prop :=
  match l with
  | [] => True
  | stage :: l' => Forall (respects stage) l' ∧ respected_in_order l'
  end.

(** A record whose creator is affiliated to ["A"], and a report whose second
    affiliation correction recommends the old value of the first. *)
Definition chained_affiliation_report : dict :=
  [("affiliation_corrections",
    JList [affiliation_pair "B" "C"; affiliation_pair "A" "B"])].

(** A report with one correction of every kind, all of which apply to
    [sample_full_record]. *)
Definition sample_full_record : dict :=
  [("metadata",
    JDict [("title", JStr "Old");
           ("creators", JList [creator "organizational" "IAEA" ["A"; "B"]])]);
   ("custom_fields", JDict [(descriptor_key, JStr "alpha, Beta;gamma ; ")])].

Definition sample_full_report : dict :=
  [("corrections",
    JDict [("title", JStr "New");
           ("delete_descriptor", JStr "BETA");
           ("related_identifiers", related_entry "10.1/x")]);
   ("affiliation_corrections",
    JList [affiliation_pair "A" "B"; affiliation_pair "B" "C"]);
   ("organizational_author_corrections",
    JList [JDict [("old_organizational_author", JStr "IAEA");
                  ("recommended_organizational_author", JStr "I.A.E.A.")]])].

(** An applier that does nothing, and returns [zero], when it is run again
    on its own output with the same payload. *)
Definition settles_on_output {X} (applier : dict → json → result (X * dict))
    (zero : X) (payload : json) : Prop :=
  ∀ r x r', applier r payload = Ok (x, r') → applier r' payload = Ok (zero, r').

(** ** Arrays of a record *)

(** A relation between the items of two lists, position by position. *)
Definition every2 {A} (R : A → A → Prop) : list A → list A → Prop :=
  fix go l m :=
    match l, m with
    | [] , [] => True
    | x :: l', y :: m' => R x y ∧ go l' m'
    | _, _ => False
    end.

(** Two values that are the same tree: the same arrays, item by item and in
    the same order, and the same mappings, key by key; only what is stored
    under a key ["name"] may differ. *)
Fixpoint same_but_names (a b : json) {struct a} : Prop :=
  match a, b with
  | JList l, JList m => every2 same_but_names l m
  | JDict d, JDict e =>
      every2 (λ '(k, v) '(k', w), k = k' ∧ (k = "name" ∨ same_but_names v w)) d e
  | _, _ => a = b
  end.

Definition creators_of (record : dict) : list json :=
  list_items (creators_value record).

(** [creator.get("affiliations", [])] as a list. *)
Definition affiliations_of (creator : json) : list json :=
  match creator with
  | JDict c => list_items (dget_default "affiliations" (JList []) c)
  | _ => []
  end.

(** The descriptor entries of a record, whichever way they are stored. *)
Definition descriptor_items (record : dict) : list json :=
  match descriptors_of record with
  | Some stored =>
      match descriptor_entries stored with
      | Some (l, _) => l
      | None => []
      end
  | None => []
  end.

(** What every applier keeps: the creators and all they contain up to
    names, the related identifiers as a prefix, and the descriptors as a
    supersequence. *)
Definition arrays_kept (r r' : dict) : Prop :=
  same_but_names (creators_value r) (creators_value r') ∧
  (∃ new, related_of r' = related_of r ++ new) ∧
  descriptor_items r' `sublist_of` descriptor_items r.

(** The same, for an applier that is neither the descriptor deletion nor
    the related-identifier addition. *)
Definition arrays_fixed (r r' : dict) : Prop :=
  same_but_names (creators_value r) (creators_value r') ∧
  related_of r' = related_of r ∧
  descriptor_items r' = descriptor_items r.

(** The contract of an applier that overwrites the metadata field [key]:
    - an empty correction, or one equal to the current value, changes
      nothing and returns false;
    - any other correction is stored under [key], every other field of the
      metadata and of the record stays as it was, and the result is true;
    - a field that was present is still present afterwards. *)
Definition overwrite_contract
    (applier : dict → json → result (bool * dict)) (key : string) : Prop :=
  ∀ (record : dict) (correction : json),
    let current := default (JStr "") (metadata_field key record) in
    (py_truthy correction = false → applier record correction = Ok (false, record)) ∧
    (metadata_ok record →
     (py_eq current correction = true → applier record correction = Ok (false, record)) ∧
     (py_truthy correction = true → py_eq current correction = false →
      ∃ record',
        applier record correction = Ok (true, record') ∧
        metadata_field key record' = Some correction ∧
        (∀ key', key' ≠ key →
           metadata_field key' record' = metadata_field key' record) ∧
        (∀ k, k ≠ "metadata" → dget k record' = dget k record)) ∧
     (∀ b record',
        applier record correction = Ok (b, record') →
        is_Some (metadata_field key record) →
        is_Some (metadata_field key record'))).

(** An item that the loop passes over: its identifier is empty or known. *)
Definition passed_over (ids : list json) (x : json) : Prop :=
  ∃ d, x = JDict d ∧
       (py_truthy (identifier_of x) = false ∨
        py_hashable (identifier_of x) = true ∧
        existsb (py_eq (identifier_of x)) ids = true).

(** ** Views of a batch run *)

Definition is_file (n : node) : bool :=
  match n with
  | File _ => true
  | Folder => false
  end.

(** The files that the relocation of [key] moves. *)
Definition moved_files (glob_match : string → string → bool) (key : string)
    (records : listing) : listing :=
  filter (λ e, is_file e.2 = true) (glob glob_match (key +:+ ".*") records).

(** The keys of the reports of the QA directory, in the order of
    [report_map]. *)
Definition report_keys (glob_match : string → string → bool) (fs : filesystem)
  : list string :=
  match foldM (add_report) (glob glob_match "*.json" (qa_files fs)) [] with
  | Ok report_map => map fst report_map
  | Raise _ => []
  end.

(** A records directory with the record [1] and its PDF, and a QA
    directory whose report flags the record as out of scope and as a
    duplicate. *)
Definition flagged_report : dict :=
  [("scope_ok", JBool false); ("duplicate_by_title", JBool true);
   ("recommendations", JList [JStr "check the scope"])].

Definition sample_filesystem : filesystem :=
  FileSystem
    [("1.json", File (Document [("metadata", JDict [("title", JStr "Old")])]));
     ("1.pdf", File NotJson);
     ("2.json", File (Document []))]
    [("1-report.json", File (Document flagged_report));
     ("2-report.json", File (Document [("corrections", JDict [("title", JStr "New")])]));
     ("3-report.json", File (Document []))]
    None None None.


(** ** Views of the audit trail *)

(** What the counts and the entries of a batch keep in step: one entry for
    each key counted as processed or missing, and no more corrections or
    relocations than processed records. *)
Definition accounted (s : stats) (logged : list entry) : Prop :=
  (length logged = processed s + missing s ∧
   corrected s ≤ processed s ∧
   moved_out s + moved_dup s ≤ processed s)%nat.

(** The audit report that a run has left. *)
Definition audit_of (run : result filesystem) : option audit :=
  match run with
  | Ok fs => audit_file fs
  | Raise _ => None
  end.

(** A report that flags its record as a duplicate by DOI only, and a report
    that corrects a title. *)
Definition duplicate_report : dict :=
  [("scope_ok", JBool true); ("duplicate_by_doi", JBool true)].

Definition title_report : dict :=
  [("corrections", JDict [("title", JStr "New")])].

Definition sample_batch : batch := Batch sample_filesystem (Stats 0 0 0 0 0) [].

(** The number of entries that the records directory and the quarantine
    directories hold together. *)
Definition entry_count (fs : filesystem) : nat :=
  length (records_files fs) + length (default [] (out_of_scope_files fs)) +
  length (default [] (duplicates_files fs)).


(** ** The ledger of a run of the orchestrator *)

(** From [st] to [st'], the actions have grown by a selection of [labels]
    and the notes by a selection of [notes], in their order; the flag is
    raised exactly when an action was added. *)
Definition logs (labels notes : list string) (st st' : run_state) : Prop :=
  ∃ acts more,
    actions st' = actions st ++ acts ∧
    unapplied st' = unapplied st ++ more ∧
    acts `sublist_of` labels ∧
    more `sublist_of` notes ∧
    changed st' = (changed st || match acts with [] => false | _ => true end).

(** The actions that [apply_corrections] can log, in source order; the
    counts stand in the last three. *)
Definition action_labels (affiliations org_authors related : nat) : list string :=
  ["Title corrected"; "Abstract corrected"; "Publication date corrected";
   "Descriptors deleted";
   counted "Affiliations corrected" affiliations;
   counted "Organizational authors corrected" org_authors;
   counted "Related identifiers added" related].

(** The notes that [apply_corrections] can leave, in source order. *)
Definition unapplied_notes : list string :=
  ["Title correction present but title_corrected=false";
   "Abstract correction present but abstract_corrected=false";
   "Publication date correction present but date_corrected=false";
   "Descriptor deletions present but descriptor_corrected=false";
   no_matches_note; gate_note;
   "Organizational author corrections present but no matches found"].

(** The note that a closed gate leaves for a correction that is present. *)
Definition present_note (key note : string) (corrections : dict) : list string :=
  if bool_decide (is_Some (dget key corrections)) then [note] else [].

(** The notes of a report all of whose gates are closed. *)
Definition withheld_notes (report corrections : dict) : list string :=
  present_note "title" "Title correction present but title_corrected=false" corrections ++
  present_note "abstract" "Abstract correction present but abstract_corrected=false"
    corrections ++
  present_note "publication_date"
    "Publication date correction present but date_corrected=false" corrections ++
  present_note "delete_descriptor"
    "Descriptor deletions present but descriptor_corrected=false" corrections ++
  (if py_truthy (affiliation_payload report) then [gate_note] else []).

(** A report whose gates are all closed, with a title correction and an
    organisational-author correction. *)
Definition closed_report : dict :=
  [("corrections", JDict [("title", JStr "New")]);
   ("title_corrected", JBool false);
   ("abstract_corrected", JBool false);
   ("date_corrected", JBool false);
   ("descriptor_corrected", JBool false);
   ("affiliation_correction_recommended", JBool false);
   ("organizational_author_corrections",
    JList [JDict [("old_organizational_author", JStr "IAEA");
                  ("recommended_organizational_author", JStr "I.A.E.A.")]])].

(** ** What one correction does to the creators *)

(** The name of an affiliation, or of a [person_or_org] mapping, as the
    appliers read it. *)
Definition affiliation_name (a : json) : json :=
  match a with
  | JDict d => dget_default "name" (JStr "") d
  | _ => JNull
  end.

(** An affiliation after the correction [(old_aff, new_aff)]. *)
Definition renamed_affiliation (old_aff new_aff : json) (a : json) : json :=
  match a with
  | JDict d => if py_eq (affiliation_name a) old_aff then JDict (dset "name" new_aff d) else a
  | _ => a
  end.

Definition affiliation_list (c : json) : list json :=
  match c with
  | JDict d => match dget "affiliations" d with Some (JList l) => l | _ => [] end
  | _ => []
  end.

(** A creator after the correction: its affiliations are renamed in place,
    and nothing else of it changes. *)
Definition renamed_affiliations (old_aff new_aff : json) (c : json) : json :=
  match c with
  | JDict d =>
      match dget "affiliations" d with
      | Some (JList l) =>
          JDict (dset "affiliations" (JList (map (renamed_affiliation old_aff new_aff) l)) d)
      | _ => c
      end
  | _ => c
  end.

(** The affiliations of a creator, and of all creators, that the correction
    matches. *)
Definition affiliation_hits (old_aff : json) (c : json) : nat :=
  length (filter (λ a, py_eq (affiliation_name a) old_aff = true) (affiliation_list c)).

Definition matching_affiliations (old_aff : json) (cs : list json) : nat :=
  sum_list (map (affiliation_hits old_aff) cs).

(** The creators of the data model: mappings whose [affiliations], if
    present, is a list of mappings, and whose [person_or_org], if present,
    is a mapping. *)
Definition creator_shape (c : json) : Prop :=
  ∃ d, c = JDict d ∧
       match dget "affiliations" d with
       | None => True
       | Some (JList l) => Forall (λ a, ∃ ad, a = JDict ad) l
       | Some _ => False
       end ∧
       match dget "person_or_org" d with
       | None | Some (JDict _) => True
       | Some _ => False
       end.

(** A creator is organisational and carries the name [old_org]. *)
Definition org_author_named (old_org : json) (c : json) : bool :=
  match c with
  | JDict d =>
      match dget "person_or_org" d with
      | Some (JDict p) =>
          py_eq (dget_default "type" JNull p) (JStr "organizational") &&
          py_eq (dget_default "name" JNull p) old_org
      | _ => false
      end
  | _ => false
  end.

(** A creator after the organisational-author correction
    [(old_org, new_org)]. *)
Definition renamed_org_author (old_org new_org : json) (c : json) : json :=
  match c with
  | JDict d =>
      match dget "person_or_org" d with
      | Some (JDict p) =>
          if org_author_named old_org c
          then JDict (dset "person_or_org" (JDict (dset "name" new_org p)) d)
          else c
      | _ => c
      end
  | _ => c
  end.

(** A person and an organisation of the same name, the second with two
    affiliations that differ in letter case only. *)
Definition mixed_creators : list json :=
  [creator "personal" "IAEA" ["A"]; creator "organizational" "IAEA" ["A"; "a"]].

Definition mixed_creators_record : dict :=
  [("metadata", JDict [("title", JStr "Old"); ("creators", JList mixed_creators)])].

Definition org_author_pair (old new : string) : json :=
  JDict [("old_organizational_author", JStr old);
         ("recommended_organizational_author", JStr new)].


(** ** The sections of the report *)

(** The keys of the sections of a report: the lines that start a section,
    without the mark. *)
Definition section_key (line : string) : option string :=
  if String.prefix "### " line
  then Some (String.substring 4 (String.length line - 4) line)
  else None.

(** An entry whose recommendations [render_markdown] iterates over, but
    cannot. *)
Definition unprintable (e : entry) : Prop :=
  (py_truthy (entry_recommendations e) = true ∨ entry_unapplied e ≠ []) ∧
  py_iter (entry_recommendations e) = Raise TypeError.

(** An audit trail with two entries, and one whose recommendations are a
    number. *)
Definition sample_entries : list entry :=
  [Entry "1" (Some "/records/1.json") "/qa/1-report.json"
     ["Title corrected"; "Moved to Possible_Out_Of_Scope"]
     (JList [JStr "check the scope"]) ["Affiliation corrections present but no matches found"];
   Entry "3" None "/qa/3-report.json" ["Record JSON missing"] (JList []) []].

Definition sample_heading : report_heading :=
  ReportHeading "2024-01-01T00:00:00" "/records" "/qa" "/records/Possible_Out_Of_Scope"
    "/records/Possible_Duplicates".


(** ** The frame of the corrections *)

(** The metadata fields that a correction can write. *)
Definition corrected_fields : list string :=
  ["title"; "description"; "publication_date"; "creators"; "related_identifiers"].

(** [r'] differs from [r] at most in the corrected metadata fields and in
    the descriptors. *)
Definition framed (r r' : dict) : Prop :=
  (∀ k, k ≠ "metadata" → k ≠ "custom_fields" → dget k r' = dget k r) ∧
  (∀ key, key ∉ corrected_fields → metadata_field key r' = metadata_field key r) ∧
  (∀ key, key ≠ descriptor_key →
          dget key (custom_fields_of r') = dget key (custom_fields_of r)).

(** ** The lines of the report *)

(** A string without a line break. *)
Definition single_line (s : string) : bool :=
  negb (has_char (ascii_of_N 10) s || has_char (ascii_of_N 13) s).

(** The lines of a text: the pieces between its line feeds. *)
Definition text_lines (text : string) : list string := split (ascii_of_N 10) text.

(** No string that the heading prints holds a line break. *)
Definition heading_single_lines (h : report_heading) : bool :=
  forallb single_line
    [generated h; records_dir h; qa_dir h; out_of_scope_dir h; duplicates_dir h].

(** No string that the section of [e] prints holds a line break. *)
Definition entry_single_lines (e : entry) : bool :=
  single_line (entry_key e) &&
  single_line (default "" (entry_record_path e)) &&
  single_line (entry_report_path e) &&
  forallb single_line (entry_actions e) &&
  forallb (λ rec, single_line (py_str rec))
          (match py_iter (entry_recommendations e) with
           | Ok recs => recs
           | Raise _ => []
           end) &&
  forallb single_line (entry_unapplied e).

(** An entry whose key holds a line feed and the mark of a section. *)
Definition forged_entry : entry :=
  Entry ("1" +:+ line_feed +:+ "### 999") None "/qa/1-report.json" ["Record JSON missing"]
    (JList []) [].

(** ** Reports that cannot be read *)

(** A file that [json.load] rejects. *)
Definition is_not_json (n : node) : bool :=
  match n with
  | File NotJson => true
  | _ => false
  end.

(** ** The directories as [main] wires them

    [main] joins the names given for the two quarantine directories to the
    records directory: with plain names, as the defaults are, they are
    subfolders of the records directory, which [safe_move] makes on the
    first move.  Here the records directory is listed with its folders, in
    the order in which it is scanned, and a folder with what it holds.

    The report file is kept apart: [main] puts it into the QA directory
    unless it is told otherwise, under a name that [*.json] does not
    match, and [ws_qa] lists the other entries of the QA directory.  The QA
    directory and the report file lie outside the records directory.  The
    keys are taken to be plain names: a key with a path separator leads
    [find_record_file] and [save_json] out of the directory that is
    listed.  [glob_match] stands for the matching of a pattern that
    [pathlib] accepts. *)

Module Wired.

Inductive item : Type :=
| Regular (c : content)            (* a file *)
| Directory (held : listing).      (* a folder, with its entries *)

Abbreviation tree := (list (string * item)).

Record workspace : Type := Workspace {
  ws_records : tree;
  ws_qa : listing;
  ws_report : option audit
}.

Definition load_json (n : item) : result (option dict) :=
  match n with
  | Regular (Document d) => Ok (Some d)
  | Regular NotJson => Ok None
  | Directory _ => Raise IsADirectoryError
  end.

Definition save_json (path : string) (data : dict) (dry_run : bool) (dir : tree)
  : tree :=
  if dry_run then dir else dset path (Regular (Document data)) dir.

(** [dest_dir.mkdir(parents=True, exist_ok=True)] for the folder [name] of
    [dir]. *)
Definition mkdir (name : string) (dir : tree) : result tree :=
  match dget name dir with
  | None => Ok (dir ++ [(name, Directory [])])
  | Some (Directory _) => Ok dir
  | Some (Regular _) => Raise FileExistsError
  end.

Definition held_by (name : string) (dir : tree) : listing :=
  match dget name dir with
  | Some (Directory held) => held
  | _ => []
  end.

(** [safe_move] of the file [src] of [dir] into the folder [dest_dir] of
    [dir]: the folder is made before the dry-run flag is looked at. *)
Definition safe_move (src : string * content) (dest_dir : string) (dry_run : bool)
    (dir : tree) : result tree :=
  dir ← mkdir dest_dir dir;
  let held := held_by dest_dir dir in
  let dest := destination held src.1 in
  if dry_run then Ok dir
  else Ok (dset dest_dir (Directory (held ++ [(dest, File src.2)]))
             (filter (λ e, e.1 ≠ src.1) dir)).

Definition find_record_file (dir : tree) (key : string) : option string :=
  let candidate := key +:+ ".json" in
  if bool_decide (is_Some (dget candidate dir)) then Some candidate else None.

Record batch : Type := Batch {
  files : workspace;
  counts : stats;
  entries : list entry
}.

Section Process.
Variable glob_match : string → string → bool.

(** [list(qa_dir.glob("*.json"))] *)
Definition report_files (qa_dir : listing) : listing := glob glob_match "*.json" qa_dir.

Definition glob (pattern : string) (dir : tree) : tree :=
  filter (λ e, glob_match pattern e.1 = true) dir.

(** The body of the relocation loop: folders are passed over. *)
Definition move_file (dest_dir : string) (dry_run : bool) (src : string * item)
    (dir : tree) : result tree :=
  match src.2 with
  | Directory _ => Ok dir
  | Regular c => safe_move (src.1, c) dest_dir dry_run dir
  end.

(** The relocation loop over [records_dir.glob(f"{key}.*")]: the directory
    is scanned when the loop starts. *)
Definition relocate (key dest_dir : string) (dry_run : bool) (dir : tree)
  : result tree :=
  foldM (move_file dest_dir dry_run) (glob (key +:+ ".*") dir) dir.

Definition process_key (out_of_scope_name duplicates_name : string) (dry_run : bool)
    (item : string * (dict * string)) (b : batch) : result batch :=
  let '(key, (report, report_file_path)) := item in
  let ws := files b in
  let c := counts b in
  match find_record_file (ws_records ws) key with
  | None =>
      Ok (Batch ws
            (Stats (processed c) (corrected c) (moved_out c) (moved_dup c)
                   (missing c + 1))
            (entries b ++
               [Entry key None report_file_path ["Record JSON missing"]
                      (recommendations_of report) []]))
  | Some record_path =>
      loaded ← load_json (default (Directory []) (dget record_path (ws_records ws)));
      match loaded with
      | None => Ok b
      | Some rec =>
          st ← apply_corrections rec report;
          let records1 :=
            if changed st
            then save_json record_path (record st) dry_run (ws_records ws)
            else ws_records ws in
          let move_out := should_move_out_of_scope report in
          let move_dup := should_move_duplicate report in
          records2 ←
            (if move_out then relocate key out_of_scope_name dry_run records1
             else if move_dup then relocate key duplicates_name dry_run records1
             else Ok records1);
          let acts :=
            if move_out then actions st ++ ["Moved to " +:+ out_of_scope_name]
            else if move_dup then
              actions st ++
                ["Moved to " +:+ duplicates_name +:+ " (duplicate by " +:+
                 default "unknown" (duplicate_reason report) +:+ ")"]
            else actions st in
          let acts := match acts with [] => ["No changes applied"] | _ => acts end in
          Ok (Batch
                (Workspace records2 (ws_qa ws) (ws_report ws))
                (Stats (processed c + 1)
                       (if changed st then corrected c + 1 else corrected c)
                       (if move_out then moved_out c + 1 else moved_out c)
                       (if move_out then moved_dup c
                        else if move_dup then moved_dup c + 1 else moved_dup c)
                       (missing c))
                (entries b ++
                   [Entry key (Some record_path) report_file_path acts
                          (recommendations_of report) (unapplied st)]))
      end
  end.

Definition process (out_of_scope_name duplicates_name : string) (dry_run : bool)
    (ws : workspace) : result workspace :=
  match report_files (ws_qa ws) with
  | [] => Ok ws
  | found =>
      report_map ← foldM add_report found [];
      b ← foldM (process_key out_of_scope_name duplicates_name dry_run) report_map
            (Batch ws (Stats 0 0 0 0 0) []);
      report ← render_markdown dry_run (entries b) (counts b);
      Ok (Workspace (ws_records (files b)) (ws_qa (files b)) report)
  end.
End Process.

(** *** Views used by the statements *)


(** [report_map], as the first loop of [process] leaves it. *)
Definition report_map (glob_match : string → string → bool) (ws : workspace)
  : list (string * (dict * string)) :=
  match foldM add_report (report_files glob_match (ws_qa ws)) [] with
  | Ok report_map => report_map
  | Raise _ => []
  end.

(** [dir] has a file called [name]. *)
Definition holds_file (name : string) (dir : tree) : bool :=
  existsb (λ e, String.eqb e.1 name &&
                match e.2 with Regular _ => true | Directory _ => false end) dir.



(** A name that is one component of a path. *)
Definition plain_name (name : string) : bool :=
  negb (has_char "/" name) &&
  negb (String.eqb name "" || String.eqb name "." || String.eqb name "..").

(** The quarantine folders are named by plain names and the keys hold no
    path separator: the folders are entries of the records directory and
    the record files are looked for among its entries. *)
Definition plainly_named (glob_match : string → string → bool)
    (out_of_scope_name duplicates_name : string) (ws : workspace) : bool :=
  plain_name out_of_scope_name && plain_name duplicates_name &&
  forallb (λ key, negb (has_char "/" key)) (map fst (report_map glob_match ws)).



(** What a run may do to the records directory: the only names it adds
    are those of the quarantine folders, it adds no file, it leaves the
    other folders as they are, and what a quarantine folder held is still
    there, in place, under names that are still distinct. *)
Definition only_quarantined (out_of_scope_name duplicates_name : string)
    (dir dir' : tree) : Prop :=
  (∀ name, name ∈ map fst dir' →
           name ∈ map fst dir ∨ name = out_of_scope_name ∨ name = duplicates_name) ∧
  (∀ name, holds_file name dir' = true → holds_file name dir = true) ∧
  (∀ name held, dget name dir = Some (Directory held) →
     ∃ more, dget name dir' = Some (Directory (held ++ more)) ∧
             (name ≠ out_of_scope_name → name ≠ duplicates_name → more = []) ∧
             (NoDup (map fst held) → NoDup (map fst (held ++ more)))) ∧
  (∀ name held, dget name dir = None → dget name dir' = Some (Directory held) →
                NoDup (map fst held)).



(** The records of [sample_filesystem] and its reports, with a folder of
    their own beside the record files. *)
Definition sample_workspace : workspace :=
  Workspace
    [("1.json", Regular (Document [("metadata", JDict [("title", JStr "Old")])]));
     ("1.pdf", Regular NotJson);
     ("2.json", Regular (Document []));
     ("attic", Directory [("0.json", File (Document []))])]
    [("1-report.json", File (Document flagged_report));
     ("2-report.json", File (Document [("corrections", JDict [("title", JStr "New")])]));
     ("3-report.json", File (Document []))]
    None.


End Wired.

(** * Properties *)

(** ** Values and dictionaries *)

(** Induction over nested lists and dictionaries. *)
Lemma json_nested_ind (P : json → Prop) :
  P JNull →
  (∀ b, P (JBool b)) →
  (∀ n, P (JInt n)) →
  (∀ s, P (JStr s)) →
  (∀ l, Forall P l → P (JList l)) →
  (∀ d, Forall (λ kv, P kv.2) d → P (JDict d)) →
  ∀ j, P j.
Proof.
  intros Hnull Hbool Hint Hstr Hlist Hdict.
  fix IH 1. intros [ | b | n | s | l | d].
  - exact Hnull.
  - apply Hbool.
  - apply Hint.
  - apply Hstr.
  - apply Hlist. induction l as [ | x l IHl]; constructor; [apply IH | exact IHl].
  - apply Hdict. induction d as [ | [k v] d IHd]; constructor; [apply IH | exact IHd].
Qed.

Lemma bind_Ok {A B} (f : A → result B) (m : result A) (b : B) :
  m ≫= f = Ok b ↔ ∃ a, m = Ok a ∧ f a = Ok b.
Proof.
  destruct m as [a | e]; simpl; split.
  - intros H. exists a. split; [reflexivity | exact H].
  - intros (a' & Ha & Hf). inversion Ha. subst. exact Hf.
  - intros H. discriminate H.
  - intros (a' & Ha & _). discriminate Ha.
Qed.

Lemma bind_Ok_l {A B} (f : A → result B) (a : A) : Ok a ≫= f = f a.
Proof. reflexivity. Qed.

Section DictLaws.
Context {A : Type}.
Implicit Types (d : list (string * A)) (k : string) (v : A).

Lemma dget_dset_eq k v d : dget k (dset k v d) = Some v.
Proof.
  induction d as [ | [k' w] d IH]; simpl.
  - by rewrite String.eqb_refl.
  - destruct (String.eqb k k') eqn:E; simpl; rewrite E; [done | exact IH].
Qed.

Lemma dget_dset_ne k k' v d : k ≠ k' → dget k' (dset k v d) = dget k' d.
Proof.
  intros Hne. induction d as [ | [k0 w] d IH]; simpl.
  - destruct (String.eqb k' k) eqn:E; [ | done].
    apply String.eqb_eq in E. congruence.
  - destruct (String.eqb k k0) eqn:E; simpl.
    + apply String.eqb_eq in E. subst k0.
      destruct (String.eqb k' k) eqn:E'; [ | done].
      apply String.eqb_eq in E'. congruence.
    + by rewrite IH.
Qed.

Lemma dset_same k v d : dget k d = Some v → dset k v d = d.
Proof.
  induction d as [ | [k' w] d IH]; simpl; [done | ].
  destruct (String.eqb k k') eqn:E.
  - intros [= ->]. done.
  - intros H. by rewrite IH.
Qed.

Lemma dset_dset k v w d : dset k v (dset k w d) = dset k v d.
Proof.
  induction d as [ | [k' u] d IH]; simpl.
  - by rewrite String.eqb_refl.
  - destruct (String.eqb k k') eqn:E; simpl; rewrite E; [done | by rewrite IH].
Qed.

Lemma dget_app_new k v d : dget k d = None → d ++ [(k, v)] = dset k v d.
Proof.
  induction d as [ | [k' u] d IH]; simpl; [done | ].
  destruct (String.eqb k k'); [done | ]. intros H. by rewrite IH.
Qed.

Lemma dreplace_same k v d : dget k d = Some v → dreplace k v d = d.
Proof. intros H. unfold dreplace. rewrite H. by apply dset_same. Qed.

Lemma dget_dreplace_ne k k' v d : k ≠ k' → dget k' (dreplace k v d) = dget k' d.
Proof.
  intros Hne. unfold dreplace. destruct (dget k d); [ | done].
  by apply dget_dset_ne.
Qed.

Lemma dget_dreplace_eq k v d :
  dget k (dreplace k v d) = match dget k d with Some _ => Some v | None => None end.
Proof.
  unfold dreplace. destruct (dget k d) eqn:E; [apply dget_dset_eq | exact E].
Qed.
End DictLaws.

Lemma setdefault_spec k default d :
  setdefault k default d =
  (dget_default k default d, match dget k d with Some _ => d | None => dset k default d end).
Proof.
  unfold setdefault, dget_default. destruct (dget k d) eqn:E; [done | ].
  by rewrite dget_app_new.
Qed.

Lemma py_eq_str s t : py_eq (JStr s) (JStr t) = true ↔ s = t.
Proof. simpl. apply String.eqb_eq. Qed.

Lemma py_eq_empty_truthy v : py_truthy v = true → py_eq (JStr "") v = false.
Proof.
  destruct v as [ | b | n | s | l | d]; simpl; try done.
  destruct s; simpl; done.
Qed.

(** ** Title, abstract and publication date *)

Lemma set_metadata_field_get key v record :
  metadata_field key (set_metadata_field key v record) = Some v.
Proof.
  unfold metadata_field, set_metadata_field, metadata_of at 1.
  rewrite dget_dset_eq. apply dget_dset_eq.
Qed.

Lemma set_metadata_field_other key key' v record :
  key ≠ key' →
  metadata_field key' (set_metadata_field key v record) = metadata_field key' record.
Proof.
  intros Hne. unfold metadata_field, set_metadata_field, metadata_of at 1.
  rewrite dget_dset_eq. by apply dget_dset_ne.
Qed.

Lemma set_metadata_field_frame key k v record :
  k ≠ "metadata" → dget k (set_metadata_field key v record) = dget k record.
Proof. intros Hne. unfold set_metadata_field. by apply dget_dset_ne. Qed.

Lemma apply_metadata_field_falsy key record correction :
  py_truthy correction = false →
  apply_metadata_field key record correction = Ok (false, record).
Proof. intros H. unfold apply_metadata_field. by rewrite H. Qed.

Lemma apply_metadata_field_truthy key record correction :
  metadata_ok record →
  py_truthy correction = true →
  apply_metadata_field key record correction =
  if py_eq (default (JStr "") (metadata_field key record)) correction
  then Ok (false, record)
  else Ok (true, set_metadata_field key correction record).
Proof.
  intros Hok Ht. unfold apply_metadata_field. rewrite Ht. simpl.
  rewrite setdefault_spec. unfold metadata_ok in Hok.
  unfold metadata_field, set_metadata_field, metadata_of, dget_default.
  destruct (dget "metadata" record) as [[ | b | n | s | l | md] | ] eqn:E; try done.
  cbn [dget default from_option]. rewrite py_eq_empty_truthy by done.
  by rewrite dset_dset.
Qed.

Lemma apply_metadata_field_contract key :
  overwrite_contract (apply_metadata_field key) key.
Proof.
  intros record correction current. split.
  - apply apply_metadata_field_falsy.
  - intros Hok.
    destruct (py_truthy correction) eqn:Ht.
    + rewrite (apply_metadata_field_truthy _ _ _ Hok Ht). fold current.
      split; [ | split].
      * intros ->. done.
      * intros _ ->. eexists. split; [done | ].
        split; [apply set_metadata_field_get | ].
        split; [ | intros k Hk; by apply set_metadata_field_frame].
        intros key' Hne. apply set_metadata_field_other. congruence.
      * intros b record'. destruct (py_eq current correction).
        -- intros [= <- <-]. done.
        -- intros [= <- <-] _. rewrite set_metadata_field_get. by eexists.
    + rewrite (apply_metadata_field_falsy _ _ _ Ht). split; [done | ].
      split; [done | ]. intros b record' [= <- <-]. done.
Qed.

(** C6: the title, abstract and publication-date appliers return false and
    leave the record as it is when the correction is empty or equal to the
    current value of their field (the comparison of two strings is exact,
    so a difference in case is a difference); otherwise they overwrite that
    field, and nothing else, and return true; they never delete the
    field. *)
Theorem metadata_appliers_contract :
  overwrite_contract apply_title "title" ∧
  overwrite_contract apply_abstract "description" ∧
  overwrite_contract apply_publication_date "publication_date" ∧
  (∀ s t, py_eq (JStr s) (JStr t) = true ↔ s = t).
Proof.
  split; [apply apply_metadata_field_contract | ].
  split; [apply apply_metadata_field_contract | ].
  split; [apply apply_metadata_field_contract | apply py_eq_str].
Qed.

Lemma metadata_appliers_contract_witness :
  ∃ record',
    apply_title sample_creator_record (JStr "New") = Ok (true, record') ∧
    metadata_field "title" record' = Some (JStr "New").
Proof.
  destruct metadata_appliers_contract as [Htitle _].
  destruct (Htitle sample_creator_record (JStr "New")) as [_ Hok].
  destruct (Hok I) as (_ & Hnew & _).
  destruct (Hnew eq_refl eq_refl) as (record' & Hrun & Hfield & _).
  by exists record'.
Defined.

(** ** Report keying *)

Lemma append_cons c s t : String c s +:+ t = String c (s +:+ t).
Proof. reflexivity. Qed.

Lemma append_nil t : "" +:+ t = t.
Proof. reflexivity. Qed.

Lemma substring_all s : String.substring 0 (String.length s) s = s.
Proof. induction s as [ | c s IH]; simpl; [done | by rewrite IH]. Qed.

Lemma substring_cut s (n : nat) :
  (n ≤ String.length s)%nat →
  String.substring 0 n s +:+ String.substring n (String.length s - n) s = s.
Proof.
  revert n. induction s as [ | c s IH]; intros [ | n] Hn; simpl in *.
  - done.
  - lia.
  - by rewrite substring_all.
  - rewrite append_cons. f_equal. apply IH. lia.
Qed.

Lemma endswith_cut s t :
  endswith s t = true → s = drop_last (String.length t) s +:+ t.
Proof.
  unfold endswith, drop_last. intros H.
  apply andb_true_iff in H as [Hlen Heq].
  apply Nat.leb_le in Hlen. apply String.eqb_eq in Heq.
  pose proof (substring_cut s (String.length s - String.length t)) as Hc.
  replace (String.length s - (String.length s - String.length t))
    with (String.length t) in Hc by lia.
  rewrite Heq in Hc. symmetry. apply Hc. lia.
Qed.

Lemma length_append s t :
  String.length (s +:+ t) = String.length s + String.length t.
Proof.
  induction s as [ | c s IH]; [done | ].
  rewrite append_cons. simpl. by rewrite IH.
Qed.

Lemma length_zero s : String.length s = 0 → s = "".
Proof. by destruct s. Qed.

Lemma string_of_uint_nonempty d : NilZero.string_of_uint d ≠ "".
Proof. by destruct d. Qed.

Lemma nat_to_string_nonempty n : nat_to_string n ≠ "".
Proof. apply string_of_uint_nonempty. Qed.

Lemma int_to_string_nonempty n : int_to_string n ≠ "".
Proof.
  unfold int_to_string. destruct (Z.to_int n) as [d | d]; simpl.
  - apply string_of_uint_nonempty.
  - done.
Qed.

Lemma py_str_nonempty v : py_truthy v = true → py_str v ≠ "".
Proof.
  destruct v as [ | [ | ] | n | s | l | d]; simpl; try done.
  - intros _. apply int_to_string_nonempty.
  - destruct s; done.
Qed.

(** C9 (amended): the key is the [record_id] field coerced to a string when
    the field is present and truthy, otherwise the stem of the report's file
    name with a trailing ["-report"] removed, otherwise the stem itself.  A
    key taken from [record_id] is never empty; a key taken from the file
    name is empty exactly when the stem is ["-report"] (or empty), and the
    driver skips such a report. *)
Theorem report_key_priority (report_path : string) (report_data : dict) :
  let record_id := dget_default "record_id" JNull report_data in
  let stem := path_stem report_path in
  let key := report_key report_path report_data in
  (py_truthy record_id = true → key = py_str record_id ∧ key ≠ "") ∧
  (py_truthy record_id = false → endswith stem "-report" = true →
     stem = key +:+ "-report") ∧
  (py_truthy record_id = false → endswith stem "-report" = false → key = stem) ∧
  (py_truthy record_id = false → (key = "" ↔ stem = "-report" ∨ stem = "")).
Proof.
  intros record_id stem key. unfold key, report_key. fold record_id stem.
  destruct (py_truthy record_id) eqn:Ht.
  - split; [ | done]. intros _. split; [done | by apply py_str_nonempty].
  - split; [done | ].
    destruct (endswith stem "-report") eqn:He.
    + pose proof (endswith_cut _ _ He) as Hcut. simpl String.length in Hcut.
      split; [done | ]. split; [done | ]. intros _. split.
      * intros H0. left. rewrite Hcut, H0. done.
      * intros [Hs | Hs].
        -- rewrite Hs. reflexivity.
        -- rewrite Hs in He. done.
    + split; [done | ]. split; [done | ]. intros _. split.
      * intros H0. by right.
      * intros [Hs | Hs]; [ | done]. rewrite Hs in He. done.
Qed.

Lemma report_key_priority_witness :
  path_stem "7-report.json" = report_key "7-report.json" [] +:+ "-report".
Proof.
  destruct (report_key_priority "7-report.json" []) as (_ & Hstem & _).
  exact (Hstem eq_refl eq_refl).
Defined.

(** C9, as stated, fails: a report named [-report.json] without a
    [record_id] gets the empty key. *)
Lemma report_key_empty : report_key "-report.json" [] = "".
Proof. reflexivity. Qed.

(** ** Related identifiers *)

Lemma py_eq_refl_hashable v : py_hashable v = true → py_eq v v = true.
Proof.
  destruct v as [ | b | n | s | l | d]; simpl; try done.
  - intros _. by destruct b.
  - intros _. apply Z.eqb_refl.
  - intros _. apply String.eqb_refl.
Qed.

Lemma existsb_py_eq_not_in v ids :
  py_hashable v = true → existsb (py_eq v) ids = false → v ∉ ids.
Proof.
  intros Hh Hex Hin. apply list_elem_of_In in Hin.
  assert (existsb (py_eq v) ids = true) as Ht.
  { apply existsb_exists. exists v. split; [done | by apply py_eq_refl_hashable]. }
  congruence.
Qed.

Lemma foldM_app {A S} (f : A → S → result S) l1 l2 s :
  foldM f (l1 ++ l2) s = foldM f l1 s ≫= foldM f l2.
Proof.
  revert s. induction l1 as [ | x l1 IH]; intros s; simpl; [done | ].
  destruct (f x s); simpl; [apply IH | done].
Qed.

Lemma collect_identifier_Ok ri acc acc' :
  collect_identifier ri acc = Ok acc' →
  identifier_entry ri ∧ acc' = acc ++ [identifier_of ri].
Proof.
  unfold collect_identifier.
  destruct ri as [ | b | n | s | l | d]; simpl; try done.
  destruct (py_hashable (dget_default "identifier" (JStr "") d)) eqn:Hh; [ | done].
  intros [= <-]. split; [ | done]. split; [by eexists | done].
Qed.

Lemma identifier_set_items_acc items acc ids :
  foldM collect_identifier items acc = Ok ids →
  ids = acc ++ map identifier_of items ∧
  Forall identifier_entry items.
Proof.
  revert acc. induction items as [ | ri items IH]; intros acc; cbn [foldM map].
  - intros [= <-]. by rewrite app_nil_r.
  - intros H. apply bind_Ok in H as (acc' & Hstep & H).
    apply collect_identifier_Ok in Hstep as [Hentry ->].
    apply IH in H as [-> Hall]. split.
    + by rewrite <- app_assoc.
    + by constructor.
Qed.

Lemma identifier_set_spec existing ids :
  identifier_set existing = Ok ids →
  ids = map identifier_of (list_items existing) ∧
  Forall identifier_entry (list_items existing).
Proof.
  unfold identifier_set.
  destruct existing as [ | b | n | s | l | d]; simpl; try done.
  - destruct s as [ | c s]; simpl; [by intros [= <-] | done].
  - intros H. by apply identifier_set_items_acc in H.
  - destruct d as [ | [k v] d]; simpl; [by intros [= <-] | done].
Qed.

(** The loop of [add_related_identifiers]: what it appends is a subsequence
    of the input whose identifiers are truthy and fresh. *)
Lemma add_identifier_loop items existing ids added existing' ids' added' :
  foldM add_identifier items (existing, ids, added) = Ok (existing', ids', added') →
  ∃ new,
    (new = [] ∧ existing' = existing ∨
     ∃ l, existing = JList l ∧ existing' = JList (l ++ new)) ∧
    ids' = ids ++ map identifier_of new ∧
    added' = added + length new ∧
    new `sublist_of` items ∧
    Forall (λ x, py_truthy (identifier_of x) = true ∧ identifier_entry x) new ∧
    fresh ids new.
Proof.
  revert existing ids added.
  induction items as [ | x items IH]; intros existing ids added; simpl.
  - intros [= <- <- <-]. exists []. rewrite app_nil_r. simpl.
    split; [by left | ]. repeat split; auto with lia.
  - destruct x as [ | b | n | s | l | d]; simpl; try done.
    set (x := JDict d).
    destruct (py_truthy (dget_default "identifier" (JStr "") d)) eqn:Ht.
    2:{ intros H. apply IH in H as (new & Hex & Hids & Hadd & Hsub & Hall & Hfresh).
        exists new. repeat split; try done. by apply sublist_cons. }
    destruct (py_hashable (dget_default "identifier" (JStr "") d)) eqn:Hh; [ | done].
    destruct (existsb (py_eq (dget_default "identifier" (JStr "") d)) ids) eqn:Hmem.
    { intros H. apply IH in H as (new & Hex & Hids & Hadd & Hsub & Hall & Hfresh).
      exists new. repeat split; try done. by apply sublist_cons. }
    destruct existing as [ | b | n | s | l | e]; simpl; try done.
    intros H. apply IH in H as (new & Hex & Hids & Hadd & Hsub & Hall & Hfresh).
    exists (x :: new). split; [ | split; [ | split; [ | split; [ | split]]]].
    + right. exists l. split; [done | ].
      destruct Hex as [[-> ->] | (l' & [= <-] & ->)].
      * done.
      * by rewrite <- app_assoc.
    + rewrite Hids. simpl. by rewrite <- app_assoc.
    + simpl. lia.
    + by apply sublist_skip.
    + constructor; [ | done]. split; [done | ]. split; [by eexists | done].
    + simpl. done.
Qed.

Lemma fresh_not_in ids new :
  Forall (λ x, py_hashable (identifier_of x) = true) new →
  fresh ids new →
  Forall (λ x, identifier_of x ∉ ids) new.
Proof.
  intros Hall. revert ids. induction Hall as [ | x new Hx Hall IH]; intros ids; simpl.
  - constructor.
  - intros [Hmem Hfresh]. constructor.
    + by apply existsb_py_eq_not_in.
    + apply IH in Hfresh. eapply Forall_impl; [exact Hfresh | ].
      intros y Hy Hin. apply Hy. apply elem_of_app. by left.
Qed.

Lemma fresh_NoDup ids new :
  Forall (λ x, py_hashable (identifier_of x) = true) new →
  fresh ids new →
  NoDup ids →
  NoDup (ids ++ map identifier_of new).
Proof.
  intros Hall. revert ids. induction Hall as [ | x new Hx Hall IH]; intros ids; simpl.
  - intros _ Hnd. by rewrite app_nil_r.
  - intros [Hmem Hfresh] Hnd.
    replace (ids ++ identifier_of x :: map identifier_of new)
      with ((ids ++ [identifier_of x]) ++ map identifier_of new)
      by (by rewrite <- app_assoc).
    apply IH; [done | ].
    apply NoDup_app. split; [done | ]. split.
    + intros y Hy Hin. apply list_elem_of_singleton in Hin. subst y.
      by apply (existsb_py_eq_not_in _ _ Hx Hmem).
    + apply NoDup_singleton.
Qed.

Lemma related_of_set record existing md :
  related_of (dset "metadata" (JDict (dset "related_identifiers" existing md)) record)
  = list_items existing.
Proof.
  unfold related_of, metadata_field, metadata_of.
  by rewrite !dget_dset_eq.
Qed.

Lemma dset_after_default {A} k (v w : A) d :
  dset k v match dget k d with Some _ => d | None => dset k w d end = dset k v d.
Proof. destruct (dget k d); [done | apply dset_dset]. Qed.

Lemma dget_default_metadata record md :
  dget_default "metadata" (JDict []) record = JDict md → metadata_of record = md.
Proof.
  unfold dget_default, metadata_of.
  destruct (dget "metadata" record) as [v | ]; [by intros -> | by intros [= <-]].
Qed.

Lemma add_related_identifiers_spec record identifiers added record' :
  add_related_identifiers record (JList identifiers) = Ok (added, record') →
  ∃ new,
    related_of record' = related_of record ++ new ∧
    new `sublist_of` identifiers ∧
    length new = added ∧
    Forall (λ x, py_truthy (identifier_of x) = true ∧ identifier_entry x) new ∧
    fresh (map identifier_of (related_of record)) new.
Proof.
  unfold add_related_identifiers.
  destruct identifiers as [ | x identifiers]; simpl py_truthy; cbn [negb].
  { intros [= <- <-]. exists []. rewrite app_nil_r. repeat split; auto. }
  rewrite setdefault_spec.
  destruct (dget_default "metadata" (JDict []) record)
    as [ | b | n | s | l | md] eqn:Hmd; try done.
  apply dget_default_metadata in Hmd.
  rewrite setdefault_spec. cbv beta iota zeta.
  set (existing := dget_default "related_identifiers" (JList []) md).
  assert (related_of record = list_items existing) as Hrel.
  { unfold related_of, metadata_field, existing, dget_default. rewrite Hmd.
    by destruct (dget "related_identifiers" md). }
  intros H. apply bind_Ok in H as (ids & Hids & H).
  apply identifier_set_spec in Hids as [-> _].
  unfold py_iter in H. rewrite bind_Ok_l in H.
  apply bind_Ok in H as ([[existing' ids'] added'] & Hloop & Heq).
  rewrite !dset_after_default in Heq. injection Heq as <- <-.
  apply add_identifier_loop in Hloop as (new & Hex & _ & Hadd & Hsub & Hall & Hfresh).
  exists new. rewrite related_of_set, Hrel. repeat split; try done.
  destruct Hex as [[-> ->] | (l & -> & ->)]; [by rewrite app_nil_r | done].
Qed.

Lemma identifier_set_total l :
  Forall identifier_entry l → identifier_set (JList l) = Ok (map identifier_of l).
Proof.
  unfold identifier_set. simpl. intros Hall.
  enough (∀ acc, foldM collect_identifier l acc = Ok (acc ++ map identifier_of l))
    as H by apply (H []).
  induction Hall as [ | x l [[d ->] Hh] Hall IH]; intros acc; cbn [foldM map].
  - by rewrite app_nil_r.
  - assert (collect_identifier (JDict d) acc = Ok (acc ++ [identifier_of (JDict d)]))
      as ->.
    { unfold collect_identifier. simpl in *. by rewrite Hh. }
    rewrite bind_Ok_l, IH. by rewrite <- app_assoc.
Qed.

Lemma add_identifier_total items l ids added :
  Forall identifier_entry items →
  ∃ l' ids' added',
    foldM add_identifier items (JList l, ids, added) = Ok (JList l', ids', added').
Proof.
  intros Hall. revert l ids added.
  induction Hall as [ | x items [[d ->] Hh] Hall IH]; intros l ids added; simpl.
  - by eexists _, _, _.
  - simpl in Hh. rewrite Hh.
    destruct (py_truthy _); [ | apply IH].
    destruct (existsb _ ids); [apply IH | ]. simpl. apply IH.
Qed.

Lemma add_related_identifiers_total record identifiers :
  related_shape record identifiers →
  ∃ added record', add_related_identifiers record (JList identifiers) = Ok (added, record').
Proof.
  intros (Hok & Hstored & Hgiven). unfold add_related_identifiers.
  destruct identifiers as [ | x identifiers]; simpl py_truthy; cbn [negb].
  { by eexists _, _. }
  rewrite setdefault_spec.
  assert (dget_default "metadata" (JDict []) record = JDict (metadata_of record)) as ->.
  { unfold dget_default, metadata_of, metadata_ok in *.
    by destruct (dget "metadata" record) as [[ | b | n | s | l | md] | ]. }
  rewrite setdefault_spec. cbv beta iota zeta.
  set (existing := dget_default "related_identifiers" (JList []) (metadata_of record)).
  assert (∃ l, existing = JList l ∧ Forall identifier_entry l) as (l & -> & Hl).
  { unfold existing, dget_default. unfold metadata_field in Hstored.
    destruct (dget "related_identifiers" (metadata_of record))
      as [[ | b | n | s | l | e] | ]; try done; by eexists. }
  rewrite identifier_set_total by done.
  rewrite bind_Ok_l. unfold py_iter. rewrite bind_Ok_l.
  destruct (add_identifier_total (x :: identifiers) l (map identifier_of l) 0 Hgiven)
    as (l' & ids' & added' & ->).
  rewrite bind_Ok_l. by eexists _, _.
Qed.

Lemma fresh_NoDup_new ids new :
  Forall (λ x, py_hashable (identifier_of x) = true) new →
  fresh ids new →
  NoDup (map identifier_of new).
Proof.
  intros Hall. revert ids. induction Hall as [ | x new Hx Hall IH]; intros ids; simpl.
  - intros _. constructor.
  - intros [Hmem Hfresh]. constructor; [ | by eapply IH].
    intros Hin. apply list_elem_of_fmap in Hin as (y & Hy & Hin).
    pose proof (fresh_not_in _ _ Hall Hfresh) as Hnot.
    rewrite Forall_forall in Hnot. apply (Hnot y Hin).
    rewrite <- Hy. apply elem_of_app. right. by apply list_elem_of_singleton.
Qed.

(** C4 (amended): on a record and a list of related-identifier objects,
    [add_related_identifiers] returns, and the related identifiers it leaves
    are the former ones, in order and untouched, followed by a subsequence
    of the input: the entries it counts, each with a non-empty identifier
    that no former entry has, and no two with the same identifier.  So the
    result has no duplicate identifier whenever the stored sequence had
    none. *)
Theorem related_identifiers_append_only (record : dict) (identifiers : list json) :
  related_shape record identifiers →
  ∃ added record' new,
    add_related_identifiers record (JList identifiers) = Ok (added, record') ∧
    related_of record' = related_of record ++ new ∧
    new `sublist_of` identifiers ∧
    length new = added ∧
    Forall (λ x, py_truthy (identifier_of x) = true ∧
                 identifier_of x ∉ map identifier_of (related_of record)) new ∧
    NoDup (map identifier_of new) ∧
    (NoDup (map identifier_of (related_of record)) →
     NoDup (map identifier_of (related_of record'))).
Proof.
  intros Hshape.
  destruct (add_related_identifiers_total _ _ Hshape) as (added & record' & Hrun).
  destruct (add_related_identifiers_spec _ _ _ _ Hrun)
    as (new & Hrel & Hsub & Hlen & Hall & Hfresh).
  assert (Forall (λ x, py_hashable (identifier_of x) = true) new) as Hhash.
  { eapply Forall_impl; [exact Hall | ]. by intros x [_ [_ Hh]]. }
  exists added, record', new. repeat split; try done.
  - pose proof (fresh_not_in _ _ Hhash Hfresh) as Hnot.
    rewrite Forall_forall in Hall, Hnot. apply Forall_forall. intros x Hx.
    split; [by apply Hall | by apply Hnot].
  - by eapply fresh_NoDup_new.
  - intros Hnd. rewrite Hrel, map_app. by apply fresh_NoDup.
Qed.

Lemma related_identifiers_append_only_witness :
  related_shape sample_related_record [related_entry "10.1/b"; related_entry "10.1/c"] ∧
  ∃ added record' new,
    add_related_identifiers sample_related_record
      (JList [related_entry "10.1/b"; related_entry "10.1/c"]) = Ok (added, record') ∧
    related_of record' = related_of sample_related_record ++ new ∧
    new `sublist_of` [related_entry "10.1/b"; related_entry "10.1/c"] ∧
    length new = added ∧
    Forall (λ x, py_truthy (identifier_of x) = true ∧
                 identifier_of x ∉ map identifier_of (related_of sample_related_record))
           new ∧
    NoDup (map identifier_of new) ∧
    (NoDup (map identifier_of (related_of sample_related_record)) →
     NoDup (map identifier_of (related_of record'))).
Proof.
  assert (related_shape sample_related_record
            [related_entry "10.1/b"; related_entry "10.1/c"]) as Hshape.
  { split; [exact I | ]. split.
    - simpl. repeat constructor; by eexists.
    - repeat constructor; by eexists. }
  split; [exact Hshape | ].
  exact (related_identifiers_append_only _ _ Hshape).
Defined.

Example add_related_identifiers_sample :
  add_related_identifiers sample_related_record
    (JList [related_entry "10.1/b"; related_entry ""; related_entry "10.1/c"])
  = Ok (1, [("metadata",
             JDict [("title", JStr "Old");
                    ("related_identifiers",
                     JList [related_entry "10.1/a"; related_entry "10.1/b";
                            related_entry "10.1/c"])])]).
Proof. reflexivity. Qed.

(** C4, as stated, fails: identifiers that the record already repeats are
    still repeated after an addition. *)
Lemma related_identifiers_keep_duplicates :
  ∃ added record',
    add_related_identifiers repeated_related_record (JList [related_entry "10.1/c"])
      = Ok (added, record') ∧
    ¬ NoDup (map identifier_of (related_of record')).
Proof.
  eexists _, _. split; [reflexivity | ].
  simpl. intros Hnd. apply NoDup_cons_1_1 in Hnd. apply Hnd. left.
Qed.

(** ** Descriptor deletion *)

Lemma split_replace s :
  split "," (replace_char ";" "," s) = split_by is_delimiter s.
Proof.
  induction s as [ | c s IH]; simpl; [done | ].
  rewrite IH. unfold is_delimiter.
  destruct (Ascii.eqb c ";") eqn:E1; simpl.
  - by rewrite orb_true_r.
  - rewrite orb_false_r. done.
Qed.

Lemma filter_length_eq {A} (P : A → Prop) `{∀ x, Decision (P x)} (l : list A) :
  length (filter P l) = length l ↔ Forall P l.
Proof.
  induction l as [ | x l IH]; simpl.
  - split; [constructor | done].
  - rewrite filter_cons. destruct (decide (P x)) as [Hx | Hx]; simpl.
    + rewrite Forall_cons. split.
      * intros [= Hlen]. split; [done | by apply IH].
      * intros [_ Hall]. f_equal. by apply IH.
    + split.
      * intros Hlen. pose proof (length_filter P l). lia.
      * intros Hall. apply Forall_cons in Hall as [Hx' _]. done.
Qed.

Lemma filter_all {A} (P : A → Prop) `{∀ x, Decision (P x)} (l : list A) :
  Forall P l → filter P l = l.
Proof.
  induction 1 as [ | x l Hx Hall IH]; [done | ].
  rewrite filter_cons. destruct (decide (P x)); [by rewrite IH | done].
Qed.

Lemma lowered_set_acc ds acc :
  ∃ S, foldM add_lowered (map JStr ds) acc = Ok S ∧
       ∀ x, x ∈ S ↔ x ∈ acc ∨ ∃ d, d ∈ ds ∧ d ≠ "" ∧ x = lower d.
Proof.
  revert acc. induction ds as [ | d ds IH]; intros acc; cbn [map foldM].
  - exists acc. split; [done | ]. intros x. split; [by left | ].
    intros [Hx | (d & Hd & _)]; [done | ]. by apply elem_of_nil in Hd.
  - assert (add_lowered (JStr d) acc =
            Ok (if String.eqb d "" then acc else {[lower d]} ∪ acc)) as ->.
    { unfold add_lowered. simpl. by destruct (String.eqb d ""). }
    rewrite bind_Ok_l.
    destruct (IH (if String.eqb d "" then acc else {[lower d]} ∪ acc))
      as (S & -> & HS).
    exists S. split; [done | ]. intros x. rewrite HS.
    destruct (String.eqb d "") eqn:E.
    + apply String.eqb_eq in E. subst d. split.
      * intros [Hx | (d & Hd & Hne & ->)]; [by left | right].
        exists d. split; [by apply elem_of_cons; right | done].
      * intros [Hx | (d & Hd & Hne & ->)]; [by left | right].
        apply elem_of_cons in Hd as [-> | Hd]; [done | ]. by exists d.
    + apply String.eqb_neq in E. rewrite elem_of_union, elem_of_singleton. split.
      * intros [[-> | Hx] | (d' & Hd & Hne & ->)].
        -- right. exists d. split; [by apply elem_of_cons; left | done].
        -- by left.
        -- right. exists d'. split; [by apply elem_of_cons; right | done].
      * intros [Hx | (d' & Hd & Hne & ->)]; [by left; right | ].
        apply elem_of_cons in Hd as [-> | Hd]; [by left; left | ].
        right. by exists d'.
Qed.

Lemma deleted_by_spec deletions d :
  deleted_by deletions d = true ↔ ∃ x, x ∈ deletions ∧ x ≠ "" ∧ lower d = lower x.
Proof.
  unfold deleted_by. rewrite existsb_exists. split.
  - intros (x & Hin & Hx). apply andb_true_iff in Hx as [Hne Heq].
    exists x. split; [by apply list_elem_of_In | ]. split.
    + intros ->. done.
    + by apply String.eqb_eq.
  - intros (x & Hin & Hne & Heq). exists x. split; [by apply list_elem_of_In | ].
    apply andb_true_iff. split.
    + apply negb_true_iff. by apply String.eqb_neq.
    + by apply String.eqb_eq.
Qed.

Lemma lowered_set_strings ds :
  ∃ S, lowered_set (JList (map JStr ds)) = Ok S ∧
       ∀ d, bool_decide (lower d ∈ S) = deleted_by ds d.
Proof.
  unfold lowered_set, py_iter. rewrite bind_Ok_l.
  destruct (lowered_set_acc ds ∅) as (S & -> & HS).
  exists S. split; [done | ]. intros d.
  apply eq_true_iff_eq. rewrite bool_decide_eq_true, deleted_by_spec, HS.
  split.
  - intros [Hx | (x & Hin & Hne & Heq)]; [by apply elem_of_empty in Hx | by exists x].
  - intros (x & Hin & Hne & Heq). right. by exists x.
Qed.

Lemma keep_descriptors_strings S ds l :
  (∀ d, bool_decide (lower d ∈ S) = deleted_by ds d) →
  keep_descriptors S (map JStr l) = Ok (map JStr (remaining ds l)).
Proof.
  intros HS. induction l as [ | d l IH]; cbn [map keep_descriptors]; [done | ].
  unfold py_lower. rewrite bind_Ok_l, IH, bind_Ok_l, HS.
  unfold remaining. rewrite filter_cons.
  destruct (deleted_by ds d) eqn:E.
  - rewrite decide_False; [done | congruence].
  - by rewrite decide_True.
Qed.

Lemma py_join_strings sep l : py_join sep (map JStr l) = Ok (join sep l).
Proof.
  unfold py_join.
  assert (strings_of (map JStr l) = Ok l) as ->; [ | done].
  induction l as [ | s l IH]; cbn [map strings_of]; [done | by rewrite IH].
Qed.

Lemma remaining_length ds l :
  length (remaining ds l) = length l ↔ ∀ d, d ∈ l → deleted_by ds d = false.
Proof. unfold remaining. rewrite filter_length_eq. apply Forall_forall. Qed.

Lemma custom_fields_default record :
  custom_fields_ok record →
  dget_default "custom_fields" (JDict []) record = JDict (custom_fields_of record).
Proof.
  unfold custom_fields_ok, dget_default, custom_fields_of.
  by destruct (dget "custom_fields" record) as [[ | b | n | s | l | cf] | ].
Qed.

Lemma descriptors_default record :
  dget_default descriptor_key JNull (custom_fields_of record)
  = default JNull (descriptors_of record).
Proof. unfold dget_default, descriptors_of. by destruct (dget _ _). Qed.

(** What the applier computes once the stored descriptors are known to be
    the strings [l], for the deletions [ds]. *)
Lemma apply_descriptor_deletions_entries record ds stored l (is_str : bool) :
  custom_fields_ok record →
  ds ≠ [] →
  descriptors_of record = Some stored →
  py_truthy stored = true →
  descriptor_entries stored = Some (map JStr l, is_str) →
  apply_descriptor_deletions record (JList (map JStr ds)) =
  if Nat.eqb (length (remaining ds l)) (length l) then Ok (false, record)
  else Ok (true,
           set_descriptors
             (if is_str then JStr (join "; " (remaining ds l))
              else JList (map JStr (remaining ds l)))
             record).
Proof.
  intros Hok Hds Hstored Htruthy Hentries. unfold apply_descriptor_deletions.
  destruct ds as [ | d ds]; [done | ]. cbn [map py_truthy negb].
  rewrite (custom_fields_default _ Hok), descriptors_default, Hstored.
  change (default JNull (Some stored)) with stored.
  rewrite Htruthy, Hentries. cbn [negb].
  destruct (lowered_set_strings (d :: ds)) as (S & HS & Hmem).
  cbn [map] in HS. rewrite HS, bind_Ok_l.
  rewrite (keep_descriptors_strings S (d :: ds) l Hmem), bind_Ok_l.
  rewrite !length_map.
  destruct (Nat.eqb _ _); [done | ].
  change (JStr d :: map JStr ds) with (map JStr (d :: ds)).
  unfold py_iter.
  destruct is_str.
  - by rewrite !py_join_strings, !bind_Ok_l, py_join_strings, bind_Ok_l.
  - by rewrite !bind_Ok_l, py_join_strings, bind_Ok_l.
Qed.

Lemma apply_descriptor_deletions_noop record ds :
  custom_fields_ok record →
  match descriptors_of record with
  | None => True
  | Some stored => py_truthy stored = false ∨ descriptor_entries stored = None
  end →
  apply_descriptor_deletions record (JList (map JStr ds)) = Ok (false, record).
Proof.
  intros Hok Hstored. unfold apply_descriptor_deletions.
  destruct (py_truthy (JList (map JStr ds))); [ | done]. cbn [negb].
  rewrite (custom_fields_default _ Hok), descriptors_default.
  destruct (descriptors_of record) as [stored | ]; [ | done].
  change (default JNull (Some stored)) with stored.
  destruct Hstored as [-> | Hnone]; [done | ].
  rewrite Hnone. by destruct (py_truthy stored).
Qed.

Lemma descriptors_of_set v record :
  descriptors_of (set_descriptors v record) = Some v.
Proof.
  unfold descriptors_of, set_descriptors, custom_fields_of at 1.
  rewrite dget_dset_eq. apply dget_dset_eq.
Qed.

Lemma deletion_outcome_entries record ds stored l (is_str : bool)
    (wrap : list string → json) (same_kind : json → Prop) :
  custom_fields_ok record →
  descriptors_of record = Some stored →
  same_kind stored →
  (∀ l', same_kind (wrap l')) →
  (∀ l', wrap l' = if is_str then JStr (join "; " l') else JList (map JStr l')) →
  (py_truthy stored = false → l = []) →
  descriptor_entries stored = Some (map JStr l, is_str) →
  deletion_outcome record ds l wrap same_kind
    (apply_descriptor_deletions record (JList (map JStr ds))).
Proof.
  intros Hok Hstored Hkind Hwrap Hwrap_eq Hfalsy Hentries.
  assert (deletion_outcome record ds l wrap same_kind (Ok (false, record)) ↔
          ∀ d, d ∈ l → deleted_by ds d = false) as Hfalse.
  { split.
    - intros (b & record' & [= <- <-] & _ & Hb & _) d Hd.
      destruct (deleted_by ds d) eqn:E; [ | done].
      assert (false = true) as Habs by (apply Hb; by exists d). done.
    - intros Hnone. exists false, record. split; [done | ].
      split; [by exists stored | ]. split; [ | by split].
      split; [done | ]. intros (d & Hd & Hdel). rewrite (Hnone d Hd) in Hdel. done. }
  destruct ds as [ | d0 ds].
  { apply Hfalse. done. }
  destruct (py_truthy stored) eqn:Htruthy.
  2:{ rewrite apply_descriptor_deletions_noop; [ | done | rewrite Hstored; by left].
      apply Hfalse. rewrite (Hfalsy eq_refl). intros d Hd. by apply elem_of_nil in Hd. }
  rewrite (apply_descriptor_deletions_entries record (d0 :: ds) stored l is_str);
    try done.
  destruct (Nat.eqb _ _) eqn:Hlen.
  - apply Hfalse. apply remaining_length. by apply Nat.eqb_eq.
  - apply Nat.eqb_neq in Hlen. rewrite remaining_length in Hlen.
    rewrite <- Hwrap_eq.
    eexists true, _. split; [done | ]. rewrite descriptors_of_set.
    split; [by eexists | ]. split; [ | by split].
    split; [ | done]. intros _.
    rewrite <- Forall_forall in Hlen. apply not_Forall_Exists in Hlen; [ | apply _].
    apply Exists_exists in Hlen as (d & Hd & Hdel). exists d. split; [done | ].
    apply not_false_is_true. exact Hdel.
Qed.

(** C7: a descriptor field stored as a string is still a string after a
    deletion (read at commas and semicolons, written with ["; "] between the
    entries) and one stored as a list is still a list; an entry is deleted
    when it equals a non-empty deletion, letter case apart; the result is
    false, and the record untouched, when the field is absent or empty or
    when nothing matches; a field that is neither a string nor a list is
    left alone without an error. *)
Theorem descriptor_deletion_contract (record : dict) (ds : list string) :
  custom_fields_ok record →
  let res := apply_descriptor_deletions record (JList (map JStr ds)) in
  (∀ s, descriptors_of record = Some (JStr s) →
     deletion_outcome record ds (read_descriptors s)
       (λ l, JStr (join "; " l)) is_string res) ∧
  (∀ l, descriptors_of record = Some (JList (map JStr l)) →
     deletion_outcome record ds l (λ l, JList (map JStr l)) is_list res) ∧
  (descriptors_of record = None → res = Ok (false, record)) ∧
  (∀ v, descriptors_of record = Some v → py_truthy v = false →
     res = Ok (false, record)) ∧
  (∀ v, descriptors_of record = Some v → ¬ is_string v → ¬ is_list v →
     res = Ok (false, record)).
Proof.
  intros Hok res. unfold res. repeat split.
  - intros s Hs.
    apply (deletion_outcome_entries record ds (JStr s) _ true); try done.
    + by eexists.
    + intros l'. by eexists.
    + simpl. intros Hs0. apply negb_false_iff, String.eqb_eq in Hs0. by subst s.
    + unfold descriptor_entries, read_descriptors. by rewrite split_replace.
  - intros l Hl.
    apply (deletion_outcome_entries record ds (JList (map JStr l)) _ false); try done.
    + by eexists.
    + intros l'. by eexists.
    + simpl. by destruct l.
  - intros Hnone. apply apply_descriptor_deletions_noop; [done | by rewrite Hnone].
  - intros v Hv Hfalsy. apply apply_descriptor_deletions_noop; [done | ].
    rewrite Hv. by left.
  - intros v Hv Hstr Hlist. apply apply_descriptor_deletions_noop; [done | ].
    rewrite Hv. right.
    destruct v as [ | b | n | s | l | d]; try done.
    + exfalso. apply Hstr. by eexists.
    + exfalso. apply Hlist. by eexists.
Qed.

Lemma descriptor_deletion_contract_witness :
  custom_fields_ok sample_descriptor_record ∧
  deletion_outcome sample_descriptor_record ["BETA"]
    (read_descriptors "alpha, Beta;gamma ; ")
    (λ l, JStr (join "; " l)) is_string
    (apply_descriptor_deletions sample_descriptor_record (JList [JStr "BETA"])).
Proof.
  split; [exact I | ].
  apply (descriptor_deletion_contract sample_descriptor_record ["BETA"] I).
  reflexivity.
Defined.

Example apply_descriptor_deletions_sample :
  apply_descriptor_deletions sample_descriptor_record (JList [JStr "BETA"])
  = Ok (true, [("custom_fields", JDict [(descriptor_key, JStr "alpha; gamma")])]).
Proof. vm_compute. reflexivity. Qed.

(** ** Orchestrator: related identifiers and the affiliation gate *)

Lemma corrections_of_other_flag flag v report :
  flag ≠ "corrections" → corrections_of (dset flag v report) = corrections_of report.
Proof.
  intros Hne. unfold corrections_of, dget_default. by rewrite dget_dset_ne.
Qed.

(** C10: when the related-identifier correction is present and non-empty
    and adds nothing, the orchestrator returns the flag, the actions and the
    unapplied notes that the earlier stages produced; the stage reads the
    corrections only, so no flag of the report bears on it; and a falsy
    value skips it, leaving the state of the earlier stages as the
    result. *)
Theorem related_stage_silent (record0 : dict) (report : dict) (st : run_state) :
  stages_before_related report (RunState record0 false [] []) = Ok st →
  let related := related_payload (corrections_of report) in
  (py_truthy related = true →
   ∀ r, add_related_identifiers (record st) (related_list related) = Ok (0, r) →
        apply_corrections record0 report
        = Ok (RunState r (changed st) (actions st) (unapplied st))) ∧
  (py_truthy related = false → apply_corrections record0 report = Ok st) ∧
  (∀ flag v st0, flag ≠ "corrections" →
     related_stage (corrections_of (dset flag v report)) st0
     = related_stage (corrections_of report) st0).
Proof.
  intros Hbefore related. unfold apply_corrections, run_corrections.
  rewrite Hbefore, bind_Ok_l. unfold related_stage. fold related.
  split; [ | split].
  - intros Htruthy r Hadd. by rewrite Htruthy, Hadd.
  - intros Hfalsy. by rewrite Hfalsy.
  - intros flag v st0 Hne. by rewrite corrections_of_other_flag.
Qed.

Lemma related_stage_silent_witness :
  apply_corrections sample_related_record known_identifier_report
  = Ok (RunState sample_related_record false [] []).
Proof.
  assert (stages_before_related known_identifier_report
            (RunState sample_related_record false [] [])
          = Ok (RunState sample_related_record false [] [])) as Hbefore
    by reflexivity.
  destruct (related_stage_silent _ _ _ Hbefore) as [Hsilent _].
  apply (Hsilent eq_refl). reflexivity.
Defined.

(** C2 (amended): a non-empty list of affiliation corrections reaches the
    affiliation applier exactly when the flag
    [affiliation_correction_recommended] is absent or truthy; then the only
    note it can leave is that no matches were found.  When the flag is
    falsy the applier is not called, the record stays as it is and the note
    says that the flag withheld the corrections. *)
Theorem affiliation_stage_gate (report : dict) (c : json) (cs : list json)
    (st : run_state) :
  dget "affiliation_corrections" report = Some (JList (c :: cs)) →
  (gate report "affiliation_correction_recommended" = true →
   affiliation_stage report st =
   '(applied, r) ← apply_affiliations (record st) (JList (c :: cs));
   Ok (if Nat.ltb 0 applied
       then applied_action (counted "Affiliations corrected" applied) (with_record r st)
       else withheld no_matches_note (with_record r st))) ∧
  (gate report "affiliation_correction_recommended" = false →
   affiliation_stage report st = Ok (withheld gate_note st)).
Proof.
  intros Hcorr. unfold affiliation_stage, dget_default. rewrite Hcorr.
  unfold py_or. cbn [py_truthy]. split; intros ->; [ | done].
  destruct (apply_affiliations (record st) (JList (c :: cs))) as [[applied r] | e];
    simpl; [ | done].
  by destruct (Nat.ltb 0 applied).
Qed.

Lemma affiliation_stage_gate_witness :
  affiliation_stage gated_affiliation_report (RunState sample_creator_record false [] [])
  = Ok (RunState sample_creator_record false [] [gate_note]).
Proof.
  destruct (affiliation_stage_gate gated_affiliation_report
              (affiliation_pair "A" "B") []
              (RunState sample_creator_record false [] []) eq_refl) as [_ Hoff].
  exact (Hoff eq_refl).
Defined.

(** C2, as stated, fails: with the flag set to false the corrections are
    withheld by the flag, although the applier would have rewritten one
    affiliation. *)
Lemma affiliation_withheld_by_flag :
  apply_corrections sample_creator_record gated_affiliation_report
  = Ok (RunState sample_creator_record false [] [gate_note]) ∧
  ∃ r, apply_affiliations sample_creator_record (JList [affiliation_pair "A" "B"])
       = Ok (1, r) ∧ r ≠ sample_creator_record.
Proof.
  split; [reflexivity | ]. eexists. split; [reflexivity | ]. done.
Qed.

(** ** Loops that rewrite in place *)

Lemma for_each_Ok_cons {A} (f : A → result (A * nat)) x l r :
  for_each f (x :: l) = Ok r ↔
  ∃ x' n l' m, f x = Ok (x', n) ∧ for_each f l = Ok (l', m) ∧ r = (x' :: l', n + m).
Proof.
  cbn [for_each]. split.
  - intros H. apply bind_Ok in H as ([x' n] & Hx & H).
    apply bind_Ok in H as ([l' m] & Hl & [= <-]). by exists x', n, l', m.
  - intros (x' & n & l' & m & Hx & Hl & ->). by rewrite Hx, bind_Ok_l, Hl.
Qed.

Lemma for_each_fixed {A} (g : A → result (A * nat)) l :
  for_each g l = Ok (l, 0) ↔ Forall (λ x, g x = Ok (x, 0)) l.
Proof.
  induction l as [ | x l IH].
  - split; [constructor | done].
  - rewrite for_each_Ok_cons, Forall_cons. split.
    + intros (x' & n & l' & m & Hx & Hl & [= <- <- Hsum]).
      assert (n = 0 ∧ m = 0) as [-> ->] by lia. split; [done | by apply IH].
    + intros [Hx Hl]. exists x, 0, l, 0. split; [done | ]. split; [by apply IH | done].
Qed.

(** Whatever [f] leaves behind, [g] finds nothing to do on it. *)
Lemma for_each_after {A} (f g : A → result (A * nat)) l l' n :
  (∀ x x' k, f x = Ok (x', k) → g x' = Ok (x', 0)) →
  for_each f l = Ok (l', n) → for_each g l' = Ok (l', 0).
Proof.
  intros Hfg. revert l' n. induction l as [ | x l IH]; intros l' n.
  - by intros [= <- <-].
  - intros H. apply for_each_Ok_cons in H as (x' & k & l'' & m & Hx & Hl & [= -> ->]).
    apply for_each_fixed. constructor; [by eapply Hfg | ].
    apply for_each_fixed. by eapply IH.
Qed.

(** [g] has nothing to do before [f] runs, and [f] gives it nothing to do. *)
Lemma for_each_cross {A} (f g : A → result (A * nat)) l l' n :
  (∀ x x' k, g x = Ok (x, 0) → f x = Ok (x', k) → g x' = Ok (x', 0)) →
  for_each g l = Ok (l, 0) → for_each f l = Ok (l', n) → for_each g l' = Ok (l', 0).
Proof.
  intros Hfg Hg. apply for_each_fixed in Hg. revert l' n.
  induction Hg as [ | x l Hx Hg IH]; intros l' n.
  - by intros [= <- <-].
  - intros H. apply for_each_Ok_cons in H as (x' & k & l'' & m & Hfx & Hl & [= -> ->]).
    apply for_each_fixed. constructor; [by eapply Hfg | ].
    apply for_each_fixed. by eapply IH.
Qed.

Lemma for_each_strings f (l : list string) r :
  fails_on_strings f → for_each f (map JStr l) = Ok r → l = [].
Proof.
  intros Hf. destruct l as [ | s l]; [done | ].
  cbn [map for_each]. by rewrite Hf.
Qed.

(** A loop over something that is not a list only returns when there is
    nothing to visit. *)
Lemma for_in_not_list f xs r :
  fails_on_strings f →
  (∀ l, xs ≠ JList l) →
  for_in f xs = Ok r →
  r = (xs, 0) ∧ ∀ g, for_in g xs = Ok (xs, 0).
Proof.
  intros Hf Hxs. destruct xs as [ | b | n | s | l | d]; try done.
  - unfold for_in, py_iter. rewrite bind_Ok_l. intros H.
    apply bind_Ok in H as ([l' n] & Hl & [= <-]).
    apply for_each_strings in Hl as Hnil; [ | done].
    destruct s; [ | done]. simpl in Hl. injection Hl as <- <-. by split.
  - by specialize (Hxs l).
  - unfold for_in, py_iter. rewrite bind_Ok_l. intros H.
    apply bind_Ok in H as ([l' n] & Hl & [= <-]).
    rewrite <- (map_map fst JStr) in Hl.
    apply for_each_strings in Hl as Hnil; [ | done].
    destruct d; [ | done]. simpl in Hl. injection Hl as <- <-. by split.
Qed.

Lemma for_in_list f l r :
  for_in f (JList l) = Ok r ↔ ∃ l' n, for_each f l = Ok (l', n) ∧ r = (JList l', n).
Proof.
  unfold for_in. split.
  - intros H. apply bind_Ok in H as ([l' n] & Hl & [= <-]). by exists l', n.
  - intros (l' & n & Hl & ->). by rewrite Hl.
Qed.

Lemma for_in_after f g xs xs' n :
  fails_on_strings f →
  (∀ x x' k, f x = Ok (x', k) → g x' = Ok (x', 0)) →
  for_in f xs = Ok (xs', n) → for_in g xs' = Ok (xs', 0).
Proof.
  intros Hf Hfg H.
  destruct xs as [ | b | k | s | l | d].
  5:{ apply for_in_list in H as (l' & m & Hl & [= -> ->]).
      apply for_in_list. exists l', 0. split; [ | done]. by eapply for_each_after. }
  all: apply for_in_not_list in H as [[= <- <-] Hg]; done.
Qed.

Lemma for_in_cross f g xs xs' n :
  fails_on_strings f →
  (∀ x x' k, g x = Ok (x, 0) → f x = Ok (x', k) → g x' = Ok (x', 0)) →
  for_in g xs = Ok (xs, 0) → for_in f xs = Ok (xs', n) → for_in g xs' = Ok (xs', 0).
Proof.
  intros Hf Hfg Hg H.
  destruct xs as [ | b | k | s | l | d].
  5:{ apply for_in_list in H as (l' & m & Hl & [= -> ->]).
      apply for_in_list in Hg as (l0 & m0 & Hl0 & [= <- <-]).
      apply for_in_list. exists l', 0. split; [ | done]. by eapply for_each_cross. }
  all: apply for_in_not_list in H as [[= <- <-] Hg']; done.
Qed.

Section DictReplace.
Context {A : Type}.
Implicit Types (d : list (string * A)) (k : string) (v : A).

Lemma dget_dset k k' v d :
  dget k' (dset k v d) = if String.eqb k' k then Some v else dget k' d.
Proof.
  destruct (String.eqb k' k) eqn:E.
  - apply String.eqb_eq in E. subst. apply dget_dset_eq.
  - apply String.eqb_neq in E. by apply dget_dset_ne.
Qed.

Lemma dreplace_dreplace k v w d : dreplace k v (dreplace k w d) = dreplace k v d.
Proof.
  unfold dreplace. destruct (dget k d) eqn:E.
  - rewrite dget_dset_eq. apply dset_dset.
  - by rewrite E.
Qed.

Lemma dreplace_fixed k v d : dreplace k v d = d → dget k d = None ∨ dget k d = Some v.
Proof.
  intros H. destruct (dget k d) as [a | ] eqn:E; [right | by left].
  pose proof (dget_dreplace_eq k v d) as Hget. rewrite H, E in Hget. done.
Qed.

Lemma dreplace_fixed_other k k' v w d :
  k ≠ k' → dreplace k' w d = d → dreplace k' w (dreplace k v d) = dreplace k v d.
Proof.
  intros Hne H. apply dreplace_fixed in H.
  unfold dreplace at 1. rewrite dget_dreplace_ne by done.
  destruct H as [-> | H]; [done | ].
  rewrite H. apply dset_same. by rewrite dget_dreplace_ne.
Qed.
End DictReplace.

Lemma dget_default_dreplace k default v d :
  dget_default k default (dreplace k v d)
  = match dget k d with Some _ => v | None => default end.
Proof. unfold dget_default. rewrite dget_dreplace_eq. by destruct (dget k d). Qed.

Lemma dget_default_dreplace_ne k k' default v d :
  k ≠ k' → dget_default k' default (dreplace k v d) = dget_default k' default d.
Proof. intros Hne. unfold dget_default. by rewrite dget_dreplace_ne. Qed.

Lemma lift_field_strings key default g : fails_on_strings (lift_field key default g).
Proof. by intros s. Qed.

Lemma lift_field_Ok key default g c r :
  lift_field key default g c = Ok r ↔
  ∃ d v n, c = JDict d ∧ g (dget_default key default d) = Ok (v, n) ∧
           r = (JDict (dreplace key v d), n).
Proof.
  split.
  - destruct c as [ | b | m | s | l | d]; try done. simpl.
    intros H. apply bind_Ok in H as ([v n] & Hg & [= <-]). by exists d, v, n.
  - intros (d & v & n & -> & Hg & ->). simpl. by rewrite Hg.
Qed.

Lemma lift_field_fixed key default g d :
  g (dget_default key default d) = Ok (dget_default key default d, 0) →
  lift_field key default g (JDict d) = Ok (JDict d, 0).
Proof.
  intros Hg. simpl. rewrite Hg, bind_Ok_l. do 3 f_equal.
  unfold dreplace, dget_default.
  destruct (dget key d) eqn:E; [by apply dset_same | done].
Qed.

Lemma lift_field_fixed_inv key default g d :
  g default = Ok (default, 0) →
  lift_field key default g (JDict d) = Ok (JDict d, 0) →
  g (dget_default key default d) = Ok (dget_default key default d, 0).
Proof.
  intros Hdefault H. apply lift_field_Ok in H as (d' & v & n & [= <-] & Hg & [= Hd <-]).
  symmetry in Hd. apply dreplace_fixed in Hd. unfold dget_default in *.
  destruct Hd as [Hd | Hd]; rewrite Hd in *; done.
Qed.

Lemma lift_field_after key default g1 g2 c c' n :
  g1 default = Ok (default, 0) →
  g2 default = Ok (default, 0) →
  (∀ v v' k, g1 v = Ok (v', k) → g2 v' = Ok (v', 0)) →
  lift_field key default g1 c = Ok (c', n) →
  lift_field key default g2 c' = Ok (c', 0).
Proof.
  intros H1 H2 H12 H.
  apply lift_field_Ok in H as (d & v & k & -> & Hg & [= -> ->]).
  apply lift_field_fixed. rewrite dget_default_dreplace.
  unfold dget_default in Hg. destruct (dget key d); [by eapply H12 | done].
Qed.

Lemma lift_field_cross key default g1 g2 c c' n :
  g2 default = Ok (default, 0) →
  (∀ v v' k, g2 v = Ok (v, 0) → g1 v = Ok (v', k) → g2 v' = Ok (v', 0)) →
  lift_field key default g2 c = Ok (c, 0) →
  lift_field key default g1 c = Ok (c', n) →
  lift_field key default g2 c' = Ok (c', 0).
Proof.
  intros H2 H12 Hfix H.
  apply lift_field_Ok in H as (d & v & k & -> & Hg & [= -> ->]).
  apply lift_field_fixed_inv in Hfix; [ | done].
  apply lift_field_fixed. rewrite dget_default_dreplace.
  unfold dget_default in Hg, Hfix. destruct (dget key d); [by eapply H12 | done].
Qed.

(** A rewriting under another key leaves a settled field settled. *)
Lemma lift_field_other key1 default1 g1 key2 default2 g2 c c' n :
  key1 ≠ key2 →
  g2 default2 = Ok (default2, 0) →
  lift_field key2 default2 g2 c = Ok (c, 0) →
  lift_field key1 default1 g1 c = Ok (c', n) →
  lift_field key2 default2 g2 c' = Ok (c', 0).
Proof.
  intros Hne H2 Hfix H.
  apply lift_field_Ok in H as (d & v & k & -> & Hg & [= -> ->]).
  apply lift_field_fixed_inv in Hfix; [ | done].
  apply lift_field_fixed. by rewrite dget_default_dreplace_ne.
Qed.

(** ** The two rewriting bodies *)

Lemma creator_affiliations_lift old_aff new_aff :
  creator_affiliations old_aff new_aff
  = lift_field "affiliations" (JList []) (for_in (rewrite_affiliation old_aff new_aff)).
Proof. reflexivity. Qed.

Lemma creator_org_author_lift old_org new_org c :
  creator_org_author old_org new_org c
  = lift_field "person_or_org" (JDict []) (rewrite_org_author old_org new_org) c.
Proof.
  destruct c as [ | b | n | s | l | d]; try done. simpl.
  unfold dget_default, dreplace.
  destruct (dget "person_or_org" d) as [[ | b | n | s | l | p] | ] eqn:E; try done; simpl.
  destruct (_ && _); simpl; [done | ]. by rewrite dset_same.
Qed.

Lemma rewrite_affiliation_after old_aff new_aff n a a' k :
  py_eq new_aff old_aff = false →
  rewrite_affiliation old_aff new_aff a = Ok (a', k) →
  rewrite_affiliation old_aff n a' = Ok (a', 0).
Proof.
  intros Hne. destruct a as [ | b | m | s | l | d]; try done. simpl.
  destruct (py_eq (dget_default "name" (JStr "") d) old_aff) eqn:E.
  - intros [= <- <-]. simpl. unfold dget_default. by rewrite dget_dset_eq, Hne.
  - intros [= <- <-]. simpl. by rewrite E.
Qed.

Lemma rewrite_affiliation_cross o n old_aff new_aff a a' k :
  py_eq new_aff o = false →
  rewrite_affiliation o n a = Ok (a, 0) →
  rewrite_affiliation old_aff new_aff a = Ok (a', k) →
  rewrite_affiliation o n a' = Ok (a', 0).
Proof.
  intros Hne. destruct a as [ | b | m | s | l | d]; try done. simpl.
  destruct (py_eq (dget_default "name" (JStr "") d) o) eqn:Eo; [done | ]. intros _.
  destruct (py_eq (dget_default "name" (JStr "") d) old_aff).
  - intros [= <- <-]. simpl. unfold dget_default. by rewrite dget_dset_eq, Hne.
  - intros [= <- <-]. simpl. by rewrite Eo.
Qed.

Lemma rewrite_org_author_after old_org new_org n p p' k :
  py_eq new_org old_org = false →
  rewrite_org_author old_org new_org p = Ok (p', k) →
  rewrite_org_author old_org n p' = Ok (p', 0).
Proof.
  intros Hne. destruct p as [ | b | m | s | l | d]; try done. simpl.
  destruct (_ && _) eqn:E.
  - intros [= <- <-]. simpl. unfold dget_default.
    by rewrite dget_dset_eq, Hne, andb_false_r.
  - intros [= <- <-]. simpl. by rewrite E.
Qed.

Lemma rewrite_org_author_cross o n old_org new_org p p' k :
  py_eq new_org o = false →
  rewrite_org_author o n p = Ok (p, 0) →
  rewrite_org_author old_org new_org p = Ok (p', k) →
  rewrite_org_author o n p' = Ok (p', 0).
Proof.
  intros Hne. destruct p as [ | b | m | s | l | d]; try done. simpl.
  destruct (_ && py_eq _ o) eqn:Eo; [done | ]. intros _.
  destruct (_ && py_eq _ old_org).
  - intros [= <- <-]. simpl. unfold dget_default.
    by rewrite dget_dset_eq, Hne, andb_false_r.
  - intros [= <- <-]. simpl. by rewrite Eo.
Qed.

Lemma for_in_empty f : for_in f (JList []) = Ok (JList [], 0).
Proof. reflexivity. Qed.

Lemma rewrite_org_author_empty old_org new_org :
  rewrite_org_author old_org new_org (JDict []) = Ok (JDict [], 0).
Proof. reflexivity. Qed.

Lemma for_each_zero {A} (f : A → result (A * nat)) l l' :
  (∀ x x', f x = Ok (x', 0) → x' = x) →
  for_each f l = Ok (l', 0) → l' = l.
Proof.
  intros Hf. revert l'. induction l as [ | x l IH]; intros l'.
  - by intros [= <-].
  - intros H. apply for_each_Ok_cons in H as (x' & n & l'' & m & Hx & Hl & [= -> Hsum]).
    assert (n = 0 ∧ m = 0) as [-> ->] by lia.
    f_equal; [by apply Hf | by apply IH].
Qed.

Lemma for_in_zero f xs xs' :
  (∀ x x', f x = Ok (x', 0) → x' = x) →
  for_in f xs = Ok (xs', 0) → xs' = xs.
Proof.
  intros Hf. destruct xs as [ | b | k | s | l | d]; try done.
  - unfold for_in. intros H. apply bind_Ok in H as (items & _ & H).
    by apply bind_Ok in H as ([l' n] & _ & [= <- _]).
  - intros H. apply for_in_list in H as (l' & m & Hl & [= -> <-]).
    f_equal. by eapply for_each_zero.
  - unfold for_in. intros H. apply bind_Ok in H as (items & _ & H).
    by apply bind_Ok in H as ([l' n] & _ & [= <- _]).
Qed.

Lemma lift_field_zero key default g c c' :
  (∀ v v', g v = Ok (v', 0) → v' = v) →
  lift_field key default g c = Ok (c', 0) → c' = c.
Proof.
  intros Hg H. apply lift_field_Ok in H as (d & v & n & -> & Hv & [= -> <-]).
  apply Hg in Hv. subst v. f_equal. unfold dreplace, dget_default.
  destruct (dget key d) eqn:E; [by apply dset_same | done].
Qed.

Lemma rewrite_affiliation_zero old_aff new_aff a a' :
  rewrite_affiliation old_aff new_aff a = Ok (a', 0) → a' = a.
Proof.
  destruct a as [ | b | m | s | l | d]; try done. simpl.
  destruct (py_eq _ old_aff); [done | ]. by intros [= <-].
Qed.

Lemma rewrite_org_author_zero old_org new_org p p' :
  rewrite_org_author old_org new_org p = Ok (p', 0) → p' = p.
Proof.
  destruct p as [ | b | m | s | l | d]; try done. simpl.
  destruct (_ && _); [done | ]. by intros [= <-].
Qed.

Lemma creator_affiliations_settling : settling creator_affiliations.
Proof.
  split.
  4:{ intros old_value new_value x x'. rewrite creator_affiliations_lift.
      apply lift_field_zero. intros v v'. apply for_in_zero.
      intros a a'. apply rewrite_affiliation_zero. }
  - done.
  - intros old_value new_value n x x' k Hne. rewrite !creator_affiliations_lift.
    apply lift_field_after; try done.
    intros v v' k'. apply for_in_after; [done | ].
    intros a a' j. by apply rewrite_affiliation_after.
  - intros o n old_value new_value x x' k Hne. rewrite !creator_affiliations_lift.
    apply lift_field_cross; try done.
    intros v v' k'. apply for_in_cross; [done | ].
    intros a a' j. by apply rewrite_affiliation_cross.
Qed.

Lemma creator_org_author_settling : settling creator_org_author.
Proof.
  split.
  4:{ intros old_value new_value x x'. rewrite creator_org_author_lift.
      apply lift_field_zero. intros v v'. apply rewrite_org_author_zero. }
  - done.
  - intros old_value new_value n x x' k Hne. rewrite !creator_org_author_lift.
    apply lift_field_after; try done.
    intros v v' k'. by apply rewrite_org_author_after.
  - intros o n old_value new_value x x' k Hne. rewrite !creator_org_author_lift.
    apply lift_field_cross; try done.
    intros v v' k'. by apply rewrite_org_author_cross.
Qed.

(** Rewriting an organisational author gives the affiliation pairs nothing
    new to do. *)
Lemma creator_affiliations_after_org o n old_org new_org c c' k :
  creator_affiliations o n c = Ok (c, 0) →
  creator_org_author old_org new_org c = Ok (c', k) →
  creator_affiliations o n c' = Ok (c', 0).
Proof.
  rewrite creator_org_author_lift, !creator_affiliations_lift.
  by apply lift_field_other.
Qed.

(** ** The loop over the corrections *)

Section Passes.
Variables (old_key new_key : string).
Variable body : json → json → json → result (json * nat).

Let pass := correction_pass old_key new_key body.

Lemma correction_pass_spec c creators n :
  pass c (creators, n) =
  match c with
  | JDict _ =>
      match pair_of old_key new_key c with
      | Some (old_value, new_value) =>
          '(creators', k) ← for_in (body old_value new_value) creators;
          Ok (creators', n + k)
      | None => Ok (creators, n)
      end
  | _ => Raise AttributeError
  end.
Proof.
  unfold pass, correction_pass, pair_of.
  destruct c as [ | b | m | s | l | d]; try done. simpl.
  destruct (py_truthy (dget_default old_key (JStr "") d)); simpl; [ | done].
  by destruct (py_truthy (dget_default new_key (JStr "") d)).
Qed.

Lemma pair_of_dict c p : pair_of old_key new_key c = Some p → ∃ d, c = JDict d.
Proof. destruct c; try done. by eexists. Qed.

(** An invariant of the creators that every pair preserves is preserved by
    the loop. *)
Lemma passes_preserve (P : json → Prop) items creators n creators' n' :
  (∀ c old_value new_value cr cr' k,
     c ∈ items →
     pair_of old_key new_key c = Some (old_value, new_value) →
     P cr → for_in (body old_value new_value) cr = Ok (cr', k) → P cr') →
  P creators →
  foldM pass items (creators, n) = Ok (creators', n') →
  P creators' ∧ Forall (λ c, ∃ d, c = JDict d) items.
Proof.
  revert creators n. induction items as [ | c items IH]; intros creators n Hstep HP.
  - intros [= <- <-]. by split.
  - cbn [foldM]. intros H. apply bind_Ok in H as ([cr1 n1] & Hpass & Hrest).
    rewrite correction_pass_spec in Hpass.
    destruct c as [ | b | m | s | l | d]; try done.
    assert (P cr1) as HP1.
    { destruct (pair_of old_key new_key (JDict d)) as [[old_value new_value] | ] eqn:Hpair.
      - apply bind_Ok in Hpass as ([cr k] & Hfor & [= <- <-]).
        eapply Hstep; [ | exact Hpair | exact HP | exact Hfor]. by left.
      - by injection Hpass as <- <-. }
    apply IH in Hrest as [HP' Hdicts]; [ | | done].
    + split; [done | ]. constructor; [by eexists | done].
    + intros c old_value new_value cr cr' k Hin. apply Hstep. by right.
Qed.

Lemma settled_pairs_rerun items creators n :
  settled_pairs old_key new_key body items creators →
  foldM pass items (creators, n) = Ok (creators, n).
Proof.
  intros H. revert n.
  induction H as [ | c items [[d ->] Hc] Hall IH]; intros n; [done | ].
  cbn [foldM]. rewrite correction_pass_spec.
  destruct (pair_of old_key new_key (JDict d)) as [[old_value new_value] | ] eqn:Hpair.
  - rewrite (Hc _ _ eq_refl), !bind_Ok_l. replace (n + 0) with n by lia. apply IH.
  - rewrite bind_Ok_l. apply IH.
Qed.

Hypothesis body_settling : settling body.

Lemma passes_keep o n0 items creators n creators' n' :
  none_recommends old_key new_key o items = true →
  for_in (body o n0) creators = Ok (creators, 0) →
  foldM pass items (creators, n) = Ok (creators', n') →
  for_in (body o n0) creators' = Ok (creators', 0).
Proof.
  intros Hnone Hfix Hrun.
  eapply (passes_preserve (λ cr, for_in (body o n0) cr = Ok (cr, 0))) in Hrun
    as [Hfix' _]; [done | | done].
  intros c old_value new_value cr cr' k Hin Hpair Hcr Hfor.
  unfold none_recommends in Hnone. rewrite forallb_forall in Hnone.
  apply list_elem_of_In in Hin. specialize (Hnone c Hin). rewrite Hpair in Hnone.
  apply negb_true_iff in Hnone.
  eapply for_in_cross; [ | | exact Hcr | exact Hfor].
  - apply (settling_strings _ body_settling).
  - intros x x' j. by apply (settling_cross _ body_settling).
Qed.

(** After the loop, no pair finds anything to rewrite, provided no pair
    recommends the old value of itself or of an earlier pair. *)
Lemma passes_settle items creators n creators' n' :
  chain_free_items old_key new_key items = true →
  foldM pass items (creators, n) = Ok (creators', n') →
  settled_pairs old_key new_key body items creators'.
Proof.
  revert creators n. induction items as [ | c items IH]; intros creators n Hfree.
  - intros _. constructor.
  - cbn [foldM]. intros H. apply bind_Ok in H as ([cr1 n1] & Hpass & Hrest).
    cbn [chain_free_items] in Hfree. apply andb_true_iff in Hfree as [Hc Hfree].
    constructor; [ | by eapply IH].
    rewrite correction_pass_spec in Hpass.
    destruct c as [ | b | m | s | l | d]; try done. split; [by eexists | ].
    intros old_value new_value Hpair. rewrite Hpair in Hc, Hpass.
    apply bind_Ok in Hpass as ([cr k] & Hfor & [= <- <-]).
    cbn [none_recommends forallb] in Hc. rewrite Hpair in Hc.
    apply andb_true_iff in Hc as [Hself Hlater]. apply negb_true_iff in Hself.
    eapply passes_keep; [exact Hlater | | exact Hrest].
    eapply for_in_after; [ | | exact Hfor].
    + apply (settling_strings _ body_settling).
    + intros x x' j. by apply (settling_after _ body_settling).
Qed.
(** The loop never counts down, and when it counts nothing it has changed
    nothing and no pair finds anything to rewrite. *)
Lemma passes_zero items creators n creators' n' :
  foldM pass items (creators, n) = Ok (creators', n') →
  (n ≤ n')%nat ∧
  (n' = n → creators' = creators ∧ settled_pairs old_key new_key body items creators).
Proof.
  revert creators n. induction items as [ | c items IH]; intros creators n.
  - intros [= <- <-]. split; [done | ]. intros _. split; [done | constructor].
  - cbn [foldM]. intros H. apply bind_Ok in H as ([cr1 n1] & Hpass & Hrest).
    apply IH in Hrest as [Hle Hzero].
    rewrite correction_pass_spec in Hpass.
    destruct c as [ | b | m | s | l | d]; try done.
    destruct (pair_of old_key new_key (JDict d)) as [[old_value new_value] | ] eqn:Hpair.
    + apply bind_Ok in Hpass as ([cr k] & Hfor & [= <- <-]).
      split; [lia | ]. intros ->. assert (k = 0) as -> by lia.
      destruct Hzero as [-> Hsettled]; [lia | ].
      apply for_in_zero in Hfor as Hcr;
        [ | intros x x'; apply (settling_zero _ body_settling)].
      subst cr. split; [done | ]. constructor; [ | done].
      split; [by eexists | ]. intros o n0 Hp. rewrite Hpair in Hp.
      by injection Hp as <- <-.
    + injection Hpass as <- <-. split; [done | ]. intros ->.
      destruct Hzero as [-> Hsettled]; [done | ]. split; [done | ].
      constructor; [ | done]. split; [by eexists | ]. intros o n0 Hp.
      rewrite Hpair in Hp. done.
Qed.
End Passes.

(** ** Rewriting appliers on a record *)

Lemma apply_affiliations_pairs :
  apply_affiliations
  = apply_pairs "old_affiliation" "recommended_affiliation" creator_affiliations.
Proof. reflexivity. Qed.

Lemma apply_org_authors_pairs :
  apply_org_authors
  = apply_pairs "old_organizational_author" "recommended_organizational_author"
      creator_org_author.
Proof. reflexivity. Qed.

Lemma metadata_ok_default record :
  metadata_ok record →
  dget_default "metadata" (JDict []) record = JDict (metadata_of record).
Proof.
  unfold metadata_ok, dget_default, metadata_of.
  by destruct (dget "metadata" record) as [[ | b | n | s | l | md] | ].
Qed.

Lemma metadata_not_ok record :
  ¬ metadata_ok record →
  ∀ md, dget_default "metadata" (JDict []) record ≠ JDict md.
Proof.
  unfold metadata_ok, dget_default. intros Hno md.
  destruct (dget "metadata" record) as [[ | b | n | s | l | md'] | ]; try done.
  all: by exfalso; apply Hno.
Qed.

Lemma metadata_ok_dec record : metadata_ok record ∨ ¬ metadata_ok record.
Proof.
  unfold metadata_ok.
  destruct (dget "metadata" record) as [[ | b | n | s | l | md] | ]; auto.
Qed.

Lemma with_creators_value record :
  with_creators (creators_value record) record = record.
Proof.
  unfold with_creators, creators_value, metadata_field, metadata_of.
  destruct (dget "metadata" record) as [[ | b | n | s | l | md] | ] eqn:E; try done.
  apply dset_same. rewrite E. do 2 f_equal. unfold dreplace.
  destruct (dget "creators" md) eqn:Ec; [ | done].
  symmetry. by apply dset_same.
Qed.

Lemma with_creators_touch creators record :
  metadata_ok record →
  with_creators creators record =
  match metadata_field "creators" record with
  | Some _ => set_metadata_field "creators" creators record
  | None => record
  end.
Proof.
  unfold with_creators, metadata_ok, metadata_field, set_metadata_field, metadata_of.
  destruct (dget "metadata" record) as [[ | b | n | s | l | md] | ] eqn:E; try done.
  intros _. unfold dreplace. destruct (dget "creators" md); [done | ].
  by apply dset_same.
Qed.

Section ApplyPairs.
Variables (old_key new_key : string).
Variable body : json → json → json → result (json * nat).
Hypothesis body_settling : settling body.

Let applier := apply_pairs old_key new_key body.
Let pass := correction_pass old_key new_key body.

Lemma apply_pairs_truthy record corrections :
  py_truthy corrections = true →
  metadata_ok record →
  applier record corrections =
  items ← py_iter corrections;
  '(creators', applied) ← foldM pass items (creators_value record, 0);
  Ok (applied, with_creators creators' record).
Proof.
  intros Ht Hok. unfold applier, apply_pairs. rewrite Ht. cbn [negb].
  rewrite (metadata_ok_default _ Hok). unfold py_get. rewrite bind_Ok_l.
  unfold creators_value, metadata_field, dget_default.
  by destruct (dget "creators" (metadata_of record)).
Qed.

Lemma apply_pairs_Ok record corrections r :
  applier record corrections = Ok r →
  py_truthy corrections = true →
  metadata_ok record.
Proof.
  intros H Ht. destruct (metadata_ok_dec record) as [Hok | Hno]; [done | ].
  unfold applier, apply_pairs in H. rewrite Ht in H. cbn [negb] in H.
  pose proof (metadata_not_ok _ Hno) as Hmd.
  destruct (dget_default "metadata" (JDict []) record) as [ | b | n | s | l | md];
    try done.
  by specialize (Hmd md).
Qed.

Lemma passes_from_empty items n creators' n' :
  foldM pass items (JList [], n) = Ok (creators', n') → creators' = JList [].
Proof.
  intros H.
  by eapply (passes_preserve old_key new_key body (λ cr, cr = JList [])) in H as [-> _];
    [ | intros c o nv cr cr' k _ _ -> [= <- _] | ].
Qed.

(** The record that the applier returns holds the creators that the loop
    returns. *)
Lemma creators_value_with_creators record items n creators' n' :
  metadata_ok record →
  foldM pass items (creators_value record, n) = Ok (creators', n') →
  creators_value (with_creators creators' record) = creators' ∧
  metadata_ok (with_creators creators' record).
Proof.
  intros Hok Hrun. rewrite (with_creators_touch _ _ Hok).
  destruct (metadata_field "creators" record) as [v | ] eqn:E.
  - unfold creators_value. rewrite set_metadata_field_get. split; [done | ].
    unfold metadata_ok, set_metadata_field. by rewrite dget_dset_eq.
  - split; [ | done]. unfold creators_value in *. rewrite E in *.
    symmetry. by eapply passes_from_empty.
Qed.

(** Run again on its own output, the applier rewrites nothing, provided no
    pair recommends the old value of itself or of an earlier pair. *)
Lemma apply_pairs_settles record corrections applied record' :
  chain_free old_key new_key corrections = true →
  applier record corrections = Ok (applied, record') →
  applier record' corrections = Ok (0, record').
Proof.
  intros Hfree H.
  destruct (py_truthy corrections) eqn:Ht.
  2:{ unfold applier, apply_pairs in *. rewrite Ht in *. by injection H as <- <-. }
  pose proof (apply_pairs_Ok _ _ _ H Ht) as Hok.
  rewrite (apply_pairs_truthy _ _ Ht Hok) in H.
  apply bind_Ok in H as (items & Hitems & H).
  apply bind_Ok in H as ([creators' n'] & Hrun & [= <- <-]).
  destruct (creators_value_with_creators _ _ _ _ _ Hok Hrun) as [Hval Hok'].
  rewrite (apply_pairs_truthy _ _ Ht Hok'), Hitems, bind_Ok_l, Hval.
  unfold chain_free in Hfree. rewrite Hitems in Hfree.
  pose proof (passes_settle _ _ _ body_settling _ _ _ _ _ Hfree Hrun) as Hsettled.
  unfold pass. rewrite (settled_pairs_rerun _ _ _ _ _ 0 Hsettled), bind_Ok_l.
  set (record' := with_creators creators' record) in *.
  rewrite <- Hval. by rewrite with_creators_value.
Qed.
Lemma apply_pairs_touches record corrections applied record' :
  applier record corrections = Ok (applied, record') →
  touches (InMetadata "creators") record record'.
Proof.
  intros H. destruct (py_truthy corrections) eqn:Ht.
  2:{ unfold applier, apply_pairs in *. rewrite Ht in *. injection H as <- <-. by left. }
  pose proof (apply_pairs_Ok _ _ _ H Ht) as Hok.
  rewrite (apply_pairs_truthy _ _ Ht Hok) in H.
  apply bind_Ok in H as (items & Hitems & H).
  apply bind_Ok in H as ([creators' n'] & Hrun & [= <- <-]).
  rewrite (with_creators_touch _ _ Hok).
  destruct (metadata_field "creators" record); [right; by eexists | by left].
Qed.

(** What a run that rewrites nothing tells about the creators. *)
Lemma apply_pairs_quiet record corrections :
  py_truthy corrections = true →
  applier record corrections = Ok (0, record) →
  metadata_ok record ∧
  ∃ items, py_iter corrections = Ok items ∧
           settled_pairs old_key new_key body items (creators_value record).
Proof.
  intros Ht H. pose proof (apply_pairs_Ok _ _ _ H Ht) as Hok. split; [done | ].
  rewrite (apply_pairs_truthy _ _ Ht Hok) in H.
  apply bind_Ok in H as (items & Hitems & H).
  apply bind_Ok in H as ([creators' n'] & Hrun & [= -> _]).
  exists items. split; [done | ].
  by apply (passes_zero _ _ _ body_settling) in Hrun as [_ [_ Hsettled]].
Qed.

Lemma apply_pairs_rerun record corrections items :
  metadata_ok record →
  py_iter corrections = Ok items →
  settled_pairs old_key new_key body items (creators_value record) →
  applier record corrections = Ok (0, record).
Proof.
  intros Hok Hitems Hsettled. destruct (py_truthy corrections) eqn:Ht.
  - rewrite (apply_pairs_truthy _ _ Ht Hok), Hitems, bind_Ok_l.
    unfold pass. rewrite (settled_pairs_rerun _ _ _ _ _ 0 Hsettled), bind_Ok_l.
    by rewrite with_creators_value.
  - unfold applier, apply_pairs. by rewrite Ht.
Qed.

Lemma apply_pairs_local record record' corrections :
  applier record corrections = Ok (0, record) →
  same_field "creators" record record' →
  applier record' corrections = Ok (0, record').
Proof.
  intros H [Hok' Hfield]. destruct (py_truthy corrections) eqn:Ht.
  - apply apply_pairs_quiet in H as (Hok & items & Hitems & Hsettled); [ | done].
    apply (apply_pairs_rerun _ _ items); [by apply Hok' | done | ].
    unfold creators_value. by rewrite Hfield.
  - unfold applier, apply_pairs. by rewrite Ht.
Qed.
End ApplyPairs.

(** Rewriting the organisational authors gives the affiliation pairs
    nothing new to do. *)
Lemma apply_affiliations_after_org record corrections org_corrections applied record' :
  apply_affiliations record corrections = Ok (0, record) →
  apply_org_authors record org_corrections = Ok (applied, record') →
  apply_affiliations record' corrections = Ok (0, record').
Proof.
  rewrite apply_affiliations_pairs, apply_org_authors_pairs. intros Haff Horg.
  destruct (py_truthy corrections) eqn:Ht.
  2:{ unfold apply_pairs. by rewrite Ht. }
  apply (apply_pairs_quiet _ _ _ creator_affiliations_settling) in Haff
    as (Hok & items & Hitems & Hsettled); [ | done].
  destruct (py_truthy org_corrections) eqn:Hto.
  2:{ unfold apply_pairs in Horg. rewrite Hto in Horg. injection Horg as <- <-.
      by apply (apply_pairs_rerun _ _ _ _ _ items). }
  rewrite (apply_pairs_truthy _ _ _ _ _ Hto Hok) in Horg.
  apply bind_Ok in Horg as (org_items & _ & Horg).
  apply bind_Ok in Horg as ([creators' n'] & Hrun & [= <- <-]).
  destruct (creators_value_with_creators _ _ _ _ _ _ _ _ Hok Hrun) as [Hval Hok'].
  apply (apply_pairs_rerun _ _ _ _ _ items); [done | done | ]. rewrite Hval.
  eapply (passes_preserve _ _ _
            (settled_pairs "old_affiliation" "recommended_affiliation"
               creator_affiliations items)) in Hrun as [Hdone _]; [done | | done].
  intros c o nv cr cr' k _ _ Hcr Hfor. unfold settled_pairs in *.
  eapply Forall_impl; [exact Hcr | ]. intros a [Hdict Ha]. split; [done | ].
  intros oa na Hpair. specialize (Ha oa na Hpair).
  eapply for_in_cross; [ | | exact Ha | exact Hfor]; [done | ].
  intros x x' j. apply creator_affiliations_after_org.
Qed.

(** ** Places, views and touches *)

Lemma set_metadata_field_ok key v r : metadata_ok (set_metadata_field key v r).
Proof. unfold metadata_ok, set_metadata_field. by rewrite dget_dset_eq. Qed.

Lemma set_metadata_field_same key v r :
  metadata_field key r = Some v → set_metadata_field key v r = r.
Proof.
  unfold metadata_field, set_metadata_field, metadata_of.
  destruct (dget "metadata" r) as [[ | b | n | s | l | md] | ] eqn:E; try done.
  intros Hv. apply dset_same. rewrite E. do 2 f_equal. symmetry. by apply dset_same.
Qed.

Lemma set_descriptors_frame v k r :
  k ≠ "custom_fields" → dget k (set_descriptors v r) = dget k r.
Proof. intros Hne. unfold set_descriptors. by apply dget_dset_ne. Qed.

Lemma touches_same_field p key r r' :
  touches p r r' → p ≠ InMetadata key → same_field key r r'.
Proof.
  intros [-> | H] Hne; [by split | ].
  destruct p as [key' | ].
  - destruct H as [v ->]. split; [intros _; apply set_metadata_field_ok | ].
    apply set_metadata_field_other. congruence.
  - destruct H as [v ->]. unfold same_field, metadata_ok, metadata_field, metadata_of.
    by rewrite set_descriptors_frame.
Qed.

Lemma touches_same_custom p r r' :
  touches p r r' → p ≠ InCustomFields → same_custom r r'.
Proof.
  intros [-> | H] Hne; [done | ].
  destruct p as [key | ]; [ | done].
  destruct H as [v ->]. unfold same_custom. by apply set_metadata_field_frame.
Qed.

Lemma touches_metadata_ok p r r' : touches p r r' → metadata_ok r → metadata_ok r'.
Proof.
  intros [-> | H]; [done | ]. destruct p as [key | ]; destruct H as [v ->]; intros Hok.
  - apply set_metadata_field_ok.
  - unfold metadata_ok. by rewrite set_descriptors_frame.
Qed.

(** ** The overwriting appliers, run again *)

Lemma apply_metadata_field_not_ok key r c :
  py_truthy c = true → ¬ metadata_ok r →
  apply_metadata_field key r c = Raise AttributeError.
Proof.
  intros Ht Hno. unfold apply_metadata_field. rewrite Ht. cbn [negb].
  rewrite setdefault_spec. pose proof (metadata_not_ok _ Hno) as Hmd.
  destruct (dget_default "metadata" (JDict []) r) as [ | b | n | s | l | md]; try done.
  by specialize (Hmd md).
Qed.

Lemma apply_metadata_field_touches key r c b r' :
  apply_metadata_field key r c = Ok (b, r') → touches (InMetadata key) r r'.
Proof.
  destruct (py_truthy c) eqn:Ht.
  - destruct (metadata_ok_dec r) as [Hok | Hno].
    + rewrite (apply_metadata_field_truthy _ _ _ Hok Ht).
      destruct (py_eq _ c); intros [= <- <-]; [by left | right; by eexists].
    + by rewrite apply_metadata_field_not_ok.
  - rewrite apply_metadata_field_falsy by done. intros [= <- <-]. by left.
Qed.

Lemma apply_metadata_field_settles key r c b r' :
  py_eq c c = true →
  apply_metadata_field key r c = Ok (b, r') →
  apply_metadata_field key r' c = Ok (false, r').
Proof.
  intros Hrefl. destruct (py_truthy c) eqn:Ht.
  - destruct (metadata_ok_dec r) as [Hok | Hno].
    + rewrite (apply_metadata_field_truthy _ _ _ Hok Ht).
      destruct (py_eq (default (JStr "") (metadata_field key r)) c) eqn:E;
        intros [= <- <-].
      * by rewrite (apply_metadata_field_truthy _ _ _ Hok Ht), E.
      * rewrite apply_metadata_field_truthy;
          [ | apply set_metadata_field_ok | done].
        rewrite set_metadata_field_get.
        change (default (JStr "") (Some c)) with c. by rewrite Hrefl.
    + by rewrite apply_metadata_field_not_ok.
  - rewrite !apply_metadata_field_falsy by done. by intros [= <- <-].
Qed.

Lemma apply_metadata_field_local key r r' c :
  apply_metadata_field key r c = Ok (false, r) →
  same_field key r r' →
  apply_metadata_field key r' c = Ok (false, r').
Proof.
  intros H [Hok' Hfield]. destruct (py_truthy c) eqn:Ht.
  - destruct (metadata_ok_dec r) as [Hok | Hno].
    + rewrite (apply_metadata_field_truthy _ _ _ Hok Ht) in H.
      rewrite (apply_metadata_field_truthy _ _ _ (Hok' Hok) Ht), Hfield.
      by destruct (py_eq _ c).
    + by rewrite apply_metadata_field_not_ok in H.
  - by rewrite apply_metadata_field_falsy.
Qed.

(** ** Related identifiers, run again *)

Lemma add_related_identifiers_truthy record identifiers :
  py_truthy identifiers = true →
  metadata_ok record →
  add_related_identifiers record identifiers =
  let existing := default (JList []) (metadata_field "related_identifiers" record) in
  existing_ids ← identifier_set existing;
  items ← py_iter identifiers;
  '(existing', _, added) ← foldM add_identifier items (existing, existing_ids, 0);
  Ok (added, set_metadata_field "related_identifiers" existing' record).
Proof.
  intros Ht Hok. unfold add_related_identifiers. rewrite Ht. cbn [negb].
  rewrite setdefault_spec, (metadata_ok_default _ Hok), setdefault_spec.
  cbv beta iota zeta.
  assert (dget_default "related_identifiers" (JList []) (metadata_of record)
          = default (JList []) (metadata_field "related_identifiers" record)) as ->.
  { unfold dget_default, metadata_field. by destruct (dget _ _). }
  destruct (identifier_set _) as [ids | e]; [ | done]. rewrite !bind_Ok_l.
  destruct (py_iter identifiers) as [items | e]; [ | done]. rewrite !bind_Ok_l.
  destruct (foldM _ _ _) as [[[existing' ids'] added] | e]; [ | done].
  rewrite !bind_Ok_l. by rewrite !dset_after_default.
Qed.

Lemma add_related_identifiers_not_ok record identifiers :
  py_truthy identifiers = true → ¬ metadata_ok record →
  add_related_identifiers record identifiers = Raise AttributeError.
Proof.
  intros Ht Hno. unfold add_related_identifiers. rewrite Ht. cbn [negb].
  rewrite setdefault_spec. pose proof (metadata_not_ok _ Hno) as Hmd.
  destruct (dget_default "metadata" (JDict []) record) as [ | b | n | s | l | md];
    try done.
  by specialize (Hmd md).
Qed.

Lemma add_related_identifiers_falsy record identifiers :
  py_truthy identifiers = false →
  add_related_identifiers record identifiers = Ok (0, record).
Proof. intros Ht. unfold add_related_identifiers. by rewrite Ht. Qed.

Lemma add_related_identifiers_touches record identifiers added record' :
  add_related_identifiers record identifiers = Ok (added, record') →
  touches (InMetadata "related_identifiers") record record'.
Proof.
  destruct (py_truthy identifiers) eqn:Ht.
  2:{ rewrite add_related_identifiers_falsy by done. intros [= <- <-]. by left. }
  destruct (metadata_ok_dec record) as [Hok | Hno].
  2:{ by rewrite add_related_identifiers_not_ok. }
  rewrite add_related_identifiers_truthy by done. cbv zeta. intros H.
  apply bind_Ok in H as (ids & _ & H). apply bind_Ok in H as (items & _ & H).
  apply bind_Ok in H as ([[existing' ids'] n] & _ & [= <- <-]).
  right. by eexists.
Qed.

Lemma passed_over_step ids x st :
  passed_over ids x → st.1.2 = ids → add_identifier x st = Ok st.
Proof.
  intros (d & -> & H) Hids. destruct st as [[existing ids'] n]. simpl in Hids. subst ids'.
  unfold add_identifier. simpl in *.
  destruct H as [-> | [-> ->]]; [done | ].
  by destruct (py_truthy _).
Qed.

Lemma passed_over_more ids extra x :
  passed_over ids x → passed_over (ids ++ extra) x.
Proof.
  intros (d & -> & H). exists d. split; [done | ].
  destruct H as [H | [Hh H]]; [by left | right]. split; [done | ].
  rewrite existsb_app, H. done.
Qed.

Lemma add_identifier_loop_passed items existing ids added existing' ids' added' :
  foldM add_identifier items (existing, ids, added) = Ok (existing', ids', added') →
  Forall (passed_over ids') items ∧ ∃ extra, ids' = ids ++ extra.
Proof.
  revert existing ids added.
  induction items as [ | x items IH]; intros existing ids added.
  - intros [= <- <- <-]. split; [constructor | ]. exists []. by rewrite app_nil_r.
  - cbn [foldM]. intros H. apply bind_Ok in H as ([[e1 ids1] n1] & Hstep & Hrest).
    apply IH in Hrest as [Hall [extra ->]].
    assert (passed_over ids1 x ∧ ∃ extra1, ids1 = ids ++ extra1) as [Hx [extra1 ->]].
    { unfold add_identifier in Hstep.
      destruct x as [ | b | n | s | l | d]; try done. simpl in Hstep.
      destruct (py_truthy (dget_default "identifier" (JStr "") d)) eqn:Ht.
      2:{ injection Hstep as <- <- <-. split; [ | exists []; by rewrite app_nil_r].
          exists d. split; [done | by left]. }
      destruct (py_hashable (dget_default "identifier" (JStr "") d)) eqn:Hh; [ | done].
      destruct (existsb _ ids) eqn:Hmem.
      - injection Hstep as <- <- <-. split; [ | exists []; by rewrite app_nil_r].
        exists d. split; [done | right]. by split.
      - apply bind_Ok in Hstep as (e' & _ & [= <- <- <-]). split; [ | by eexists].
        exists d. split; [done | right]. split; [done | ].
        rewrite existsb_app. simpl. rewrite py_eq_refl_hashable by done.
        by rewrite orb_true_r. }
    split; [ | exists (extra1 ++ extra); by rewrite app_assoc].
    constructor; [by apply passed_over_more | done].
Qed.

Lemma passed_over_rerun items st :
  Forall (passed_over st.1.2) items → foldM add_identifier items st = Ok st.
Proof.
  induction 1 as [ | x items Hx Hall IH]; [done | ].
  cbn [foldM]. by rewrite (passed_over_step _ _ _ Hx eq_refl), bind_Ok_l.
Qed.

Lemma identifier_set_after_loop items existing ids0 existing' ids' added :
  identifier_set existing = Ok ids0 →
  foldM add_identifier items (existing, ids0, 0) = Ok (existing', ids', added) →
  identifier_set existing' = Ok ids'.
Proof.
  intros Hset Hloop.
  destruct (identifier_set_spec _ _ Hset) as [Hids0 Hentries].
  apply add_identifier_loop in Hloop as (new & Hex & -> & _ & _ & Hall & _).
  destruct Hex as [[-> ->] | (l & -> & ->)].
  - simpl. by rewrite app_nil_r.
  - simpl in *. rewrite identifier_set_total.
    + by rewrite map_app, Hids0.
    + apply Forall_app. split; [done | ].
      eapply Forall_impl; [exact Hall | ]. by intros x [_ Hx].
Qed.

Lemma add_related_identifiers_settles record identifiers added record' :
  add_related_identifiers record identifiers = Ok (added, record') →
  add_related_identifiers record' identifiers = Ok (0, record').
Proof.
  destruct (py_truthy identifiers) eqn:Ht.
  2:{ rewrite !add_related_identifiers_falsy by done. by intros [= <- <-]. }
  destruct (metadata_ok_dec record) as [Hok | Hno].
  2:{ by rewrite add_related_identifiers_not_ok. }
  rewrite add_related_identifiers_truthy by done. cbv zeta. intros H.
  apply bind_Ok in H as (ids0 & Hset & H). apply bind_Ok in H as (items & Hitems & H).
  apply bind_Ok in H as ([[existing' ids'] n] & Hloop & [= <- <-]).
  rewrite add_related_identifiers_truthy; [ | done | apply set_metadata_field_ok].
  cbv zeta. rewrite set_metadata_field_get.
  change (default (JList []) (Some existing')) with existing'.
  rewrite (identifier_set_after_loop _ _ _ _ _ _ Hset Hloop), bind_Ok_l.
  rewrite Hitems, bind_Ok_l.
  apply add_identifier_loop_passed in Hloop as [Hpassed _].
  rewrite (passed_over_rerun items (existing', ids', 0) Hpassed), bind_Ok_l.
  rewrite set_metadata_field_same; [done | apply set_metadata_field_get].
Qed.

Lemma add_related_identifiers_local record record' identifiers :
  add_related_identifiers record identifiers = Ok (0, record) →
  same_field "related_identifiers" record record' →
  add_related_identifiers record' identifiers = Ok (0, record').
Proof.
  intros H [Hok' Hfield]. destruct (py_truthy identifiers) eqn:Ht.
  2:{ by rewrite add_related_identifiers_falsy. }
  destruct (metadata_ok_dec record) as [Hok | Hno].
  2:{ by rewrite add_related_identifiers_not_ok in H. }
  rewrite add_related_identifiers_truthy in H by done. cbv zeta in H.
  rewrite add_related_identifiers_truthy; [ | done | by apply Hok'].
  cbv zeta. rewrite Hfield.
  apply bind_Ok in H as (ids0 & Hset & H). apply bind_Ok in H as (items & Hitems & H).
  apply bind_Ok in H as ([[existing' ids'] n] & Hloop & [= -> Hrec]).
  rewrite Hset, bind_Ok_l, Hitems, bind_Ok_l, Hloop, bind_Ok_l.
  do 2 f_equal. apply set_metadata_field_same.
  rewrite Hfield, <- Hrec at 1. apply set_metadata_field_get.
Qed.

(** ** Equality of values *)

Lemma every_Forall {A} (P : A → Prop) l : every P l ↔ Forall P l.
Proof.
  induction l as [ | x l IH]; simpl.
  - split; [constructor | done].
  - rewrite Forall_cons, IH. done.
Qed.

Lemma all2_refl {A} (f : A → A → bool) l :
  Forall (λ x, f x x = true) l → all2 f l l = true.
Proof. induction 1 as [ | x l Hx Hall IH]; simpl; [done | by rewrite Hx, IH]. Qed.

Lemma dget_NoDup {A} k (v : A) d :
  NoDup (map fst d) → (k, v) ∈ d → dget k d = Some v.
Proof.
  induction d as [ | [k' v'] d IH]; simpl; intros Hnd Hin.
  - by apply elem_of_nil in Hin.
  - apply NoDup_cons in Hnd as [Hk' Hnd].
    apply elem_of_cons in Hin as [[= <- <-] | Hin].
    + by rewrite String.eqb_refl.
    + destruct (String.eqb k k') eqn:E; [ | by apply IH].
      apply String.eqb_eq in E. subst k'. exfalso. apply Hk'.
      apply list_elem_of_fmap. by exists (k, v).
Qed.

(** A value built by [json.load] equals itself. *)
Lemma py_eq_refl v : json_wf v → py_eq v v = true.
Proof.
  induction v as [ | b | n | s | l IH | d IH] using json_nested_ind; simpl.
  - done.
  - intros _. by destruct b.
  - intros _. apply Z.eqb_refl.
  - intros _. apply String.eqb_refl.
  - intros Hwf. apply every_Forall in Hwf. apply all2_refl.
    rewrite Forall_forall in *. intros x Hx. by apply IH, Hwf.
  - intros [Hnd Hwf]. apply every_Forall in Hwf. rewrite Nat.eqb_refl. simpl.
    apply forallb_forall. intros [k v] Hin. apply list_elem_of_In in Hin.
    rewrite (dget_NoDup _ _ _ Hnd Hin).
    rewrite Forall_forall in IH, Hwf. by apply (IH (k, v)), (Hwf (k, v)).
Qed.

Lemma json_wf_dget k d v : json_wf (JDict d) → dget k d = Some v → json_wf v.
Proof.
  intros [_ Hwf]. apply every_Forall in Hwf. revert Hwf.
  induction d as [ | [k' v'] d IH]; simpl; [done | ].
  intros Hall. apply Forall_cons in Hall as [Hv' Hall].
  destruct (String.eqb k k'); [by intros [= <-] | by apply IH].
Qed.

(** ** Trimming and splitting *)

Lemma lstrip_starts_clean s : starts_clean (lstrip s).
Proof.
  induction s as [ | c s IH]; simpl; [done | ].
  destruct (isspace c) eqn:E; [done | by simpl].
Qed.

Lemma lstrip_fixed s : starts_clean s → lstrip s = s.
Proof. destruct s as [ | c s]; simpl; [done | by intros ->]. Qed.

Lemma rstrip_starts_clean s : starts_clean s → starts_clean (rstrip s).
Proof.
  destruct s as [ | c s]; simpl; [done | ]. intros Hc.
  destruct (rstrip s); [by rewrite Hc | done].
Qed.

Lemma rstrip_idem s : rstrip (rstrip s) = rstrip s.
Proof.
  induction s as [ | c s IH]; simpl; [done | ].
  destruct (rstrip s) as [ | c' r] eqn:E.
  - destruct (isspace c) eqn:Ec; simpl; [done | by rewrite Ec].
  - change (rstrip (String c (String c' r)))
      with (match rstrip (String c' r) with
            | EmptyString => if isspace c then EmptyString else String c EmptyString
            | r' => String c r'
            end).
    by rewrite IH.
Qed.

Lemma strip_idem s : strip (strip s) = strip s.
Proof.
  unfold strip.
  rewrite (lstrip_fixed (rstrip (lstrip s))).
  - apply rstrip_idem.
  - apply rstrip_starts_clean, lstrip_starts_clean.
Qed.

Lemma strip_space s : strip (String " " s) = strip s.
Proof. reflexivity. Qed.

Lemma lstrip_no_delimiter s :
  any_char is_delimiter s = false → any_char is_delimiter (lstrip s) = false.
Proof.
  induction s as [ | c s IH]; simpl; [done | ].
  intros H. apply orb_false_iff in H as [Hc Hs].
  destruct (isspace c); [by apply IH | ]. simpl. by rewrite Hc, Hs.
Qed.

Lemma rstrip_no_delimiter s :
  any_char is_delimiter s = false → any_char is_delimiter (rstrip s) = false.
Proof.
  induction s as [ | c s IH]; simpl; [done | ].
  intros H. apply orb_false_iff in H as [Hc Hs]. specialize (IH Hs).
  destruct (rstrip s) as [ | c' r].
  - destruct (isspace c); simpl; [done | by rewrite Hc].
  - simpl in *. by rewrite Hc.
Qed.

Lemma strip_no_delimiter s :
  any_char is_delimiter s = false → any_char is_delimiter (strip s) = false.
Proof. intros H. by apply rstrip_no_delimiter, lstrip_no_delimiter. Qed.

Lemma split_by_not_nil s : split_by is_delimiter s ≠ [].
Proof.
  destruct s as [ | c s]; simpl; [done | ].
  destruct (is_delimiter c); [done | ]. by destruct (split_by is_delimiter s).
Qed.

Lemma split_by_no_delimiter s :
  Forall (λ p, any_char is_delimiter p = false) (split_by is_delimiter s).
Proof.
  induction s as [ | c s IH]; simpl.
  - by constructor.
  - destruct (is_delimiter c) eqn:Ec.
    + by constructor.
    + destruct (split_by is_delimiter s) as [ | p rest].
      * constructor; [ | done]. simpl. by rewrite Ec.
      * apply Forall_cons in IH as [Hp Hrest]. constructor; [ | done].
        simpl. by rewrite Ec, Hp.
Qed.

Lemma split_by_word x :
  any_char is_delimiter x = false → split_by is_delimiter x = [x].
Proof.
  induction x as [ | c x IH]; simpl; [done | ].
  intros H. apply orb_false_iff in H as [-> Hx]. by rewrite IH.
Qed.

Lemma split_by_delimited x rest :
  any_char is_delimiter x = false →
  split_by is_delimiter (x +:+ String ";" rest) = x :: split_by is_delimiter rest.
Proof.
  induction x as [ | c x IH]; [done | ].
  simpl any_char. intros H. apply orb_false_iff in H as [Hc Hx].
  rewrite append_cons. cbn [split_by]. by rewrite Hc, IH.
Qed.

Lemma map_strip_space s :
  map strip (split_by is_delimiter (String " " s)) = map strip (split_by is_delimiter s).
Proof.
  cbn [split_by]. change (is_delimiter " ") with false. cbv iota.
  pose proof (split_by_not_nil s) as Hne.
  destruct (split_by is_delimiter s) as [ | p rest]; [done | ].
  cbn [map]. by rewrite strip_space.
Qed.

(** Written back and read again, clean entries are the same entries. *)
Lemma read_descriptors_join l :
  Forall clean l → read_descriptors (join "; " l) = l.
Proof.
  unfold read_descriptors.
  induction 1 as [ | x l (Hne & Hstrip & Hdelim) Hall IH]; [done | ].
  destruct l as [ | y l].
  - cbn [join]. rewrite split_by_word by done. cbn [map]. rewrite Hstrip.
    rewrite filter_cons. by rewrite decide_True.
  - change (join "; " (x :: y :: l))
      with (x +:+ String ";" (String " " (join "; " (y :: l)))).
    rewrite split_by_delimited by done. cbn [map].
    rewrite map_strip_space, Hstrip, filter_cons, decide_True by done.
    by rewrite IH.
Qed.

Lemma read_descriptors_clean s : Forall clean (read_descriptors s).
Proof.
  unfold read_descriptors. apply Forall_forall. intros x Hx.
  apply list_elem_of_filter in Hx as [Hne Hx].
  apply list_elem_of_fmap in Hx as (p & -> & Hp).
  split; [done | ]. split; [apply strip_idem | ].
  apply strip_no_delimiter.
  pose proof (split_by_no_delimiter s) as Hall. rewrite Forall_forall in Hall.
  by apply Hall.
Qed.

(** ** Descriptor deletion, run again *)

Lemma custom_fields_not_ok record :
  ¬ custom_fields_ok record →
  ∀ cf, dget_default "custom_fields" (JDict []) record ≠ JDict cf.
Proof.
  unfold custom_fields_ok, dget_default. intros Hno cf.
  destruct (dget "custom_fields" record) as [[ | b | n | s | l | cf'] | ]; try done.
  all: by exfalso; apply Hno.
Qed.

Lemma custom_fields_ok_dec record : custom_fields_ok record ∨ ¬ custom_fields_ok record.
Proof.
  unfold custom_fields_ok.
  destruct (dget "custom_fields" record) as [[ | b | n | s | l | cf] | ]; auto.
Qed.

Lemma apply_descriptor_deletions_truthy record deletions :
  py_truthy deletions = true →
  custom_fields_ok record →
  apply_descriptor_deletions record deletions =
  let descriptors := default JNull (descriptors_of record) in
  if negb (py_truthy descriptors) then Ok (false, record)
  else
    match descriptor_entries descriptors with
    | None => Ok (false, record)
    | Some (descriptor_list, original_is_str) =>
        deletions_lower ← lowered_set deletions;
        filtered ← keep_descriptors deletions_lower descriptor_list;
        if Nat.eqb (length filtered) (length descriptor_list)
        then Ok (false, record)
        else
          value ← (if original_is_str : bool
                   then s ← py_join "; " filtered; Ok (JStr s)
                   else Ok (JList filtered));
          logged ← py_iter deletions;
          _ ← py_join ", " logged;
          Ok (true, set_descriptors value record)
    end.
Proof.
  intros Ht Hok. unfold apply_descriptor_deletions. rewrite Ht. cbn [negb].
  by rewrite (custom_fields_default _ Hok), descriptors_default.
Qed.

Lemma apply_descriptor_deletions_not_ok record deletions :
  py_truthy deletions = true → ¬ custom_fields_ok record →
  apply_descriptor_deletions record deletions = Raise AttributeError.
Proof.
  intros Ht Hno. unfold apply_descriptor_deletions. rewrite Ht. cbn [negb].
  pose proof (custom_fields_not_ok _ Hno) as Hcf.
  destruct (dget_default "custom_fields" (JDict []) record)
    as [ | b | n | s | l | cf]; try done.
  by specialize (Hcf cf).
Qed.

Lemma apply_descriptor_deletions_falsy record deletions :
  py_truthy deletions = false →
  apply_descriptor_deletions record deletions = Ok (false, record).
Proof. intros Ht. unfold apply_descriptor_deletions. by rewrite Ht. Qed.

(** The three ways the applier returns. *)
Lemma apply_descriptor_deletions_Ok record deletions b record' :
  apply_descriptor_deletions record deletions = Ok (b, record') →
  b = false ∧ record' = record ∨
  b = true ∧ py_truthy deletions = true ∧ custom_fields_ok record ∧
  ∃ stored descriptor_list is_str deletions_lower filtered value,
    descriptors_of record = Some stored ∧
    descriptor_entries stored = Some (descriptor_list, is_str) ∧
    lowered_set deletions = Ok deletions_lower ∧
    keep_descriptors deletions_lower descriptor_list = Ok filtered ∧
    (if is_str : bool then ∃ s, py_join "; " filtered = Ok s ∧ value = JStr s
     else value = JList filtered) ∧
    record' = set_descriptors value record.
Proof.
  destruct (py_truthy deletions) eqn:Ht.
  2:{ rewrite apply_descriptor_deletions_falsy by done. intros [= <- <-]. by left. }
  destruct (custom_fields_ok_dec record) as [Hok | Hno].
  2:{ by rewrite apply_descriptor_deletions_not_ok. }
  rewrite apply_descriptor_deletions_truthy by done. cbv zeta.
  destruct (descriptors_of record) as [stored | ] eqn:Hstored;
    [ | intros [= <- <-]; by left].
  change (default JNull (Some stored)) with stored.
  destruct (py_truthy stored); cbn [negb]; [ | intros [= <- <-]; by left].
  destruct (descriptor_entries stored) as [[descriptor_list is_str] | ] eqn:Hentries;
    [ | intros [= <- <-]; by left].
  intros H. apply bind_Ok in H as (deletions_lower & Hlow & H).
  apply bind_Ok in H as (filtered & Hkeep & H).
  destruct (Nat.eqb _ _); [injection H as <- <-; by left | ].
  apply bind_Ok in H as (value & Hvalue & H).
  apply bind_Ok in H as (logged & _ & H).
  apply bind_Ok in H as (line & _ & [= <- <-]).
  right. do 3 (split; [done | ]).
  exists stored, descriptor_list, is_str, deletions_lower, filtered, value.
  do 4 (split; [done | ]). split; [ | done].
  destruct is_str.
  - apply bind_Ok in Hvalue as (s & Hs & [= <-]). by exists s.
  - by injection Hvalue as <-.
Qed.

Lemma apply_descriptor_deletions_touches record deletions b record' :
  apply_descriptor_deletions record deletions = Ok (b, record') →
  touches InCustomFields record record'.
Proof.
  intros H. apply apply_descriptor_deletions_Ok in H
    as [[_ ->] | (_ & _ & _ & stored & l & is_str & S & filtered & value & H)].
  - by left.
  - right. exists value. apply H.
Qed.

Lemma same_custom_views record record' :
  same_custom record record' →
  (custom_fields_ok record ↔ custom_fields_ok record') ∧
  descriptors_of record' = descriptors_of record.
Proof.
  unfold same_custom, custom_fields_ok, descriptors_of, custom_fields_of.
  by intros ->.
Qed.

Lemma apply_descriptor_deletions_local record record' deletions :
  apply_descriptor_deletions record deletions = Ok (false, record) →
  same_custom record record' →
  apply_descriptor_deletions record' deletions = Ok (false, record').
Proof.
  intros H Hsame. apply same_custom_views in Hsame as [Hok' Hdesc].
  destruct (py_truthy deletions) eqn:Ht.
  2:{ by rewrite apply_descriptor_deletions_falsy. }
  destruct (custom_fields_ok_dec record) as [Hok | Hno].
  2:{ by rewrite apply_descriptor_deletions_not_ok in H. }
  rewrite apply_descriptor_deletions_truthy in H by done.
  rewrite apply_descriptor_deletions_truthy; [ | done | by apply Hok'].
  cbv zeta in *. rewrite Hdesc.
  destruct (negb _); [done | ].
  destruct (descriptor_entries _) as [[descriptor_list is_str] | ]; [ | done].
  destruct (lowered_set deletions) as [S | e]; [ | done]. rewrite bind_Ok_l in *.
  destruct (keep_descriptors S descriptor_list) as [filtered | e]; [ | done].
  rewrite bind_Ok_l in *. destruct (Nat.eqb _ _); [done | ].
  assert (∀ k : dict, (logged ← py_iter deletions; _ ← py_join ", " logged;
                       Ok (true, k)) ≠ Ok (false, record)) as Hlog.
  { intros k. destruct (py_iter deletions) as [logged | e]; [ | done].
    rewrite bind_Ok_l. by destruct (py_join ", " logged). }
  destruct is_str.
  - destruct (py_join "; " filtered); [ | done]. rewrite !bind_Ok_l in H.
    by apply Hlog in H.
  - rewrite !bind_Ok_l in H. by apply Hlog in H.
Qed.

Lemma keep_descriptors_idem S l l' :
  keep_descriptors S l = Ok l' → keep_descriptors S l' = Ok l'.
Proof.
  revert l'. induction l as [ | d l IH]; intros l'; cbn [keep_descriptors].
  - by intros [= <-].
  - intros H. apply bind_Ok in H as (lo & Hlo & H).
    apply bind_Ok in H as (rest & Hrest & [= <-]).
    specialize (IH _ Hrest).
    destruct (bool_decide (lo ∈ S)) eqn:E; [done | ].
    cbn [keep_descriptors]. by rewrite Hlo, bind_Ok_l, IH, bind_Ok_l, E.
Qed.

Lemma keep_descriptors_Forall (P : json → Prop) S l l' :
  keep_descriptors S l = Ok l' → Forall P l → Forall P l'.
Proof.
  revert l'. induction l as [ | d l IH]; intros l'; cbn [keep_descriptors].
  - by intros [= <-].
  - intros H Hall. apply Forall_cons in Hall as [Hd Hall].
    apply bind_Ok in H as (lo & Hlo & H).
    apply bind_Ok in H as (rest & Hrest & [= <-]).
    specialize (IH _ Hrest Hall).
    destruct (bool_decide (lo ∈ S)); [done | by constructor].
Qed.

Lemma strings_of_Ok l strs : strings_of l = Ok strs → l = map JStr strs.
Proof.
  revert strs. induction l as [ | x l IH]; intros strs; cbn [strings_of].
  - by intros [= <-].
  - destruct x as [ | b | n | s | l0 | d]; try done.
    intros H. apply bind_Ok in H as (rest & Hrest & [= <-]).
    by rewrite (IH _ Hrest).
Qed.

Lemma set_descriptors_ok v record : custom_fields_ok (set_descriptors v record).
Proof. unfold custom_fields_ok, set_descriptors. by rewrite dget_dset_eq. Qed.

Lemma keep_descriptors_sublist S l l' :
  keep_descriptors S l = Ok l' → l' `sublist_of` l.
Proof.
  revert l'. induction l as [ | d l IH]; intros l'; cbn [keep_descriptors].
  - by intros [= <-].
  - intros H. apply bind_Ok in H as (lo & Hlo & H).
    apply bind_Ok in H as (rest & Hrest & [= <-]).
    specialize (IH _ Hrest).
    destruct (bool_decide (lo ∈ S)); [by apply sublist_cons | by apply sublist_skip].
Qed.

(** The value written back reads as the entries that were kept. *)
Lemma descriptor_entries_written stored l (is_str : bool) S filtered value :
  descriptor_entries stored = Some (l, is_str) →
  keep_descriptors S l = Ok filtered →
  (if is_str then ∃ s, py_join "; " filtered = Ok s ∧ value = JStr s
   else value = JList filtered) →
  descriptor_entries value = Some (filtered, is_str).
Proof.
  intros Hentries Hkeep Hvalue. destruct is_str.
  - destruct Hvalue as (s & Hjoin & ->).
    unfold py_join in Hjoin. apply bind_Ok in Hjoin as (strs & Hstrs & [= <-]).
    apply strings_of_Ok in Hstrs. subst filtered.
    destruct stored as [ | b0 | n | s0 | l0 | d]; try done.
    injection Hentries as <-. rewrite split_replace in Hkeep.
    fold (read_descriptors s0) in Hkeep.
    unfold descriptor_entries. rewrite split_replace.
    fold (read_descriptors (join "; " strs)).
    rewrite read_descriptors_join; [done | ].
    pose proof (read_descriptors_clean s0) as Hclean.
    assert (Forall (λ v, ∃ s, v = JStr s ∧ clean s)
              (map JStr (read_descriptors s0))) as Hc.
    { apply Forall_fmap. eapply Forall_impl; [exact Hclean | ].
      intros s Hs. by exists s. }
    eapply keep_descriptors_Forall in Hc; [ | exact Hkeep].
    apply Forall_forall. intros s Hs. rewrite Forall_forall in Hc.
    destruct (Hc (JStr s)) as (s' & [= <-] & Hs'); [ | done].
    apply list_elem_of_fmap. by exists s.
  - subst value. destruct stored as [ | b0 | n | s0 | l0 | d]; done.
Qed.

(** A second deletion finds nothing left to delete. *)
Lemma apply_descriptor_deletions_settles record deletions b record' :
  apply_descriptor_deletions record deletions = Ok (b, record') →
  apply_descriptor_deletions record' deletions = Ok (false, record').
Proof.
  intros H. pose proof H as H0. apply apply_descriptor_deletions_Ok in H
    as [[-> ->] | (_ & Ht & Hok & stored & l & is_str & S & filtered & value &
                   Hstored & Hentries & Hlow & Hkeep & Hvalue & ->)]; [done | ].
  clear H0.
  rewrite apply_descriptor_deletions_truthy; [ | done | apply set_descriptors_ok].
  cbv zeta. rewrite descriptors_of_set. change (default JNull (Some value)) with value.
  destruct (py_truthy value) eqn:Hv; [ | done]. cbn [negb].
  rewrite (descriptor_entries_written _ _ _ _ _ _ Hentries Hkeep Hvalue).
  rewrite Hlow, bind_Ok_l, (keep_descriptors_idem _ _ _ Hkeep), bind_Ok_l.
  by rewrite Nat.eqb_refl.
Qed.

(** ** Stages *)

Lemma add_notes_nil st : add_notes [] st = st.
Proof. destruct st. unfold add_notes. simpl. by rewrite app_nil_r. Qed.

Lemma run_state_eta st :
  RunState (record st) (changed st) (actions st) (unapplied st) = st.
Proof. by destruct st. Qed.

Lemma gated_stage_staged key flag action note applier report corrections st :
  gated_stage key flag action note applier report corrections st
  = staged (gated_plan key flag note report corrections) applier id (λ _, action) [] st.
Proof.
  unfold gated_stage, gated_plan, staged.
  destruct (py_contains key corrections) as [[ | ] | e]; simpl; try done.
  - destruct (gate report flag); [ | done].
    destruct (py_get corrections key JNull) as [payload | e]; simpl; [ | done].
    destruct (applier (record st) payload) as [[ok r] | e]; simpl; [ | done].
    destruct ok; [done | ]. by rewrite add_notes_nil.
  - by rewrite add_notes_nil.
Qed.

Lemma affiliation_stage_staged report st :
  affiliation_stage report st
  = staged (affiliation_plan report) apply_affiliations (Nat.ltb 0)
      (counted "Affiliations corrected")
      (if py_truthy (affiliation_payload report) then [no_matches_note] else []) st.
Proof.
  unfold affiliation_stage, affiliation_plan, staged. fold (affiliation_payload report).
  destruct (gate report _).
  - destruct (apply_affiliations _ _) as [[applied r] | e]; simpl; [ | done].
    destruct (Nat.ltb 0 applied); [done | ].
    destruct (py_truthy (affiliation_payload report)); [done | ].
    by rewrite add_notes_nil.
  - destruct (py_truthy (affiliation_payload report)); [done | ].
    by rewrite add_notes_nil.
Qed.

Lemma org_author_stage_staged report st :
  org_author_stage report st
  = staged (org_author_plan report) apply_org_authors (Nat.ltb 0)
      (counted "Organizational authors corrected")
      ["Organizational author corrections present but no matches found"] st.
Proof.
  unfold org_author_stage, org_author_plan, staged. fold (org_author_payload report).
  destruct (py_truthy (org_author_payload report)); [ | by rewrite add_notes_nil].
  destruct (apply_org_authors _ _) as [[applied r] | e]; simpl; [ | done].
  by destruct (Nat.ltb 0 applied).
Qed.

Lemma related_stage_staged corrections st :
  related_stage corrections st
  = staged (related_plan corrections) add_related_identifiers (Nat.ltb 0)
      (counted "Related identifiers added") [] st.
Proof.
  unfold related_stage, related_plan, staged.
  destruct (py_truthy (related_payload corrections)); [ | by rewrite add_notes_nil].
  destruct (add_related_identifiers _ _) as [[added r] | e]; simpl; [ | done].
  destruct (Nat.ltb 0 added); [done | ]. by rewrite add_notes_nil.
Qed.

Section Staged.
Context {X : Type}.
Variables (p : plan) (applier : dict → json → result (X * dict)).
Variables (is_change : X → bool) (label : X → string) (quiet_notes : list string).

Let stage := staged p applier is_change label quiet_notes.

Lemma staged_touches pl st st' :
  (∀ r payload x r', applier r payload = Ok (x, r') → touches pl r r') →
  stage st = Ok st' → touches pl (record st) (record st').
Proof.
  intros Htouch. unfold stage, staged. destruct p as [notes | payload | e]; [ | | done].
  - intros [= <-]. by left.
  - intros H. apply bind_Ok in H as ([x r] & Happ & [= <-]).
    apply Htouch in Happ. by destruct (is_change x).
Qed.

(** What a quiet stage that calls its applier tells about the applier. *)
Lemma staged_quiet_call r payload :
  p = Call payload → quiet_on stage r →
  ∃ z, is_change z = false ∧ applier r payload = Ok (z, r).
Proof.
  intros -> Hquiet.
  destruct (Hquiet (RunState r false [] []) eq_refl) as [notes H].
  unfold stage, staged in H. apply bind_Ok in H as ([x r1] & Happ & H).
  simpl in *. destruct (is_change x) eqn:E.
  - injection H as _ Hactions _. done.
  - injection H as -> _. by exists x.
Qed.

Lemma staged_quiet_intro r :
  (∀ payload, p = Call payload →
              ∃ z, is_change z = false ∧ applier r payload = Ok (z, r)) →
  (∀ e, p ≠ Fail e) →
  quiet_on stage r.
Proof.
  intros Hcall Hfail st <-. unfold stage, staged.
  destruct p as [notes | payload | e].
  - by exists notes.
  - destruct (Hcall payload eq_refl) as (z & Hz & ->). rewrite bind_Ok_l, Hz.
    by exists quiet_notes.
  - by specialize (Hfail e).
Qed.

Lemma staged_not_fail st st' e : stage st = Ok st' → p ≠ Fail e.
Proof. unfold stage, staged. by intros H ->. Qed.

Lemma staged_settles :
  (∀ payload r x r', p = Call payload → applier r payload = Ok (x, r') →
                     ∃ z, is_change z = false ∧ applier r' payload = Ok (z, r')) →
  settles_itself stage.
Proof.
  intros Hown st st' H. apply staged_quiet_intro.
  - intros payload Hp. unfold stage, staged in H. rewrite Hp in H.
    apply bind_Ok in H as ([x r] & Happ & [= <-]).
    destruct (Hown _ _ _ _ Hp Happ) as (z & Hz & Hz').
    exists z. split; [done | ]. by destruct (is_change x).
  - intros e. by eapply staged_not_fail.
Qed.

Lemma staged_local r r' :
  (∀ payload z, p = Call payload → is_change z = false →
                applier r payload = Ok (z, r) →
                ∃ z', is_change z' = false ∧ applier r' payload = Ok (z', r')) →
  quiet_on stage r → quiet_on stage r'.
Proof.
  intros Hlocal Hquiet. apply staged_quiet_intro.
  - intros payload Hp. destruct (staged_quiet_call _ _ Hp Hquiet) as (z & Hz & Happ).
    by eapply Hlocal.
  - intros e. destruct (Hquiet (RunState r false [] []) eq_refl) as [notes H].
    by eapply staged_not_fail.
Qed.
End Staged.

(** ** The seven stages: what they touch, where they settle *)

Lemma quiet_on_ext stage stage' r :
  (∀ st, stage st = stage' st) → quiet_on stage r → quiet_on stage' r.
Proof. intros Hext Hq st Hst. rewrite <- Hext. by apply Hq. Qed.

Lemma gated_plan_call key flag note report corrections payload :
  gated_plan key flag note report corrections = Call payload →
  json_wf corrections → json_wf payload.
Proof.
  unfold gated_plan.
  destruct (py_contains key corrections) as [[ | ] | e]; try done.
  destruct (gate report flag); [ | done].
  destruct corrections as [ | b | n | s | l | c]; try done. simpl.
  intros [= <-] Hwf. unfold dget_default.
  destruct (dget key c) eqn:E; [by eapply json_wf_dget | done].
Qed.

Section FieldStage.
Variables (key flag action note mkey : string) (report : dict) (corrections : json).

Let stage := gated_stage key flag action note (apply_metadata_field mkey)
               report corrections.

Lemma field_stage_touches st st' :
  stage st = Ok st' → touches (InMetadata mkey) (record st) (record st').
Proof.
  unfold stage. rewrite gated_stage_staged. apply staged_touches.
  intros r payload x r'. apply apply_metadata_field_touches.
Qed.

Lemma field_stage_local r r' :
  same_field mkey r r' → quiet_on stage r → quiet_on stage r'.
Proof.
  intros Hsame Hq.
  apply (quiet_on_ext _ _ _ (λ st, eq_sym (gated_stage_staged _ _ _ _ _ _ _ st))).
  apply (quiet_on_ext _ _ _ (gated_stage_staged _ _ _ _ _ _ _)) in Hq.
  eapply staged_local; [ | exact Hq].
  intros payload z _ Hz Happ. simpl in Hz. subst z. exists false. split; [done | ].
  by eapply apply_metadata_field_local.
Qed.

Lemma field_stage_settles : json_wf corrections → settles_itself stage.
Proof.
  intros Hwf st st' H. unfold stage in *. rewrite gated_stage_staged in H.
  apply (quiet_on_ext _ _ _ (λ st, eq_sym (gated_stage_staged _ _ _ _ _ _ _ st))).
  eapply staged_settles; [ | exact H].
  intros payload r x r' Hp Happ. exists false. split; [done | ].
  eapply apply_metadata_field_settles; [ | exact Happ].
  apply py_eq_refl. by eapply gated_plan_call.
Qed.
End FieldStage.

Section DescriptorStage.
Variables (report : dict) (corrections : json).

Let stage := descriptor_stage report corrections.

Lemma descriptor_stage_touches st st' :
  stage st = Ok st' → touches InCustomFields (record st) (record st').
Proof.
  unfold stage, descriptor_stage. rewrite gated_stage_staged. apply staged_touches.
  intros r payload x r'. apply apply_descriptor_deletions_touches.
Qed.

Lemma descriptor_stage_local r r' :
  same_custom r r' → quiet_on stage r → quiet_on stage r'.
Proof.
  intros Hsame Hq. unfold stage, descriptor_stage in *.
  apply (quiet_on_ext _ _ _ (λ st, eq_sym (gated_stage_staged _ _ _ _ _ _ _ st))).
  apply (quiet_on_ext _ _ _ (gated_stage_staged _ _ _ _ _ _ _)) in Hq.
  eapply staged_local; [ | exact Hq].
  intros payload z _ Hz Happ. simpl in Hz. subst z. exists false. split; [done | ].
  by eapply apply_descriptor_deletions_local.
Qed.

Lemma descriptor_stage_settles : settles_itself stage.
Proof.
  intros st st' H. unfold stage, descriptor_stage in *.
  rewrite gated_stage_staged in H.
  apply (quiet_on_ext _ _ _ (λ st, eq_sym (gated_stage_staged _ _ _ _ _ _ _ st))).
  eapply staged_settles; [ | exact H].
  intros payload r x r' Hp Happ. exists false. split; [done | ].
  by eapply apply_descriptor_deletions_settles.
Qed.
End DescriptorStage.

Lemma ltb_zero n : Nat.ltb 0 n = false → n = 0.
Proof. intros H. apply Nat.ltb_ge in H. lia. Qed.

Section RewritingStages.
Variable report : dict.

Lemma affiliation_stage_touches st st' :
  affiliation_stage report st = Ok st' →
  touches (InMetadata "creators") (record st) (record st').
Proof.
  rewrite affiliation_stage_staged. apply staged_touches.
  intros r payload x r'. rewrite apply_affiliations_pairs. apply apply_pairs_touches.
Qed.

Lemma org_author_stage_touches st st' :
  org_author_stage report st = Ok st' →
  touches (InMetadata "creators") (record st) (record st').
Proof.
  rewrite org_author_stage_staged. apply staged_touches.
  intros r payload x r'. rewrite apply_org_authors_pairs. apply apply_pairs_touches.
Qed.

Lemma affiliation_stage_local r r' :
  same_field "creators" r r' →
  quiet_on (affiliation_stage report) r → quiet_on (affiliation_stage report) r'.
Proof.
  intros Hsame Hq.
  apply (quiet_on_ext _ _ _ (λ st, eq_sym (affiliation_stage_staged _ st))).
  apply (quiet_on_ext _ _ _ (affiliation_stage_staged _)) in Hq.
  eapply staged_local; [ | exact Hq].
  intros payload z _ Hz Happ. apply ltb_zero in Hz. subst z.
  exists 0. split; [done | ]. rewrite apply_affiliations_pairs in *.
  by eapply (apply_pairs_local _ _ _ creator_affiliations_settling).
Qed.

Lemma org_author_stage_local r r' :
  same_field "creators" r r' →
  quiet_on (org_author_stage report) r → quiet_on (org_author_stage report) r'.
Proof.
  intros Hsame Hq.
  apply (quiet_on_ext _ _ _ (λ st, eq_sym (org_author_stage_staged _ st))).
  apply (quiet_on_ext _ _ _ (org_author_stage_staged _)) in Hq.
  eapply staged_local; [ | exact Hq].
  intros payload z _ Hz Happ. apply ltb_zero in Hz. subst z.
  exists 0. split; [done | ]. rewrite apply_org_authors_pairs in *.
  by eapply (apply_pairs_local _ _ _ creator_org_author_settling).
Qed.

Lemma affiliation_plan_call payload :
  affiliation_plan report = Call payload → payload = affiliation_payload report.
Proof.
  unfold affiliation_plan. destruct (gate report _); [by intros [= <-] | ].
  by destruct (py_truthy _).
Qed.

Lemma org_author_plan_call payload :
  org_author_plan report = Call payload → payload = org_author_payload report.
Proof. unfold org_author_plan. destruct (py_truthy _); [by intros [= <-] | done]. Qed.

Lemma affiliation_stage_settles :
  chain_free "old_affiliation" "recommended_affiliation" (affiliation_payload report)
    = true →
  settles_itself (affiliation_stage report).
Proof.
  intros Hfree st st' H. rewrite affiliation_stage_staged in H.
  apply (quiet_on_ext _ _ _ (λ st, eq_sym (affiliation_stage_staged _ st))).
  eapply staged_settles; [ | exact H].
  intros payload r x r' Hp Happ. apply affiliation_plan_call in Hp. subst payload.
  exists 0. split; [done | ]. rewrite apply_affiliations_pairs in *.
  by eapply (apply_pairs_settles _ _ _ creator_affiliations_settling).
Qed.

Lemma org_author_stage_settles :
  chain_free "old_organizational_author" "recommended_organizational_author"
    (org_author_payload report) = true →
  settles_itself (org_author_stage report).
Proof.
  intros Hfree st st' H. rewrite org_author_stage_staged in H.
  apply (quiet_on_ext _ _ _ (λ st, eq_sym (org_author_stage_staged _ st))).
  eapply staged_settles; [ | exact H].
  intros payload r x r' Hp Happ. apply org_author_plan_call in Hp. subst payload.
  exists 0. split; [done | ]. rewrite apply_org_authors_pairs in *.
  by eapply (apply_pairs_settles _ _ _ creator_org_author_settling).
Qed.

(** The organisational-author stage leaves the affiliation stage quiet. *)
Lemma affiliation_respected_by_org :
  respects (affiliation_stage report) (org_author_stage report).
Proof.
  intros st st' Hq H.
  apply (quiet_on_ext _ _ _ (λ st, eq_sym (affiliation_stage_staged _ st))).
  apply (quiet_on_ext _ _ _ (affiliation_stage_staged _)) in Hq.
  rewrite org_author_stage_staged in H.
  apply staged_quiet_intro.
  - intros payload Hp.
    destruct (staged_quiet_call _ _ _ _ _ _ _ Hp Hq) as (z & Hz & Happ).
    apply ltb_zero in Hz. subst z. exists 0. split; [done | ].
    unfold staged in H. destruct (org_author_plan report) as [notes | org | e];
      [by injection H as <- | | done].
    apply bind_Ok in H as ([x r] & Horg & [= <-]).
    assert (record (if Nat.ltb 0 x
                    then applied_action
                           (counted "Organizational authors corrected" x)
                           (with_record r st)
                    else add_notes
                           ["Organizational author corrections present but no matches found"]
                           (with_record r st)) = r) as ->
      by (by destruct (Nat.ltb 0 x)).
    by eapply apply_affiliations_after_org.
  - intros e. destruct (Hq (RunState (record st) false [] []) eq_refl) as [notes Hrun].
    by eapply staged_not_fail.
Qed.
End RewritingStages.

Section RelatedStage.
Variable corrections : json.

Lemma related_stage_touches st st' :
  related_stage corrections st = Ok st' →
  touches (InMetadata "related_identifiers") (record st) (record st').
Proof.
  rewrite related_stage_staged. apply staged_touches.
  intros r payload x r'. apply add_related_identifiers_touches.
Qed.

Lemma related_stage_settles : settles_itself (related_stage corrections).
Proof.
  intros st st' H. rewrite related_stage_staged in H.
  apply (quiet_on_ext _ _ _ (λ st, eq_sym (related_stage_staged _ st))).
  eapply staged_settles; [ | exact H].
  intros payload r x r' Hp Happ. exists 0. split; [done | ].
  by eapply add_related_identifiers_settles.
Qed.
End RelatedStage.

(** ** The orchestrator, run again *)

Lemma run_corrections_stages report st :
  run_corrections report st = run_stages (stages report) st.
Proof.
  unfold run_corrections, stages_before_related, run_stages, stages. cbn [foldM].
  destruct (title_stage _ _ _) as [s1 | e]; [rewrite !bind_Ok_l | done].
  destruct (abstract_stage _ _ _) as [s2 | e]; [rewrite !bind_Ok_l | done].
  destruct (date_stage _ _ _) as [s3 | e]; [rewrite !bind_Ok_l | done].
  destruct (descriptor_stage _ _ _) as [s4 | e]; [rewrite !bind_Ok_l | done].
  destruct (affiliation_stage _ _) as [s5 | e]; [rewrite !bind_Ok_l | done].
  destruct (org_author_stage _ _) as [s6 | e]; [rewrite !bind_Ok_l | done].
  by destruct (related_stage _ _).
Qed.

Lemma run_stages_keep stage l st st' :
  Forall (respects stage) l →
  quiet_on stage (record st) →
  run_stages l st = Ok st' →
  quiet_on stage (record st').
Proof.
  intros Hall. revert st. induction Hall as [ | later l Hlater Hall IH]; intros st Hq.
  - by intros [= <-].
  - unfold run_stages. cbn [foldM]. intros H. apply bind_Ok in H as (st1 & H1 & Hrest).
    eapply IH; [ | exact Hrest]. by eapply Hlater.
Qed.

(** After a run, every stage is quiet on the record. *)
Lemma run_stages_quiet l st st' :
  Forall settles_itself l →
  respected_in_order l →
  run_stages l st = Ok st' →
  Forall (λ stage, quiet_on stage (record st')) l.
Proof.
  intros Hown. revert st. induction Hown as [ | stage l Hstage Hown IH]; intros st.
  - intros _ _. constructor.
  - intros [Hresp Hrest]. unfold run_stages. cbn [foldM]. intros H.
    apply bind_Ok in H as (st1 & H1 & Hrun). constructor.
    + eapply run_stages_keep; [exact Hresp | | exact Hrun]. by eapply Hstage.
    + by eapply IH.
Qed.

(** Stages that are quiet on the record of a state return it with more
    notes at most. *)
Lemma run_stages_rerun l st :
  Forall (λ stage, quiet_on stage (record st)) l →
  ∃ notes, run_stages l st
           = Ok (RunState (record st) (changed st) (actions st) (unapplied st ++ notes)).
Proof.
  intros Hall. remember (record st) as r eqn:Hr. revert st Hr.
  induction Hall as [ | stage l Hstage Hall IH]; intros st Hr.
  - exists []. rewrite app_nil_r, Hr. unfold run_stages. simpl. by rewrite run_state_eta.
  - destruct (Hstage st (eq_sym Hr)) as [notes1 H1].
    destruct (IH (RunState r (changed st) (actions st) (unapplied st ++ notes1))
                eq_refl) as [notes2 H2].
    exists (notes1 ++ notes2). unfold run_stages in *. cbn [foldM].
    rewrite H1, bind_Ok_l. cbn [record changed actions unapplied] in H2.
    by rewrite H2, app_assoc.
Qed.

Lemma place_ne_field key key' : key ≠ key' → InMetadata key ≠ InMetadata key'.
Proof. congruence. Qed.

Lemma respects_field key flag action note mkey report corrections later p :
  (∀ st st', later st = Ok st' → touches p (record st) (record st')) →
  p ≠ InMetadata mkey →
  respects (gated_stage key flag action note (apply_metadata_field mkey)
              report corrections) later.
Proof.
  intros Htouch Hne st st' Hq H. eapply field_stage_local; [ | exact Hq].
  eapply touches_same_field; [by apply Htouch | done].
Qed.

Lemma respects_descriptor report corrections later p :
  (∀ st st', later st = Ok st' → touches p (record st) (record st')) →
  p ≠ InCustomFields →
  respects (descriptor_stage report corrections) later.
Proof.
  intros Htouch Hne st st' Hq H. eapply descriptor_stage_local; [ | exact Hq].
  eapply touches_same_custom; [by apply Htouch | done].
Qed.

Lemma respects_affiliation report later p :
  (∀ st st', later st = Ok st' → touches p (record st) (record st')) →
  p ≠ InMetadata "creators" →
  respects (affiliation_stage report) later.
Proof.
  intros Htouch Hne st st' Hq H. eapply affiliation_stage_local; [ | exact Hq].
  eapply touches_same_field; [by apply Htouch | done].
Qed.

Lemma respects_org_author report later p :
  (∀ st st', later st = Ok st' → touches p (record st) (record st')) →
  p ≠ InMetadata "creators" →
  respects (org_author_stage report) later.
Proof.
  intros Htouch Hne st st' Hq H. eapply org_author_stage_local; [ | exact Hq].
  eapply touches_same_field; [by apply Htouch | done].
Qed.

Section StagesRespected.
Variable report : dict.

Let corrections := corrections_of report.

Lemma title_stage_touches st st' :
  title_stage report corrections st = Ok st' →
  touches (InMetadata "title") (record st) (record st').
Proof. apply field_stage_touches. Qed.

Lemma abstract_stage_touches st st' :
  abstract_stage report corrections st = Ok st' →
  touches (InMetadata "description") (record st) (record st').
Proof. apply field_stage_touches. Qed.

Lemma date_stage_touches st st' :
  date_stage report corrections st = Ok st' →
  touches (InMetadata "publication_date") (record st) (record st').
Proof. apply field_stage_touches. Qed.

Lemma title_stage_respected :
  Forall (respects (title_stage report corrections))
    [abstract_stage report corrections; date_stage report corrections;
     descriptor_stage report corrections; affiliation_stage report;
     org_author_stage report; related_stage corrections].
Proof.
  repeat (apply List.Forall_cons || apply List.Forall_nil).
  - eapply respects_field; [apply abstract_stage_touches | done].
  - eapply respects_field; [apply date_stage_touches | done].
  - eapply respects_field; [apply descriptor_stage_touches | done].
  - eapply respects_field; [apply affiliation_stage_touches | done].
  - eapply respects_field; [apply org_author_stage_touches | done].
  - eapply respects_field; [apply related_stage_touches | done].
Qed.

Lemma abstract_stage_respected :
  Forall (respects (abstract_stage report corrections))
    [date_stage report corrections; descriptor_stage report corrections;
     affiliation_stage report; org_author_stage report; related_stage corrections].
Proof.
  repeat (apply List.Forall_cons || apply List.Forall_nil).
  - eapply respects_field; [apply date_stage_touches | done].
  - eapply respects_field; [apply descriptor_stage_touches | done].
  - eapply respects_field; [apply affiliation_stage_touches | done].
  - eapply respects_field; [apply org_author_stage_touches | done].
  - eapply respects_field; [apply related_stage_touches | done].
Qed.

Lemma date_stage_respected :
  Forall (respects (date_stage report corrections))
    [descriptor_stage report corrections; affiliation_stage report;
     org_author_stage report; related_stage corrections].
Proof.
  repeat (apply List.Forall_cons || apply List.Forall_nil).
  - eapply respects_field; [apply descriptor_stage_touches | done].
  - eapply respects_field; [apply affiliation_stage_touches | done].
  - eapply respects_field; [apply org_author_stage_touches | done].
  - eapply respects_field; [apply related_stage_touches | done].
Qed.

Lemma descriptor_stage_respected :
  Forall (respects (descriptor_stage report corrections))
    [affiliation_stage report; org_author_stage report; related_stage corrections].
Proof.
  repeat (apply List.Forall_cons || apply List.Forall_nil).
  - eapply respects_descriptor; [apply affiliation_stage_touches | done].
  - eapply respects_descriptor; [apply org_author_stage_touches | done].
  - eapply respects_descriptor; [apply related_stage_touches | done].
Qed.

Lemma stages_respected : respected_in_order (stages report).
Proof.
  unfold stages. fold corrections. cbn [respected_in_order].
  split; [apply title_stage_respected | ].
  split; [apply abstract_stage_respected | ].
  split; [apply date_stage_respected | ].
  split; [apply descriptor_stage_respected | ].
  split.
  { repeat (apply List.Forall_cons || apply List.Forall_nil).
    - apply affiliation_respected_by_org.
    - eapply respects_affiliation; [apply related_stage_touches | done]. }
  split.
  { repeat (apply List.Forall_cons || apply List.Forall_nil).
    eapply respects_org_author; [apply related_stage_touches | done]. }
  split; [apply List.Forall_nil | exact I].
Qed.

Lemma stages_settle :
  json_wf (JDict report) →
  chain_free "old_affiliation" "recommended_affiliation" (affiliation_payload report)
    = true →
  chain_free "old_organizational_author" "recommended_organizational_author"
    (org_author_payload report) = true →
  Forall settles_itself (stages report).
Proof.
  intros Hwf Haff Horg.
  assert (json_wf corrections) as Hcorr.
  { unfold corrections, corrections_of, py_or, dget_default.
    destruct (dget "corrections" report) as [v | ] eqn:E; [ | by split; constructor].
    destruct (py_truthy v); [by eapply json_wf_dget | by split; constructor]. }
  unfold stages. fold corrections.
  repeat (apply List.Forall_cons || apply List.Forall_nil).
  - by apply field_stage_settles.
  - by apply field_stage_settles.
  - by apply field_stage_settles.
  - apply descriptor_stage_settles.
  - by apply affiliation_stage_settles.
  - by apply org_author_stage_settles.
  - apply related_stage_settles.
Qed.
End StagesRespected.

Lemma apply_corrections_rerun record0 report st :
  json_wf (JDict report) →
  chain_free "old_affiliation" "recommended_affiliation" (affiliation_payload report)
    = true →
  chain_free "old_organizational_author" "recommended_organizational_author"
    (org_author_payload report) = true →
  apply_corrections record0 report = Ok st →
  ∃ notes,
    apply_corrections (record st) report = Ok (RunState (record st) false [] notes).
Proof.
  intros Hwf Haff Horg Hrun. unfold apply_corrections in *.
  rewrite run_corrections_stages in *.
  apply run_stages_quiet in Hrun;
    [ | by apply stages_settle | apply stages_respected].
  destruct (run_stages_rerun (stages report) (RunState (record st) false [] []) Hrun)
    as [notes H].
  by exists notes.
Qed.

(** C1 (amended): when [apply_corrections] has returned on a record, a
    second application of the same report to the corrected record returns
    with the flag false, no action, and the record as it was, provided that
    no affiliation correction, and no organisational-author correction,
    recommends the old value of itself or of an earlier correction of its
    list.  The title, abstract, publication-date, descriptor and
    related-identifier appliers do nothing when run again on their own
    output for the same payload; the affiliation and organisational-author
    appliers do nothing under the same proviso. *)
Theorem apply_corrections_idempotent :
  (∀ (record0 report : dict) (st : run_state),
     json_wf (JDict report) →
     chain_free "old_affiliation" "recommended_affiliation"
       (affiliation_payload report) = true →
     chain_free "old_organizational_author" "recommended_organizational_author"
       (org_author_payload report) = true →
     apply_corrections record0 report = Ok st →
     ∃ notes,
       apply_corrections (record st) report
       = Ok (RunState (record st) false [] notes)) ∧
  (∀ c, json_wf c →
        settles_on_output apply_title false c ∧
        settles_on_output apply_abstract false c ∧
        settles_on_output apply_publication_date false c) ∧
  (∀ deletions, settles_on_output apply_descriptor_deletions false deletions) ∧
  (∀ identifiers, settles_on_output add_related_identifiers 0 identifiers) ∧
  (∀ corrections,
     chain_free "old_affiliation" "recommended_affiliation" corrections = true →
     settles_on_output apply_affiliations 0 corrections) ∧
  (∀ corrections,
     chain_free "old_organizational_author" "recommended_organizational_author"
       corrections = true →
     settles_on_output apply_org_authors 0 corrections).
Proof.
  split; [exact apply_corrections_rerun | ].
  split.
  { intros c Hwf. apply py_eq_refl in Hwf.
    repeat split; intros r x r'; by apply apply_metadata_field_settles. }
  split; [intros d r x r'; apply apply_descriptor_deletions_settles | ].
  split; [intros ids r x r'; apply add_related_identifiers_settles | ].
  split.
  - intros c Hfree r x r'. rewrite apply_affiliations_pairs.
    by apply (apply_pairs_settles _ _ _ creator_affiliations_settling).
  - intros c Hfree r x r'. rewrite apply_org_authors_pairs.
    by apply (apply_pairs_settles _ _ _ creator_org_author_settling).
Qed.

Lemma apply_corrections_idempotent_witness :
  ∃ st notes,
    apply_corrections sample_full_record sample_full_report = Ok st ∧
    changed st = true ∧
    apply_corrections (record st) sample_full_report
    = Ok (RunState (record st) false [] notes).
Proof.
  destruct apply_corrections_idempotent as [Hrerun _].
  assert (json_wf (JDict sample_full_report)) as Hwf.
  { simpl. repeat split. all: try exact I.
    all: apply (bool_decide_unpack _); vm_compute; exact I. }
  destruct (apply_corrections sample_full_record sample_full_report) as [st | e] eqn:E.
  - destruct (Hrerun sample_full_record sample_full_report st Hwf eq_refl eq_refl E)
      as [notes H].
    exists st, notes. split; [done | ]. split; [ | done].
    vm_compute in E. injection E as <-. reflexivity.
  - vm_compute in E. discriminate E.
Defined.

(** C1, as stated, fails: the second of two affiliation corrections
    recommends ["B"], which the first looks for, and the second application
    rewrites the affiliation once more. *)
Lemma apply_corrections_twice_changes :
  ∃ st st2,
    apply_corrections sample_creator_record chained_affiliation_report = Ok st ∧
    apply_corrections (record st) chained_affiliation_report = Ok st2 ∧
    changed st2 = true ∧
    record st2 ≠ record st.
Proof.
  eexists _, _. split; [reflexivity | ]. split; [reflexivity | ]. split; [done | ].
  vm_compute. discriminate.
Qed.

(** ** Arrays are kept *)

Lemma every2_Forall2 {A} (R : A → A → Prop) l m : every2 R l m ↔ Forall2 R l m.
Proof.
  revert m. induction l as [ | x l IH]; intros [ | y m]; simpl.
  - split; [constructor | done].
  - split; [done | intros H; inversion H].
  - split; [done | intros H; inversion H].
  - rewrite IH. split.
    + intros [Hxy Hlm]. by constructor.
    + intros H. by inversion H.
Qed.

Lemma same_but_names_refl v : same_but_names v v.
Proof.
  induction v as [ | b | n | s | l IH | d IH] using json_nested_ind; simpl; try done.
  - apply every2_Forall2. induction IH; by constructor.
  - apply every2_Forall2. induction IH as [ | [k x] d Hx Hall IH']; constructor; [ | done].
    split; [done | by right].
Qed.

Lemma same_but_names_trans a b c :
  same_but_names a b → same_but_names b c → same_but_names a c.
Proof.
  revert b c.
  induction a as [ | x | n | s | l IH | d IH] using json_nested_ind;
    intros b c; destruct b as [ | y | m | t | l' | d']; simpl; try done;
    try (intros <-; done).
  - destruct c as [ | z | k | u | l'' | d'']; simpl; try done.
    rewrite !every2_Forall2. intros H1 H2.
    revert l' l'' H1 H2. induction IH as [ | x l Hx Hall IHl]; intros l' l'' H1 H2.
    + inversion H1; subst. inversion H2; subst. constructor.
    + inversion H1 as [ | ? y ? m Hxy Hlm]; subst.
      inversion H2 as [ | ? z ? n Hyz Hmn]; subst.
      constructor; [by eapply Hx | by eapply IHl].
  - destruct c as [ | z | k | u | l'' | d'']; simpl; try done.
    rewrite !every2_Forall2. intros H1 H2.
    revert d' d'' H1 H2. induction IH as [ | [k x] d Hx Hall IHd]; intros d' d'' H1 H2.
    + inversion H1; subst. inversion H2; subst. constructor.
    + inversion H1 as [ | ? [k' y] ? m Hp1 Hlm]; subst.
      inversion H2 as [ | ? [k'' z] ? n Hp2 Hmn]; subst.
      simpl in Hp1, Hp2. destruct Hp1 as [Hk Hxy]. destruct Hp2 as [Hk' Hyz]. subst.
      constructor; [ | by eapply IHd]. split; [done | ].
      destruct Hxy as [-> | Hxy]; [by left | ].
      destruct Hyz as [-> | Hyz]; [by left | ].
      right. by eapply Hx.
Qed.

Lemma same_but_names_dset k v v' d :
  dget k d = Some v → k = "name" ∨ same_but_names v v' →
  same_but_names (JDict d) (JDict (dset k v' d)).
Proof.
  intros Hget Hv. simpl. apply every2_Forall2. revert Hget.
  induction d as [ | [k0 w] d IH]; simpl; [done | ].
  destruct (String.eqb k k0) eqn:E.
  - apply String.eqb_eq in E. subst k0. intros [= ->]. constructor.
    + split; [done | ]. done.
    + apply every2_Forall2. apply (same_but_names_refl (JDict d)).
  - intros Hget. constructor; [ | by apply IH].
    split; [done | right; apply same_but_names_refl].
Qed.

Lemma same_but_names_dreplace k v' d default :
  k = "name" ∨ same_but_names (dget_default k default d) v' →
  same_but_names (JDict d) (JDict (dreplace k v' d)).
Proof.
  unfold dreplace, dget_default. destruct (dget k d) as [v | ] eqn:E.
  - intros Hv. by eapply same_but_names_dset.
  - intros _. apply same_but_names_refl.
Qed.

Lemma same_but_names_list l l' :
  Forall2 same_but_names l l' → same_but_names (JList l) (JList l').
Proof. intros H. simpl. by apply every2_Forall2. Qed.

Lemma for_each_relates {A} (R : A → A → Prop) (f : A → result (A * nat)) l l' n :
  (∀ x x' k, f x = Ok (x', k) → R x x') →
  for_each f l = Ok (l', n) → Forall2 R l l'.
Proof.
  intros Hf. revert l' n. induction l as [ | x l IH]; intros l' n.
  - intros [= <- <-]. constructor.
  - intros H. apply for_each_Ok_cons in H as (x' & k & l'' & m & Hx & Hl & [= -> ->]).
    constructor; [by eapply Hf | by eapply IH].
Qed.

Lemma for_in_same_but_names f xs xs' n :
  (∀ x x' k, f x = Ok (x', k) → same_but_names x x') →
  for_in f xs = Ok (xs', n) → same_but_names xs xs'.
Proof.
  intros Hf. destruct xs as [ | b | m | s | l | d].
  5:{ intros H. apply for_in_list in H as (l' & k & Hl & [= -> ->]).
      apply same_but_names_list. by eapply for_each_relates. }
  all: unfold for_in; intros H; apply bind_Ok in H as (items & _ & H).
  all: apply bind_Ok in H as ([l' k] & _ & [= <- _]).
  all: apply same_but_names_refl.
Qed.

Lemma py_eq_default_present k default d v :
  py_truthy v = true → py_truthy default = false →
  (∀ w, py_truthy w = false → py_eq w v = false) →
  py_eq (dget_default k default d) v = true → is_Some (dget k d).
Proof.
  intros Hv Hd Hfalsy. unfold dget_default.
  destruct (dget k d); [by eexists | ]. by rewrite Hfalsy.
Qed.

Lemma py_eq_str_empty v : py_truthy v = true → py_eq (JStr "") v = false.
Proof. apply py_eq_empty_truthy. Qed.

Lemma py_eq_null v : py_eq JNull v = true → v = JNull.
Proof. by destruct v. Qed.

Lemma rewrite_affiliation_names old_aff new_aff a a' k :
  py_truthy old_aff = true →
  rewrite_affiliation old_aff new_aff a = Ok (a', k) → same_but_names a a'.
Proof.
  intros Hold. destruct a as [ | b | m | s | l | d]; try done. simpl.
  destruct (py_eq (dget_default "name" (JStr "") d) old_aff) eqn:E.
  2:{ intros [= <- <-]. apply (same_but_names_refl (JDict d)). }
  intros [= <- <-]. unfold dget_default in E.
  destruct (dget "name" d) as [v | ] eqn:Hname.
  - eapply same_but_names_dset; [exact Hname | by left].
  - by rewrite py_eq_str_empty in E.
Qed.

Lemma rewrite_org_author_names old_org new_org p p' k :
  py_truthy old_org = true →
  rewrite_org_author old_org new_org p = Ok (p', k) → same_but_names p p'.
Proof.
  intros Hold. destruct p as [ | b | m | s | l | d]; try done. simpl.
  destruct (_ && _) eqn:E.
  2:{ intros [= <- <-]. apply (same_but_names_refl (JDict d)). }
  intros [= <- <-]. apply andb_true_iff in E as [_ E]. unfold dget_default in E.
  destruct (dget "name" d) as [v | ] eqn:Hname.
  - eapply same_but_names_dset; [exact Hname | by left].
  - apply py_eq_null in E. by subst old_org.
Qed.

Lemma lift_field_names key default g c c' n :
  key ≠ "name" →
  (∀ v v' k, g v = Ok (v', k) → same_but_names v v') →
  lift_field key default g c = Ok (c', n) → same_but_names c c'.
Proof.
  intros Hkey Hg H. apply lift_field_Ok in H as (d & v & k & -> & Hv & [= -> ->]).
  eapply same_but_names_dreplace. right. by eapply Hg.
Qed.

Lemma creator_affiliations_names old_aff new_aff c c' k :
  py_truthy old_aff = true →
  creator_affiliations old_aff new_aff c = Ok (c', k) → same_but_names c c'.
Proof.
  intros Hold. rewrite creator_affiliations_lift. apply lift_field_names; [done | ].
  intros v v' j. apply for_in_same_but_names. intros a a' i.
  by apply rewrite_affiliation_names.
Qed.

Lemma creator_org_author_names old_org new_org c c' k :
  py_truthy old_org = true →
  creator_org_author old_org new_org c = Ok (c', k) → same_but_names c c'.
Proof.
  intros Hold. rewrite creator_org_author_lift. apply lift_field_names; [done | ].
  intros v v' j. by apply rewrite_org_author_names.
Qed.

Lemma pair_of_truthy old_key new_key c old_value new_value :
  pair_of old_key new_key c = Some (old_value, new_value) →
  py_truthy old_value = true.
Proof.
  destruct c as [ | b | n | s | l | d]; try done. cbn [pair_of].
  destruct (py_truthy (dget_default old_key (JStr "") d)) eqn:E; [ | done].
  destruct (py_truthy (dget_default new_key (JStr "") d)); [ | done].
  intros H. injection H as <- _. exact E.
Qed.

Lemma passes_same_but_names old_key new_key body items creators n creators' n' :
  (∀ old_value new_value x x' k,
     py_truthy old_value = true →
     body old_value new_value x = Ok (x', k) → same_but_names x x') →
  foldM (correction_pass old_key new_key body) items (creators, n) = Ok (creators', n') →
  same_but_names creators creators'.
Proof.
  intros Hbody H.
  eapply (passes_preserve _ _ _ (same_but_names creators)) in H as [H _];
    [done | | apply same_but_names_refl].
  intros c old_value new_value cr cr' k _ Hpair Hcr Hfor.
  eapply same_but_names_trans; [exact Hcr | ].
  eapply for_in_same_but_names; [ | exact Hfor].
  intros x x' j. apply Hbody. by eapply pair_of_truthy.
Qed.

Lemma same_custom_descriptor_items r r' :
  same_custom r r' → descriptor_items r' = descriptor_items r.
Proof.
  intros H. apply same_custom_views in H as [_ H]. unfold descriptor_items. by rewrite H.
Qed.

Lemma same_field_creators r r' :
  same_field "creators" r r' → creators_value r' = creators_value r.
Proof. intros [_ H]. unfold creators_value. by rewrite H. Qed.

Lemma same_field_related r r' :
  same_field "related_identifiers" r r' → related_of r' = related_of r.
Proof. intros [_ H]. unfold related_of. by rewrite H. Qed.

Lemma arrays_fixed_kept r r' : arrays_fixed r r' → arrays_kept r r'.
Proof.
  intros (Hc & Hr & Hd). split; [done | ]. split.
  - exists []. by rewrite app_nil_r.
  - by rewrite Hd.
Qed.

Lemma arrays_kept_refl r : arrays_kept r r.
Proof.
  split; [apply same_but_names_refl | ]. split; [ | done].
  exists []. by rewrite app_nil_r.
Qed.

Lemma arrays_kept_trans r1 r2 r3 :
  arrays_kept r1 r2 → arrays_kept r2 r3 → arrays_kept r1 r3.
Proof.
  intros (Hc1 & [new1 Hr1] & Hd1) (Hc2 & [new2 Hr2] & Hd2).
  split; [by eapply same_but_names_trans | ]. split.
  - exists (new1 ++ new2). by rewrite Hr2, Hr1, app_assoc.
  - by etrans.
Qed.

(** An applier that overwrites a metadata field other than the creators
    and the related identifiers keeps all arrays as they are. *)
Lemma touches_arrays_fixed key r r' :
  touches (InMetadata key) r r' →
  key ≠ "creators" → key ≠ "related_identifiers" →
  arrays_fixed r r'.
Proof.
  intros Htouch Hc Hr. split; [ | split].
  - rewrite (same_field_creators r r'); [apply same_but_names_refl | ].
    eapply touches_same_field; [exact Htouch | congruence].
  - apply same_field_related. eapply touches_same_field; [exact Htouch | congruence].
  - apply same_custom_descriptor_items. by eapply touches_same_custom.
Qed.

Lemma apply_pairs_arrays old_key new_key body record corrections applied record' :
  (∀ old_value new_value x x' k,
     py_truthy old_value = true →
     body old_value new_value x = Ok (x', k) → same_but_names x x') →
  apply_pairs old_key new_key body record corrections = Ok (applied, record') →
  arrays_fixed record record'.
Proof.
  intros Hbody H.
  pose proof (apply_pairs_touches _ _ _ _ _ _ _ H) as Htouch.
  split; [ | split].
  2:{ apply same_field_related. eapply touches_same_field; [exact Htouch | done]. }
  2:{ apply same_custom_descriptor_items. by eapply touches_same_custom. }
  destruct (py_truthy corrections) eqn:Ht.
  2:{ unfold apply_pairs in H. rewrite Ht in H. injection H as <- <-.
      apply same_but_names_refl. }
  pose proof (apply_pairs_Ok _ _ _ _ _ _ H Ht) as Hok.
  rewrite (apply_pairs_truthy _ _ _ _ _ Ht Hok) in H.
  apply bind_Ok in H as (items & _ & H).
  apply bind_Ok in H as ([creators' n'] & Hrun & [= <- <-]).
  destruct (creators_value_with_creators _ _ _ _ _ _ _ _ Hok Hrun) as [-> _].
  by eapply passes_same_but_names.
Qed.

Lemma add_related_identifiers_prefix record identifiers added record' :
  add_related_identifiers record identifiers = Ok (added, record') →
  ∃ new, related_of record' = related_of record ++ new.
Proof.
  destruct (py_truthy identifiers) eqn:Ht.
  2:{ rewrite add_related_identifiers_falsy by done. intros [= <- <-].
      exists []. by rewrite app_nil_r. }
  destruct (metadata_ok_dec record) as [Hok | Hno].
  2:{ by rewrite add_related_identifiers_not_ok. }
  rewrite add_related_identifiers_truthy by done. cbv zeta. intros H.
  apply bind_Ok in H as (ids0 & _ & H). apply bind_Ok in H as (items & _ & H).
  apply bind_Ok in H as ([[existing' ids'] n] & Hloop & [= <- <-]).
  apply add_identifier_loop in Hloop as (new & Hex & _).
  exists new. unfold related_of at 1. rewrite set_metadata_field_get.
  change (default (JList []) (Some existing')) with existing'.
  unfold related_of.
  destruct Hex as [[-> ->] | (l & -> & ->)]; [by rewrite app_nil_r | done].
Qed.

Lemma add_related_identifiers_arrays record identifiers added record' :
  add_related_identifiers record identifiers = Ok (added, record') →
  arrays_kept record record' ∧ descriptor_items record' = descriptor_items record.
Proof.
  intros H. pose proof (add_related_identifiers_touches _ _ _ _ H) as Htouch.
  assert (descriptor_items record' = descriptor_items record) as Hd.
  { apply same_custom_descriptor_items. by eapply touches_same_custom. }
  split; [ | done]. split; [ | split].
  - rewrite (same_field_creators record record'); [apply same_but_names_refl | ].
    eapply touches_same_field; [exact Htouch | done].
  - by eapply add_related_identifiers_prefix.
  - by rewrite Hd.
Qed.

Lemma apply_descriptor_deletions_arrays record deletions b record' :
  apply_descriptor_deletions record deletions = Ok (b, record') →
  arrays_kept record record' ∧ related_of record' = related_of record.
Proof.
  intros H. pose proof (apply_descriptor_deletions_touches _ _ _ _ H) as Htouch.
  assert (related_of record' = related_of record) as Hr.
  { apply same_field_related. eapply touches_same_field; [exact Htouch | done]. }
  split; [ | done]. split; [ | split].
  - rewrite (same_field_creators record record'); [apply same_but_names_refl | ].
    eapply touches_same_field; [exact Htouch | done].
  - exists []. by rewrite app_nil_r.
  - apply apply_descriptor_deletions_Ok in H
      as [[_ ->] | (_ & _ & _ & stored & l & is_str & S & filtered & value &
                    Hstored & Hentries & _ & Hkeep & Hvalue & ->)]; [done | ].
    unfold descriptor_items. rewrite descriptors_of_set, Hstored, Hentries.
    rewrite (descriptor_entries_written _ _ _ _ _ _ Hentries Hkeep Hvalue).
    by eapply keep_descriptors_sublist.
Qed.

Lemma staged_relates {X} (R : dict → dict → Prop) p
    (applier : dict → json → result (X * dict)) is_change label quiet_notes st st' :
  (∀ r, R r r) →
  (∀ r payload x r', applier r payload = Ok (x, r') → R r r') →
  staged p applier is_change label quiet_notes st = Ok st' →
  R (record st) (record st').
Proof.
  intros Hrefl Happ. unfold staged. destruct p as [notes | payload | e]; [ | | done].
  - intros [= <-]. apply Hrefl.
  - intros H. apply bind_Ok in H as ([x r] & Hx & [= <-]).
    apply Happ in Hx. by destruct (is_change x).
Qed.

Lemma apply_affiliations_arrays record corrections applied record' :
  apply_affiliations record corrections = Ok (applied, record') →
  arrays_fixed record record'.
Proof.
  rewrite apply_affiliations_pairs. apply apply_pairs_arrays.
  intros old_value new_value x x' k. apply creator_affiliations_names.
Qed.

Lemma apply_org_authors_arrays record corrections applied record' :
  apply_org_authors record corrections = Ok (applied, record') →
  arrays_fixed record record'.
Proof.
  rewrite apply_org_authors_pairs. apply apply_pairs_arrays.
  intros old_value new_value x x' k. apply creator_org_author_names.
Qed.

Lemma apply_metadata_field_arrays key record correction b record' :
  key ≠ "creators" → key ≠ "related_identifiers" →
  apply_metadata_field key record correction = Ok (b, record') →
  arrays_fixed record record'.
Proof.
  intros Hc Hr H. eapply touches_arrays_fixed; [ | done | done].
  by eapply apply_metadata_field_touches.
Qed.

Lemma stages_keep_arrays report :
  Forall (λ stage, ∀ st st', stage st = Ok st' → arrays_kept (record st) (record st'))
         (stages report).
Proof.
  unfold stages. repeat (apply List.Forall_cons || apply List.Forall_nil).
  - intros st st'. unfold title_stage. rewrite gated_stage_staged.
    apply staged_relates; [apply arrays_kept_refl | ].
    intros r payload x r' H. apply arrays_fixed_kept.
    by eapply (apply_metadata_field_arrays "title"); [ | | exact H].
  - intros st st'. unfold abstract_stage. rewrite gated_stage_staged.
    apply staged_relates; [apply arrays_kept_refl | ].
    intros r payload x r' H. apply arrays_fixed_kept.
    by eapply (apply_metadata_field_arrays "description"); [ | | exact H].
  - intros st st'. unfold date_stage. rewrite gated_stage_staged.
    apply staged_relates; [apply arrays_kept_refl | ].
    intros r payload x r' H. apply arrays_fixed_kept.
    by eapply (apply_metadata_field_arrays "publication_date"); [ | | exact H].
  - intros st st'. unfold descriptor_stage. rewrite gated_stage_staged.
    apply staged_relates; [apply arrays_kept_refl | ].
    intros r payload x r' H. by apply apply_descriptor_deletions_arrays in H as [H _].
  - intros st st'. rewrite affiliation_stage_staged.
    apply staged_relates; [apply arrays_kept_refl | ].
    intros r payload x r' H. apply arrays_fixed_kept.
    by eapply apply_affiliations_arrays.
  - intros st st'. rewrite org_author_stage_staged.
    apply staged_relates; [apply arrays_kept_refl | ].
    intros r payload x r' H. apply arrays_fixed_kept.
    by eapply apply_org_authors_arrays.
  - intros st st'. rewrite related_stage_staged.
    apply staged_relates; [apply arrays_kept_refl | ].
    intros r payload x r' H. by apply add_related_identifiers_arrays in H as [H _].
Qed.

Lemma run_stages_relates (R : dict → dict → Prop) l st st' :
  (∀ r, R r r) →
  (∀ r1 r2 r3, R r1 r2 → R r2 r3 → R r1 r3) →
  Forall (λ stage, ∀ st st', stage st = Ok st' → R (record st) (record st')) l →
  run_stages l st = Ok st' →
  R (record st) (record st').
Proof.
  intros Hrefl Htrans Hall. revert st.
  induction Hall as [ | stage l Hstage Hall IH]; intros st.
  - intros [= <-]. apply Hrefl.
  - unfold run_stages. cbn [foldM]. intros H. apply bind_Ok in H as (st1 & H1 & Hrest).
    eapply Htrans; [by apply Hstage | by apply IH].
Qed.

Lemma apply_corrections_arrays record0 report st :
  apply_corrections record0 report = Ok st → arrays_kept record0 (record st).
Proof.
  unfold apply_corrections. rewrite run_corrections_stages. intros H.
  apply (run_stages_relates arrays_kept) in H;
    [done | apply arrays_kept_refl | apply arrays_kept_trans | apply stages_keep_arrays].
Qed.

Lemma same_but_names_items v v' :
  same_but_names v v' → Forall2 same_but_names (list_items v) (list_items v').
Proof.
  destruct v as [ | b | n | s | l | d]; destruct v' as [ | b' | n' | s' | l' | d'];
    simpl; try done; try constructor.
  apply every2_Forall2.
Qed.

Lemma same_but_names_field k default d e :
  k ≠ "name" →
  same_but_names (JDict d) (JDict e) →
  same_but_names (dget_default k default d) (dget_default k default e).
Proof.
  intros Hk. simpl. rewrite every2_Forall2. unfold dget_default.
  induction 1 as [ | [k1 v] [k2 w] d e Hp Hall IH]; simpl.
  - apply same_but_names_refl.
  - simpl in Hp. destruct Hp as [<- Hvw].
    destruct (String.eqb k k1) eqn:E; [ | exact IH].
    apply String.eqb_eq in E. subst k1. by destruct Hvw.
Qed.

Lemma same_but_names_affiliations c c' :
  same_but_names c c' →
  Forall2 same_but_names (affiliations_of c) (affiliations_of c').
Proof.
  destruct c as [ | b | n | s | l | d]; destruct c' as [ | b' | n' | s' | l' | d'];
    try done; try constructor.
  intros H. unfold affiliations_of. apply same_but_names_items.
  by apply same_but_names_field.
Qed.

(** What [same_but_names] on the creators says in particular: as many
    creators, and for each as many affiliations, in the same order. *)
Lemma creators_kept r r' :
  same_but_names (creators_value r) (creators_value r') →
  length (creators_of r') = length (creators_of r) ∧
  Forall2 (λ c c', same_but_names c c' ∧
                   length (affiliations_of c') = length (affiliations_of c) ∧
                   Forall2 same_but_names (affiliations_of c) (affiliations_of c'))
          (creators_of r) (creators_of r').
Proof.
  intros H. apply same_but_names_items in H. fold (creators_of r) (creators_of r') in H.
  split; [symmetry; by eapply Forall2_length | ].
  eapply Forall2_impl; [exact H | ]. intros c c' Hc. split; [done | ].
  apply same_but_names_affiliations in Hc. split; [ | done].
  symmetry. by eapply Forall2_length.
Qed.

(** C8: the title, abstract, publication-date, affiliation and
    organisational-author appliers keep every array of the record: the
    creators and the affiliations of each creator stay as long as they were
    and in the same order (the rewriting appliers only replace names in
    place), the related identifiers and the descriptors stay as they are.
    Descriptor deletion changes the descriptors only, into a subsequence;
    related-identifier addition changes the related identifiers only, by
    appending.  The orchestrator, which runs them all, keeps the creators
    and their affiliations in length and order, extends the related
    identifiers at the end at most, and at most shrinks the descriptors. *)
Theorem appliers_keep_arrays :
  (∀ r c b r', apply_title r c = Ok (b, r') → arrays_fixed r r') ∧
  (∀ r c b r', apply_abstract r c = Ok (b, r') → arrays_fixed r r') ∧
  (∀ r c b r', apply_publication_date r c = Ok (b, r') → arrays_fixed r r') ∧
  (∀ r c n r', apply_affiliations r c = Ok (n, r') → arrays_fixed r r') ∧
  (∀ r c n r', apply_org_authors r c = Ok (n, r') → arrays_fixed r r') ∧
  (∀ r d b r', apply_descriptor_deletions r d = Ok (b, r') →
               arrays_kept r r' ∧ related_of r' = related_of r) ∧
  (∀ r ids n r', add_related_identifiers r ids = Ok (n, r') →
                 arrays_kept r r' ∧ descriptor_items r' = descriptor_items r) ∧
  (∀ r report st, apply_corrections r report = Ok st → arrays_kept r (record st)) ∧
  (∀ r r', same_but_names (creators_value r) (creators_value r') →
           length (creators_of r') = length (creators_of r) ∧
           Forall2 (λ c c', same_but_names c c' ∧
                            length (affiliations_of c') = length (affiliations_of c) ∧
                            Forall2 same_but_names (affiliations_of c)
                                    (affiliations_of c'))
                   (creators_of r) (creators_of r')).
Proof.
  split; [intros r c b r'; by apply apply_metadata_field_arrays | ].
  split; [intros r c b r'; by apply apply_metadata_field_arrays | ].
  split; [intros r c b r'; by apply apply_metadata_field_arrays | ].
  split; [exact apply_affiliations_arrays | ].
  split; [exact apply_org_authors_arrays | ].
  split; [exact apply_descriptor_deletions_arrays | ].
  split; [exact add_related_identifiers_arrays | ].
  split; [exact apply_corrections_arrays | exact creators_kept].
Qed.

Lemma appliers_keep_arrays_witness :
  ∃ st, apply_corrections sample_full_record sample_full_report = Ok st ∧
        arrays_kept sample_full_record (record st).
Proof.
  destruct appliers_keep_arrays as (_ & _ & _ & _ & _ & _ & _ & Hrun & _).
  destruct (apply_corrections sample_full_record sample_full_report) as [st | e] eqn:E.
  - exists st. split; [reflexivity | ]. exact (Hrun _ _ _ E).
  - vm_compute in E. discriminate E.
Defined.

Example apply_corrections_sample :
  apply_corrections sample_full_record sample_full_report
  = Ok (RunState
          [("metadata",
            JDict [("title", JStr "New");
                   ("creators", JList [creator "organizational" "I.A.E.A." ["C"; "C"]]);
                   ("related_identifiers", JList [related_entry "10.1/x"])]);
           ("custom_fields", JDict [(descriptor_key, JStr "alpha; gamma")])]
          true
          ["Title corrected"; "Descriptors deleted"; "Affiliations corrected (3)";
           "Organizational authors corrected (1)"; "Related identifiers added (1)"]
          []).
Proof. vm_compute. reflexivity. Qed.

(** ** Relocation *)

Lemma elem_of_remove_entry (e : string * node) name dir :
  e ∈ remove_entry name dir ↔ e ∈ dir ∧ e.1 ≠ name.
Proof. unfold remove_entry. rewrite list_elem_of_filter. tauto. Qed.

Lemma dget_remove_entry_ne name name' (dir : listing) :
  name' ≠ name → dget name' (remove_entry name dir) = dget name' dir.
Proof.
  intros Hne. unfold remove_entry.
  induction dir as [ | [k n] dir IH]; [done | ].
  rewrite filter_cons. simpl. destruct (decide (k ≠ name)) as [Hk | Hk]; simpl.
  - by rewrite IH.
  - rewrite IH. destruct (String.eqb name' k) eqn:E; [ | done].
    apply String.eqb_eq in E. subst k. destruct Hk. congruence.
Qed.

Lemma move_files_dry srcs records dest :
  move_files true srcs (records, dest)
  = (records,
     if existsb (λ src, is_file src.2) srcs then Some (default [] dest) else dest).
Proof.
  revert dest. induction srcs as [ | [name [c | ]] srcs IH]; intros dest; simpl.
  - done.
  - change (move_files true ((name, File c) :: srcs) (records, dest))
      with (move_files true srcs (records, Some (default [] dest))).
    rewrite IH. simpl. by destruct (existsb _ srcs).
  - apply IH.
Qed.

Lemma move_files_live srcs records dest records' dest' :
  move_files false srcs (records, dest) = (records', dest') →
  (∀ e, e ∈ records' → e ∈ records) ∧
  (∀ e, e ∈ default [] dest → e ∈ default [] dest') ∧
  (∀ name, (∀ src, src ∈ srcs → is_file src.2 = true → src.1 ≠ name) →
           dget name records' = dget name records) ∧
  (∀ src, src ∈ srcs → is_file src.2 = true →
          (src.1 ∉ map fst records') ∧
          ∃ out name, dest' = Some out ∧ (name, src.2) ∈ out).
Proof.
  revert records dest.
  induction srcs as [ | [name [c | ]] srcs IH]; intros records dest; simpl.
  - intros [= <- <-]. split; [done | split; [done | split; [done | ]]].
    intros src Hin. by apply elem_of_nil in Hin.
  - change (move_files false ((name, File c) :: srcs) (records, dest))
      with (move_files false srcs
              (remove_entry name records,
               Some (default [] dest ++ [(destination (default [] dest) name, File c)]))).
    intros H. apply IH in H as (Hsub & Hkeep & Hget & Hmoved).
    assert (∀ e, e ∈ records' → e.1 ≠ name) as Hgone.
    { intros e He. apply Hsub in He. by apply elem_of_remove_entry in He as [_ He]. }
    split; [ | split; [ | split]].
    + intros e He. apply Hsub in He. by apply elem_of_remove_entry in He as [He _].
    + intros e He. apply Hkeep. simpl. apply elem_of_app. by left.
    + intros name' Hfree. rewrite Hget.
      * apply dget_remove_entry_ne. intros ->.
        apply (Hfree (name, File c)); [apply elem_of_cons; by left | done | done].
      * intros src Hin. apply Hfree. apply elem_of_cons. by right.
    + intros src Hin Hfile. apply elem_of_cons in Hin as [-> | Hin].
      * simpl. split.
        -- intros Hin. apply list_elem_of_fmap in Hin as (e & He1 & He).
           by apply (Hgone e He).
        -- assert ((destination (default [] dest) name, File c) ∈ default [] dest') as Hthere.
           { apply Hkeep. simpl. apply elem_of_app. right. apply list_elem_of_singleton. done. }
           destruct dest' as [out | ]; [ | by apply elem_of_nil in Hthere].
           by exists out, (destination (default [] dest) name).
      * by apply Hmoved.
  - change (move_files false ((name, Folder) :: srcs) (records, dest))
      with (move_files false srcs (records, dest)).
    intros H. apply IH in H as (Hsub & Hkeep & Hget & Hmoved).
    split; [done | split; [done | split]].
    + intros name' Hfree. apply Hget. intros src Hin. apply Hfree. apply elem_of_cons. by right.
    + intros src Hin Hfile. apply elem_of_cons in Hin as [-> | Hin]; [done | ].
      by apply Hmoved.
Qed.


(** ** Probing for a free name *)

Lemma append_inj_l s1 s2 t : s1 +:+ t = s2 +:+ t → s1 = s2.
Proof.
  revert s2. induction s1 as [ | c s1 IH]; intros [ | c2 s2] H.
  - done.
  - apply (f_equal String.length) in H. rewrite append_nil, append_cons in H.
    simpl in H. rewrite length_append in H. lia.
  - apply (f_equal String.length) in H. rewrite append_nil, append_cons in H.
    simpl in H. rewrite length_append in H. lia.
  - rewrite !append_cons in H. injection H as -> H. f_equal. by apply IH.
Qed.

Lemma append_inj_r s t1 t2 : s +:+ t1 = s +:+ t2 → t1 = t2.
Proof.
  induction s as [ | c s IH]; [by rewrite !append_nil | ].
  rewrite !append_cons. intros [= H]. by apply IH.
Qed.

Lemma nat_to_string_inj i j : nat_to_string i = nat_to_string j → i = j.
Proof.
  unfold nat_to_string. intros H.
  assert (∀ n, Nat.to_uint n ≠ Decimal.Nil) as Hnil.
  { intros n Hn. pose proof (DecimalNat.Unsigned.of_to n) as Hof.
    rewrite Hn in Hof. cbv in Hof. subst n. discriminate Hn. }
  apply (f_equal NilZero.uint_of_string) in H.
  rewrite !NilZero.usu in H by apply Hnil.
  injection H as H. by apply DecimalNat.Unsigned.to_uint_inj.
Qed.

Lemma candidate_inj stem suffix i j :
  candidate stem suffix i = candidate stem suffix j → i = j.
Proof.
  unfold candidate. intros H. apply append_inj_r in H. apply append_inj_r in H.
  apply append_inj_l in H. by apply nat_to_string_inj.
Qed.

Lemma exists_in_keys name (dir : listing) :
  exists_in name dir = true ↔ name ∈ map fst dir.
Proof.
  unfold exists_in. rewrite bool_decide_eq_true.
  induction dir as [ | [k n] dir IH]; simpl.
  - split; [by intros [x Hx] | intros H; by apply elem_of_nil in H].
  - destruct (String.eqb name k) eqn:E.
    + apply String.eqb_eq in E. subst k. split; [ | by eexists].
      intros _. apply elem_of_cons. by left.
    + apply String.eqb_neq in E. rewrite IH. split.
      * intros H. apply elem_of_cons. by right.
      * intros H. apply elem_of_cons in H as [H | H]; [done | exact H].
Qed.

(** The probing loop stops at the first free candidate, or has found all
    the candidates that it has tested. *)
Lemma probe_stops dest stem suffix tests i :
  ∃ j, probe dest stem suffix tests i = candidate stem suffix j ∧
       (i ≤ j ≤ i + tests)%nat ∧
       (∀ k, (i ≤ k < j)%nat → exists_in (candidate stem suffix k) dest = true) ∧
       ((j < i + tests)%nat → exists_in (candidate stem suffix j) dest = false).
Proof.
  revert i. induction tests as [ | tests IH]; intros i; simpl.
  - exists i. split; [done | ]. split; [lia | ]. split; intros; lia.
  - destruct (exists_in (candidate stem suffix i) dest) eqn:E.
    + destruct (IH (S i)) as (j & Hj & Hrange & Hbelow & Hfree).
      exists j. split; [done | ]. split; [lia | ]. split.
      * intros k Hk. destruct (decide (k = i)) as [-> | Hne]; [done | ].
        apply Hbelow. lia.
      * intros Hlt. apply Hfree. lia.
    + exists i. split; [done | ]. split; [lia | ]. split; [intros; lia | done].
Qed.

(** [safe_move] never picks a name that the destination already holds:
    as many tests as the destination has entries are enough. *)
Lemma destination_free dest src : exists_in (destination dest src) dest = false.
Proof.
  unfold destination. destruct (exists_in (path_name src) dest) eqn:E; [ | exact E].
  set (stem := path_stem src). set (suffix := path_suffix src).
  destruct (probe_stops dest stem suffix (length dest) 1) as (j & -> & Hrange & Hbelow & Hfree).
  destruct (decide (j < 1 + length dest)%nat) as [Hlt | Hge]; [by apply Hfree | ].
  destruct (exists_in (candidate stem suffix j) dest) eqn:Hj; [ | done].
  exfalso.
  assert (j = S (length dest)) as -> by lia.
  set (names := map (candidate stem suffix) (seq 1 (S (length dest)))).
  assert (names ⊆+ map fst dest) as Hsub.
  { apply NoDup_submseteq.
    - apply NoDup_fmap_2; [intros a b; apply candidate_inj | apply NoDup_seq].
    - intros name Hname. apply list_elem_of_fmap in Hname as (k & -> & Hk).
      apply elem_of_seq in Hk. apply exists_in_keys.
      destruct (decide (k = S (length dest))) as [-> | Hne]; [done | ].
      apply Hbelow. lia. }
  apply submseteq_length in Hsub. unfold names in Hsub.
  rewrite !length_map, length_seq in Hsub. lia.
Qed.

(** ** Disposition precedence *)

Section Disposition.
Variable glob_match : string → string → bool.

(** C5: when a report has [scope_ok] exactly [false] and a truthy
    [duplicate_by_title] or [duplicate_by_doi], both disposition predicates
    hold, and the turn of [process] for a record that is found, loads and is
    corrected without an exception takes the out-of-scope branch: [moved_out]
    goes up by one and [moved_dup] stays, the duplicates directory is not
    touched, the entry ends with the out-of-scope action, and in a live run
    every file that the pattern [key.*] matches leaves the records directory
    and is found in the out-of-scope directory. *)
Theorem out_of_scope_wins out_of_scope_name duplicates_name dry_run key report
    report_file_path b record_path rec st :
  dget "scope_ok" report = Some (JBool false) →
  py_truthy (dget_default "duplicate_by_title" JNull report)
  || py_truthy (dget_default "duplicate_by_doi" JNull report) = true →
  find_record_file (records_files (files b)) key = Some record_path →
  load_json (default Folder (dget record_path (records_files (files b)))) = Ok (Some rec) →
  apply_corrections rec report = Ok st →
  let records1 :=
    if changed st
    then save_json record_path (record st) dry_run (records_files (files b))
    else records_files (files b) in
  should_move_out_of_scope report = true ∧
  should_move_duplicate report = true ∧
  ∃ b',
    process_key glob_match out_of_scope_name duplicates_name dry_run
      (key, (report, report_file_path)) b = Ok b' ∧
    moved_out (counts b') = moved_out (counts b) + 1 ∧
    moved_dup (counts b') = moved_dup (counts b) ∧
    duplicates_files (files b') = duplicates_files (files b) ∧
    (∃ e, entries b' = entries b ++ [e] ∧
          entry_actions e = actions st ++ ["Moved to " +:+ out_of_scope_name]) ∧
    (dry_run = false →
     ∀ name c, (name, File c) ∈ records1 →
               glob_match (key +:+ ".*") name = true →
               (name ∉ map fst (records_files (files b'))) ∧
               ∃ out name', out_of_scope_files (files b') = Some out ∧
                            (name', File c) ∈ out).
Proof.
  intros Hscope Hflags Hfind Hload Hst records1.
  assert (should_move_out_of_scope report = true) as Hout.
  { unfold should_move_out_of_scope. by rewrite Hscope. }
  assert (should_move_duplicate report = true) as Hdup.
  { unfold should_move_duplicate, duplicate_reason.
    destruct (py_truthy (dget_default "duplicate_by_title" JNull report));
      destruct (py_truthy (dget_default "duplicate_by_doi" JNull report)); done. }
  split; [exact Hout | ]. split; [exact Hdup | ].
  unfold process_key. rewrite Hfind, Hload. simpl. rewrite Hst. simpl.
  rewrite Hout. fold records1.
  destruct (relocate glob_match key dry_run (records1, out_of_scope_files (files b)))
    as [records2 out2] eqn:Hmove.
  eexists. split; [reflexivity | ]. simpl.
  split; [done | ]. split; [done | ]. split; [done | ]. split.
  - eexists. split; [reflexivity | ]. simpl.
    destruct (actions st); reflexivity.
  - intros -> name c Hin Hmatch.
    apply move_files_live in Hmove as (_ & _ & _ & Hmoved).
    apply (Hmoved (name, File c)); [ | done].
    unfold glob. apply list_elem_of_filter. by split.
Qed.
End Disposition.

Lemma out_of_scope_wins_witness :
  ∃ b',
    process_key wildcard_match "Possible_Out_Of_Scope" "Possible_Duplicates" false
      ("1", (flagged_report, "1-report.json"))
      (Batch sample_filesystem (Stats 0 0 0 0 0) []) = Ok b' ∧
    moved_out (counts b') = 1 ∧
    moved_dup (counts b') = 0 ∧
    duplicates_files (files b') = None ∧
    out_of_scope_files (files b')
    = Some [("1.json", File (Document [("metadata", JDict [("title", JStr "Old")])]));
            ("1.pdf", File NotJson)].
Proof.
  destruct (out_of_scope_wins wildcard_match "Possible_Out_Of_Scope" "Possible_Duplicates" false "1"
              flagged_report "1-report.json"
              (Batch sample_filesystem (Stats 0 0 0 0 0) []) "1.json"
              [("metadata", JDict [("title", JStr "Old")])]
              (RunState [("metadata", JDict [("title", JStr "Old")])] false [] [])
              eq_refl eq_refl eq_refl eq_refl eq_refl)
    as (_ & _ & b' & Hrun & Hout & Hdup & Hfiles & _).
  exists b'. split; [exact Hrun | ]. split; [exact Hout | ]. split; [exact Hdup | ].
  split; [exact Hfiles | ].
  vm_compute in Hrun. injection Hrun as <-. reflexivity.
Defined.

(** ** Writing the report *)

Lemma render_markdown_cases dry_run logged s :
  (∃ lines, details logged = Ok lines ∧
            render_markdown dry_run logged s = Ok (Some (Audit dry_run s logged))) ∨
  (∃ e, details logged = Raise e ∧ render_markdown dry_run logged s = Raise e).
Proof.
  unfold render_markdown. destruct (details logged) as [lines | e].
  - left. by exists lines.
  - right. by exists e.
Qed.

Lemma render_markdown_Ok dry_run logged s report :
  render_markdown dry_run logged s = Ok report →
  report = Some (Audit dry_run s logged).
Proof.
  destruct (render_markdown_cases dry_run logged s) as [(lines & _ & ->) | (e & _ & ->)];
    [by intros [= <-] | done].
Qed.

(** ** Keys kept distinct *)

Lemma keys_dset {A} k (v : A) d :
  map fst (dset k v d) = if bool_decide (k ∈ map fst d) then map fst d else map fst d ++ [k].
Proof.
  induction d as [ | [k' w] d IH]; simpl; [done | ].
  destruct (String.eqb k k') eqn:E; simpl.
  - apply String.eqb_eq in E. subst k'.
    rewrite bool_decide_eq_true_2; [done | by apply elem_of_cons; left].
  - rewrite IH. apply String.eqb_neq in E.
    destruct (bool_decide (k ∈ map fst d)) eqn:Hk.
    + apply bool_decide_eq_true_1 in Hk.
      rewrite bool_decide_eq_true_2; [done | by apply elem_of_cons; right].
    + apply bool_decide_eq_false_1 in Hk.
      rewrite bool_decide_eq_false_2; [done | ].
      intros Hin. apply elem_of_cons in Hin as [Hin | Hin]; [by apply E | by apply Hk].
Qed.

Lemma NoDup_keys_dset {A} k (v : A) d : NoDup (map fst d) → NoDup (map fst (dset k v d)).
Proof.
  intros Hnd. rewrite keys_dset. destruct (bool_decide (k ∈ map fst d)) eqn:Hk; [done | ].
  apply bool_decide_eq_false_1 in Hk.
  apply NoDup_app. split; [done | ]. split; [ | apply NoDup_singleton].
  intros x Hx Hx'. apply list_elem_of_singleton in Hx'. by subst x.
Qed.

Lemma add_report_NoDup file report_map report_map' :
  add_report file report_map = Ok report_map' →
  NoDup (map fst report_map) → NoDup (map fst report_map').
Proof.
  unfold add_report. destruct (load_json file.2) as [[report | ] | e]; simpl.
  - destruct (String.eqb _ ""); intros [= <-]; [done | apply NoDup_keys_dset].
  - by intros [= <-].
  - done.
Qed.

Lemma report_map_NoDup report_files report_map report_map' :
  foldM add_report report_files report_map = Ok report_map' →
  NoDup (map fst report_map) → NoDup (map fst report_map').
Proof.
  revert report_map. induction report_files as [ | file report_files IH]; simpl.
  - by intros report_map [= <-].
  - intros report_map H Hnd. apply bind_Ok in H as (m & Hm & H).
    apply (IH m H). by apply (add_report_NoDup file report_map).
Qed.

Lemma save_json_other path data dry_run dir name :
  name ≠ path → dget name (save_json path data dry_run dir) = dget name dir.
Proof.
  intros Hne. unfold save_json. destruct dry_run; [done | ].
  apply dget_dset_ne. congruence.
Qed.

(** The quarantine directory is made before [safe_move] looks at the
    dry-run flag. *)
Example dry_run_makes_directory :
  safe_move ("1.json", File NotJson) true ([("1.json", File NotJson)], None)
  = ([("1.json", File NotJson)], Some []).
Proof. reflexivity. Qed.

(** ** Relocation never overwrites *)

Lemma destination_new dest src : destination dest src ∉ map fst dest.
Proof.
  intros Hin. apply exists_in_keys in Hin. by rewrite destination_free in Hin.
Qed.

Lemma safe_move_live (src : string * node) (records : listing) (dest : option listing) :
  ∃ name,
    (safe_move src false (records, dest)).2 = Some (default [] dest ++ [(name, src.2)]) ∧
    (name ∉ map fst (default [] dest)) ∧
    (NoDup (map fst (default [] dest)) →
     NoDup (map fst (default [] dest ++ [(name, src.2)]))).
Proof.
  exists (destination (default [] dest) src.1).
  split; [reflexivity | ]. split; [apply destination_new | ].
  intros Hnd. rewrite map_app. apply NoDup_app. split; [done | ]. split.
  - intros x Hx Hx'. apply list_elem_of_singleton in Hx'. subst x.
    by apply (destination_new (default [] dest) src.1).
  - apply NoDup_singleton.
Qed.

(** X1: a live [safe_move] takes the source out of its directory and puts it
    into the destination directory, after the entries that were there, under
    a name that none of them has: nothing in the destination is overwritten
    or removed, and its names stay distinct. *)
Theorem safe_move_never_overwrites (src : string * node) (records : listing)
    (dest : option listing) :
  let moved := safe_move src false (records, dest) in
  moved.1 = remove_entry src.1 records ∧
  ∃ name,
    moved.2 = Some (default [] dest ++ [(name, src.2)]) ∧
    (name ∉ map fst (default [] dest)) ∧
    (NoDup (map fst (default [] dest)) →
     NoDup (map fst (default [] dest ++ [(name, src.2)]))).
Proof. split; [reflexivity | apply safe_move_live]. Qed.

Lemma safe_move_never_overwrites_witness :
  safe_move ("1.json", File NotJson) false
    ([("1.json", File NotJson); ("2.json", File NotJson)],
     Some [("1.json", Folder); ("1_1.json", Folder)])
  = ([("2.json", File NotJson)],
     Some [("1.json", Folder); ("1_1.json", Folder); ("1_2.json", File NotJson)]) ∧
  NoDup (map fst [("1.json", Folder); ("1_1.json", Folder); ("1_2.json", File NotJson)]).
Proof.
  destruct (safe_move_never_overwrites ("1.json", File NotJson)
              [("1.json", File NotJson); ("2.json", File NotJson)]
              (Some [("1.json", Folder); ("1_1.json", Folder)]))
    as (_ & name & Hmoved & _ & Hnd).
  split; [reflexivity | ].
  vm_compute in Hmoved. injection Hmoved as <-.
  apply Hnd. apply (bool_decide_unpack _). vm_compute. exact I.
Defined.

(** X2: the name that [safe_move] gives to the moved file is the name of
    the source when the destination has no entry of that name; otherwise it
    is [stem_i.suffix] for the least [i >= 1] that is free in the
    destination. *)
Theorem safe_move_first_free_name (dest : listing) (src : string) :
  (exists_in (path_name src) dest = false → destination dest src = path_name src) ∧
  (exists_in (path_name src) dest = true →
   ∃ i, (1 ≤ i)%nat ∧
        destination dest src = candidate (path_stem src) (path_suffix src) i ∧
        exists_in (candidate (path_stem src) (path_suffix src) i) dest = false ∧
        ∀ k, (1 ≤ k < i)%nat →
             exists_in (candidate (path_stem src) (path_suffix src) k) dest = true).
Proof.
  split.
  - intros Hfree. unfold destination. by rewrite Hfree.
  - intros Htaken. pose proof (destination_free dest src) as Hfree.
    unfold destination in *. rewrite Htaken in *.
    destruct (probe_stops dest (path_stem src) (path_suffix src) (length dest) 1)
      as (j & Hj & Hrange & Hbelow & _).
    exists j. rewrite Hj in *. split; [lia | ]. split; [done | ]. split; [done | ].
    exact Hbelow.
Qed.

Lemma safe_move_first_free_name_witness :
  destination [("1.json", Folder); ("1_1.json", Folder)] "1.json" = "1_2.json".
Proof.
  destruct (safe_move_first_free_name [("1.json", Folder); ("1_1.json", Folder)] "1.json")
    as [_ Htaken].
  destruct (Htaken eq_refl) as (i & Hi & -> & Hfree & Hbelow).
  destruct i as [ | [ | [ | i]]].
  - lia.
  - vm_compute in Hfree. discriminate Hfree.
  - reflexivity.
  - specialize (Hbelow 2 ltac:(lia)). vm_compute in Hbelow. discriminate Hbelow.
Defined.

(** ** The audit trail of a run *)

Section Audit.
Variable glob_match : string → string → bool.
Variables out_of_scope_name duplicates_name : string.

(** One turn of the loop of [process] skips the key, or counts it as
    missing, or counts it as processed; in the last two cases it logs one
    entry for the key, with at least one action. *)
Lemma process_key_step dry_run key report report_file_path b b' :
  process_key glob_match out_of_scope_name duplicates_name dry_run
    (key, (report, report_file_path)) b = Ok b' →
  (counts b' = counts b ∧ entries b' = entries b) ∨
  ∃ e, entries b' = entries b ++ [e] ∧
       entry_key e = key ∧
       entry_report_path e = report_file_path ∧
       entry_recommendations e = recommendations_of report ∧
       entry_actions e ≠ [] ∧
       ((processed (counts b') = processed (counts b) ∧
         missing (counts b') = missing (counts b) + 1 ∧
         corrected (counts b') = corrected (counts b) ∧
         moved_out (counts b') = moved_out (counts b) ∧
         moved_dup (counts b') = moved_dup (counts b) ∧
         entry_record_path e = None) ∨
        (processed (counts b') = processed (counts b) + 1 ∧
         missing (counts b') = missing (counts b) ∧
         corrected (counts b) ≤ corrected (counts b') ≤ corrected (counts b) + 1 ∧
         moved_out (counts b) + moved_dup (counts b)
         ≤ moved_out (counts b') + moved_dup (counts b')
         ≤ moved_out (counts b) + moved_dup (counts b) + 1 ∧
         entry_record_path e = Some (key +:+ ".json")))%nat.
Proof.
  unfold process_key, find_record_file. cbv zeta.
  destruct (exists_in (key +:+ ".json") (records_files (files b))); cbv beta iota.
  2: { intros [= <-]. right. eexists. split; [reflexivity | ]. simpl.
       do 4 (split; [done | ]). by left. }
  destruct (load_json _) as [[rec | ] | e]; [rewrite bind_Ok_l | rewrite bind_Ok_l | done].
  2: { intros [= <-]. by left. }
  destruct (apply_corrections rec report) as [st | e]; [rewrite bind_Ok_l | done].
  set (records1 := if changed st then _ else _).
  set (move_out := should_move_out_of_scope report).
  set (move_dup := should_move_duplicate report).
  destruct (relocate glob_match key dry_run (records1, out_of_scope_files (files b)))
    as [r1 o1].
  destruct (relocate glob_match key dry_run (records1, duplicates_files (files b)))
    as [r2 d2].
  intros H. right.
  assert (∃ f c acts,
            b' = Batch f c (entries b ++
                   [Entry key (Some (key +:+ ".json")) report_file_path acts
                          (recommendations_of report) (unapplied st)]) ∧
            acts ≠ [] ∧
            processed c = processed (counts b) + 1 ∧
            missing c = missing (counts b) ∧
            corrected c = (if changed st then corrected (counts b) + 1
                           else corrected (counts b)) ∧
            moved_out c = (if move_out then moved_out (counts b) + 1
                           else moved_out (counts b)) ∧
            moved_dup c = (if move_out then moved_dup (counts b)
                           else if move_dup then moved_dup (counts b) + 1
                                else moved_dup (counts b)))%nat
    as (f & c & acts & -> & Hacts & Hp & Hm & Hc & Ho & Hd).
  { destruct move_out; [ | destruct move_dup].
    - injection H as <-. do 3 eexists. split; [reflexivity | ].
      split; [ | done]. by destruct (actions st).
    - injection H as <-. do 3 eexists. split; [reflexivity | ].
      split; [ | done]. by destruct (actions st).
    - injection H as <-. do 3 eexists. split; [reflexivity | ].
      split; [ | done]. by destruct (actions st). }
  eexists. split; [reflexivity | ]. simpl. do 3 (split; [done | ]).
  split; [done | ]. right. rewrite Hp, Hm, Hc, Ho, Hd.
  destruct (changed st), move_out, move_dup; repeat split; lia.
Qed.


Lemma process_keys_accounted dry_run items b b' :
  foldM (process_key glob_match out_of_scope_name duplicates_name dry_run) items b = Ok b' →
  accounted (counts b) (entries b) →
  accounted (counts b') (entries b') ∧
  (processed (counts b') + missing (counts b')
   ≤ processed (counts b) + missing (counts b) + length items)%nat ∧
  ∃ logged, entries b' = entries b ++ logged ∧
            map entry_key logged `sublist_of` map fst items ∧
            Forall (λ e, entry_actions e ≠ [] ∧
                         ∃ report, (entry_key e, (report, entry_report_path e)) ∈ items ∧
                                   entry_recommendations e = recommendations_of report)
                   logged.
Proof.
  revert b. induction items as [ | [key [report path]] items IH]; intros b H Hacc.
  - injection H as <-. split; [done | ]. split; [simpl; lia | ].
    exists []. rewrite app_nil_r. split; [done | ]. split; [done | constructor].
  - cbn [foldM] in H. apply bind_Ok in H as (b1 & Hstep & H).
    apply process_key_step in Hstep.
    assert (accounted (counts b1) (entries b1) ∧
            (processed (counts b1) + missing (counts b1)
             ≤ processed (counts b) + missing (counts b) + 1)%nat ∧
            ∃ logged, entries b1 = entries b ++ logged ∧
                      (logged = [] ∨
                       ∃ e, logged = [e] ∧ entry_key e = key ∧ entry_report_path e = path ∧
                            entry_recommendations e = recommendations_of report ∧
                            entry_actions e ≠ []))
      as (Hacc1 & Hle1 & logged1 & Hlog1 & Hshape).
    { destruct Hacc as (Hlen & Hcor & Hmov).
      destruct Hstep as [[Hc He] | (e & He & Hkey & Hpath & Hrec & Hact & Hcount)].
      - rewrite Hc, He. split; [done | ]. split; [lia | ].
        exists []. rewrite app_nil_r. split; [done | by left].
      - split; [ | split].
        + unfold accounted. rewrite He, length_app. simpl.
          destruct Hcount as [(Hp & Hm & Hc & Ho & Hd & _) | (Hp & Hm & Hc & Hod & _)];
            repeat split; lia.
        + destruct Hcount as [(Hp & Hm & _) | (Hp & Hm & _)]; lia.
        + exists [e]. split; [done | ]. right. by exists e. }
    destruct (IH b1 H Hacc1) as (Hacc' & Hle' & logged & Hlog & Hkeys & Hall).
    split; [done | ]. split; [simpl; lia | ].
    exists (logged1 ++ logged). split; [by rewrite Hlog, Hlog1, app_assoc | ].
    destruct Hshape as [-> | (e & -> & Hkey & Hpath & Hrec & Hact)]; simpl.
    + split; [by apply sublist_cons | ].
      eapply Forall_impl; [exact Hall | ]. intros e [Hact (r & Hin & Hr)].
      split; [done | ]. exists r. split; [ | done]. apply elem_of_cons. by right.
    + rewrite Hkey. split; [by apply sublist_skip | ]. constructor.
      * split; [done | ]. exists report. split; [ | done].
        apply elem_of_cons. left. by rewrite Hkey, Hpath.
      * eapply Forall_impl; [exact Hall | ]. intros e' [Hact' (r & Hin & Hr)].
        split; [done | ]. exists r. split; [ | done]. apply elem_of_cons. by right.
Qed.

End Audit.

(** X3: the counts that a run reports are kept in step with its audit
    trail: there is one entry for each key counted as processed or as
    missing, no more records are corrected than processed, no more are
    relocated than processed, and no more keys are counted than there are
    report keys. *)
Theorem process_counts_accounted glob_match out_of_scope_name duplicates_name dry_run
    (fs fs' : filesystem) :
  glob glob_match "*.json" (qa_files fs) ≠ [] →
  process glob_match out_of_scope_name duplicates_name dry_run fs = Ok fs' →
  ∃ a, audit_file fs' = Some a ∧
       accounted (audit_stats a) (audit_entries a) ∧
       (processed (audit_stats a) + missing (audit_stats a)
        ≤ length (report_keys glob_match fs))%nat.
Proof.
  unfold process, report_keys.
  destruct (glob glob_match "*.json" (qa_files fs)) as [ | file report_files]; [done | ].
  intros _ H. apply bind_Ok in H as (report_map & -> & H).
  apply bind_Ok in H as (b & Hb & H). apply bind_Ok in H as (written & Hwritten & H).
  apply render_markdown_Ok in Hwritten as ->. injection H as <-.
  apply process_keys_accounted in Hb as (Hacc & Hle & _).
  - eexists. split; [reflexivity | ]. simpl. split; [done | ].
    simpl in Hle. rewrite length_map. lia.
  - by repeat split.
Qed.

Lemma process_counts_accounted_witness :
  ∃ a, audit_of (process wildcard_match "Possible_Out_Of_Scope" "Possible_Duplicates" false
                   sample_filesystem) = Some a ∧
       accounted (audit_stats a) (audit_entries a) ∧
       audit_stats a = Stats 2 1 1 0 1.
Proof.
  destruct (process wildcard_match "Possible_Out_Of_Scope" "Possible_Duplicates" false
              sample_filesystem) as [fs' | e] eqn:Hrun.
  - destruct (process_counts_accounted wildcard_match "Possible_Out_Of_Scope"
                "Possible_Duplicates" false sample_filesystem fs'
                ltac:(discriminate) Hrun) as (a & Ha & Hacc & _).
    exists a. split; [exact Ha | ]. split; [exact Hacc | ].
    vm_compute in Hrun. injection Hrun as <-. injection Ha as <-. reflexivity.
  - vm_compute in Hrun. discriminate Hrun.
Defined.

(** X4: the audit trail has at most one entry for a key, in the order of
    the report map; every entry lists at least one action, and carries the
    recommendations of a report of its key, an empty list standing for a
    missing or an empty value. *)
Theorem process_entries_by_key glob_match out_of_scope_name duplicates_name dry_run
    (fs fs' : filesystem) :
  glob glob_match "*.json" (qa_files fs) ≠ [] →
  process glob_match out_of_scope_name duplicates_name dry_run fs = Ok fs' →
  ∃ a, audit_file fs' = Some a ∧
       map entry_key (audit_entries a) `sublist_of` report_keys glob_match fs ∧
       NoDup (map entry_key (audit_entries a)) ∧
       Forall (λ e, entry_actions e ≠ [] ∧
                    (py_truthy (entry_recommendations e) = true ∨
                     entry_recommendations e = JList []))
              (audit_entries a).
Proof.
  unfold process, report_keys.
  destruct (glob glob_match "*.json" (qa_files fs)) as [ | file report_files]; [done | ].
  intros _ H. apply bind_Ok in H as (report_map & Hmap & H). rewrite Hmap.
  apply bind_Ok in H as (b & Hb & H). apply bind_Ok in H as (written & Hwritten & H).
  apply render_markdown_Ok in Hwritten as ->. injection H as <-.
  apply process_keys_accounted in Hb as (_ & _ & logged & Hlog & Hkeys & Hall);
    [ | by repeat split].
  simpl in Hlog. subst logged.
  eexists. split; [reflexivity | ]. simpl. split; [done | ]. split.
  - eapply sublist_NoDup; [ | exact Hkeys].
    apply (report_map_NoDup _ _ _ Hmap). apply NoDup_nil_2.
  - eapply Forall_impl; [exact Hall | ]. intros e [Hact (r & _ & ->)].
    split; [done | ]. unfold recommendations_of, py_or.
    destruct (py_truthy (dget_default "recommendations" (JList []) r)) eqn:E; [by left | by right].
Qed.

Lemma process_entries_by_key_witness :
  ∃ a, audit_of (process wildcard_match "Possible_Out_Of_Scope" "Possible_Duplicates" false
                   sample_filesystem) = Some a ∧
       map entry_key (audit_entries a) = ["1"; "2"; "3"] ∧
       NoDup (map entry_key (audit_entries a)).
Proof.
  destruct (process wildcard_match "Possible_Out_Of_Scope" "Possible_Duplicates" false
              sample_filesystem) as [fs' | e] eqn:Hrun.
  - destruct (process_entries_by_key wildcard_match "Possible_Out_Of_Scope"
                "Possible_Duplicates" false sample_filesystem fs'
                ltac:(discriminate) Hrun) as (a & Ha & _ & Hnd & _).
    exists a. split; [exact Ha | ]. split; [ | exact Hnd].
    vm_compute in Hrun. injection Hrun as <-. injection Ha as <-. reflexivity.
  - vm_compute in Hrun. discriminate Hrun.
Defined.

(** ** Saving a record *)

Lemma save_json_names path data dry_run (dir : listing) :
  exists_in path dir = true →
  map fst (save_json path data dry_run dir) = map fst dir.
Proof.
  intros Hin. apply exists_in_keys in Hin. unfold save_json.
  destruct dry_run; [done | ]. rewrite keys_dset. by rewrite bool_decide_eq_true_2.
Qed.

(** ** The three dispositions *)

Lemma dget_elem_of {A} k (v : A) d : dget k d = Some v → (k, v) ∈ d.
Proof.
  induction d as [ | [k' w] d IH]; simpl; [done | ].
  destruct (String.eqb k k') eqn:E.
  - apply String.eqb_eq in E. subst k'. intros [= ->]. apply elem_of_cons. by left.
  - intros H. apply elem_of_cons. right. by apply IH.
Qed.

Lemma find_record_file_Some records key record_path :
  find_record_file records key = Some record_path →
  record_path = key +:+ ".json" ∧ exists_in record_path records = true.
Proof.
  unfold find_record_file. destruct (exists_in _ records) eqn:E; [ | done].
  by intros [= <-].
Qed.

Section Dispositions.
Variable glob_match : string → string → bool.
Variables out_of_scope_name duplicates_name : string.

(** X6: a record whose report does not have [scope_ok] exactly [false] but
    has a truthy [duplicate_by_title] or [duplicate_by_doi] takes the
    duplicates branch: [moved_dup] goes up by one and [moved_out] stays, the
    out-of-scope directory is not touched, the entry ends with the action
    that names the duplicates directory and the reason ([title and doi],
    [title] or [doi]), and in a live run every file that the pattern [key.*]
    matches leaves the records directory and is found in the duplicates
    directory. *)
Theorem duplicate_goes_to_duplicates dry_run key report report_file_path b
    record_path rec st :
  dget "scope_ok" report ≠ Some (JBool false) →
  let by_title := py_truthy (dget_default "duplicate_by_title" JNull report) in
  let by_doi := py_truthy (dget_default "duplicate_by_doi" JNull report) in
  by_title || by_doi = true →
  find_record_file (records_files (files b)) key = Some record_path →
  load_json (default Folder (dget record_path (records_files (files b)))) = Ok (Some rec) →
  apply_corrections rec report = Ok st →
  let records1 :=
    if changed st
    then save_json record_path (record st) dry_run (records_files (files b))
    else records_files (files b) in
  let reason :=
    if by_title then if by_doi then "title and doi" else "title" else "doi" in
  ∃ b',
    process_key glob_match out_of_scope_name duplicates_name dry_run
      (key, (report, report_file_path)) b = Ok b' ∧
    moved_dup (counts b') = moved_dup (counts b) + 1 ∧
    moved_out (counts b') = moved_out (counts b) ∧
    out_of_scope_files (files b') = out_of_scope_files (files b) ∧
    (∃ e, entries b' = entries b ++ [e] ∧
          entry_actions e
          = actions st ++ ["Moved to " +:+ duplicates_name +:+
                           " (duplicate by " +:+ reason +:+ ")"]) ∧
    (dry_run = false →
     ∀ name c, (name, File c) ∈ records1 →
               glob_match (key +:+ ".*") name = true →
               (name ∉ map fst (records_files (files b'))) ∧
               ∃ dup name', duplicates_files (files b') = Some dup ∧
                            (name', File c) ∈ dup).
Proof.
  intros Hscope by_title by_doi Hflags Hfind Hload Hst records1 reason.
  assert (should_move_out_of_scope report = false) as Hout.
  { unfold should_move_out_of_scope.
    destruct (dget "scope_ok" report) as [[ | [ | ] | | | | ] | ]; done. }
  assert (duplicate_reason report = Some reason ∧ should_move_duplicate report = true)
    as [Hreason Hdup].
  { unfold should_move_duplicate, duplicate_reason, reason. fold by_title by_doi.
    destruct by_title, by_doi; done. }
  unfold process_key. rewrite Hfind, Hload. simpl. rewrite Hst. simpl.
  rewrite Hout, Hdup, Hreason. fold records1.
  destruct (relocate glob_match key dry_run (records1, duplicates_files (files b)))
    as [records2 dup2] eqn:Hmove.
  eexists. split; [reflexivity | ]. simpl.
  split; [done | ]. split; [done | ]. split; [done | ]. split.
  - eexists. split; [reflexivity | ]. simpl.
    destruct (actions st); reflexivity.
  - intros -> name c Hin Hmatch.
    apply move_files_live in Hmove as (_ & _ & _ & Hmoved).
    apply (Hmoved (name, File c)); [ | done].
    unfold glob. apply list_elem_of_filter. by split.
Qed.

(** X7: a record whose report raises neither flag stays where it is: the
    quarantine directories are not touched (nor made), no relocation is
    counted, every other entry of the records directory is as it was, and
    the record file holds the corrected record exactly when a correction was
    applied and the run is live.  [corrected] goes up exactly when a
    correction was applied, and the entry lists the actions of the
    corrections, or [No changes applied] when there was none. *)
Theorem unflagged_record_stays dry_run key report report_file_path b
    record_path rec st :
  should_move_out_of_scope report = false →
  should_move_duplicate report = false →
  find_record_file (records_files (files b)) key = Some record_path →
  load_json (default Folder (dget record_path (records_files (files b)))) = Ok (Some rec) →
  apply_corrections rec report = Ok st →
  ∃ b',
    process_key glob_match out_of_scope_name duplicates_name dry_run
      (key, (report, report_file_path)) b = Ok b' ∧
    out_of_scope_files (files b') = out_of_scope_files (files b) ∧
    duplicates_files (files b') = duplicates_files (files b) ∧
    moved_out (counts b') = moved_out (counts b) ∧
    moved_dup (counts b') = moved_dup (counts b) ∧
    corrected (counts b')
    = (if changed st then corrected (counts b) + 1 else corrected (counts b)) ∧
    (∀ name, name ≠ record_path →
             dget name (records_files (files b')) = dget name (records_files (files b))) ∧
    dget record_path (records_files (files b'))
    = (if changed st && negb dry_run then Some (File (Document (record st)))
       else Some (File (Document rec))) ∧
    (∃ e, entries b' = entries b ++ [e] ∧
          entry_actions e
          = match actions st with [] => ["No changes applied"] | _ => actions st end).
Proof.
  intros Hout Hdup Hfind Hload Hst.
  unfold process_key. rewrite Hfind, Hload. simpl. rewrite Hst. simpl.
  rewrite Hout, Hdup.
  eexists. split; [reflexivity | ]. simpl.
  do 5 (split; [done | ]).
  assert (dget record_path (records_files (files b)) = Some (File (Document rec))) as Hrec.
  { destruct (dget record_path (records_files (files b))) as [[[d | ] | ] | ]; try done.
    simpl in Hload. by injection Hload as ->. }
  split; [ | split].
  - intros name Hne. destruct (changed st); [ | done]. by apply save_json_other.
  - destruct (changed st); [ | done]. destruct dry_run; simpl; [done | ].
    apply dget_dset_eq.
  - by eexists.
Qed.

(** X8: in a live run, when the pattern [key.*] matches the record file
    [key.json] (as a glob pattern without metacharacters does), a record
    that is relocated is gone from the records directory: a second turn for
    the same key and report finds no record, counts the key as missing and
    processes nothing. *)
Theorem relocated_record_is_missing_next key report report_file_path b
    record_path rec st :
  glob_match (key +:+ ".*") (key +:+ ".json") = true →
  should_move_out_of_scope report || should_move_duplicate report = true →
  find_record_file (records_files (files b)) key = Some record_path →
  load_json (default Folder (dget record_path (records_files (files b)))) = Ok (Some rec) →
  apply_corrections rec report = Ok st →
  ∃ b' b'',
    process_key glob_match out_of_scope_name duplicates_name false
      (key, (report, report_file_path)) b = Ok b' ∧
    find_record_file (records_files (files b')) key = None ∧
    process_key glob_match out_of_scope_name duplicates_name false
      (key, (report, report_file_path)) b' = Ok b'' ∧
    files b'' = files b' ∧
    missing (counts b'') = missing (counts b') + 1 ∧
    processed (counts b'') = processed (counts b') ∧
    ∃ e, entries b'' = entries b' ++ [e] ∧ entry_actions e = ["Record JSON missing"].
Proof.
  intros Hmatch Hflag Hfind Hload Hst.
  pose proof (find_record_file_Some _ _ _ Hfind) as [-> Hex].
  assert (dget (key +:+ ".json") (records_files (files b)) = Some (File (Document rec)))
    as Hrec.
  { destruct (dget (key +:+ ".json") (records_files (files b))) as [[[d | ] | ] | ]; try done.
    simpl in Hload. by injection Hload as ->. }
  set (records1 := if changed st
                   then save_json (key +:+ ".json") (record st) false
                          (records_files (files b))
                   else records_files (files b)).
  assert (∃ c, (key +:+ ".json", File c) ∈ records1) as [c Hin].
  { unfold records1. destruct (changed st).
    - eexists. apply dget_elem_of. apply dget_dset_eq.
    - eexists. by apply dget_elem_of. }
  assert (∀ dest records2 dest2,
            relocate glob_match key false (records1, dest) = (records2, dest2) →
            find_record_file records2 key = None) as Hgone.
  { intros dest records2 dest2 Hmove.
    apply move_files_live in Hmove as (_ & _ & _ & Hmoved).
    destruct (Hmoved (key +:+ ".json", File c)) as [Hnot _]; [ | done | ].
    - unfold glob. apply list_elem_of_filter. by split.
    - unfold find_record_file. destruct (exists_in _ records2) eqn:E; [ | done].
      by apply exists_in_keys in E. }
  assert (∃ b', process_key glob_match out_of_scope_name duplicates_name false
                  (key, (report, report_file_path)) b = Ok b' ∧
                find_record_file (records_files (files b')) key = None) as (b' & Hrun & Hnone).
  { unfold process_key. cbv zeta. rewrite Hfind. cbv beta iota.
    rewrite Hload, bind_Ok_l, Hst, bind_Ok_l. fold records1.
    destruct (should_move_out_of_scope report).
    - destruct (relocate glob_match key false (records1, out_of_scope_files (files b)))
        as [r o] eqn:Hmove.
      eexists. split; [reflexivity | ]. simpl. by eapply Hgone.
    - simpl in Hflag. rewrite Hflag.
      destruct (relocate glob_match key false (records1, duplicates_files (files b)))
        as [r d] eqn:Hmove.
      eexists. split; [reflexivity | ]. simpl. by eapply Hgone. }
  exists b'. eexists. split; [exact Hrun | ]. split; [exact Hnone | ].
  unfold process_key. rewrite Hnone. split; [reflexivity | ].
  simpl. do 3 (split; [done | ]). by eexists.
Qed.

End Dispositions.

Lemma duplicate_goes_to_duplicates_witness :
  ∃ b',
    process_key wildcard_match "Possible_Out_Of_Scope" "Possible_Duplicates" false
      ("1", (duplicate_report, "1-report.json")) sample_batch = Ok b' ∧
    moved_dup (counts b') = 1 ∧
    moved_out (counts b') = 0 ∧
    out_of_scope_files (files b') = None ∧
    map entry_actions (entries b')
    = [["Moved to Possible_Duplicates (duplicate by doi)"]].
Proof.
  destruct (duplicate_goes_to_duplicates wildcard_match "Possible_Out_Of_Scope"
              "Possible_Duplicates" false "1" duplicate_report "1-report.json"
              sample_batch "1.json"
              [("metadata", JDict [("title", JStr "Old")])]
              (RunState [("metadata", JDict [("title", JStr "Old")])] false [] [])
              ltac:(discriminate) eq_refl eq_refl eq_refl eq_refl)
    as (b' & Hrun & Hdup & Hout & Hfiles & _).
  exists b'. split; [exact Hrun | ]. split; [exact Hdup | ]. split; [exact Hout | ].
  split; [exact Hfiles | ].
  vm_compute in Hrun. injection Hrun as <-. reflexivity.
Defined.

Lemma unflagged_record_stays_witness :
  ∃ b',
    process_key wildcard_match "Possible_Out_Of_Scope" "Possible_Duplicates" false
      ("1", (title_report, "1-report.json")) sample_batch = Ok b' ∧
    out_of_scope_files (files b') = None ∧
    duplicates_files (files b') = None ∧
    dget "1.json" (records_files (files b'))
    = Some (File (Document [("metadata", JDict [("title", JStr "New")])])) ∧
    dget "1.pdf" (records_files (files b')) = Some (File NotJson).
Proof.
  destruct (unflagged_record_stays wildcard_match "Possible_Out_Of_Scope"
              "Possible_Duplicates" false "1" title_report "1-report.json"
              sample_batch "1.json"
              [("metadata", JDict [("title", JStr "Old")])]
              (RunState [("metadata", JDict [("title", JStr "New")])] true
                        ["Title corrected"] [])
              eq_refl eq_refl eq_refl eq_refl eq_refl)
    as (b' & Hrun & Hout & Hdup & _ & _ & _ & Hothers & Hrecord & _).
  exists b'. split; [exact Hrun | ]. split; [exact Hout | ]. split; [exact Hdup | ].
  split; [exact Hrecord | ].
  rewrite (Hothers "1.pdf"); [reflexivity | discriminate].
Defined.

Lemma relocated_record_is_missing_next_witness :
  ∃ b' b'',
    process_key wildcard_match "Possible_Out_Of_Scope" "Possible_Duplicates" false
      ("1", (flagged_report, "1-report.json")) sample_batch = Ok b' ∧
    process_key wildcard_match "Possible_Out_Of_Scope" "Possible_Duplicates" false
      ("1", (flagged_report, "1-report.json")) b' = Ok b'' ∧
    counts b'' = Stats 1 0 1 0 1.
Proof.
  destruct (relocated_record_is_missing_next wildcard_match "Possible_Out_Of_Scope"
              "Possible_Duplicates" "1" flagged_report "1-report.json"
              sample_batch "1.json"
              [("metadata", JDict [("title", JStr "Old")])]
              (RunState [("metadata", JDict [("title", JStr "Old")])] false [] [])
              eq_refl eq_refl eq_refl eq_refl eq_refl)
    as (b' & b'' & Hrun & _ & Hnext & _).
  exists b', b''. split; [exact Hrun | ]. split; [exact Hnext | ].
  vm_compute in Hrun. injection Hrun as <-.
  vm_compute in Hnext. injection Hnext as <-. reflexivity.
Defined.

(** ** The report map *)

Lemma add_report_get file report_map report_map' report :
  load_json file.2 = Ok (Some report) →
  report_key file.1 report ≠ "" →
  add_report file report_map = Ok report_map' →
  dget (report_key file.1 report) report_map' = Some (report, file.1).
Proof.
  intros Hload Hkey. unfold add_report. rewrite Hload, bind_Ok_l.
  destruct (String.eqb _ "") eqn:E; [by apply String.eqb_eq in E | ].
  intros [= <-]. apply dget_dset_eq.
Qed.

Lemma add_report_other file report_map report_map' key :
  add_report file report_map = Ok report_map' →
  (∀ report, load_json file.2 = Ok (Some report) → report_key file.1 report ≠ key) →
  dget key report_map' = dget key report_map.
Proof.
  unfold add_report. intros H Hother.
  destruct (load_json file.2) as [[report | ] | e]; [ | by injection H as <- | done].
  rewrite bind_Ok_l in H.
  destruct (String.eqb _ ""); injection H as <-; [done | ].
  apply dget_dset_ne. by apply Hother.
Qed.

Lemma report_map_other files report_map report_map' key :
  foldM add_report files report_map = Ok report_map' →
  Forall (λ file, ∀ report, load_json file.2 = Ok (Some report) →
                            report_key file.1 report ≠ key) files →
  dget key report_map' = dget key report_map.
Proof.
  revert report_map. induction files as [ | file files IH]; intros report_map H Hall.
  - by injection H as <-.
  - cbn [foldM] in H. apply bind_Ok in H as (m & Hm & H).
    apply Forall_cons in Hall as [Hfile Hall].
    rewrite (IH m H Hall). by eapply add_report_other.
Qed.

(** X9: when several report files give the same key, the report map holds
    the report that was read last for that key, with the path of its file:
    that report is the one applied to the record, and the earlier ones are
    dropped without a trace. *)
Theorem last_report_wins (earlier later : listing) (file : string * node)
    (report : dict) (report_map : list (string * (dict * string))) :
  load_json file.2 = Ok (Some report) →
  report_key file.1 report ≠ "" →
  Forall (λ f, ∀ r, load_json f.2 = Ok (Some r) →
                    report_key f.1 r ≠ report_key file.1 report) later →
  foldM add_report (earlier ++ file :: later) [] = Ok report_map →
  dget (report_key file.1 report) report_map = Some (report, file.1).
Proof.
  intros Hload Hkey Hlater H.
  rewrite foldM_app in H. apply bind_Ok in H as (m1 & _ & H).
  cbn [foldM] in H. apply bind_Ok in H as (m2 & Hfile & H).
  rewrite (report_map_other _ _ _ _ H Hlater).
  by eapply add_report_get.
Qed.

Lemma last_report_wins_witness :
  ∃ report_map,
    foldM add_report
      [("7-report.json", File (Document [("scope_ok", JBool false)]));
       ("other.json", File (Document [("record_id", JInt 7)]))] []
    = Ok report_map ∧
    dget "7" report_map = Some ([("record_id", JInt 7)], "other.json").
Proof.
  destruct (foldM add_report
              [("7-report.json", File (Document [("scope_ok", JBool false)]));
               ("other.json", File (Document [("record_id", JInt 7)]))] [])
    as [report_map | e] eqn:Hrun.
  - exists report_map. split; [reflexivity | ].
    exact (last_report_wins
             [("7-report.json", File (Document [("scope_ok", JBool false)]))] []
             ("other.json", File (Document [("record_id", JInt 7)]))
             [("record_id", JInt 7)] report_map
             eq_refl ltac:(discriminate) ltac:(constructor) Hrun).
  - vm_compute in Hrun. discriminate Hrun.
Defined.

(** ** Nothing is lost *)

Lemma remove_entry_NoDup name (dir : listing) :
  NoDup (map fst dir) → NoDup (map fst (remove_entry name dir)).
Proof.
  intros Hnd. eapply sublist_NoDup; [exact Hnd | ].
  apply (fmap_sublist fst). unfold remove_entry. apply sublist_filter.
Qed.

Lemma remove_entry_absent name (dir : listing) :
  name ∉ map fst dir → remove_entry name dir = dir.
Proof.
  unfold remove_entry. induction dir as [ | [k n] dir IH]; simpl; intros Hnot; [done | ].
  rewrite filter_cons. simpl. destruct (decide (k ≠ name)) as [Hk | Hk].
  - rewrite IH; [done | ]. intros Hin. apply Hnot. apply elem_of_cons. by right.
  - exfalso. apply Hnot. apply elem_of_cons. left. by destruct (decide (k = name)).
Qed.

Lemma remove_entry_length name (dir : listing) :
  NoDup (map fst dir) → name ∈ map fst dir →
  length (remove_entry name dir) + 1 = length dir.
Proof.
  induction dir as [ | [k n] dir IH]; simpl; intros Hnd Hin.
  - by apply elem_of_nil in Hin.
  - apply NoDup_cons in Hnd as [Hk Hnd]. unfold remove_entry in *.
    rewrite filter_cons. simpl. destruct (decide (k ≠ name)) as [Hne | Heq].
    + simpl. rewrite IH; [done | done | ].
      apply elem_of_cons in Hin as [Hin | Hin]; [by subst | done].
    + assert (k = name) as -> by by destruct (decide (k = name)).
      fold (remove_entry name dir). rewrite remove_entry_absent by done. lia.
Qed.

Lemma move_files_count dry_run srcs records dest :
  NoDup (map fst records) →
  NoDup (map fst srcs) →
  (∀ name, name ∈ map fst srcs → name ∈ map fst records) →
  let moved := move_files dry_run srcs (records, dest) in
  length moved.1 + length (default [] moved.2) = length records + length (default [] dest) ∧
  NoDup (map fst moved.1).
Proof.
  destruct dry_run.
  { intros Hnd _ _. rewrite move_files_dry. simpl. split; [ | done].
    by destruct (existsb _ srcs). }
  revert records dest.
  induction srcs as [ | [name [c | ]] srcs IH]; intros records dest Hnd Hsrcs Hin.
  - by split.
  - change (move_files false ((name, File c) :: srcs) (records, dest))
      with (move_files false srcs
              (remove_entry name records,
               Some (default [] dest ++ [(destination (default [] dest) name, File c)]))).
    simpl in Hsrcs. apply NoDup_cons in Hsrcs as [Hname Hsrcs].
    destruct (IH (remove_entry name records)
                (Some (default [] dest ++ [(destination (default [] dest) name, File c)])))
      as [Hlen Hnd'].
    + by apply remove_entry_NoDup.
    + done.
    + intros k Hk. assert (k ∈ map fst records) as Hr.
      { apply Hin. simpl. apply elem_of_cons. by right. }
      apply list_elem_of_fmap in Hr as (e & -> & He).
      apply list_elem_of_fmap. exists e. split; [done | ].
      apply elem_of_remove_entry. split; [done | ]. intros Heq. apply Hname. by rewrite <- Heq.
    + split; [ | done]. rewrite Hlen. simpl. rewrite length_app. simpl.
      pose proof (remove_entry_length name records Hnd) as Hrm.
      rewrite <- Hrm; [lia | ]. apply Hin. simpl. apply elem_of_cons. by left.
  - change (move_files false ((name, Folder) :: srcs) (records, dest))
      with (move_files false srcs (records, dest)).
    simpl in Hsrcs. apply NoDup_cons in Hsrcs as [_ Hsrcs]. apply IH; [done | done | ].
    intros k Hk. apply Hin. simpl. apply elem_of_cons. by right.
Qed.

Section Conservation.
Variable glob_match : string → string → bool.
Variables out_of_scope_name duplicates_name : string.

Lemma relocate_count key dry_run records dest records' dest' :
  NoDup (map fst records) →
  relocate glob_match key dry_run (records, dest) = (records', dest') →
  length records' + length (default [] dest') = length records + length (default [] dest) ∧
  NoDup (map fst records').
Proof.
  intros Hnd H. unfold relocate in H. simpl in H.
  pose proof (move_files_count dry_run (glob glob_match (key +:+ ".*") records)
                records dest Hnd) as Hcount.
  simpl in Hcount. rewrite H in Hcount. apply Hcount.
  - eapply sublist_NoDup; [exact Hnd | ]. apply (fmap_sublist fst). apply sublist_filter.
  - intros name Hin. apply list_elem_of_fmap in Hin as (e & -> & He).
    apply list_elem_of_filter in He as [_ He]. apply list_elem_of_fmap. by exists e.
Qed.

Lemma save_json_length path data dry_run (dir : listing) :
  exists_in path dir = true →
  length (save_json path data dry_run dir) = length dir.
Proof.
  intros Hin. rewrite <- (length_map fst), save_json_names by done. apply length_map.
Qed.

Lemma process_key_count dry_run item b b' :
  NoDup (map fst (records_files (files b))) →
  process_key glob_match out_of_scope_name duplicates_name dry_run item b = Ok b' →
  entry_count (files b') = entry_count (files b) ∧
  NoDup (map fst (records_files (files b'))).
Proof.
  intros Hnd. destruct item as [key [report report_file_path]].
  unfold process_key, find_record_file. cbv zeta.
  destruct (exists_in (key +:+ ".json") (records_files (files b))) eqn:Hex; cbv beta iota.
  2: { by intros [= <-]. }
  destruct (load_json _) as [[rec | ] | e]; [rewrite bind_Ok_l | rewrite bind_Ok_l | done].
  2: { by intros [= <-]. }
  destruct (apply_corrections rec report) as [st | e]; [rewrite bind_Ok_l | done].
  set (records1 := if changed st then _ else _).
  assert (length records1 = length (records_files (files b)) ∧ NoDup (map fst records1))
    as [Hlen1 Hnd1].
  { unfold records1. destruct (changed st); [ | done].
    by rewrite save_json_length, save_json_names. }
  unfold entry_count.
  destruct (should_move_out_of_scope report); [ | destruct (should_move_duplicate report)].
  - destruct (relocate glob_match key dry_run (records1, out_of_scope_files (files b)))
      as [r o] eqn:Hmove.
    apply relocate_count in Hmove as [Hlen Hnd2]; [ | done].
    intros [= <-]. simpl. split; [lia | done].
  - destruct (relocate glob_match key dry_run (records1, duplicates_files (files b)))
      as [r d] eqn:Hmove.
    apply relocate_count in Hmove as [Hlen Hnd2]; [ | done].
    intros [= <-]. simpl. split; [lia | done].
  - intros [= <-]. simpl. split; [lia | done].
Qed.

(** X10: a run neither loses nor duplicates a file: when the names of the
    records directory are distinct, as those of a directory are, the records
    directory and the two quarantine directories hold together as many
    entries after the run as before, and the names of the records directory
    are still distinct. *)
Theorem process_conserves_files dry_run (fs fs' : filesystem) :
  NoDup (map fst (records_files fs)) →
  process glob_match out_of_scope_name duplicates_name dry_run fs = Ok fs' →
  entry_count fs' = entry_count fs ∧ NoDup (map fst (records_files fs')).
Proof.
  intros Hnd. unfold process.
  destruct (glob glob_match "*.json" (qa_files fs)) as [ | file report_files].
  - by intros [= <-].
  - intros H. apply bind_Ok in H as (report_map & _ & H).
    apply bind_Ok in H as (b & Hb & H). apply bind_Ok in H as (written & Hwritten & H).
  apply render_markdown_Ok in Hwritten as ->. injection H as <-.
    assert (∀ items b0 b1,
              NoDup (map fst (records_files (files b0))) →
              foldM (process_key glob_match out_of_scope_name duplicates_name dry_run)
                items b0 = Ok b1 →
              entry_count (files b1) = entry_count (files b0) ∧
              NoDup (map fst (records_files (files b1)))) as Hfold.
    { induction items as [ | item items IH]; intros b0 b1 Hnd0 H0.
      - by injection H0 as <-.
      - cbn [foldM] in H0. apply bind_Ok in H0 as (b2 & H2 & H0).
        apply process_key_count in H2 as [Hc2 Hnd2]; [ | done].
        destruct (IH b2 b1 Hnd2 H0) as [Hc1 Hnd1]. split; [congruence | done]. }
    destruct (Hfold report_map (Batch fs (Stats 0 0 0 0 0) []) b Hnd Hb) as [Hc Hnd'].
    split; [exact Hc | exact Hnd'].
Qed.

End Conservation.

Lemma process_conserves_files_witness :
  ∃ fs', process wildcard_match "Possible_Out_Of_Scope" "Possible_Duplicates" false
           sample_filesystem = Ok fs' ∧
         entry_count fs' = 3 ∧
         length (records_files fs') = 1.
Proof.
  destruct (process wildcard_match "Possible_Out_Of_Scope" "Possible_Duplicates" false
              sample_filesystem) as [fs' | e] eqn:Hrun.
  - exists fs'. split; [reflexivity | ].
    destruct (process_conserves_files wildcard_match "Possible_Out_Of_Scope"
                "Possible_Duplicates" false sample_filesystem fs') as [Hcount _].
    + apply (bool_decide_unpack _). vm_compute. exact I.
    + exact Hrun.
    + split; [exact Hcount | ]. vm_compute in Hrun. injection Hrun as <-. reflexivity.
  - vm_compute in Hrun. discriminate Hrun.
Defined.

(** ** The ledger of the orchestrator *)

Lemma logs_trans l1 n1 l2 n2 st1 st2 st3 :
  logs l1 n1 st1 st2 → logs l2 n2 st2 st3 → logs (l1 ++ l2) (n1 ++ n2) st1 st3.
Proof.
  intros (a1 & m1 & Ha1 & Hm1 & Hs1 & Ht1 & Hc1) (a2 & m2 & Ha2 & Hm2 & Hs2 & Ht2 & Hc2).
  exists (a1 ++ a2), (m1 ++ m2).
  split; [by rewrite Ha2, Ha1, app_assoc | ].
  split; [by rewrite Hm2, Hm1, app_assoc | ].
  split; [by apply sublist_app | ]. split; [by apply sublist_app | ].
  rewrite Hc2, Hc1. destruct (changed st1), a1, a2; done.
Qed.

Lemma staged_logs {X} p (applier : dict → json → result (X * dict)) is_change label
    quiet_notes notes st st' :
  staged p applier is_change label quiet_notes st = Ok st' →
  (∀ skipped, p = Skip skipped → skipped `sublist_of` notes) →
  quiet_notes `sublist_of` notes →
  (logs [] notes st st') ∨
  (∃ x, is_change x = true ∧ logs [label x] notes st st').
Proof.
  intros H Hskip Hquiet. unfold staged in H. destruct p as [skipped | payload | e]; [ | | done].
  - injection H as <-. left. exists [], skipped. simpl.
    rewrite app_nil_r, orb_false_r. repeat split; try done. by apply Hskip.
  - apply bind_Ok in H as ([x r] & _ & H). destruct (is_change x) eqn:E.
    + injection H as <-. right. exists x. split; [done | ].
      exists [label x], []. simpl. rewrite app_nil_r, orb_true_r.
      repeat split; try done. apply sublist_nil_l.
    + injection H as <-. left. exists [], quiet_notes. simpl.
      rewrite app_nil_r, orb_false_r. by repeat split.
Qed.

Lemma logs_weaken l l' n n' st st' :
  l `sublist_of` l' → n `sublist_of` n' → logs l n st st' → logs l' n' st st'.
Proof.
  intros Hl Hn (a & m & Ha & Hm & Hs & Ht & Hc). exists a, m.
  repeat split; try done; by etrans.
Qed.

Lemma gated_stage_logs key flag action note applier report corrections st st' :
  gated_stage key flag action note applier report corrections st = Ok st' →
  logs [action] [note] st st'.
Proof.
  rewrite gated_stage_staged. intros H.
  apply (staged_logs _ _ _ _ _ [note]) in H as [H | (x & _ & H)].
  - eapply logs_weaken; [ | | exact H]; [apply sublist_nil_l | done].
  - done.
  - intros skipped. unfold gated_plan.
    destruct (py_contains key corrections) as [[ | ] | e]; [ | | done].
    + destruct (gate report flag).
      * by destruct (py_get corrections key JNull).
      * by intros [= <-].
    + intros [= <-]. apply sublist_nil_l.
  - apply sublist_nil_l.
Qed.

Lemma counted_stage_logs {X} p (applier : dict → json → result (X * dict))
    (label : nat → string) (count : X → nat) quiet_notes notes st st' :
  staged p applier (λ x, Nat.ltb 0 (count x)) (λ x, label (count x)) quiet_notes st
  = Ok st' →
  (∀ skipped, p = Skip skipped → skipped `sublist_of` notes) →
  quiet_notes `sublist_of` notes →
  ∃ n, (0 < n)%nat ∧ logs [label n] notes st st'.
Proof.
  intros H Hskip Hquiet.
  apply (staged_logs _ _ _ _ _ notes) in H as [H | (x & Hx & H)]; try done.
  - exists 1. split; [lia | ]. eapply logs_weaken; [ | | exact H]; [apply sublist_nil_l | done].
  - exists (count x). split; [by apply Nat.ltb_lt in Hx | done].
Qed.

Lemma affiliation_stage_logs report st st' :
  affiliation_stage report st = Ok st' →
  ∃ n, (0 < n)%nat ∧
       logs [counted "Affiliations corrected" n] [no_matches_note; gate_note] st st'.
Proof.
  rewrite affiliation_stage_staged. intros H.
  apply (counted_stage_logs _ _ (counted "Affiliations corrected") id _
           [no_matches_note; gate_note]) in H; [done | | ].
  - intros skipped. unfold affiliation_plan. destruct (gate report _); [done | ].
    destruct (py_truthy _); intros [= <-]; [ | apply sublist_nil_l].
    apply sublist_cons. done.
  - destruct (py_truthy _); [ | apply sublist_nil_l]. by apply sublist_skip, sublist_nil_l.
Qed.

Lemma org_author_stage_logs report st st' :
  org_author_stage report st = Ok st' →
  ∃ n, (0 < n)%nat ∧
       logs [counted "Organizational authors corrected" n]
            ["Organizational author corrections present but no matches found"] st st'.
Proof.
  rewrite org_author_stage_staged. intros H.
  apply (counted_stage_logs _ _ (counted "Organizational authors corrected") id _
           ["Organizational author corrections present but no matches found"]) in H;
    [done | | done].
  intros skipped. unfold org_author_plan. destruct (py_truthy _); [done | ].
  intros [= <-]. apply sublist_nil_l.
Qed.

Lemma related_stage_logs corrections st st' :
  related_stage corrections st = Ok st' →
  ∃ n, (0 < n)%nat ∧ logs [counted "Related identifiers added" n] [] st st'.
Proof.
  rewrite related_stage_staged. intros H.
  apply (counted_stage_logs _ _ (counted "Related identifiers added") id _ []) in H;
    [done | | done].
  intros skipped. unfold related_plan. destruct (py_truthy _); [done | ].
  by intros [= <-].
Qed.

(** X11: the ledger of [apply_corrections]: the actions it returns are a
    selection, in source order, of the seven actions it can log (each at
    most once, the three counted ones with a positive count), the notes are
    a selection of the seven notes it can leave, and [changed] is true
    exactly when there is an action. *)
Theorem apply_corrections_ledger (record0 : dict) (report : dict) (st : run_state) :
  apply_corrections record0 report = Ok st →
  (changed st = true ↔ actions st ≠ []) ∧
  unapplied st `sublist_of` unapplied_notes ∧
  ∃ affiliations org_authors related,
    (0 < affiliations ∧ 0 < org_authors ∧ 0 < related)%nat ∧
    actions st `sublist_of` action_labels affiliations org_authors related.
Proof.
  unfold apply_corrections, run_corrections, stages_before_related. intros H.
  apply bind_Ok in H as (s6 & H & H7).
  apply bind_Ok in H as (s1 & H1 & H). apply bind_Ok in H as (s2 & H2 & H).
  apply bind_Ok in H as (s3 & H3 & H). apply bind_Ok in H as (s4 & H4 & H).
  apply bind_Ok in H as (s5 & H5 & H6).
  apply gated_stage_logs in H1, H2, H3, H4.
  apply affiliation_stage_logs in H5 as (n & Hn & H5).
  apply org_author_stage_logs in H6 as (m & Hm & H6).
  apply related_stage_logs in H7 as (k & Hk & H7).
  pose proof (logs_trans _ _ _ _ _ _ _ H1
               (logs_trans _ _ _ _ _ _ _ H2
                 (logs_trans _ _ _ _ _ _ _ H3
                   (logs_trans _ _ _ _ _ _ _ H4
                     (logs_trans _ _ _ _ _ _ _ H5
                       (logs_trans _ _ _ _ _ _ _ H6 H7))))))
    as (acts & more & Ha & Hmore & Hacts & Hnotes & Hc).
  simpl in Ha, Hmore, Hc. subst acts more. split; [ | split].
  - rewrite Hc. by destruct (actions st).
  - exact Hnotes.
  - exists n, m, k. split; [done | exact Hacts].
Qed.

Lemma apply_corrections_ledger_witness :
  ∃ st, apply_corrections sample_full_record sample_full_report = Ok st ∧
        changed st = true ∧
        actions st `sublist_of` action_labels 3 1 1.
Proof.
  destruct (apply_corrections sample_full_record sample_full_report) as [st | e] eqn:Hrun.
  - exists st. split; [reflexivity | ].
    destruct (apply_corrections_ledger _ _ _ Hrun) as (Hchanged & _ & _).
    split.
    + apply Hchanged. vm_compute in Hrun. injection Hrun as <-. discriminate.
    + vm_compute in Hrun. injection Hrun as <-.
      apply sublist_skip, sublist_cons, sublist_cons, sublist_skip.
      do 3 apply sublist_skip. apply sublist_nil.
  - vm_compute in Hrun. discriminate Hrun.
Defined.

(** ** Reports that ask for nothing, or whose gates are closed *)

Lemma gated_stage_absent key flag action note applier report c st :
  dget key c = None →
  gated_stage key flag action note applier report (JDict c) st = Ok st.
Proof. intros H. unfold gated_stage. simpl. by rewrite H. Qed.

Lemma gated_stage_closed key flag action note applier report c st :
  gate report flag = false →
  gated_stage key flag action note applier report (JDict c) st
  = Ok (add_notes (present_note key note c) st).
Proof.
  intros Hgate. unfold gated_stage, present_note. simpl.
  destruct (bool_decide (is_Some (dget key c))).
  - by rewrite Hgate.
  - by rewrite add_notes_nil.
Qed.

(** X12: a report that has no corrections, no affiliation corrections and no
    organisational-author corrections (the keys are missing, or their values
    are empty) changes nothing, whatever its flags are: the record is
    returned as it was, with no action and no note. *)
Theorem apply_corrections_nothing_to_do (record0 : dict) (report : dict) :
  py_truthy (dget_default "corrections" (JDict []) report) = false →
  py_truthy (dget_default "affiliation_corrections" (JList []) report) = false →
  py_truthy (dget_default "organizational_author_corrections" (JList []) report) = false →
  apply_corrections record0 report = Ok (RunState record0 false [] []).
Proof.
  intros Hc Ha Ho.
  unfold apply_corrections, run_corrections, stages_before_related, corrections_of, py_or.
  rewrite Hc.
  unfold title_stage, abstract_stage, date_stage, descriptor_stage.
  rewrite !gated_stage_absent, !bind_Ok_l by done.
  unfold affiliation_stage, org_author_stage, py_or. rewrite Ha, Ho. simpl.
  by destruct (gate report "affiliation_correction_recommended").
Qed.

Lemma apply_corrections_nothing_to_do_witness :
  apply_corrections sample_full_record
    [("corrections", JNull); ("title_corrected", JBool true); ("scope_ok", JBool false)]
  = Ok (RunState sample_full_record false [] []).
Proof.
  exact (apply_corrections_nothing_to_do sample_full_record
           [("corrections", JNull); ("title_corrected", JBool true);
            ("scope_ok", JBool false)] eq_refl eq_refl eq_refl).
Defined.

(** X13: when the five gate flags of a report are all false, the title, the
    abstract, the publication date, the descriptors and the affiliations are
    left alone and a note is left for each of these corrections that is
    present; the organisational-author corrections and the related
    identifiers, which no flag guards, are applied all the same. *)
Theorem apply_corrections_closed_gates (record0 : dict) (report : dict) (c : dict) :
  corrections_of report = JDict c →
  gate report "title_corrected" = false →
  gate report "abstract_corrected" = false →
  gate report "date_corrected" = false →
  gate report "descriptor_corrected" = false →
  gate report "affiliation_correction_recommended" = false →
  apply_corrections record0 report
  = (st ← org_author_stage report (RunState record0 false [] (withheld_notes report c));
     related_stage (JDict c) st) ∧
  (py_truthy (org_author_payload report) = false →
   py_truthy (related_payload (JDict c)) = false →
   apply_corrections record0 report
   = Ok (RunState record0 false [] (withheld_notes report c))).
Proof.
  intros Hc Ht Ha Hd Hdesc Haff.
  assert (apply_corrections record0 report
          = (st ← org_author_stage report
                    (RunState record0 false [] (withheld_notes report c));
             related_stage (JDict c) st)) as Hrun.
  { unfold apply_corrections, run_corrections, stages_before_related. rewrite Hc.
    unfold title_stage, abstract_stage, date_stage, descriptor_stage.
    rewrite (gated_stage_closed _ _ _ _ _ _ _ _ Ht), bind_Ok_l.
    rewrite (gated_stage_closed _ _ _ _ _ _ _ _ Ha), bind_Ok_l.
    rewrite (gated_stage_closed _ _ _ _ _ _ _ _ Hd), bind_Ok_l.
    rewrite (gated_stage_closed _ _ _ _ _ _ _ _ Hdesc), bind_Ok_l.
    unfold affiliation_stage. rewrite Haff. fold (affiliation_payload report).
    unfold withheld_notes, add_notes, withheld. simpl.
    destruct (py_truthy (affiliation_payload report)); rewrite bind_Ok_l.
    - by rewrite <- !app_assoc.
    - by rewrite app_nil_r, <- !app_assoc. }
  split; [exact Hrun | ].
  intros Horg Hrel. rewrite Hrun. unfold org_author_stage.
  fold (org_author_payload report). rewrite Horg, bind_Ok_l.
  unfold related_stage. by rewrite Hrel.
Qed.

Lemma apply_corrections_closed_gates_witness :
  ∃ st, apply_corrections sample_full_record closed_report = Ok st ∧
        actions st = ["Organizational authors corrected (1)"] ∧
        unapplied st = ["Title correction present but title_corrected=false"] ∧
        metadata_field "title" (record st) = Some (JStr "Old").
Proof.
  destruct (apply_corrections_closed_gates sample_full_record closed_report
              [("title", JStr "New")] eq_refl eq_refl eq_refl eq_refl eq_refl eq_refl)
    as [Hrun _].
  rewrite Hrun. eexists. split; [vm_compute; reflexivity | ]. by repeat split.
Defined.

(** X14: a [corrections] value that is not a mapping is never applied.  A
    number or [true] makes [apply_corrections] raise [TypeError]; with any
    other value that is not a mapping a run that returns has gone through
    the affiliation and organisational-author corrections only: no title,
    abstract, date, descriptor or related identifier is taken from it. *)
Theorem apply_corrections_not_a_mapping (record0 : dict) (report : dict) :
  (∀ c, corrections_of report ≠ JDict c) →
  ((∃ n, corrections_of report = JInt n) ∨ (∃ b, corrections_of report = JBool b) →
   apply_corrections record0 report = Raise TypeError) ∧
  (∀ st, apply_corrections record0 report = Ok st →
         ∃ notes,
           (st1 ← affiliation_stage report (RunState record0 false [] notes);
            org_author_stage report st1) = Ok st).
Proof.
  intros Hnot. split.
  - intros [[n Hn] | [b Hb]]; unfold apply_corrections, run_corrections,
      stages_before_related; [rewrite Hn | rewrite Hb]; reflexivity.
  - intros st H. unfold apply_corrections, run_corrections, stages_before_related in H.
    assert (∀ key flag action note applier s s',
              gated_stage key flag action note applier report (corrections_of report) s
              = Ok s' →
              ∃ notes, s' = add_notes notes s) as Hgated.
    { intros key flag action note applier s s'. unfold gated_stage.
      destruct (corrections_of report) as [ | b | n | t | l | c]; try done.
      - simpl. destruct (substring_of key t); [ | intros [= <-]; exists []; by rewrite add_notes_nil].
        destruct (gate report flag); [done | ]. intros [= <-]. by exists [note].
      - simpl. destruct (existsb _ l); [ | intros [= <-]; exists []; by rewrite add_notes_nil].
        destruct (gate report flag); [done | ]. intros [= <-]. by exists [note].
      - by specialize (Hnot c). }
    apply bind_Ok in H as (s6 & H & H7).
    apply bind_Ok in H as (s1 & H1 & H). apply bind_Ok in H as (s2 & H2 & H).
    apply bind_Ok in H as (s3 & H3 & H). apply bind_Ok in H as (s4 & H4 & H).
    apply Hgated in H1 as [n1 ->]. apply Hgated in H2 as [n2 ->].
    apply Hgated in H3 as [n3 ->]. apply Hgated in H4 as [n4 ->].
    assert (related_payload (corrections_of report) = JNull) as Hrel.
    { destruct (corrections_of report) as [ | b | n | t | l | c]; try done.
      by specialize (Hnot c). }
    unfold related_stage in H7. rewrite Hrel in H7. simpl in H7. injection H7 as <-.
    exists (((n1 ++ n2) ++ n3) ++ n4). exact H.
Qed.

Lemma apply_corrections_not_a_mapping_witness :
  apply_corrections sample_full_record [("corrections", JInt 1)] = Raise TypeError ∧
  apply_corrections sample_full_record [("corrections", JStr "see the title field")]
  = Raise AttributeError ∧
  apply_corrections sample_full_record
    [("corrections", JStr "see the title field"); ("title_corrected", JBool false)]
  = Ok (RunState sample_full_record false []
          ["Title correction present but title_corrected=false"]).
Proof.
  destruct (apply_corrections_not_a_mapping sample_full_record [("corrections", JInt 1)])
    as [Hraise _]; [discriminate | ].
  split; [apply Hraise; left; by exists 1%Z | ].
  split; reflexivity.
Defined.

(** ** Corrections are applied one after the other *)

Lemma with_creators_again c1 c2 record :
  with_creators c2 (with_creators c1 record) = with_creators c2 record.
Proof.
  unfold with_creators. destruct (dget "metadata" record) as [[ | | | | | md] | ] eqn:E;
    rewrite ?E; try done.
  by rewrite dget_dset_eq, dreplace_dreplace, dset_dset.
Qed.

Section Composition.
Variables (old_key new_key : string).
Variable body : json → json → json → result (json * nat).

Lemma passes_shift items creators n :
  foldM (correction_pass old_key new_key body) items (creators, n)
  = '(creators', k) ← foldM (correction_pass old_key new_key body) items (creators, 0);
    Ok (creators', n + k).
Proof.
  revert creators n. induction items as [ | c items IH]; intros creators n.
  - simpl. by rewrite Nat.add_0_r.
  - cbn [foldM]. rewrite !correction_pass_spec.
    destruct c as [ | b | m | s | l | d]; try done.
    destruct (pair_of old_key new_key (JDict d)) as [[old_value new_value] | ].
    + destruct (for_in (body old_value new_value) creators) as [[cr k] | e]; [ | done].
      rewrite !bind_Ok_l. rewrite (IH cr (n + k)), (IH cr (0 + k)).
      destruct (foldM _ items (cr, 0)) as [[cr' k'] | e]; [ | done].
      rewrite !bind_Ok_l. simpl. f_equal. f_equal. lia.
    + rewrite !bind_Ok_l. apply IH.
Qed.

Lemma apply_pairs_compose record c cs :
  apply_pairs old_key new_key body record (JList (c :: cs))
  = '(n1, r1) ← apply_pairs old_key new_key body record (JList [c]);
    '(n2, r2) ← apply_pairs old_key new_key body r1 (JList cs);
    Ok (n1 + n2, r2).
Proof.
  destruct (metadata_ok_dec record) as [Hok | Hnot].
  2: { unfold apply_pairs. simpl. pose proof (metadata_not_ok _ Hnot) as Hmd.
       destruct (dget_default "metadata" (JDict []) record) as [ | | | | | md]; try done.
       by specialize (Hmd md). }
  rewrite !apply_pairs_truthy by done. simpl py_iter. rewrite !bind_Ok_l. cbn [foldM].
  destruct (correction_pass old_key new_key body c (creators_value record, 0))
    as [[cr1 n1] | e] eqn:Hfirst; [ | done].
  rewrite !bind_Ok_l.
  assert (creators_value (with_creators cr1 record) = cr1 ∧
          metadata_ok (with_creators cr1 record)) as [Hval Hok1].
  { apply (creators_value_with_creators old_key new_key body record [c] 0 cr1 n1 Hok).
    cbn [foldM]. by rewrite Hfirst. }
  destruct cs as [ | c' cs].
  - simpl. by rewrite Nat.add_0_r.
  - rewrite apply_pairs_truthy by done. simpl py_iter. rewrite !bind_Ok_l.
    rewrite Hval. rewrite (passes_shift (c' :: cs) cr1 n1).
    destruct (foldM _ (c' :: cs) (cr1, 0)) as [[cr2 n2] | e]; [ | done].
    rewrite !bind_Ok_l. simpl. by rewrite with_creators_again.
Qed.

End Composition.

(** X15: a list of affiliation corrections, or of organisational-author
    corrections, is applied one correction after the other, each to the
    record that the one before has left, and the counts add up; an exception
    of one of them is the exception of the whole. *)
Theorem corrections_apply_in_sequence (record0 : dict) (c : json) (cs : list json) :
  apply_affiliations record0 (JList (c :: cs))
  = ('(n1, r1) ← apply_affiliations record0 (JList [c]);
     '(n2, r2) ← apply_affiliations r1 (JList cs);
     Ok (n1 + n2, r2)) ∧
  apply_org_authors record0 (JList (c :: cs))
  = ('(n1, r1) ← apply_org_authors record0 (JList [c]);
     '(n2, r2) ← apply_org_authors r1 (JList cs);
     Ok (n1 + n2, r2)).
Proof.
  rewrite apply_affiliations_pairs, apply_org_authors_pairs.
  split; apply apply_pairs_compose.
Qed.

Lemma corrections_apply_in_sequence_witness :
  ∃ r, apply_affiliations sample_full_record
         (JList [affiliation_pair "A" "B"; affiliation_pair "B" "C"]) = Ok (3, r).
Proof.
  destruct (corrections_apply_in_sequence sample_full_record (affiliation_pair "A" "B")
              [affiliation_pair "B" "C"]) as [Hseq _].
  rewrite Hseq. eexists. vm_compute. reflexivity.
Defined.

(** ** One correction, on creators of the data model *)

Lemma for_each_map {A} (f : A → result (A * nat)) (g : A → A) (k : A → nat) l :
  Forall (λ x, f x = Ok (g x, k x)) l →
  for_each f l = Ok (map g l, sum_list (map k l)).
Proof.
  induction 1 as [ | x l Hx _ IH]; [done | ].
  cbn [for_each]. rewrite Hx, bind_Ok_l, IH. reflexivity.
Qed.

Lemma rewrite_affiliation_shape old_aff new_aff a :
  (∃ ad, a = JDict ad) →
  rewrite_affiliation old_aff new_aff a
  = Ok (renamed_affiliation old_aff new_aff a,
        if py_eq (affiliation_name a) old_aff then 1 else 0).
Proof.
  intros [ad ->]. unfold rewrite_affiliation, renamed_affiliation. simpl.
  by destruct (py_eq _ old_aff).
Qed.

Lemma length_filter_sum {A} (p : A → bool) (l : list A) :
  length (filter (λ x, p x = true) l) = sum_list (map (λ x, if p x then 1 else 0) l).
Proof.
  induction l as [ | x l IH]; [done | ].
  rewrite filter_cons. destruct (decide (p x = true)) as [E | E]; simpl.
  - by rewrite E, IH.
  - apply not_true_is_false in E. by rewrite E, IH.
Qed.

Lemma creator_affiliations_shape old_aff new_aff c :
  creator_shape c →
  creator_affiliations old_aff new_aff c
  = Ok (renamed_affiliations old_aff new_aff c, affiliation_hits old_aff c).
Proof.
  intros (d & -> & Haff & _). unfold creator_affiliations, renamed_affiliations.
  unfold affiliation_hits, affiliation_list, dget_default, dreplace.
  destruct (dget "affiliations" d) as [[ | | | | l | ] | ] eqn:E; try done.
  unfold for_in.
  rewrite (for_each_map _ (renamed_affiliation old_aff new_aff)
             (λ a, if py_eq (affiliation_name a) old_aff then 1 else 0)).
  - rewrite !bind_Ok_l. by rewrite length_filter_sum.
  - eapply Forall_impl; [exact Haff | ]. intros a Ha. by apply rewrite_affiliation_shape.
Qed.

Lemma creator_org_author_shape old_org new_org c :
  creator_shape c →
  creator_org_author old_org new_org c
  = Ok (renamed_org_author old_org new_org c,
        if org_author_named old_org c then 1 else 0).
Proof.
  intros (d & -> & _ & Horg). unfold creator_org_author, renamed_org_author.
  unfold org_author_named, dget_default, dreplace.
  destruct (dget "person_or_org" d) as [[ | | | | | p] | ] eqn:E; try done.
  by destruct (py_eq _ _ && py_eq _ _).
Qed.

Section OnePair.
Variables (old_key new_key : string).
Variable body : json → json → json → result (json * nat).
Variables (rename : json → json → json → json) (hits : json → json → nat).

Hypothesis body_shape : ∀ old_value new_value c,
  creator_shape c →
  body old_value new_value c = Ok (rename old_value new_value c, hits old_value c).

Lemma apply_pairs_one record correction old_value new_value cs :
  metadata_field "creators" record = Some (JList cs) →
  Forall creator_shape cs →
  pair_of old_key new_key correction = Some (old_value, new_value) →
  apply_pairs old_key new_key body record (JList [correction])
  = Ok (sum_list (map (hits old_value) cs),
        set_metadata_field "creators" (JList (map (rename old_value new_value) cs)) record).
Proof.
  intros Hcs Hshape Hpair.
  assert (metadata_ok record) as Hok.
  { unfold metadata_field, metadata_of, metadata_ok in *.
    by destruct (dget "metadata" record) as [[ | | | | | md] | ]. }
  rewrite apply_pairs_truthy by done. simpl py_iter. rewrite bind_Ok_l. cbn [foldM].
  rewrite correction_pass_spec.
  destruct (pair_of_dict _ _ _ _ Hpair) as [d ->]. rewrite Hpair.
  unfold creators_value. rewrite Hcs. simpl default. unfold for_in.
  rewrite (for_each_map _ (rename old_value new_value) (hits old_value)).
  - rewrite !bind_Ok_l. simpl. rewrite with_creators_touch by done. by rewrite Hcs.
  - eapply Forall_impl; [exact Hshape | ]. intros c Hc. by apply body_shape.
Qed.

End OnePair.

(** X16: on creators of the data model, one affiliation correction renames
    exactly the affiliations whose name equals the old value (as [==]
    compares: letter case counts), in place and in every creator, leaves
    everything else of the record as it was, raises nothing, and returns the
    number of affiliations it has renamed. *)
Theorem affiliation_correction_renames (record0 : dict) (correction : json)
    (old_aff new_aff : json) (cs : list json) :
  metadata_field "creators" record0 = Some (JList cs) →
  Forall creator_shape cs →
  pair_of "old_affiliation" "recommended_affiliation" correction = Some (old_aff, new_aff) →
  apply_affiliations record0 (JList [correction])
  = Ok (matching_affiliations old_aff cs,
        set_metadata_field "creators"
          (JList (map (renamed_affiliations old_aff new_aff) cs)) record0).
Proof.
  intros Hcs Hshape Hpair. rewrite apply_affiliations_pairs.
  apply (apply_pairs_one _ _ _ renamed_affiliations affiliation_hits); try done.
  intros old_value new_value c Hc. by apply creator_affiliations_shape.
Qed.

(** X17: on creators of the data model, one organisational-author
    correction renames exactly the creators whose type is [organizational]
    and whose name equals the old value: a creator of another type is never
    renamed, whatever its name; everything else of the record stays as it
    was, nothing is raised, and the result is the number of creators
    renamed. *)
Theorem org_author_correction_renames (record0 : dict) (correction : json)
    (old_org new_org : json) (cs : list json) :
  metadata_field "creators" record0 = Some (JList cs) →
  Forall creator_shape cs →
  pair_of "old_organizational_author" "recommended_organizational_author" correction
  = Some (old_org, new_org) →
  apply_org_authors record0 (JList [correction])
  = Ok (length (filter (λ c, org_author_named old_org c = true) cs),
        set_metadata_field "creators"
          (JList (map (renamed_org_author old_org new_org) cs)) record0) ∧
  Forall (λ c, org_author_named old_org c = false →
               renamed_org_author old_org new_org c = c) cs.
Proof.
  intros Hcs Hshape Hpair. split.
  - rewrite apply_org_authors_pairs, length_filter_sum.
    apply (apply_pairs_one _ _ _ renamed_org_author
             (λ old_value c, if org_author_named old_value c then 1 else 0)); try done.
    intros old_value new_value c Hc. by apply creator_org_author_shape.
  - apply Forall_forall. intros c _ Hno. unfold renamed_org_author.
    destruct c as [ | | | | | d]; try done.
    destruct (dget "person_or_org" d) as [[ | | | | | p] | ] eqn:E; try done.
    by rewrite Hno.
Qed.

Lemma mixed_creators_shape : Forall creator_shape mixed_creators.
Proof.
  repeat constructor.
  - eexists. split; [reflexivity | ]. split; [ | done]. simpl.
    repeat constructor; by eexists.
  - eexists. split; [reflexivity | ]. split; [ | done]. simpl.
    repeat constructor; by eexists.
Defined.

Lemma affiliation_correction_renames_witness :
  apply_affiliations mixed_creators_record (JList [affiliation_pair "A" "Z"])
  = Ok (2, [("metadata",
             JDict [("title", JStr "Old");
                    ("creators",
                     JList [creator "personal" "IAEA" ["Z"];
                            creator "organizational" "IAEA" ["Z"; "a"]])])]).
Proof.
  exact (affiliation_correction_renames mixed_creators_record (affiliation_pair "A" "Z")
           (JStr "A") (JStr "Z") mixed_creators eq_refl mixed_creators_shape eq_refl).
Defined.

Lemma org_author_correction_renames_witness :
  apply_org_authors mixed_creators_record (JList [org_author_pair "IAEA" "I.A.E.A."])
  = Ok (1, [("metadata",
             JDict [("title", JStr "Old");
                    ("creators",
                     JList [creator "personal" "IAEA" ["A"];
                            creator "organizational" "I.A.E.A." ["A"; "a"]])])]).
Proof.
  destruct (org_author_correction_renames mixed_creators_record
              (org_author_pair "IAEA" "I.A.E.A.") (JStr "IAEA") (JStr "I.A.E.A.")
              mixed_creators eq_refl mixed_creators_shape eq_refl) as [Hrun _].
  exact Hrun.
Defined.

(** ** Names of reports and of records *)

Lemma has_char_append c s t : has_char c (s +:+ t) = has_char c s || has_char c t.
Proof.
  induction s as [ | c' s IH]; [done | ].
  rewrite append_cons. simpl. by rewrite IH, orb_assoc.
Qed.

Lemma append_assoc s t u : (s +:+ t) +:+ u = s +:+ (t +:+ u).
Proof.
  induction s as [ | c s IH]; [done | ]. by rewrite !append_cons, IH.
Qed.

Lemma path_name_plain p : has_char "/" p = false → path_name p = p.
Proof.
  destruct p as [ | c p]; [done | ]. cbn [has_char path_name]. intros H.
  apply orb_false_iff in H as [Hc Hp].
  rewrite Hp, orb_false_r.
  destruct (Ascii.eqb c "/") eqn:E; [ | done].
  apply Ascii.eqb_eq in E. subst c. discriminate Hc.
Qed.

Lemma rfind_append c s t i :
  rfind c t = Some i → rfind c (s +:+ t) = Some (String.length s + i).
Proof.
  intros Ht. induction s as [ | c' s IH]; [done | ].
  rewrite append_cons. simpl. by rewrite IH.
Qed.

Lemma substring_prefix s t : String.substring 0 (String.length s) (s +:+ t) = s.
Proof.
  induction s as [ | c s IH]; simpl.
  - by destruct t.
  - by rewrite IH.
Qed.

Lemma substring_suffix s t :
  String.substring (String.length s) (String.length t) (s +:+ t) = t.
Proof.
  induction s as [ | c s IH]; simpl; [apply substring_all | exact IH].
Qed.

Lemma endswith_append s t : endswith (s +:+ t) t = true.
Proof.
  unfold endswith. rewrite length_append. apply andb_true_iff. split.
  - apply Nat.leb_le. lia.
  - replace (String.length s + String.length t - String.length t)
      with (String.length s) by lia.
    rewrite substring_suffix. apply String.eqb_refl.
Qed.

Lemma drop_last_append s t : drop_last (String.length t) (s +:+ t) = s.
Proof.
  unfold drop_last. rewrite length_append.
  replace (String.length s + String.length t - String.length t)
    with (String.length s) by lia.
  apply substring_prefix.
Qed.

Lemma path_stem_json name :
  has_char "/" name = false → name ≠ "" → path_stem (name +:+ ".json") = name.
Proof.
  intros Hplain Hname. unfold path_stem.
  rewrite path_name_plain by (by rewrite has_char_append, Hplain).
  unfold suffix_start. rewrite (rfind_append "." name ".json" 0 eq_refl).
  rewrite length_append, Nat.add_0_r. simpl String.length.
  assert (0 < String.length name)%nat as Hpos.
  { destruct name; [done | simpl; lia]. }
  replace (Nat.ltb 0 (String.length name)) with true by (symmetry; by apply Nat.ltb_lt).
  replace (Nat.ltb (String.length name) (String.length name + 5 - 1)) with true
    by (symmetry; apply Nat.ltb_lt; lia).
  simpl andb. cbv iota. apply substring_prefix.
Qed.

(** X18: the naming convention that pairs a report with its record: for a
    record identifier [id] without a slash, the report file [id-report.json]
    of a report without a truthy [record_id] has the key [id], and so has
    the report file [id.json] when [id] is not empty; [find_record_file]
    then looks for [id.json] in the records directory. *)
Theorem report_key_of_record_id (id : string) (report : dict) :
  has_char "/" id = false →
  py_truthy (dget_default "record_id" JNull report) = false →
  report_key (id +:+ "-report.json") report = id ∧
  (id ≠ "" → endswith id "-report" = false → report_key (id +:+ ".json") report = id) ∧
  ∀ records, find_record_file records id
             = if exists_in (id +:+ ".json") records then Some (id +:+ ".json") else None.
Proof.
  intros Hplain Hid. split; [ | split].
  - unfold report_key. rewrite Hid.
    assert (path_stem (id +:+ "-report.json") = id +:+ "-report") as ->.
    { pose proof (path_stem_json (id +:+ "-report")) as H.
      rewrite append_assoc in H. apply H.
      - by rewrite has_char_append, Hplain.
      - by destruct id. }
    rewrite endswith_append. apply (drop_last_append id "-report").
  - intros Hne Hend. unfold report_key. rewrite Hid.
    rewrite path_stem_json by done. by rewrite Hend.
  - done.
Qed.

Lemma report_key_of_record_id_witness :
  report_key "a.b-report.json" [("scope_ok", JBool false)] = "a.b" ∧
  report_key "a.b.json" [("scope_ok", JBool false)] = "a.b".
Proof.
  destruct (report_key_of_record_id "a.b" [("scope_ok", JBool false)] eq_refl eq_refl)
    as (Hreport & Hplain & _).
  split; [exact Hreport | exact (Hplain ltac:(discriminate) eq_refl)].
Defined.

(** ** The extension of a relocated file *)

Lemma rfind_split c s i :
  rfind c s = Some i →
  ∃ pre ext, s = pre +:+ String c ext ∧ String.length pre = i ∧ rfind c ext = None.
Proof.
  revert i. induction s as [ | c' s IH]; intros i; simpl; [done | ].
  destruct (rfind c s) as [j | ] eqn:E.
  - intros [= <-]. destruct (IH j eq_refl) as (pre & ext & -> & Hlen & Hext).
    exists (String c' pre), ext. split; [by rewrite append_cons | ]. split; [simpl; lia | done].
  - destruct (Ascii.eqb c' c) eqn:Ec; [ | done]. intros [= <-].
    apply Ascii.eqb_eq in Ec. subst c'. by exists "", s.
Qed.

Lemma rfind_head c ext : rfind c ext = None → rfind c (String c ext) = Some 0.
Proof. intros H. simpl. by rewrite H, Ascii.eqb_refl. Qed.

Lemma has_char_digits d : has_char "/" (NilZero.string_of_uint d) = false.
Proof.
  destruct d as [ | d | d | d | d | d | d | d | d | d | d]; [done | ..];
    simpl; induction d as [ | d IH | d IH | d IH | d IH | d IH | d IH | d IH | d IH
                            | d IH | d IH]; simpl; done.
Qed.

Lemma suffix_split name :
  path_suffix name ≠ "" → has_char "/" name = false →
  ∃ pre ext, name = pre +:+ String "." ext ∧
             path_stem name = pre ∧ path_suffix name = String "." ext ∧
             rfind "." ext = None ∧ ext ≠ "" ∧ pre ≠ "".
Proof.
  intros Hsuffix Hplain. unfold path_suffix, path_stem in *.
  rewrite path_name_plain in * by done. unfold suffix_start in *.
  destruct (rfind "." name) as [i | ] eqn:E; [ | done].
  destruct (Nat.ltb 0 i && Nat.ltb i (String.length name - 1)) eqn:Hi; [ | done].
  apply andb_true_iff in Hi as [Hpos Hlast].
  apply Nat.ltb_lt in Hpos, Hlast.
  destruct (rfind_split _ _ _ E) as (pre & ext & -> & Hlen & Hext).
  rewrite length_append in *. simpl String.length in *.
  exists pre, ext. split; [done | ]. subst i. split; [apply substring_prefix | ].
  split; [ | split; [done | split]].
  - replace (String.length pre + S (String.length ext) - String.length pre)
      with (String.length (String "." ext)) by (simpl; lia).
    apply substring_suffix.
  - intros ->. simpl in Hlast. lia.
  - intros ->. simpl in Hpos. lia.
Qed.

(** X19: a file that has an extension keeps it when [safe_move] renames it:
    the name given in the destination has the suffix of the source, and its
    stem is the stem of the source, followed by an underscore and a number
    when the name was taken. *)
Theorem safe_move_keeps_extension (dest : listing) (src : string) :
  has_char "/" src = false →
  path_suffix src ≠ "" →
  path_suffix (destination dest src) = path_suffix src ∧
  (∀ i, path_suffix (candidate (path_stem src) (path_suffix src) i) = path_suffix src ∧
        path_stem (candidate (path_stem src) (path_suffix src) i)
        = path_stem src +:+ "_" +:+ nat_to_string i).
Proof.
  intros Hplain Hsuffix.
  destruct (suffix_split src Hsuffix Hplain)
    as (pre & ext & Hsrc & Hstem & Hsuf & Hext & Hne & Hpre).
  assert (∀ i, path_suffix (candidate pre (String "." ext) i) = String "." ext ∧
               path_stem (candidate pre (String "." ext) i)
               = pre +:+ "_" +:+ nat_to_string i) as Hcand.
  { intros i. unfold candidate.
    pose proof Hplain as Hparts. rewrite Hsrc, !has_char_append in Hparts.
    simpl has_char in Hparts. apply orb_false_iff in Hparts as [Hp He].
    set (front := pre +:+ "_" +:+ nat_to_string i).
    assert (pre +:+ "_" +:+ nat_to_string i +:+ String "." ext = front +:+ String "." ext)
      as -> by (unfold front; by rewrite !append_assoc).
    assert (has_char "/" (front +:+ String "." ext) = false) as Hfront.
    { unfold front. rewrite !has_char_append, Hp. simpl.
      unfold nat_to_string. by rewrite has_char_digits. }
    assert (0 < String.length front)%nat as Hlen.
    { unfold front. rewrite !length_append. simpl. lia. }
    assert (0 < String.length ext)%nat as Hlen'.
    { destruct ext; [done | simpl; lia]. }
    unfold path_suffix, path_stem. rewrite path_name_plain by done.
    unfold suffix_start. rewrite (rfind_append "." front _ 0 (rfind_head _ _ Hext)).
    rewrite Nat.add_0_r, length_append. simpl String.length.
    replace (Nat.ltb 0 (String.length front)) with true
      by (symmetry; by apply Nat.ltb_lt).
    replace (Nat.ltb (String.length front)
               (String.length front + S (String.length ext) - 1)) with true
      by (symmetry; apply Nat.ltb_lt; lia).
    cbn [andb]. split; [ | apply substring_prefix].
    replace (String.length front + S (String.length ext) - String.length front)
      with (String.length (String "." ext)) by (simpl; lia).
    apply substring_suffix. }
  rewrite Hstem, Hsuf. split; [ | exact Hcand].
  unfold destination. destruct (exists_in (path_name src) dest).
  - destruct (probe_stops dest (path_stem src) (path_suffix src) (length dest) 1)
      as (j & -> & _).
    rewrite Hstem, Hsuf. apply Hcand.
  - rewrite path_name_plain by done. exact Hsuf.
Qed.

Lemma safe_move_keeps_extension_witness :
  path_suffix (destination [("1.json", Folder); ("1_1.json", Folder)] "1.json") = ".json".
Proof.
  destruct (safe_move_keeps_extension [("1.json", Folder); ("1_1.json", Folder)] "1.json"
              eq_refl ltac:(discriminate)) as [Hkept _].
  exact Hkept.
Defined.

(** ** The Markdown report *)

Lemma Forall_map_all {A B} (P : B → Prop) (f : A → B) l :
  (∀ x, P (f x)) → Forall P (map f l).
Proof. intros H. induction l; by constructor. Qed.

Lemma entry_lines_Ok e lines :
  entry_lines e = Ok lines →
  ∃ body, lines = ("### " +:+ entry_key e) :: "" :: body ∧
          Forall (λ line, section_key line = None) body.
Proof.
  unfold entry_lines. intros H. apply bind_Ok in H as (advice & Hadvice & H).
  injection H as <-. eexists. split; [reflexivity | ].
  repeat rewrite Forall_app. split; [ | split; [ | split; [ | split]]].
  - destruct (entry_record_path e) as [p | ]; [ | constructor].
    destruct (String.eqb p ""); by repeat constructor.
  - destruct (String.eqb (entry_report_path e) ""); by repeat constructor.
  - destruct (entry_actions e) as [ | a acts]; [by repeat constructor | ].
    constructor; [done | ]. by apply (Forall_map_all _ _ (a :: acts)).
  - destruct (py_truthy _ || _).
    + apply bind_Ok in Hadvice as (recs & _ & Hadvice). injection Hadvice as <-.
      constructor; [done | ]. apply Forall_app. split.
      * by apply Forall_map_all.
      * by apply Forall_map_all.
    + injection Hadvice as <-. by repeat constructor.
  - by repeat constructor.
Qed.

Lemma section_key_heading key : section_key ("### " +:+ key) = Some key.
Proof.
  unfold section_key. rewrite !append_cons, append_nil. cbn [String.prefix].
  repeat (destruct (ascii_dec _ _) as [_ | Hne]; [ | done]).
  assert (String.prefix "" key = true) as -> by by destruct key.
  cbn [String.length Nat.sub String.substring]. by rewrite Nat.sub_0_r, substring_all.
Qed.

Lemma omap_none {A B} (f : A → option B) l :
  Forall (λ x, f x = None) l → omap f l = [].
Proof. induction 1 as [ | x l Hx _ IH]; [done | ]. simpl. by rewrite Hx. Qed.

Lemma omap_cons_Some {A B} (f : A → option B) x y l :
  f x = Some y → omap f (x :: l) = y :: omap f l.
Proof. intros H. simpl. by rewrite H. Qed.

Lemma omap_cons_None {A B} (f : A → option B) x l :
  f x = None → omap f (x :: l) = omap f l.
Proof. intros H. simpl. by rewrite H. Qed.

Lemma section_key_other c line :
  c ≠ "#"%char → section_key (String c line) = None.
Proof.
  intros Hc. unfold section_key. cbn [String.prefix].
  destruct (ascii_dec "#" c) as [<- | _]; done.
Qed.

Ltac skip_line :=
  rewrite omap_cons_None;
  [ | first [ reflexivity | rewrite append_cons; by apply section_key_other ] ].

Lemma details_sections logged lines :
  details logged = Ok lines → omap section_key lines = map entry_key logged.
Proof.
  revert lines. induction logged as [ | e logged IH]; intros lines H.
  - by injection H as <-.
  - cbn [details] in H. apply bind_Ok in H as (l1 & H1 & H).
    apply bind_Ok in H as (rest & Hrest & H). injection H as <-.
    apply entry_lines_Ok in H1 as (body & -> & Hbody).
    rewrite omap_app.
    rewrite (omap_cons_Some _ _ _ _ (section_key_heading (entry_key e))).
    rewrite (omap_none _ ("" :: body)) by by constructor.
    simpl. f_equal. by apply IH.
Qed.

Lemma entry_lines_raise e :
  match entry_lines e with
  | Ok _ => ¬ unprintable e
  | Raise err => err = TypeError ∧ unprintable e
  end.
Proof.
  unfold entry_lines, unprintable.
  destruct (py_truthy (entry_recommendations e)) eqn:Ht; simpl.
  - destruct (entry_recommendations e) as [ | b | n | s | l | d]; simpl; try done.
    + split; [done | ]. split; [by left | done].
    + split; [done | ]. split; [by left | done].
    + by intros [_ H].
    + by intros [_ H].
    + by intros [_ H].
  - destruct (entry_unapplied e) as [ | u us]; simpl.
    + intros [[H | H] _]; done.
    + destruct (entry_recommendations e) as [ | b | n | s | l | d]; simpl; try done.
      * split; [done | ]. split; [by right | done].
      * split; [done | ]. split; [by right | done].
      * split; [done | ]. split; [by right | done].
      * by intros [_ H].
      * by intros [_ H].
      * by intros [_ H].
Qed.

Lemma details_raise logged :
  match details logged with
  | Ok _ => Forall (λ e, ¬ unprintable e) logged
  | Raise err => err = TypeError ∧ Exists unprintable logged
  end.
Proof.
  induction logged as [ | e logged IH]; [by constructor | ].
  cbn [details]. pose proof (entry_lines_raise e) as He.
  destruct (entry_lines e) as [lines | err]; simpl.
  - destruct (details logged) as [rest | err]; simpl.
    + by constructor.
    + destruct IH as [-> IH]. split; [done | by apply Exists_cons_tl].
  - destruct He as [-> He]. split; [done | by apply Exists_cons_hd].
Qed.

(** X20: the report of a dry run and the report of a live run with the same
    heading, counts and entries are the same text, line by line, except for
    the fourth line, which says [Dry run: yes] or [Dry run: no]; when one
    cannot be rendered, neither can the other. *)
Theorem render_markdown_marks_dry_run (h : report_heading) (logged : list entry)
    (s : stats) :
  match render_markdown_lines h true logged s, render_markdown_lines h false logged s with
  | Ok dry, Ok live =>
      ∃ before after,
        length before = 3 ∧
        dry = before ++ "- Dry run: yes" :: after ∧
        live = before ++ "- Dry run: no" :: after
  | Raise e, Raise e' => e = e'
  | _, _ => False
  end.
Proof.
  unfold render_markdown_lines. destruct logged as [ | e logged].
  - by eexists [_; _; _], _.
  - destruct (details (e :: logged)) as [lines | err]; simpl; [ | done].
    by eexists [_; _; _], _.
Qed.

Lemma render_markdown_marks_dry_run_witness :
  ∃ before after,
    render_markdown_lines sample_heading true sample_entries (Stats 1 1 1 0 1)
    = Ok (before ++ "- Dry run: yes" :: after) ∧
    render_markdown_lines sample_heading false sample_entries (Stats 1 1 1 0 1)
    = Ok (before ++ "- Dry run: no" :: after).
Proof.
  pose proof (render_markdown_marks_dry_run sample_heading sample_entries (Stats 1 1 1 0 1))
    as Hmark.
  destruct (render_markdown_lines sample_heading true sample_entries (Stats 1 1 1 0 1))
    as [dry | e]; [ | vm_compute in Hmark; by destruct Hmark].
  destruct (render_markdown_lines sample_heading false sample_entries (Stats 1 1 1 0 1))
    as [live | e]; [ | done].
  destruct Hmark as (before & after & _ & -> & ->). by exists before, after.
Defined.

(** X21: [render_markdown] raises [TypeError], and writes no report,
    exactly when an entry has recommendations that cannot be iterated over
    (a number, a boolean or a null) and that are looked at because they are
    truthy or because the entry has unapplied notes; otherwise it returns
    the text.  The recommendations of an entry made by [process] are truthy
    or the empty list, so that only a number other than zero or [true] in
    the [recommendations] of a report makes the rendering fail. *)
Theorem render_markdown_fails_on_recommendations (h : report_heading) (dry_run : bool)
    (logged : list entry) (s : stats) :
  (render_markdown_text h dry_run logged s = Raise TypeError ↔ Exists unprintable logged) ∧
  ((∃ text, render_markdown_text h dry_run logged s = Ok text) ↔
   Forall (λ e, ¬ unprintable e) logged) ∧
  (∀ report,
     unprintable (Entry "" None "" [] (recommendations_of report) []) ↔
     (∃ n, dget "recommendations" report = Some (JInt n) ∧ n ≠ 0%Z) ∨
     dget "recommendations" report = Some (JBool true)).
Proof.
  assert (Exists unprintable logged → Forall (λ e, ¬ unprintable e) logged → False) as Hex.
  { intros Hsome Hall. apply Exists_exists in Hsome as (e & Hin & He).
    rewrite Forall_forall in Hall. by apply (Hall e). }
  pose proof (details_raise logged) as Hd.
  unfold render_markdown_text, render_markdown_lines.
  split; [ | split].
  - destruct logged as [ | e logged]; [split; [done | by inversion 1] | ].
    destruct (details (e :: logged)) as [lines | err]; simpl.
    + split; [done | ]. intros Hsome. by exfalso; apply Hex.
    + destruct Hd as [-> Hd]. by split.
  - destruct logged as [ | e logged]; [split; [by constructor | by eexists] | ].
    destruct (details (e :: logged)) as [lines | err]; simpl.
    + split; [done | by eexists].
    + destruct Hd as [-> Hd]. split; [by intros [text H] | ].
      intros Hall. by exfalso; apply Hex.
  - intros report. unfold unprintable, recommendations_of, py_or, dget_default. simpl.
    destruct (dget "recommendations" report) as [[ | [ | ] | n | t | l | d] | ] eqn:E;
      simpl.
    + split; [by intros [_ H] | intros [(n & H & _) | H]; done].
    + split; [by right | ]. intros _. split; [by left | done].
    + split; [by intros [_ H] | intros [(n & H & _) | H]; done].
    + destruct (Z.eqb n 0) eqn:En; simpl.
      * apply Z.eqb_eq in En. subst n.
        split; [by intros [_ H] | intros [(n & [= <-] & Hn) | H]; done].
      * apply Z.eqb_neq in En. split.
        -- intros _. left. by exists n.
        -- intros _. split; [left | done]. by apply negb_true_iff, Z.eqb_neq.
    + destruct (String.eqb t ""); simpl;
        (split; [by intros [_ H] | intros [(n & H & _) | H]; done]).
    + destruct l; simpl; (split; [by intros [_ H] | intros [(n & H & _) | H]; done]).
    + destruct d; simpl; (split; [by intros [_ H] | intros [(n & H & _) | H]; done]).
    + split; [by intros [_ H] | intros [(n & H & _) | H]; done].
Qed.

Lemma render_markdown_lines_sections h dry_run logged s lines :
  render_markdown_lines h dry_run logged s = Ok lines →
  omap section_key lines = map entry_key logged.
Proof.
  unfold render_markdown_lines. destruct logged as [ | e logged].
  - intros [= <-]. cbn [app]. do 19 skip_line. by skip_line.
  - intros H. apply bind_Ok in H as (body & Hbody & H). injection H as <-.
    cbn [app]. do 19 skip_line. by apply details_sections.
Qed.

Lemma render_markdown_fails_on_recommendations_witness :
  render_markdown_text sample_heading false
    [Entry "7" None "/qa/7-report.json" ["Record JSON missing"] (JInt 5) []]
    (Stats 0 0 0 0 1)
  = Raise TypeError.
Proof.
  destruct (render_markdown_fails_on_recommendations sample_heading false
              [Entry "7" None "/qa/7-report.json" ["Record JSON missing"] (JInt 5) []]
              (Stats 0 0 0 0 1)) as [[_ Hraise] _].
  apply Hraise. apply Exists_cons_hd. split; [by left | reflexivity].
Defined.

(** ** The lines of the text *)

Lemma single_line_append s t : single_line (s +:+ t) = single_line s && single_line t.
Proof.
  unfold single_line. rewrite !has_char_append.
  by destruct (has_char _ s), (has_char _ s), (has_char _ t), (has_char _ t).
Qed.

Lemma has_char_number c d :
  (c = ascii_of_N 10 ∨ c = ascii_of_N 13) → has_char c (NilZero.string_of_uint d) = false.
Proof.
  intros [-> | ->];
    (destruct d as [ | d | d | d | d | d | d | d | d | d | d]; [done | ..];
     simpl; induction d as [ | d IH | d IH | d IH | d IH | d IH | d IH | d IH | d IH
                             | d IH | d IH]; simpl; done).
Qed.

Lemma single_line_number n : single_line (nat_to_string n) = true.
Proof.
  unfold single_line, nat_to_string. by rewrite !has_char_number by auto.
Qed.

Lemma split_single sep s : has_char sep s = false → split sep s = [s].
Proof.
  induction s as [ | c s IH]; [done | ]. cbn [has_char split]. intros H.
  apply orb_false_iff in H as [Hc Hs]. rewrite Ascii.eqb_sym, Hc. by rewrite (IH Hs).
Qed.

Lemma split_line sep s t :
  has_char sep s = false → split sep (s +:+ String sep t) = s :: split sep t.
Proof.
  induction s as [ | c s IH]; intros H.
  - rewrite append_nil. cbn [split]. by rewrite Ascii.eqb_refl.
  - cbn [has_char] in H. apply orb_false_iff in H as [Hc Hs].
    rewrite append_cons. cbn [split]. rewrite Ascii.eqb_sym, Hc. by rewrite (IH Hs).
Qed.

Lemma single_line_feed s : single_line s = true → has_char (ascii_of_N 10) s = false.
Proof. unfold single_line. intros H. apply negb_true_iff in H. by apply orb_false_iff in H as [H _]. Qed.

(** The lines of the text written are the lines laid out, and an empty
    line after the last line feed. *)
Lemma text_lines_join lines :
  lines ≠ [] →
  Forall (λ line, single_line line = true) lines →
  text_lines (join line_feed lines +:+ line_feed) = lines ++ [""].
Proof.
  intros Hne Hall. unfold text_lines, line_feed.
  induction Hall as [ | line lines Hline Hall IH]; [done | ].
  destruct lines as [ | next lines].
  - cbn [join app]. rewrite split_line by by apply single_line_feed. done.
  - change (join (String (ascii_of_N 10) "") (line :: next :: lines))
      with (line +:+ String (ascii_of_N 10) "" +:+ join (String (ascii_of_N 10) "") (next :: lines)).
    rewrite !append_assoc, append_cons, append_nil.
    rewrite split_line by by apply single_line_feed.
    by rewrite IH.
Qed.

Lemma Forall_single_line_map prefix l :
  single_line prefix = true →
  forallb single_line l = true →
  Forall (λ line, single_line line = true) (map (λ x, prefix +:+ x) l).
Proof.
  intros Hp Hl. apply Forall_forall. intros line Hin.
  apply list_elem_of_fmap in Hin as (x & -> & Hx).
  rewrite single_line_append, Hp. rewrite forallb_forall in Hl.
  apply Hl. by apply list_elem_of_In.
Qed.

Lemma entry_lines_single e lines :
  entry_single_lines e = true →
  entry_lines e = Ok lines →
  Forall (λ line, single_line line = true) lines.
Proof.
  unfold entry_single_lines, entry_lines. intros H Hlines.
  apply andb_true_iff in H as [H Hnotes]. apply andb_true_iff in H as [H Hrecs].
  apply andb_true_iff in H as [H Hacts]. apply andb_true_iff in H as [H Hreport].
  apply andb_true_iff in H as [Hkey Hrecord].
  apply bind_Ok in Hlines as (advice & Hadvice & [= <-]).
  constructor; [by rewrite single_line_append, Hkey | ]. constructor; [done | ].
  repeat rewrite Forall_app. split; [ | split; [ | split; [ | split]]].
  - destruct (entry_record_path e) as [p | ]; [ | constructor].
    destruct (String.eqb p ""); [constructor | ]. constructor; [ | constructor].
    rewrite !single_line_append. simpl in Hrecord. by rewrite Hrecord.
  - destruct (String.eqb (entry_report_path e) ""); [constructor | ].
    constructor; [ | constructor]. rewrite !single_line_append. by rewrite Hreport.
  - destruct (entry_actions e) as [ | a acts]; [by repeat constructor | ].
    constructor; [done | ]. by apply (Forall_single_line_map _ (a :: acts)).
  - destruct (py_truthy _ || _).
    + apply bind_Ok in Hadvice as (recs & Hiter & [= <-]). rewrite Hiter in Hrecs.
      constructor; [done | ]. apply Forall_app. split.
      * apply Forall_forall. intros line Hin.
        apply list_elem_of_fmap in Hin as (rec & -> & Hrec).
        rewrite single_line_append. rewrite forallb_forall in Hrecs.
        apply (Hrecs rec). by apply list_elem_of_In.
      * by apply Forall_single_line_map.
    + injection Hadvice as <-. by repeat constructor.
  - by repeat constructor.
Qed.

Lemma details_single logged lines :
  forallb entry_single_lines logged = true →
  details logged = Ok lines →
  Forall (λ line, single_line line = true) lines.
Proof.
  revert lines. induction logged as [ | e logged IH]; intros lines Hall H.
  - injection H as <-. constructor.
  - cbn [forallb] in Hall. apply andb_true_iff in Hall as [He Hall].
    cbn [details] in H. apply bind_Ok in H as (l1 & H1 & H).
    apply bind_Ok in H as (rest & Hrest & [= <-]).
    apply Forall_app. split; [by apply (entry_lines_single e) | by apply IH].
Qed.

Lemma render_markdown_lines_single h dry_run logged s lines :
  heading_single_lines h = true →
  forallb entry_single_lines logged = true →
  render_markdown_lines h dry_run logged s = Ok lines →
  lines ≠ [] ∧ Forall (λ line, single_line line = true) lines.
Proof.
  unfold heading_single_lines, render_markdown_lines. cbn [forallb]. intros Hh Hall H.
  apply andb_true_iff in Hh as [Hgenerated Hh]. apply andb_true_iff in Hh as [Hrecords Hh].
  apply andb_true_iff in Hh as [Hqa Hh]. apply andb_true_iff in Hh as [Hout Hh].
  apply andb_true_iff in Hh as [Hdup _].
  assert (∀ top body,
            Forall (λ line, single_line line = true) top →
            Forall (λ line, single_line line = true) body →
            top ≠ [] → lines = top ++ body →
            lines ≠ [] ∧ Forall (λ line, single_line line = true) lines) as Hgoal.
  { intros top body Htop Hbody Hne ->. split; [by destruct top | ]. by apply Forall_app. }
  assert (Forall (λ line, single_line line = true)
            ["# Local Auto-Correction Report"; "";
             "- Generated: " +:+ generated h;
             "- Dry run: " +:+ (if dry_run then "yes" else "no");
             "- Records dir: " +:+ records_dir h;
             "- QA dir: " +:+ qa_dir h;
             "- Out-of-scope dir: " +:+ out_of_scope_dir h;
             "- Duplicates dir: " +:+ duplicates_dir h;
             "";
             "## Summary"; "";
             "- Reports processed: " +:+ nat_to_string (processed s);
             "- Records corrected: " +:+ nat_to_string (corrected s);
             "- Records moved (out-of-scope): " +:+ nat_to_string (moved_out s);
             "- Records moved (duplicates): " +:+ nat_to_string (moved_dup s);
             "- Records missing: " +:+ nat_to_string (missing s);
             "";
             "## Details"; ""]) as Htop.
  { repeat (constructor; [rewrite ?single_line_append, ?single_line_number;
                          rewrite ?Hgenerated, ?Hrecords, ?Hqa, ?Hout, ?Hdup;
                          by destruct dry_run | ]).
    constructor. }
  destruct logged as [ | e logged].
  - injection H as <-. eapply Hgoal; [exact Htop | | done | reflexivity].
    by repeat constructor.
  - apply bind_Ok in H as (body & Hbody & [= <-]).
    eapply Hgoal; [exact Htop | | done | reflexivity].
    by apply (details_single (e :: logged)).
Qed.

(** X22: when no string that the report prints (the heading, the keys, the
    paths, the actions, the recommendations and the notes) holds a line
    break, the text written has one section for each entry of the audit
    trail, in order, headed by the key of the entry, and no other line of
    the text starts a section. *)
Theorem render_markdown_sections (h : report_heading) (dry_run : bool)
    (logged : list entry) (s : stats) (text : string) :
  heading_single_lines h = true →
  forallb entry_single_lines logged = true →
  render_markdown_text h dry_run logged s = Ok text →
  omap section_key (text_lines text) = map entry_key logged.
Proof.
  intros Hh Hall H. unfold render_markdown_text in H.
  apply bind_Ok in H as (lines & Hlines & [= <-]).
  destruct (render_markdown_lines_single _ _ _ _ _ Hh Hall Hlines) as [Hne Hsingle].
  rewrite text_lines_join by done. rewrite omap_app.
  rewrite (render_markdown_lines_sections _ _ _ _ _ Hlines). cbn. by rewrite app_nil_r.
Qed.

Lemma render_markdown_sections_witness :
  ∃ text, render_markdown_text sample_heading true sample_entries (Stats 1 1 1 0 1)
          = Ok text ∧
          omap section_key (text_lines text) = ["1"; "3"] ∧
          length (text_lines text) = 38.
Proof.
  destruct (render_markdown_text sample_heading true sample_entries (Stats 1 1 1 0 1))
    as [text | e] eqn:Hrun.
  - exists text. split; [reflexivity | ].
    split; [exact (render_markdown_sections sample_heading true sample_entries
                     (Stats 1 1 1 0 1) text eq_refl eq_refl Hrun) | ].
    vm_compute in Hrun. injection Hrun as <-. reflexivity.
  - vm_compute in Hrun. discriminate Hrun.
Defined.

(** A key with a line feed puts a second section into the text. *)
Example forged_section :
  ∃ text, render_markdown_text sample_heading false [forged_entry] (Stats 0 0 0 0 1)
          = Ok text ∧
          omap section_key (text_lines text) = ["1"; "999"].
Proof. eexists. split; [vm_compute; reflexivity | reflexivity]. Qed.

(** ** Reports that cannot be read *)

Lemma add_report_raise file report_map :
  match add_report file report_map with
  | Ok _ => file.2 ≠ Folder
  | Raise e => e = IsADirectoryError ∧ file.2 = Folder
  end.
Proof.
  unfold add_report. destruct file as [name [[report | ] | ]]; simpl; try done.
  by destruct (String.eqb _ "").
Qed.

Lemma report_map_raise report_files report_map :
  match foldM add_report report_files report_map with
  | Ok _ => Forall (λ file, file.2 ≠ Folder) report_files
  | Raise e => e = IsADirectoryError ∧ Exists (λ file, file.2 = Folder) report_files
  end.
Proof.
  revert report_map. induction report_files as [ | file report_files IH]; intros report_map.
  - by constructor.
  - cbn [foldM]. pose proof (add_report_raise file report_map) as Hfile.
    destruct (add_report file report_map) as [m | e]; simpl.
    + specialize (IH m). destruct (foldM add_report report_files m) as [m' | e].
      * by constructor.
      * destruct IH as [-> IH]. split; [done | by apply Exists_cons_tl].
    + destruct Hfile as [-> Hfile]. split; [done | by apply Exists_cons_hd].
Qed.

Lemma report_map_skips report_files report_map :
  foldM add_report report_files report_map
  = foldM add_report (filter (λ file, is_not_json file.2 = false) report_files) report_map.
Proof.
  revert report_map. induction report_files as [ | [name n] report_files IH]; intros report_map.
  - done.
  - rewrite filter_cons. cbn [snd]. destruct n as [[d | ] | ]; cbn [is_not_json].
    + rewrite decide_True by done. cbn [foldM].
      destruct (add_report _ report_map) as [m | e]; [ | done]. rewrite !bind_Ok_l. apply IH.
    + rewrite decide_False by done. cbn [foldM].
      change (add_report (name, File NotJson) report_map) with (Ok report_map).
      rewrite bind_Ok_l. apply IH.
    + rewrite decide_True by done. cbn [foldM].
      destruct (add_report _ report_map) as [m | e]; [ | done]. rewrite !bind_Ok_l. apply IH.
Qed.

(** X23: the report map is built before any record is read.  A directory
    among the entries of the QA directory that [*.json] matches makes
    [process] raise [IsADirectoryError] there, in a dry run as in a live
    one, whatever the records directory holds and wherever the quarantine
    directories lie; a report file that [json.load] rejects is passed over:
    the report map is the one built without it. *)
Theorem process_aborts_on_directory glob_match out_of_scope_name duplicates_name dry_run
    (qa : listing) :
  let report_files := glob glob_match "*.json" qa in
  (Exists (λ file, file.2 = Folder) report_files →
   (∀ records out_of_scope duplicates report,
      process glob_match out_of_scope_name duplicates_name dry_run
        (FileSystem records qa out_of_scope duplicates report)
      = Raise IsADirectoryError) ∧
   (∀ records report,
      Wired.process glob_match out_of_scope_name duplicates_name dry_run
        (Wired.Workspace records qa report)
      = Raise IsADirectoryError)) ∧
  foldM add_report report_files []
  = foldM add_report (filter (λ file, is_not_json file.2 = false) report_files) [].
Proof.
  intros report_files. pose proof (report_map_raise report_files []) as Hmap.
  split; [ | apply report_map_skips].
  intros Hdir.
  assert (report_files ≠ [] ∧ foldM add_report report_files [] = Raise IsADirectoryError)
    as [Hne Hraise].
  { split; [intros Hnil; rewrite Hnil in Hdir; by inversion Hdir | ].
    destruct (foldM add_report report_files []) as [m | e].
    - exfalso. apply Exists_exists in Hdir as (f & Hin & Hf).
      rewrite Forall_forall in Hmap. by apply (Hmap f).
    - by destruct Hmap as [-> _]. }
  split.
  - intros records out_of_scope duplicates report. unfold process. cbn [qa_files].
    fold report_files. destruct report_files as [ | file found]; [done | ].
    by rewrite Hraise.
  - intros records report. unfold Wired.process, Wired.report_files. cbn [Wired.ws_qa].
    fold report_files. destruct report_files as [ | file found]; [done | ].
    by rewrite Hraise.
Qed.

Lemma process_aborts_on_directory_witness :
  process wildcard_match "Possible_Out_Of_Scope" "Possible_Duplicates" false
    (FileSystem (records_files sample_filesystem)
       (qa_files sample_filesystem ++ [("4-report.json", Folder)]) None None None)
  = Raise IsADirectoryError.
Proof.
  destruct (process_aborts_on_directory wildcard_match "Possible_Out_Of_Scope"
              "Possible_Duplicates" false
              (qa_files sample_filesystem ++ [("4-report.json", Folder)])) as [Habort _].
  apply Habort. vm_compute. do 3 apply Exists_cons_tl. by apply Exists_cons_hd.
Defined.

(** ** What the corrections leave alone *)

Lemma framed_refl r : framed r r.
Proof. by repeat split. Qed.

Lemma framed_trans r1 r2 r3 : framed r1 r2 → framed r2 r3 → framed r1 r3.
Proof.
  intros (H1 & H2 & H3) (H1' & H2' & H3'). split; [ | split].
  - intros k Hm Hc. by rewrite H1', H1.
  - intros key Hkey. by rewrite H2', H2.
  - intros key Hkey. by rewrite H3', H3.
Qed.

Lemma touches_framed p r r' :
  touches p r r' →
  match p with InMetadata key => key ∈ corrected_fields | InCustomFields => True end →
  framed r r'.
Proof.
  intros [-> | H] Hp; [apply framed_refl | ].
  destruct p as [key | ].
  - destruct H as [v ->]. split; [ | split].
    + intros k Hm _. by apply set_metadata_field_frame.
    + intros key' Hkey'. apply set_metadata_field_other. by intros ->.
    + intros key' _. unfold custom_fields_of.
      by rewrite set_metadata_field_frame.
  - destruct H as [v ->]. split; [ | split].
    + intros k _ Hc. by apply set_descriptors_frame.
    + intros key' _. unfold metadata_field, metadata_of.
      by rewrite set_descriptors_frame.
    + intros key' Hkey'. unfold custom_fields_of at 1, set_descriptors.
      rewrite dget_dset_eq. apply dget_dset_ne. intros Heq. by apply Hkey'.
Qed.

(** X24: the corrections are confined to their places.  Whatever the report
    holds, a run of [apply_corrections] that returns has left every
    top-level key of the record other than [metadata] and [custom_fields]
    as it was, and so every field of the metadata other than the title, the
    description, the publication date, the creators and the related
    identifiers, and every custom field other than the descriptors. *)
Theorem apply_corrections_frame (record0 : dict) (report : dict) (st : run_state) :
  apply_corrections record0 report = Ok st →
  framed record0 (record st).
Proof.
  unfold apply_corrections, run_corrections, stages_before_related. intros H.
  apply bind_Ok in H as (s6 & H & H7).
  apply bind_Ok in H as (s1 & H1 & H). apply bind_Ok in H as (s2 & H2 & H).
  apply bind_Ok in H as (s3 & H3 & H). apply bind_Ok in H as (s4 & H4 & H).
  apply bind_Ok in H as (s5 & H5 & H6).
  apply title_stage_touches, touches_framed in H1; [ | set_solver].
  apply abstract_stage_touches, touches_framed in H2; [ | set_solver].
  apply date_stage_touches, touches_framed in H3; [ | set_solver].
  apply descriptor_stage_touches, touches_framed in H4; [ | done].
  apply affiliation_stage_touches, touches_framed in H5; [ | set_solver].
  apply org_author_stage_touches, touches_framed in H6; [ | set_solver].
  apply related_stage_touches, touches_framed in H7; [ | set_solver].
  simpl in H1.
  eapply framed_trans; [exact H1 | ]. eapply framed_trans; [exact H2 | ].
  eapply framed_trans; [exact H3 | ]. eapply framed_trans; [exact H4 | ].
  eapply framed_trans; [exact H5 | ]. eapply framed_trans; [exact H6 | exact H7].
Qed.

Lemma apply_corrections_frame_witness :
  ∃ st, apply_corrections
          (sample_full_record ++ [("id", JStr "7")]) sample_full_report = Ok st ∧
        dget "id" (record st) = Some (JStr "7") ∧
        changed st = true.
Proof.
  destruct (apply_corrections (sample_full_record ++ [("id", JStr "7")]) sample_full_report)
    as [st | e] eqn:Hrun.
  - exists st. split; [reflexivity | ].
    destruct (apply_corrections_frame _ _ _ Hrun) as (Htop & _ & _).
    split; [by rewrite (Htop "id") | ].
    vm_compute in Hrun. by injection Hrun as <-.
  - vm_compute in Hrun. discriminate Hrun.
Defined.

(** ** The keys of the report map *)

Lemma add_report_keys file report_map report_map' :
  add_report file report_map = Ok report_map' →
  "" ∉ map fst report_map → "" ∉ map fst report_map'.
Proof.
  unfold add_report. destruct (load_json file.2) as [[report | ] | e]; simpl.
  - destruct (String.eqb _ "") eqn:E; intros [= <-]; [done | ].
    apply String.eqb_neq in E. intros Hnot. rewrite keys_dset.
    destruct (bool_decide _); [done | ]. intros Hin.
    apply elem_of_app in Hin as [Hin | Hin]; [done | ].
    apply list_elem_of_singleton in Hin. by apply E.
  - by intros [= <-].
  - done.
Qed.

(** X25: the keys of the report map are distinct and none is empty: a
    report whose key is empty is dropped, so that no record is looked up
    under the name [.json], and no key is processed twice. *)
Theorem report_keys_distinct_nonempty glob_match (fs : filesystem) :
  NoDup (report_keys glob_match fs) ∧ "" ∉ report_keys glob_match fs.
Proof.
  unfold report_keys.
  destruct (foldM add_report (glob glob_match "*.json" (qa_files fs)) [])
    as [report_map | e] eqn:Hmap; [ | split; [constructor | by intros H; inversion H]].
  split.
  - apply (report_map_NoDup _ _ _ Hmap). constructor.
  - revert Hmap. generalize (glob glob_match "*.json" (qa_files fs)).
    assert ("" ∉ map fst (@nil (string * (dict * string)))) as Hnil by by intros H; inversion H.
    revert Hnil. generalize (@nil (string * (dict * string))).
    intros m0 Hm0 files. revert m0 Hm0.
    induction files as [ | file files IH]; intros m0 Hm0 H.
    + by injection H as <-.
    + cbn [foldM] in H. apply bind_Ok in H as (m1 & H1 & H).
      apply (IH m1); [by eapply add_report_keys | done].
Qed.

Lemma report_keys_distinct_nonempty_witness :
  report_keys wildcard_match
    (FileSystem [] [("-report.json", File (Document []));
                    ("7-report.json", File (Document []));
                    ("7.json", File (Document []))] None None None)
  = ["7"] ∧
  "" ∉ report_keys wildcard_match
         (FileSystem [] [("-report.json", File (Document []));
                         ("7-report.json", File (Document []));
                         ("7.json", File (Document []))] None None None).
Proof.
  destruct (report_keys_distinct_nonempty wildcard_match
              (FileSystem [] [("-report.json", File (Document []));
                              ("7-report.json", File (Document []));
                              ("7.json", File (Document []))] None None None))
    as [_ Hnonempty].
  split; [reflexivity | exact Hnonempty].
Defined.

(** ** Records that are not shaped as the data model *)

Lemma apply_pairs_not_ok old_key new_key body record corrections :
  py_truthy corrections = true → ¬ metadata_ok record →
  apply_pairs old_key new_key body record corrections = Raise AttributeError.
Proof.
  intros Ht Hnot. unfold apply_pairs. rewrite Ht. simpl.
  pose proof (metadata_not_ok _ Hnot) as Hmd.
  destruct (dget_default "metadata" (JDict []) record) as [ | | | | | md]; try done.
  by specialize (Hmd md).
Qed.

(** X26: a record whose [metadata] is present but is not a mapping cannot be
    corrected: with a non-empty payload the title, abstract,
    publication-date, affiliation, organisational-author and
    related-identifier appliers raise [AttributeError], and so does the
    descriptor deletion on a record whose [custom_fields] is not a mapping.
    With an empty payload every applier returns at once, without looking at
    the record. *)
Theorem appliers_on_malformed_record (record0 : dict) (payload : json) :
  (py_truthy payload = true → ¬ metadata_ok record0 →
   apply_title record0 payload = Raise AttributeError ∧
   apply_abstract record0 payload = Raise AttributeError ∧
   apply_publication_date record0 payload = Raise AttributeError ∧
   apply_affiliations record0 payload = Raise AttributeError ∧
   apply_org_authors record0 payload = Raise AttributeError ∧
   add_related_identifiers record0 payload = Raise AttributeError) ∧
  (py_truthy payload = true → ¬ custom_fields_ok record0 →
   apply_descriptor_deletions record0 payload = Raise AttributeError) ∧
  (py_truthy payload = false →
   apply_title record0 payload = Ok (false, record0) ∧
   apply_abstract record0 payload = Ok (false, record0) ∧
   apply_publication_date record0 payload = Ok (false, record0) ∧
   apply_affiliations record0 payload = Ok (0, record0) ∧
   apply_org_authors record0 payload = Ok (0, record0) ∧
   apply_descriptor_deletions record0 payload = Ok (false, record0) ∧
   add_related_identifiers record0 payload = Ok (0, record0)).
Proof.
  split; [ | split].
  - intros Ht Hnot.
    split; [by apply apply_metadata_field_not_ok | ].
    split; [by apply apply_metadata_field_not_ok | ].
    split; [by apply apply_metadata_field_not_ok | ].
    rewrite apply_affiliations_pairs, apply_org_authors_pairs.
    split; [by apply apply_pairs_not_ok | ].
    split; [by apply apply_pairs_not_ok | by apply add_related_identifiers_not_ok].
  - intros Ht Hnot. by apply apply_descriptor_deletions_not_ok.
  - intros Hf.
    unfold apply_title, apply_abstract, apply_publication_date, apply_metadata_field,
      apply_affiliations, apply_org_authors, apply_descriptor_deletions,
      add_related_identifiers.
    rewrite Hf. by repeat split.
Qed.

Lemma appliers_on_malformed_record_witness :
  apply_title [("metadata", JList [])] (JStr "New") = Raise AttributeError ∧
  apply_descriptor_deletions [("custom_fields", JStr "x")] (JList [JStr "alpha"])
  = Raise AttributeError ∧
  apply_affiliations [("metadata", JList [])] (JList []) = Ok (0, [("metadata", JList [])]).
Proof.
  destruct (appliers_on_malformed_record [("metadata", JList [])] (JStr "New"))
    as [Hraise _].
  destruct (Hraise eq_refl ltac:(by intros H)) as [Htitle _].
  split; [exact Htitle | ]. split; reflexivity.
Defined.

(** ** The records directory with its folders *)

Lemma dget_app {A} k (l1 l2 : list (string * A)) :
  dget k (l1 ++ l2) = match dget k l1 with Some v => Some v | None => dget k l2 end.
Proof.
  induction l1 as [ | [k' v] l1 IH]; simpl; [done | ].
  by destruct (String.eqb k k').
Qed.

Lemma dget_None_keys {A} k (l : list (string * A)) : dget k l = None ↔ k ∉ map fst l.
Proof.
  induction l as [ | [k' v] l IH]; simpl.
  - split; [intros _ H; by apply elem_of_nil in H | done].
  - destruct (String.eqb k k') eqn:E.
    + apply String.eqb_eq in E. subst k'. split; [done | ].
      intros H. exfalso. apply H. apply elem_of_cons. by left.
    + apply String.eqb_neq in E. rewrite IH. split.
      * intros H Hin. apply elem_of_cons in Hin as [Hin | Hin]; [done | by apply H].
      * intros H Hin. apply H. apply elem_of_cons. by right.
Qed.

Lemma dget_without_ne {A} name k (l : list (string * A)) :
  k ≠ name → dget k (filter (λ e, e.1 ≠ name) l) = dget k l.
Proof.
  intros Hne. induction l as [ | [k' v] l IH]; [done | ].
  rewrite filter_cons. simpl. destruct (decide (k' ≠ name)) as [Hk | Hk]; simpl.
  - by rewrite IH.
  - apply dec_stable in Hk. subst k'.
    destruct (String.eqb k name) eqn:E; [ | exact IH].
    apply String.eqb_eq in E. done.
Qed.

Lemma keys_without {A} name (l : list (string * A)) :
  map fst (filter (λ e, e.1 ≠ name) l) = filter (λ k, k ≠ name) (map fst l).
Proof.
  induction l as [ | [k v] l IH]; [done | ].
  rewrite filter_cons. simpl. rewrite filter_cons.
  destruct (decide (k ≠ name)); simpl; by rewrite IH.
Qed.

Section WiredMoves.
Import Wired.
Variable glob_match : string → string → bool.

Lemma mkdir_Ok name dir dir' :
  mkdir name dir = Ok dir' →
  (∃ held, dget name dir = Some (Directory held) ∧ dir' = dir) ∨
  (dget name dir = None ∧ dir' = dir ++ [(name, Directory [])]).
Proof.
  unfold mkdir. destruct (dget name dir) as [[c | held] | ]; [done | | ].
  - intros [= <-]. left. by exists held.
  - intros [= <-]. by right.
Qed.

Lemma mkdir_present name dir held :
  dget name dir = Some (Directory held) → mkdir name dir = Ok dir.
Proof. unfold mkdir. by intros ->. Qed.

(** In a dry run [safe_move] makes the folder and nothing else. *)
Lemma safe_move_dry src dest_dir dir : safe_move src dest_dir true dir = mkdir dest_dir dir.
Proof. unfold safe_move. by destruct (mkdir dest_dir dir). Qed.

Lemma move_file_regular dest_dir dry_run name c dir :
  move_file dest_dir dry_run (name, Regular c) dir = safe_move (name, c) dest_dir dry_run dir.
Proof. done. Qed.

Lemma move_file_directory dest_dir dry_run name held dir :
  move_file dest_dir dry_run (name, Directory held) dir = Ok dir.
Proof. done. Qed.






Variables out_of_scope_name duplicates_name : string.



End WiredMoves.

(** ** Live moves *)

Lemma elem_of_dset {A} k (v : A) d x : x ∈ dset k v d → x = (k, v) ∨ x ∈ d.
Proof.
  induction d as [ | [k' v'] d IH]; simpl.
  - intros H. apply list_elem_of_singleton in H. by left.
  - destruct (String.eqb k k') eqn:E.
    + apply String.eqb_eq in E. subst k'. intros H.
      apply elem_of_cons in H as [-> | H]; [by left | right].
      apply elem_of_cons. by right.
    + intros H. apply elem_of_cons in H as [-> | H].
      * right. apply elem_of_cons. by left.
      * apply IH in H as [-> | H]; [by left | right]. apply elem_of_cons. by right.
Qed.

Section WiredLive.
Import Wired.
Variable glob_match : string → string → bool.

Lemma holds_file_spec name dir :
  holds_file name dir = true ↔ ∃ c, (name, Regular c) ∈ dir.
Proof.
  unfold holds_file. rewrite existsb_exists. split.
  - intros ([n [c | held]] & Hin & H); apply andb_true_iff in H as [Hn Hc]; try done.
    apply String.eqb_eq in Hn. simpl in Hn. subst n. exists c. by apply list_elem_of_In.
  - intros (c & Hin). exists (name, Regular c). split; [by apply list_elem_of_In | ].
    simpl. by rewrite String.eqb_refl.
Qed.

Lemma holds_file_dget name dir c :
  dget name dir = Some (Regular c) → holds_file name dir = true.
Proof. intros H. apply holds_file_spec. exists c. by apply dget_elem_of. Qed.


Lemma mkdir_dget name dir dir' n :
  mkdir name dir = Ok dir' → n ≠ name → dget n dir' = dget n dir.
Proof.
  intros H Hne. apply mkdir_Ok in H as [(held & _ & ->) | [_ ->]]; [done | ].
  rewrite dget_app. destruct (dget n dir); [done | ]. simpl.
  destruct (String.eqb n name) eqn:E; [ | done]. by apply String.eqb_eq in E.
Qed.

Lemma mkdir_holds name dir dir' n :
  mkdir name dir = Ok dir' → holds_file n dir' = true → holds_file n dir = true.
Proof.
  intros H. apply mkdir_Ok in H as [(held & _ & ->) | [_ ->]]; [done | ].
  rewrite !holds_file_spec. intros (c & Hin). exists c.
  apply elem_of_app in Hin as [Hin | Hin]; [done | ].
  by apply list_elem_of_singleton in Hin.
Qed.

(** One live move: the other entries stay, and no file comes up. *)
Lemma safe_move_live_dget src dest_dir dir dir' n :
  safe_move src dest_dir false dir = Ok dir' →
  n ≠ dest_dir → n ≠ src.1 → dget n dir' = dget n dir.
Proof.
  unfold safe_move. intros H Hd Hsrc. apply bind_Ok in H as (dir1 & Hmk & [= <-]).
  rewrite dget_dset_ne by congruence. rewrite dget_without_ne by done.
  by apply (mkdir_dget _ _ _ _ Hmk).
Qed.

Lemma safe_move_live_holds src dest_dir dir dir' n :
  safe_move src dest_dir false dir = Ok dir' →
  holds_file n dir' = true → holds_file n dir = true.
Proof.
  unfold safe_move. intros H. apply bind_Ok in H as (dir1 & Hmk & [= <-]).
  intros Hn. apply (mkdir_holds _ _ _ _ Hmk).
  apply holds_file_spec in Hn as (c & Hin). apply holds_file_spec. exists c.
  apply elem_of_dset in Hin as [Hin | Hin]; [by injection Hin | ].
  by apply list_elem_of_filter in Hin as [_ Hin].
Qed.





Lemma holds_file_save path data dry_run dir c n :
  dget path dir = Some (Regular c) →
  holds_file n (save_json path data dry_run dir) = true → holds_file n dir = true.
Proof.
  intros Hpath. unfold save_json. destruct dry_run; [done | ].
  rewrite !holds_file_spec. intros (c' & Hin).
  apply elem_of_dset in Hin as [[= -> _] | Hin]; [ | by exists c'].
  exists c. by apply dget_elem_of.
Qed.


Variables out_of_scope_name duplicates_name : string.


End WiredLive.

(** ** A dry run and a live run *)

Section WiredEquivalence.
Import Wired.
Variable glob_match : string → string → bool.
Variables out_of_scope_name duplicates_name : string.





Lemma report_map_Ok (ws : workspace) found report_map :
  report_files glob_match (ws_qa ws) = found →
  foldM add_report found [] = Ok report_map →
  Wired.report_map glob_match ws = report_map.
Proof. unfold Wired.report_map. by intros -> ->. Qed.




End WiredEquivalence.




(** ** What a run does to the records directory *)

Section WiredQuarantine.
Import Wired.
Variable glob_match : string → string → bool.

Lemma only_quarantined_refl o d dir : only_quarantined o d dir dir.
Proof.
  split; [by left | ]. split; [done | ]. split.
  - intros name held H. exists []. rewrite app_nil_r. by repeat split.
  - intros name held H H'. congruence.
Qed.

Lemma holds_file_keys name dir : holds_file name dir = true → dget name dir ≠ None.
Proof.
  intros H. apply holds_file_spec in H as (c & Hin). rewrite dget_None_keys.
  intros Hno. apply Hno. apply list_elem_of_fmap. by exists (name, Regular c).
Qed.

Lemma only_quarantined_trans o d dir1 dir2 dir3 :
  only_quarantined o d dir1 dir2 → only_quarantined o d dir2 dir3 →
  only_quarantined o d dir1 dir3.
Proof.
  intros (Hn & Hf & Hd & Hm) (Hn' & Hf' & Hd' & Hm').
  split; [ | split; [ | split]].
  - intros name H. apply Hn' in H as [H | H]; [by apply Hn | by right].
  - intros name H. by apply Hf, Hf'.
  - intros name held H. apply Hd in H as (m1 & H2 & Hother & Hnd).
    apply Hd' in H2 as (m2 & H3 & Hother' & Hnd').
    exists (m1 ++ m2). rewrite app_assoc. split; [done | ]. split.
    + intros Ho Hdd. by rewrite (Hother Ho Hdd), (Hother' Ho Hdd).
    + intros H. by apply Hnd', Hnd.
  - intros name held H1 H3.
    destruct (dget name dir2) as [[c | held2] | ] eqn:H2.
    + apply holds_file_dget, Hf, holds_file_keys in H2. done.
    + pose proof (Hm name held2 H1 H2) as Hnd2.
      apply Hd' in H2 as (m2 & H3' & _ & Hnd'). rewrite H3 in H3'.
      injection H3' as ->. by apply Hnd'.
    + by apply (Hm' name held).
Qed.

Lemma only_quarantined_one o d name dir dir' :
  name = o ∨ name = d →
  only_quarantined name name dir dir' → only_quarantined o d dir dir'.
Proof.
  intros Hname (Hn & Hf & Hd & Hm). split; [ | split; [done | split; [ | done]]].
  - intros n H. apply Hn in H as [H | [-> | ->]]; [by left | | ];
      right; destruct Hname as [-> | ->]; auto.
  - intros n held H. apply Hd in H as (more & H & Hother & Hnd).
    exists more. split; [done | ]. split; [ | done].
    intros Ho Hdd. apply Hother; intros ->; destruct Hname as [-> | ->]; done.
Qed.

Lemma mkdir_quarantined name dir dir' :
  NoDup (map fst dir) →
  mkdir name dir = Ok dir' →
  NoDup (map fst dir') ∧ only_quarantined name name dir dir'.
Proof.
  intros Hnd H. apply mkdir_Ok in H as [(held & _ & ->) | [Hnone ->]].
  - split; [done | apply only_quarantined_refl].
  - split.
    + rewrite map_app. apply NoDup_app. split; [done | ]. split; [ | apply NoDup_singleton].
      intros x Hx Hx'. apply list_elem_of_singleton in Hx'. simpl in Hx'. subst x.
      by apply dget_None_keys in Hnone.
    + split; [ | split; [ | split]].
      * intros n H. rewrite map_app in H. apply elem_of_app in H as [H | H]; [by left | ].
        apply list_elem_of_singleton in H. by right; left.
      * intros n H. apply (mkdir_holds name dir (dir ++ [(name, Directory [])])); [ | done].
        unfold mkdir. by rewrite Hnone.
      * intros n held H. exists []. rewrite app_nil_r, dget_app, H. by repeat split.
      * intros n held H H'. rewrite dget_app, H in H'. simpl in H'.
        destruct (String.eqb n name); [ | done]. injection H' as <-. apply NoDup_nil_2.
Qed.

Lemma safe_move_quarantined name c dest_dir dir dir' :
  NoDup (map fst dir) →
  dget name dir = Some (Regular c) →
  safe_move (name, c) dest_dir false dir = Ok dir' →
  NoDup (map fst dir') ∧ only_quarantined dest_dir dest_dir dir dir'.
Proof.
  intros Hnd Hsrc H. pose proof H as Hmove. unfold safe_move in H.
  apply bind_Ok in H as (dir1 & Hmk & [= <-]). cbn [fst snd] in *.
  pose proof (mkdir_quarantined _ _ _ Hnd Hmk) as [Hnd1 _].
  set (held := held_by dest_dir dir1).
  set (rest := filter (λ e, e.1 ≠ name) dir1).
  assert (dest_dir ≠ name) as Hne.
  { intros ->. unfold mkdir in Hmk. by rewrite Hsrc in Hmk. }
  assert (NoDup (map fst rest)) as Hnd_rest.
  { unfold rest. rewrite keys_without. by apply NoDup_filter. }
  split; [by apply NoDup_keys_dset | ].
  split; [ | split; [ | split]].
  - intros n H. rewrite keys_dset in H.
    assert (n ∈ map fst rest → n ∈ map fst dir ∨ n = dest_dir) as Hrest.
    { unfold rest. rewrite keys_without. intros Hin.
      apply list_elem_of_filter in Hin as [_ Hin].
      apply mkdir_Ok in Hmk as [(h & _ & ->) | [_ ->]]; [by left | ].
      rewrite map_app in Hin. apply elem_of_app in Hin as [Hin | Hin]; [by left | ].
      apply list_elem_of_singleton in Hin. by right. }
    destruct (bool_decide _).
    + apply Hrest in H as [H | H]; [by left | by right; left].
    + apply elem_of_app in H as [H | H].
      * apply Hrest in H as [H | H]; [by left | by right; left].
      * apply list_elem_of_singleton in H. by right; left.
  - intros n. by apply (safe_move_live_holds _ _ _ _ _ Hmove).
  - intros n h Hn.
    assert (n ≠ name) as Hn_src by (intros ->; congruence).
    destruct (decide (n = dest_dir)) as [-> | Hn_dest].
    + assert (dir1 = dir ∧ held = h) as [-> ->].
      { unfold held. rewrite (mkdir_present _ _ _ Hn) in Hmk. injection Hmk as <-.
        unfold held_by. by rewrite Hn. }
      exists [(destination h name, File c)]. rewrite dget_dset_eq.
      split; [done | ]. split; [done | ]. intros Hh.
      rewrite map_app. apply NoDup_app. split; [done | ]. split; [ | apply NoDup_singleton].
      intros x Hx Hx'. apply list_elem_of_singleton in Hx'. simpl in Hx'. subst x.
      by apply (destination_new h name).
    + exists []. rewrite app_nil_r. rewrite dget_dset_ne by done.
      unfold rest. rewrite dget_without_ne by done.
      rewrite (mkdir_dget _ _ _ _ Hmk Hn_dest). by repeat split.
  - intros n h Hn Hn'.
    assert (n ≠ name) as Hn_src by (intros ->; congruence).
    destruct (decide (n = dest_dir)) as [-> | Hn_dest].
    + rewrite dget_dset_eq in Hn'. injection Hn' as <-.
      assert (held = []) as ->.
      { unfold held, held_by. unfold mkdir in Hmk. rewrite Hn in Hmk. injection Hmk as <-.
        rewrite dget_app, Hn. simpl. by rewrite String.eqb_refl. }
      apply NoDup_singleton.
    + rewrite dget_dset_ne in Hn' by done. unfold rest in Hn'.
      rewrite dget_without_ne in Hn' by done.
      rewrite (mkdir_dget _ _ _ _ Hmk Hn_dest) in Hn'. congruence.
Qed.

Lemma moves_quarantined dest_dir dry_run srcs dir dir' :
  NoDup (map fst srcs) →
  NoDup (map fst dir) →
  (∀ name c, (name, Regular c) ∈ srcs → dget name dir = Some (Regular c)) →
  foldM (move_file dest_dir dry_run) srcs dir = Ok dir' →
  NoDup (map fst dir') ∧ only_quarantined dest_dir dest_dir dir dir'.
Proof.
  revert dir. induction srcs as [ | [name [c | held]] srcs IH]; cbn [foldM map fst];
    intros dir Hsrcs Hnd Hthere H.
  - injection H as <-. split; [done | apply only_quarantined_refl].
  - apply NoDup_cons in Hsrcs as [Hfresh Hsrcs].
    rewrite move_file_regular in H. apply bind_Ok in H as (dir1 & H1 & H).
    assert (dget name dir = Some (Regular c)) as Hsrc.
    { apply Hthere. apply elem_of_cons. by left. }
    assert (NoDup (map fst dir1) ∧ only_quarantined dest_dir dest_dir dir dir1 ∧
            ∀ n, n ≠ dest_dir → n ≠ name → dget n dir1 = dget n dir) as (Hnd1 & Hq1 & Hget1).
    { destruct dry_run.
      - rewrite safe_move_dry in H1.
        destruct (mkdir_quarantined _ _ _ Hnd H1) as [Hn Hq]. split; [done | ].
        split; [done | ]. intros n Hn_dest _. by apply (mkdir_dget _ _ _ _ H1).
      - destruct (safe_move_quarantined _ _ _ _ _ Hnd Hsrc H1) as [Hn Hq]. split; [done | ].
        split; [done | ]. intros n Hn_dest Hn_src.
        by apply (safe_move_live_dget _ _ _ _ _ H1). }
    assert (holds_file dest_dir dir = false) as Hfree.
    { destruct (holds_file dest_dir dir) eqn:E; [ | done]. exfalso.
      apply holds_file_spec in E as (c' & Hin). apply (dget_NoDup _ _ _ Hnd) in Hin.
      assert (∃ dir2, mkdir dest_dir dir = Ok dir2) as (dir2 & Hmk).
      { destruct dry_run; [rewrite safe_move_dry in H1; by eexists | ].
        unfold safe_move in H1. apply bind_Ok in H1 as (dir2 & Hmk & _). by eexists. }
      unfold mkdir in Hmk. by rewrite Hin in Hmk. }
    destruct (IH dir1 Hsrcs Hnd1) as [Hnd' Hq']; [ | done | ].
    + intros n c' Hin.
      assert (dget n dir = Some (Regular c')) as Hn.
      { apply Hthere. apply elem_of_cons. by right. }
      rewrite Hget1; [done | | ].
      * intros ->. apply holds_file_dget in Hn. congruence.
      * intros ->. apply Hfresh. apply list_elem_of_fmap. by exists (name, Regular c').
    + split; [done | ]. by apply (only_quarantined_trans _ _ _ dir1).
  - apply NoDup_cons in Hsrcs as [_ Hsrcs].
    rewrite move_file_directory, bind_Ok_l in H. apply (IH dir Hsrcs Hnd); [ | done].
    intros n c Hin. apply Hthere. apply elem_of_cons. by right.
Qed.

Lemma relocate_quarantined key dest_dir dry_run dir dir' :
  NoDup (map fst dir) →
  relocate glob_match key dest_dir dry_run dir = Ok dir' →
  NoDup (map fst dir') ∧ only_quarantined dest_dir dest_dir dir dir'.
Proof.
  intros Hnd. unfold relocate. apply moves_quarantined; [ | done | ].
  - unfold glob. apply (sublist_NoDup _ (map fst dir)); [done | ].
    apply fmap_sublist, sublist_filter.
  - intros name c Hin. apply list_elem_of_filter in Hin as [_ Hin].
    by apply dget_NoDup.
Qed.

Lemma save_json_quarantined o d path data dry_run dir c :
  NoDup (map fst dir) →
  dget path dir = Some (Regular c) →
  NoDup (map fst (save_json path data dry_run dir)) ∧
  only_quarantined o d dir (save_json path data dry_run dir).
Proof.
  intros Hnd Hpath. unfold save_json. destruct dry_run.
  { split; [done | apply only_quarantined_refl]. }
  assert (map fst (dset path (Regular (Document data)) dir) = map fst dir) as Hkeys.
  { rewrite keys_dset. rewrite bool_decide_eq_true_2; [done | ].
    apply list_elem_of_fmap. exists (path, Regular c). split; [done | by apply dget_elem_of]. }
  split; [by rewrite Hkeys | ].
  split; [ | split; [ | split]].
  - intros n H. left. by rewrite <- Hkeys.
  - intros n. apply (holds_file_save path data false dir c n Hpath).
  - intros n held Hn. exists []. rewrite app_nil_r.
    rewrite dget_dset_ne; [by repeat split | ]. intros ->. congruence.
  - intros n held Hn Hn'. rewrite dget_dset_ne in Hn'; [congruence | ].
    intros ->. congruence.
Qed.

Variables out_of_scope_name duplicates_name : string.

Lemma process_key_quarantined dry_run item b b' :
  NoDup (map fst (ws_records (files b))) →
  process_key glob_match out_of_scope_name duplicates_name dry_run item b = Ok b' →
  ws_qa (files b') = ws_qa (files b) ∧
  NoDup (map fst (ws_records (files b'))) ∧
  only_quarantined out_of_scope_name duplicates_name
    (ws_records (files b)) (ws_records (files b')).
Proof.
  intros Hnd. destruct item as [key [report report_file_path]].
  unfold process_key, find_record_file.
  destruct (bool_decide _); cbv beta iota zeta.
  2: { intros [= <-]. simpl. split; [done | ]. split; [done | apply only_quarantined_refl]. }
  destruct (dget (key +:+ ".json") (ws_records (files b))) as [[[rec | ] | held] | ] eqn:Hfile;
    cbn [from_option id load_json]; [ | | done | done].
  2: { rewrite bind_Ok_l. intros [= <-]. split; [done | ]. split; [done | ].
       apply only_quarantined_refl. }
  rewrite bind_Ok_l.
  destruct (apply_corrections rec report) as [st | e]; [rewrite bind_Ok_l | done].
  set (records1 := if changed st
                   then save_json (key +:+ ".json") (record st) dry_run (ws_records (files b))
                   else ws_records (files b)).
  assert (NoDup (map fst records1) ∧
          only_quarantined out_of_scope_name duplicates_name (ws_records (files b)) records1)
    as [Hnd1 Hq1].
  { unfold records1. destruct (changed st).
    - by apply (save_json_quarantined _ _ _ _ _ _ (Document rec)).
    - split; [done | apply only_quarantined_refl]. }
  intros H. apply bind_Ok in H as (records2 & Hmove & [= <-]). simpl.
  split; [done | ].
  destruct (should_move_out_of_scope report).
  - apply (relocate_quarantined _ _ _ _ _ Hnd1) in Hmove as [Hnd2 Hq2]. split; [done | ].
    apply (only_quarantined_trans _ _ _ records1); [done | ].
    apply (only_quarantined_one _ _ out_of_scope_name); [by left | done].
  - destruct (should_move_duplicate report).
    + apply (relocate_quarantined _ _ _ _ _ Hnd1) in Hmove as [Hnd2 Hq2]. split; [done | ].
      apply (only_quarantined_trans _ _ _ records1); [done | ].
      apply (only_quarantined_one _ _ duplicates_name); [by right | done].
    + by injection Hmove as <-.
Qed.

Lemma process_keys_quarantined dry_run items b b' :
  NoDup (map fst (ws_records (files b))) →
  foldM (process_key glob_match out_of_scope_name duplicates_name dry_run) items b = Ok b' →
  ws_qa (files b') = ws_qa (files b) ∧
  NoDup (map fst (ws_records (files b'))) ∧
  only_quarantined out_of_scope_name duplicates_name
    (ws_records (files b)) (ws_records (files b')).
Proof.
  revert b. induction items as [ | item items IH]; simpl; intros b Hnd H.
  - injection H as <-. split; [done | ]. split; [done | apply only_quarantined_refl].
  - apply bind_Ok in H as (b1 & H1 & H).
    apply (process_key_quarantined _ _ _ _ Hnd) in H1 as (Hq1 & Hnd1 & Ho1).
    apply (IH _ Hnd1) in H as (Hq & Hnd' & Ho).
    split; [congruence | ]. split; [done | ].
    by apply (only_quarantined_trans _ _ _ (ws_records (files b1))).
Qed.

End WiredQuarantine.

(** X5: with the quarantine folders inside the records directory, as
    [main] places them, and keys that are plain names, a run that returns,
    dry or live, leaves the entries of the QA directory other than the
    report file as they were, and the names of the records directory
    distinct; the only names it adds to the records directory are those of
    the two quarantine folders; it adds no file there; it leaves every
    other folder as it was; and what a quarantine folder held is still
    there, in place, the moved files added after it under names that were
    free. *)
Theorem process_only_quarantines glob_match out_of_scope_name duplicates_name dry_run
    (ws ws' : Wired.workspace) :
  Wired.plainly_named glob_match out_of_scope_name duplicates_name ws = true →
  NoDup (map fst (Wired.ws_records ws)) →
  Wired.process glob_match out_of_scope_name duplicates_name dry_run ws = Ok ws' →
  Wired.ws_qa ws' = Wired.ws_qa ws ∧
  NoDup (map fst (Wired.ws_records ws')) ∧
  Wired.only_quarantined out_of_scope_name duplicates_name
    (Wired.ws_records ws) (Wired.ws_records ws').
Proof.
  intros _ Hnd. unfold Wired.process.
  destruct (Wired.report_files glob_match (Wired.ws_qa ws)) as [ | file found].
  - intros [= <-]. split; [done | ]. split; [done | apply only_quarantined_refl].
  - intros H. apply bind_Ok in H as (report_map & _ & H).
    apply bind_Ok in H as (b & Hb & H). apply bind_Ok in H as (report & _ & [= <-]).
    by apply process_keys_quarantined in Hb.
Qed.

Lemma process_only_quarantines_witness :
  ∃ ws', Wired.process wildcard_match "Possible_Out_Of_Scope" "Possible_Duplicates" false
           Wired.sample_workspace = Ok ws' ∧
         Wired.ws_qa ws' = Wired.ws_qa Wired.sample_workspace ∧
         NoDup (map fst (Wired.ws_records ws')) ∧
         Wired.only_quarantined "Possible_Out_Of_Scope" "Possible_Duplicates"
           (Wired.ws_records Wired.sample_workspace) (Wired.ws_records ws') ∧
         map fst (Wired.ws_records ws') = ["2.json"; "attic"; "Possible_Out_Of_Scope"].
Proof.
  destruct (Wired.process wildcard_match "Possible_Out_Of_Scope" "Possible_Duplicates" false
              Wired.sample_workspace) as [ws' | e] eqn:Hrun.
  - exists ws'. split; [reflexivity | ].
    assert (NoDup (map fst (Wired.ws_records Wired.sample_workspace))) as Hnd.
    { apply (bool_decide_unpack _). vm_compute. exact I. }
    destruct (process_only_quarantines wildcard_match "Possible_Out_Of_Scope"
                "Possible_Duplicates" false Wired.sample_workspace ws' eq_refl Hnd Hrun)
      as (Hqa & Hnd' & Hq).
    split; [exact Hqa | ]. split; [exact Hnd' | ]. split; [exact Hq | ].
    vm_compute in Hrun. injection Hrun as <-. reflexivity.
  - vm_compute in Hrun. discriminate Hrun.
Defined.
